(** * SchemaBuilder: a shallow embedding of [src/SchemaBuilder.ts]

    The development follows the layout of the class:

    - JavaScript values (numbers are IEEE-754 binary64, objects are ordered
      key/value lists), with the handful of built-ins the class calls
      ([Number], [Math.floor], [Date.parse], [Date.prototype.toISOString]);
    - the schema constructors and the structural transformations;
    - the validator cache tied to the versioned global configuration;
    - the coercion / parse pipeline;
    - a store model of the same pipeline, used for the frame property of
      [parse]. *)

From Stdlib Require Import ZArith List String Ascii Bool Lia.
From Stdlib Require Import Floats.SpecFloat.
From stdpp Require Import base option list strings pretty.

Local Open Scope string_scope.
Local Open Scope list_scope.

#[local] Set Warnings "-register-all".

(* ===================================================================== *)
(** ** JavaScript values                                                  *)
(* ===================================================================== *)

(** A JS [number] is a binary64 float: [prec = 53], [emax = 1024]. *)
Definition number := spec_float.
Definition prec64 : Z := 53.
Definition emax64 : Z := 1024.

(** The time value of a [Date]: milliseconds since the epoch, or [None]
    for the [NaN] time value of an invalid date. *)
Definition timevalue := option Z.

(** The values the class handles: JSON data, [undefined] and [Date]
    objects.  An object is its list of own enumerable properties in
    enumeration order; keys are unique. *)
Inductive value : Type :=
| VUndefined
| VNull
| VBool (b : bool)
| VNum (n : number)
| VStr (s : string)
| VDate (t : timevalue)
| VArr (xs : list value)
| VObj (fs : list (string * value)).

Section ValueInd.
Variable P : value -> Prop.
Hypothesis Hundef : P VUndefined.
Hypothesis Hnull : P VNull.
Hypothesis Hbool : forall b, P (VBool b).
Hypothesis Hnum : forall n, P (VNum n).
Hypothesis Hstr : forall s, P (VStr s).
Hypothesis Hdate : forall t, P (VDate t).
Hypothesis Harr : forall xs, Forall P xs -> P (VArr xs).
Hypothesis Hobj : forall fs, Forall (fun kv => P (snd kv)) fs -> P (VObj fs).

Fixpoint value_rect' (v : value) : P v :=
  match v with
  | VUndefined => Hundef
  | VNull => Hnull
  | VBool b => Hbool b
  | VNum n => Hnum n
  | VStr s => Hstr s
  | VDate t => Hdate t
  | VArr xs =>
      Harr xs ((fix go (l : list value) : Forall P l :=
                  match l with
                  | [] => List.Forall_nil P
                  | x :: l' => List.Forall_cons P x l' (value_rect' x) (go l')
                  end) xs)
  | VObj fs =>
      Hobj fs ((fix go (l : list (string * value))
                  : Forall (fun kv => P (snd kv)) l :=
                  match l with
                  | [] => List.Forall_nil _
                  | kv :: l' =>
                      List.Forall_cons _ kv l' (value_rect' (snd kv)) (go l')
                  end) fs)
  end.
End ValueInd.

#[global] Instance spec_float_eq_dec : EqDecision spec_float.
Proof. solve_decision. Defined.

Definition string_eqb (a b : string) : bool := bool_decide (a = b).

Fixpoint value_eqb (a b : value) {struct a} : bool :=
  match a, b with
  | VUndefined, VUndefined => true
  | VNull, VNull => true
  | VBool x, VBool y => bool_decide (x = y)
  | VNum x, VNum y => bool_decide (x = y)
  | VStr x, VStr y => string_eqb x y
  | VDate x, VDate y => bool_decide (x = y)
  | VArr xs, VArr ys =>
      (fix go (l1 l2 : list value) : bool :=
         match l1, l2 with
         | [], [] => true
         | x :: l1', y :: l2' => value_eqb x y && go l1' l2'
         | _, _ => false
         end) xs ys
  | VObj fs, VObj gs =>
      (fix go (l1 l2 : list (string * value)) : bool :=
         match l1, l2 with
         | [], [] => true
         | (k1, x) :: l1', (k2, y) :: l2' =>
             string_eqb k1 k2 && value_eqb x y && go l1' l2'
         | _, _ => false
         end) fs gs
  | _, _ => false
  end.

(** *** Property access *)

(** Own-property lookup. *)
Fixpoint lookup_field (k : string) (fs : list (string * value)) : option value :=
  match fs with
  | [] => None
  | (k', v) :: fs' => if string_eqb k k' then Some v else lookup_field k fs'
  end.

(** [obj[k] = v]: overwrite in place, or append a new property as the
    last one.  An object of the program lists the keys that are array
    indices before the others, in ascending order, and takes an
    assignment to [__proto__] for its prototype: this is the assignment
    for every other key. *)
Fixpoint set_field (k : string) (v : value) (fs : list (string * value))
  : list (string * value) :=
  match fs with
  | [] => [(k, v)]
  | (k', v') :: fs' =>
      if string_eqb k k' then (k', v) :: fs' else (k', v') :: set_field k v fs'
  end.

(** [delete obj[k]]. *)
Fixpoint delete_field (k : string) (fs : list (string * value))
  : list (string * value) :=
  match fs with
  | [] => []
  | (k', v') :: fs' =>
      if string_eqb k k' then delete_field k fs' else (k', v') :: delete_field k fs'
  end.

(** [o.k] / [o?.k] among the properties the object holds itself:
    [undefined] when the property is missing or the receiver has no own
    properties.  The program finds a name of [Object.prototype] there
    when the object does not hold it. *)
Definition get (k : string) (o : value) : value :=
  match o with
  | VObj fs => default VUndefined (lookup_field k fs)
  | _ => VUndefined
  end.

(** [k in o] on a plain object, among the properties the object holds
    itself; for the program the names of [Object.prototype] are in
    every object. *)
Definition has_key (k : string) (o : value) : bool :=
  match o with
  | VObj fs => bool_decide (is_Some (lookup_field k fs))
  | _ => false
  end.

(** [o[k] = v] and [delete o[k]] lifted to values. *)
Definition set (k : string) (v : value) (o : value) : value :=
  match o with
  | VObj fs => VObj (set_field k v fs)
  | _ => o
  end.

Definition delete (k : string) (o : value) : value :=
  match o with
  | VObj fs => VObj (delete_field k fs)
  | _ => o
  end.

(** [Object.keys(o)]. *)
Definition keys (o : value) : list string :=
  match o with
  | VObj fs => map fst fs
  | _ => []
  end.

(** [{ ...a, ...b }] on plain objects. *)
Definition spread (a b : value) : value :=
  match b with
  | VObj gs => fold_left (fun acc kv => set (fst kv) (snd kv) acc) gs
                 (match a with VObj _ => a | _ => VObj [] end)
  | _ => match a with VObj _ => a | _ => VObj [] end
  end.

Definition is_nan (n : number) : bool :=
  match n with S754_nan => true | _ => false end.

Definition is_zero (n : number) : bool :=
  match n with S754_zero _ => true | _ => false end.

(** ToBoolean. *)
Definition truthy (v : value) : bool :=
  match v with
  | VUndefined | VNull => false
  | VBool b => b
  | VNum n => negb (is_nan n || is_zero n)
  | VStr s => negb (string_eqb s "")
  | VDate _ | VArr _ | VObj _ => true
  end.

(** [a || b]. *)
Definition por (a b : value) : value := if truthy a then a else b.

Definition is_array (v : value) : bool :=
  match v with VArr _ => true | _ => false end.

Definition is_boolean (v : value) : bool :=
  match v with VBool _ => true | _ => false end.

(** [v === "s"]. *)
Definition is_str (s : string) (v : value) : bool :=
  match v with VStr s' => string_eqb s' s | _ => false end.

(** The string elements of an array value ([string[]] fields). *)
Definition strings_of (v : value) : list string :=
  match v with
  | VArr xs => omap (fun x => match x with VStr s => Some s | _ => None end) xs
  | _ => []
  end.

Definition str_list (l : list string) : value := VArr (map VStr l).

(** [arr.indexOf(s) !== -1] / [arr.includes(s)] for a string [s]. *)
Definition includes_str (s : string) (v : value) : bool :=
  match v with
  | VArr xs => existsb (is_str s) xs
  | _ => false
  end.

(** Array helpers used on [string[]] fields such as [required]. *)
Definition arr_filter (f : value -> bool) (v : value) : value :=
  match v with VArr xs => VArr (filter (fun x => f x = true) xs) | _ => v end.

Definition arr_push (x : value) (v : value) : value :=
  match v with VArr xs => VArr (xs ++ [x]) | _ => v end.

Definition arr_length (v : value) : nat :=
  match v with VArr xs => length xs | _ => 0 end.

(* ===================================================================== *)
(** ** Errors and results                                                 *)
(* ===================================================================== *)

(** One violation reported by the validation engine. *)
Record ErrorObject := { instancePath : string; message : string }.

(** Every failure is a [VError]; the constructors name the throw sites:
    the shape guards of the transformations, the [$ref] check of the
    constructor, [validationError], and errors raised by a built-in. *)
Inductive VError :=
| ShapeError (msg : string)
| ConstructionError (msg : string)
| ValidationError (msg : string) (ajvErrors : list ErrorObject)
| JSError (name : string).

Inductive result (A : Type) :=
| Ok (a : A)
| Throw (e : VError).
Arguments Ok {A} a.
Arguments Throw {A} e.

Definition bind {A B} (r : result A) (k : A -> result B) : result B :=
  match r with
  | Ok a => k a
  | Throw e => Throw e
  end.

#[global] Instance result_ret : MRet result := fun A a => Ok a.
#[global] Instance result_bind : MBind result := fun A B k r => bind r k.

Definition is_ok {A} (r : result A) : bool :=
  match r with Ok _ => true | Throw _ => false end.

Definition is_shape_error {A} (r : result A) : bool :=
  match r with Throw (ShapeError _) => true | _ => false end.

Definition is_validation_error {A} (r : result A) : bool :=
  match r with Throw (ValidationError _ _) => true | _ => false end.

(* ===================================================================== *)
(** ** Helpers imported from [utils]                                      *)
(* ===================================================================== *)

(** Modelled from the spec: [cloneJSON] of [utils] is not among the
    sources.  The spec has child documents owned by value, deep-copied on
    every transformation; the copy rebuilds every array and object. *)
Fixpoint cloneJSON (v : value) : value :=
  match v with
  | VArr xs => VArr (map cloneJSON xs)
  | VObj fs => VObj (map (fun kv => (fst kv, cloneJSON (snd kv))) fs)
  | _ => v
  end.

(** Modelled from the spec: [setRequired] of [utils] is not among the
    sources.  The spec has [required] omitted entirely, never an empty
    list, when empty; the call site says "delete required array if
    empty". *)
Definition setRequired (schema : value) (required : value) : value :=
  match required with
  | VArr (_ :: _) => set "required" required schema
  | _ => delete "required" schema
  end.

(** The keywords whose value is one sub-schema, a list of sub-schemas, or
    a map from names to sub-schemas. *)
Definition subschema_keywords : list string :=
  ["items"; "not"; "additionalProperties"; "oneOf"; "allOf"; "anyOf"].
Definition subschema_map_keywords : list string :=
  ["properties"; "patternProperties"].

(** Modelled from the spec: [throughJsonSchema] of [utils] is not among
    the sources; the constructor uses it to reject a document that
    contains a reference keyword.  [containsRef s] holds when the node
    [s], or a node below it through a sub-schema keyword, has a [$ref]
    key. *)
Fixpoint containsRef (s : value) : bool :=
  match s with
  | VArr xs => existsb containsRef xs
  | VObj fs =>
      bool_decide (is_Some (lookup_field "$ref" fs))
      || existsb (fun kv =>
            (bool_decide (fst kv ∈ subschema_keywords) && containsRef (snd kv))
            || (bool_decide (fst kv ∈ subschema_map_keywords)
                && match snd kv with
                   | VObj ps => existsb (fun p => containsRef (snd p)) ps
                   | _ => false
                   end)) fs
  | _ => false
  end.

(* ===================================================================== *)
(** ** The validation engine, as the class sees it                        *)
(* ===================================================================== *)

(** An [Ajv] instance is the options it was created with and the
    registrations made on it, in call order. *)
Inductive AjvCall :=
| AddFormat (name : string) (validate : string -> bool)
| AddFormats
| AddSchema (schema : value) (key : string).

Record Ajv := { ajv_options : value; ajv_calls : list AjvCall }.

Definition new_Ajv (options : value) : Ajv :=
  {| ajv_options := options; ajv_calls := [] |}.

Definition ajv_call (c : AjvCall) (a : Ajv) : Ajv :=
  {| ajv_options := ajv_options a; ajv_calls := ajv_calls a ++ [c] |}.

(** A compiled validate function: the violations found in the data, none
    when the data is valid. *)
Definition ValidateFunction := value -> list ErrorObject.

(* ===================================================================== *)
(** ** The class                                                          *)
(* ===================================================================== *)

(** The static fields. *)
Record Global := {
  globalAJVConfig : value;
  globalAJVConfigVersionNumber : N;
}.

(** An instance: the schema, the local validation configuration
    ([undefined] when absent) and the cache fields. *)
Record SchemaBuilder := {
  schemaObject : value;
  validationConfig : value;
  localValidationFunctionVersionNumber : N;
  localListValidationFunctionVersionNumber : N;
  ajv : option Ajv;
  validationFunction : option ValidateFunction;
  ajvList : option Ajv;
  listValidationFunction : option ValidateFunction;
}.

Definition initialGlobal : Global :=
  {| globalAJVConfig :=
       VObj [("coerceTypes", VBool false); ("removeAdditional", VBool false);
             ("useDefaults", VBool true); ("strict", VBool false);
             ("allErrors", VBool true)];
     globalAJVConfigVersionNumber := 0 |}.

(** [setGlobalValidationConfig]. The counter is a JS number; it is
    modelled as a natural number, which is exact for every count below
    [2^53]. *)
Definition setGlobalValidationConfig (config : value) (g : Global) : Global :=
  {| globalAJVConfig := spread (globalAJVConfig g) config;
     globalAJVConfigVersionNumber := (globalAJVConfigVersionNumber g + 1)%N |}.

(** An instance as the constructor leaves it: nothing cached yet. *)
Definition fresh (schemaObject validationConfig : value) : SchemaBuilder :=
  {| schemaObject := schemaObject;
     validationConfig := validationConfig;
     localValidationFunctionVersionNumber := 0;
     localListValidationFunctionVersionNumber := 0;
     ajv := None; validationFunction := None;
     ajvList := None; listValidationFunction := None |}.

(** The constructor. *)
Definition new_SchemaBuilder (schemaObject validationConfig : value)
  : result SchemaBuilder :=
  if containsRef schemaObject then
    Throw (ConstructionError
      "Schema Builder Error: $ref can't be used to initialize a SchemaBuilder. Dereferenced the schema first.")
  else Ok (fresh schemaObject validationConfig).

Definition fromJsonSchema (schema validationConfig : value) : result SchemaBuilder :=
  new_SchemaBuilder schema validationConfig.

(** [nullable ? [t, "null"] : t]. *)
Definition type_of (t : string) (nullable : bool) : value :=
  if nullable then VArr [VStr t; VStr "null"] else VStr t.

Definition emptySchema (schema : value) (nullable : bool) : result SchemaBuilder :=
  let s := set "additionalProperties" (VBool false)
             (set "type" (type_of "object" nullable)
                (spread (VObj []) (cloneJSON schema))) in
  new_SchemaBuilder s VUndefined.

Definition stringSchema (schema : value) (nullable : bool) : result SchemaBuilder :=
  new_SchemaBuilder
    (set "type" (type_of "string" nullable) (spread (VObj []) (cloneJSON schema)))
    VUndefined.

Definition numberSchema (schema : value) (nullable : bool) : result SchemaBuilder :=
  new_SchemaBuilder
    (set "type" (type_of "number" nullable) (spread (VObj []) (cloneJSON schema)))
    VUndefined.


Definition booleanSchema (schema : value) (nullable : bool) : result SchemaBuilder :=
  new_SchemaBuilder
    (set "type" (type_of "boolean" nullable) (spread (VObj []) (cloneJSON schema)))
    VUndefined.

Definition arraySchema (items : SchemaBuilder) (schema : value) (nullable : bool)
  : result SchemaBuilder :=
  new_SchemaBuilder
    (set "items" (cloneJSON (schemaObject items))
       (set "type" (type_of "array" nullable) (spread (VObj []) (cloneJSON schema))))
    VUndefined.

Definition dateSchema (schema : value) (nullable : bool) : result SchemaBuilder :=
  new_SchemaBuilder
    (set "format" (VStr "date-time")
       (set "type" (type_of "string" nullable) (spread (VObj []) (cloneJSON schema))))
    VUndefined.

Definition anyOf (schemaBuilders : list SchemaBuilder) : result SchemaBuilder :=
  new_SchemaBuilder
    (VObj [("anyOf", VArr (map (fun b => cloneJSON (schemaObject b)) schemaBuilders))])
    VUndefined.

(** *** Shape tests *)

Definition hasType (t : string) (sb : SchemaBuilder) : bool :=
  let ty := get "type" (schemaObject sb) in
  if is_array ty then includes_str t ty else is_str t ty.

Definition isObjectSchema (sb : SchemaBuilder) : bool :=
  hasType "object" sb
  || (negb (has_key "type" (schemaObject sb)) && has_key "properties" (schemaObject sb)).

Definition isArraySchema (sb : SchemaBuilder) : bool :=
  hasType "array" sb
  || (negb (has_key "type" (schemaObject sb)) && has_key "items" (schemaObject sb)).

(** [additionalProperties !== false]. *)
Definition hasAdditionalProperties (sb : SchemaBuilder) : bool :=
  isObjectSchema sb
  && negb (value_eqb (get "additionalProperties" (schemaObject sb)) (VBool false)).

Definition hasSchemasCombinationKeywords (sb : SchemaBuilder) : bool :=
  has_key "oneOf" (schemaObject sb) || has_key "allOf" (schemaObject sb)
  || has_key "anyOf" (schemaObject sb) || has_key "not" (schemaObject sb).

Definition isSimpleObjectSchema (sb : SchemaBuilder) : bool :=
  isObjectSchema sb && negb (hasAdditionalProperties sb)
  && negb (hasSchemasCombinationKeywords sb).

(** [schemaObject.title || "this"], inside a message. *)
Definition title_or_this (s : value) : string :=
  match por (get "title" s) (VStr "this") with
  | VStr t => t
  | _ => "this"
  end.

Definition simple_object_msg (op : string) : string :=
  "Schema Builder Error: '" ++ op ++
  "' can only be used with a simple object schema (no additionalProperties, oneOf, anyOf, allOf or not)".

(** *** Structural transformations *)

(** [schemaObject.properties = schemaObject.properties || {}]. *)
Definition ensure_properties (s : value) : value :=
  set "properties" (por (get "properties" s) (VObj [])) s.

(** [schemaObject.required = schemaObject.required || []; required.push(name)]. *)
Definition push_required (name : string) (s : value) : value :=
  set "required" (arr_push (VStr name) (por (get "required" s) (VArr []))) s.

(** [_.difference(required ?? [], properties)]. *)
Definition difference (required : value) (properties : list string) : value :=
  match required with
  | VArr xs =>
      VArr (filter (fun r => existsb (fun p => is_str p r) properties = false) xs)
  | _ => VArr []
  end.

(** The loop body of [setOptionalProperties]: drop the [default] of one
    property. *)
Definition clear_default (s : value) (optionalProperty : string) : value :=
  let property := get optionalProperty (get "properties" s) in
  if truthy property && negb (is_boolean property) then
    set "properties"
      (set optionalProperty (delete "default" property) (get "properties" s)) s
  else s.

Definition setOptionalProperties (properties : list string) (this : SchemaBuilder)
  : result SchemaBuilder :=
  if negb (isSimpleObjectSchema this) then
    Throw (ShapeError (simple_object_msg "setOptionalProperties"))
  else
    let schemaObject0 := cloneJSON (schemaObject this) in
    let required := difference (get "required" schemaObject0) properties in
    let schemaObject1 := fold_left clear_default properties schemaObject0 in
    new_SchemaBuilder (setRequired schemaObject1 required) (validationConfig this).

(** The loop body of [setRequiredProperties]. *)
Definition require_one (s : value) (property : string) : value :=
  let s' := set "required" (por (get "required" s) (VArr [])) s in
  if negb (includes_str property (get "required" s')) then
    set "required" (arr_push (VStr property) (get "required" s')) s'
  else s'.

Definition setRequiredProperties (properties : list string) (this : SchemaBuilder)
  : result SchemaBuilder :=
  if negb (isSimpleObjectSchema this) then
    Throw (ShapeError (simple_object_msg "setRequiredProperties"))
  else
    new_SchemaBuilder (fold_left require_one properties (cloneJSON (schemaObject this)))
      (validationConfig this).

Definition toOptionals (this : SchemaBuilder) : result SchemaBuilder :=
  let s := delete "required" (cloneJSON (schemaObject this)) in
  let s' :=
    match get "properties" s with
    | VObj ps =>
        set "properties" (VObj (map (fun kv => (fst kv, delete "default" (snd kv))) ps)) s
    | _ => s
    end in
  new_SchemaBuilder s' (validationConfig this).

Definition addProperty (propertyName : string) (schemaBuilder : SchemaBuilder)
    (isRequired : option bool) (this : SchemaBuilder) : result SchemaBuilder :=
  if negb (isObjectSchema this) then
    Throw (ShapeError "Schema Builder Error: you can only add properties to an object schema")
  else
    let s0 := ensure_properties (cloneJSON (schemaObject this)) in
    if has_key propertyName (get "properties" s0) then
      Throw (ShapeError ("Schema Builder Error: '" ++ propertyName ++
                         "' already exists in " ++ title_or_this s0 ++ " schema"))
    else
      let s1 := set "properties"
                  (set propertyName (cloneJSON (schemaObject schemaBuilder))
                     (get "properties" s0)) s0 in
      let s2 := match isRequired with
                | Some true | None => push_required propertyName s1
                | Some false => s1
                end in
      new_SchemaBuilder s2 (validationConfig this).

Definition getSubschema (propertyName : string) (this : SchemaBuilder)
  : result SchemaBuilder :=
  if negb (isSimpleObjectSchema this) || negb (truthy (schemaObject this))
     || is_boolean (schemaObject this)
     || negb (truthy (get "properties" (schemaObject this))) then
    Throw (ShapeError (simple_object_msg "getSubschema"))
  else
    new_SchemaBuilder (get propertyName (get "properties" (schemaObject this))) VUndefined.

(** The second argument of [replaceProperty]: a builder, or a function of
    the current sub-schema's builder. *)
Inductive Resolver :=
| ResolveTo (schemaBuilder : SchemaBuilder)
| ResolveWith (f : SchemaBuilder -> result SchemaBuilder).

Definition replaceProperty (propertyName : string) (schemaBuilderResolver : Resolver)
    (isRequired : option bool) (this : SchemaBuilder) : result SchemaBuilder :=
  if negb (isObjectSchema this) then
    Throw (ShapeError "Schema Builder Error: you can only replace properties of an object schema")
  else
    let s0 := ensure_properties (cloneJSON (schemaObject this)) in
    let s1 := if truthy (get "required" s0) then
                set "required"
                  (arr_filter (fun p => negb (is_str propertyName p)) (get "required" s0)) s0
              else s0 in
    schemaBuilder ← match schemaBuilderResolver with
                    | ResolveTo b => Ok b
                    | ResolveWith f => sub ← getSubschema propertyName this; f sub
                    end;
    let s2 := set "properties"
                (set propertyName (cloneJSON (schemaObject schemaBuilder))
                   (get "properties" s1)) s1 in
    let s3 := match isRequired with
              | Some true | None => push_required propertyName s2
              | Some false => s2
              end in
    new_SchemaBuilder s3 (validationConfig this).

Definition addOrReplaceProperty (propertyName : string) (schemaBuilder : SchemaBuilder)
    (isRequired : option bool) (this : SchemaBuilder) : result SchemaBuilder :=
  replaceProperty propertyName (ResolveTo schemaBuilder) isRequired this.


Definition addString (propertyName : string) (schema : value)
    (isRequired : option bool) (nullable : bool) (this : SchemaBuilder) :=
  b ← stringSchema schema nullable; addProperty propertyName b isRequired this.

Definition addNumber (propertyName : string) (schema : value)
    (isRequired : option bool) (nullable : bool) (this : SchemaBuilder) :=
  b ← numberSchema schema nullable; addProperty propertyName b isRequired this.


Definition addBoolean (propertyName : string) (schema : value)
    (isRequired : option bool) (nullable : bool) (this : SchemaBuilder) :=
  b ← booleanSchema schema nullable; addProperty propertyName b isRequired this.

Definition addDate (propertyName : string) (schema : value)
    (isRequired : option bool) (nullable : bool) (this : SchemaBuilder) :=
  b ← dateSchema schema nullable; addProperty propertyName b isRequired this.

(** [arr.splice(arr.indexOf(name), 1)]: remove the first occurrence. *)
Fixpoint remove_first (name : string) (xs : list value) : list value :=
  match xs with
  | [] => []
  | x :: xs' => if is_str name x then xs' else x :: remove_first name xs'
  end.

Definition renameProperty (propertyName newPropertyName : string)
    (this : SchemaBuilder) : result SchemaBuilder :=
  if negb (isSimpleObjectSchema this) then
    Throw (ShapeError (simple_object_msg "renameProperty"))
  else
    let s0 := ensure_properties (cloneJSON (schemaObject this)) in
    let s2 :=
      if has_key propertyName (get "properties" s0) then
        let props := get "properties" s0 in
        let props' := delete propertyName
                        (set newPropertyName (get propertyName props) props) in
        let s1 := set "properties" props' s0 in
        if truthy (get "required" s1) && includes_str propertyName (get "required" s1)
        then
          match get "required" s1 with
          | VArr xs =>
              set "required" (VArr (remove_first propertyName xs ++ [VStr newPropertyName])) s1
          | _ => s1
          end
        else s1
      else s0 in
    new_SchemaBuilder s2 (validationConfig this).

(** The body of [pickProperties] after the shape guard. *)
Definition pick_schema (properties : list string) (s : value) : value :=
  let s0 := ensure_properties s in
  let propertiesMap :=
    fold_left (fun m property => set property (get property (get "properties" s0)) m)
      properties (VObj []) in
  let s1 := set "properties" propertiesMap s0 in
  let s2 := if truthy (get "required" s1) then
              set "required"
                (arr_filter (fun r => existsb (fun p => is_str p r) properties)
                   (get "required" s1)) s1
            else s1 in
  let s3 := if is_array (get "required" s2) && (arr_length (get "required" s2) =? 0)%nat
            then delete "required" s2 else s2 in
  set "additionalProperties" (VBool false) s3.

Definition pickProperties (properties : list string) (this : SchemaBuilder)
  : result SchemaBuilder :=
  if negb (isObjectSchema this) || hasSchemasCombinationKeywords this then
    Throw (ShapeError
      "Schema Builder Error: 'pickProperties' can only be used with a simple object schema (no oneOf, anyOf, allOf or not)")
  else
    new_SchemaBuilder (pick_schema properties (cloneJSON (schemaObject this)))
      (validationConfig this).

Definition omitProperties (properties : list string) (this : SchemaBuilder)
  : result SchemaBuilder :=
  if negb (isSimpleObjectSchema this) then
    Throw (ShapeError (simple_object_msg "omitProperties"))
  else
    let p := filter (fun k => existsb (string_eqb k) properties = false)
               (keys (por (get "properties" (schemaObject this)) (VObj []))) in
    pickProperties p this.

(** [required && required.indexOf(key) !== -1]. *)
Definition requires (key : string) (s : value) : bool :=
  truthy (get "required" s) && includes_str key (get "required" s).

(** [schemaObject1.properties[key] = v]. *)
Definition set_property (key : string) (v : value) (s : value) : value :=
  set "properties" (set key v (get "properties" s)) s.

(** [required = required.filter(p => p !== key)]. *)
Definition unrequire (key : string) (s : value) : value :=
  set "required" (arr_filter (fun p => negb (is_str key p)) (get "required" s)) s.

(** The loop body of [intersectProperties] for one key of the other schema. *)
Definition intersect_step (s2 : value) (s1 : value) (propertyKey : string) : value :=
  let p2 := get propertyKey (get "properties" s2) in
  if negb (has_key propertyKey (get "properties" s1)) then
    let s1' := set_property propertyKey p2 s1 in
    if requires propertyKey s2 then push_required propertyKey s1' else s1'
  else
    let s1' := set_property propertyKey
                 (VObj [("allOf", VArr [get propertyKey (get "properties" s1); p2])]) s1 in
    if requires propertyKey s2
       && (negb (truthy (get "required" s1')) || negb (includes_str propertyKey (get "required" s1')))
    then push_required propertyKey s1' else s1'.

(** The loop body of [mergeProperties]. *)
Definition merge_step (s2 : value) (s1 : value) (propertyKey : string) : value :=
  let p2 := get propertyKey (get "properties" s2) in
  if negb (has_key propertyKey (get "properties" s1)) then
    let s1' := set_property propertyKey p2 s1 in
    if requires propertyKey s2 then push_required propertyKey s1' else s1'
  else
    let s1' := set_property propertyKey
                 (VObj [("anyOf", VArr [get propertyKey (get "properties" s1); p2])]) s1 in
    if requires propertyKey s1'
       && (negb (truthy (get "required" s2)) || negb (includes_str propertyKey (get "required" s2)))
    then unrequire propertyKey s1' else s1'.

(** The loop body of [overwriteProperties]. *)
Definition overwrite_step (s2 : value) (s1 : value) (propertyKey : string) : value :=
  let p2 := get propertyKey (get "properties" s2) in
  if negb (has_key propertyKey (get "properties" s1)) then
    let s1' := set_property propertyKey p2 s1 in
    if requires propertyKey s2 then push_required propertyKey s1' else s1'
  else
    let s1' := set_property propertyKey p2 s1 in
    let s1'' := if requires propertyKey s1' then unrequire propertyKey s1' else s1' in
    if requires propertyKey s2 then push_required propertyKey s1'' else s1''.

(** The common frame of the three: clone both schemas and run the loop
    over the other schema's property names, if it has properties. *)
Definition combine_schemas (step : value -> value -> string -> value)
    (o1 o2 : value) : value :=
  let schemaObject1 := cloneJSON o1 in
  let schemaObject2 := cloneJSON o2 in
  if truthy (get "properties" schemaObject2) then
    fold_left (step schemaObject2) (keys (get "properties" schemaObject2))
      (ensure_properties schemaObject1)
  else schemaObject1.

Definition intersectProperties (schema : SchemaBuilder) (this : SchemaBuilder)
  : result SchemaBuilder :=
  if negb (isSimpleObjectSchema this) then
    Throw (ShapeError (simple_object_msg "intersectProperties"))
  else
    new_SchemaBuilder
      (combine_schemas intersect_step (schemaObject this) (schemaObject schema))
      (validationConfig this).

Definition mergeProperties (schema : SchemaBuilder) (this : SchemaBuilder)
  : result SchemaBuilder :=
  if negb (isSimpleObjectSchema this) then
    Throw (ShapeError (simple_object_msg "mergeProperties"))
  else
    new_SchemaBuilder
      (combine_schemas merge_step (schemaObject this) (schemaObject schema))
      (validationConfig this).

Definition overwriteProperties (schema : SchemaBuilder) (this : SchemaBuilder)
  : result SchemaBuilder :=
  if negb (isSimpleObjectSchema this) then
    Throw (ShapeError (simple_object_msg "overwriteProperties"))
  else
    new_SchemaBuilder
      (combine_schemas overwrite_step (schemaObject this) (schemaObject schema))
      (validationConfig this).

(** [requiredProperties] and [properties] getters. *)
Definition properties (this : SchemaBuilder) : option (list string) :=
  if isObjectSchema this && negb (hasSchemasCombinationKeywords this) then
    Some (keys (por (get "properties" (schemaObject this)) (VObj [])))
  else None.

Definition requiredProperties (this : SchemaBuilder) : option (list string) :=
  if isObjectSchema this && negb (hasSchemasCombinationKeywords this) then
    Some (if truthy (get "required" (schemaObject this))
          then strings_of (get "required" (schemaObject this)) else [])
  else None.

(* ===================================================================== *)
(** ** Built-ins: numbers                                                 *)
(* ===================================================================== *)

(** The binary64 value nearest to [(-1)^neg * m * 10^e10], ties to even. *)
Definition of_decimal (neg : bool) (m : Z) (e10 : Z) : number :=
  if (m <=? 0)%Z then S754_zero neg
  else if (0 <=? e10)%Z then
    binary_normalize prec64 emax64 (cond_Zopp neg (m * 10 ^ e10)) 0 neg
  else
    SFdiv prec64 emax64 (S754_finite neg (Z.to_pos m) 0)
      (S754_finite false (Z.to_pos (10 ^ (- e10))) 0).

Definition of_Z (z : Z) : number := binary_normalize prec64 emax64 z 0 false.

(** [Math.floor]. *)
Definition Math_floor (x : number) : number :=
  match x with
  | S754_finite s m e =>
      if (0 <=? e)%Z then x
      else
        let q := Z.shiftr (Zpos m) (- e) in
        if s then
          let c := if (Z.shiftl q (- e) =? Zpos m)%Z then q else (q + 1)%Z in
          binary_normalize prec64 emax64 (- c) 0 true
        else binary_normalize prec64 emax64 q 0 false
  | _ => x
  end.

(** [Math.trunc]: rounding toward zero. *)
Definition Math_trunc (x : number) : number :=
  match x with
  | S754_finite s m e =>
      if (0 <=? e)%Z then x
      else binary_normalize prec64 emax64 (cond_Zopp s (Z.shiftr (Zpos m) (- e))) 0 s
  | _ => x
  end.

(** [Number.isInteger]. *)
Definition Number_isInteger (x : number) : bool :=
  match x with
  | S754_zero _ => true
  | S754_finite _ m e =>
      (0 <=? e)%Z || (Z.shiftl (Z.shiftr (Zpos m) (- e)) (- e) =? Zpos m)%Z
  | _ => false
  end.

Definition Number_isFinite (x : number) : bool :=
  match x with
  | S754_zero _ | S754_finite _ _ _ => true
  | _ => false
  end.

(** *** [Number(string)]

    Strings are sequences of 8-bit characters here, so of the white space
    the conversion strips only the ASCII part is modelled. *)

Definition is_ws (c : ascii) : bool :=
  let n := nat_of_ascii c in
  ((9 <=? n) && (n <=? 13))%nat || (n =? 32)%nat.

Definition digit_of (radix : Z) (c : ascii) : option Z :=
  let n := Z.of_nat (nat_of_ascii c) in
  let d := if ((48 <=? n) && (n <=? 57))%Z then Some (n - 48)%Z
           else if ((97 <=? n) && (n <=? 102))%Z then Some (n - 87)%Z
           else if ((65 <=? n) && (n <=? 70))%Z then Some (n - 55)%Z
           else None in
  match d with
  | Some k => if (k <? radix)%Z then Some k else None
  | None => None
  end.

(** Read a maximal run of digits: the accumulated value, the number of
    digits read and the rest of the input. *)
Fixpoint read_digits (radix : Z) (acc : Z) (count : Z) (s : list ascii)
  : Z * Z * list ascii :=
  match s with
  | c :: s' =>
      match digit_of radix c with
      | Some d => read_digits radix (acc * radix + d)%Z (count + 1)%Z s'
      | None => (acc, count, s)
      end
  | [] => (acc, count, s)
  end.

Fixpoint drop_ws (s : list ascii) : list ascii :=
  match s with
  | c :: s' => if is_ws c then drop_ws s' else s
  | [] => []
  end.

(** Strip white space at both ends. *)
Definition trim (s : list ascii) : list ascii :=
  rev (drop_ws (rev (drop_ws s))).

Definition is_char (c : ascii) (n : nat) : bool := (nat_of_ascii c =? n)%nat.

(** An optional sign. *)
Definition read_sign (s : list ascii) : bool * list ascii :=
  match s with
  | c :: s' =>
      if is_char c 45 then (true, s')
      else if is_char c 43 then (false, s')
      else (false, s)
  | [] => (false, s)
  end.

(** The optional exponent part that must end the literal. *)
Definition read_exponent (s : list ascii) : option Z :=
  match s with
  | [] => Some 0%Z
  | c :: s' =>
      if is_char c 101 || is_char c 69 then
        let '(neg, s1) := read_sign s' in
        match read_digits 10 0 0 s1 with
        | (e, n, []) => if (0 <? n)%Z then Some (cond_Zopp neg e) else None
        | _ => None
        end
      else None
  end.

(** [StrDecimalLiteral]. *)
Definition decimal_literal (s : list ascii) : number :=
  let '(neg, s1) := read_sign s in
  if bool_decide (s1 = list_ascii_of_string "Infinity") then S754_infinity neg
  else
    let '(ip, ni, s2) := read_digits 10 0 0 s1 in
    let '(m, nf, s3) :=
      match s2 with
      | c :: s2' => if is_char c 46 then read_digits 10 ip 0 s2' else (ip, 0%Z, s2)
      | [] => (ip, 0%Z, s2)
      end in
    if (ni + nf =? 0)%Z then S754_nan
    else
      match read_exponent s3 with
      | Some e => of_decimal neg m (e - nf)
      | None => S754_nan
      end.

(** [0x], [0o] and [0b] literals. *)
Definition radix_literal (s : list ascii) : option number :=
  match s with
  | z :: p :: s' =>
      if is_char z 48 then
        let radix :=
          if is_char p 120 || is_char p 88 then Some 16%Z
          else if is_char p 111 || is_char p 79 then Some 8%Z
          else if is_char p 98 || is_char p 66 then Some 2%Z
          else None in
        match radix with
        | Some r =>
            match read_digits r 0 0 s' with
            | (v, n, []) => Some (if (0 <? n)%Z then of_Z v else S754_nan)
            | _ => Some S754_nan
            end
        | None => None
        end
      else None
  | _ => None
  end.

(** [Number(s)] for a string [s]. *)
Definition Number (s : string) : number :=
  let t := trim (list_ascii_of_string s) in
  match t with
  | [] => S754_zero false
  | _ => match radix_literal t with
         | Some n => n
         | None => decimal_literal t
         end
  end.

(* ===================================================================== *)
(** ** Built-ins: dates                                                   *)
(* ===================================================================== *)

Local Open Scope Z_scope.

(** Days from 1970-01-01 to the given civil date (proleptic Gregorian). *)
Definition days_from_civil (y m d : Z) : Z :=
  let y' := if m <=? 2 then y - 1 else y in
  let era := y' / 400 in
  let yoe := y' - era * 400 in
  let mp := (m + 9) mod 12 in
  let doy := (153 * mp + 2) / 5 + d - 1 in
  let doe := yoe * 365 + yoe / 4 - yoe / 100 + doy in
  era * 146097 + doe - 719468.

(** The civil date of a day number. *)
Definition civil_from_days (z : Z) : Z * Z * Z :=
  let z' := z + 719468 in
  let era := z' / 146097 in
  let doe := z' - era * 146097 in
  let yoe := (doe - doe / 1460 + doe / 36524 - doe / 146096) / 365 in
  let doy := doe - (365 * yoe + yoe / 4 - yoe / 100) in
  let mp := (5 * doy + 2) / 153 in
  let d := doy - (153 * mp + 2) / 5 + 1 in
  let m := if mp <? 10 then mp + 3 else mp - 9 in
  let y := yoe + era * 400 in
  (if m <=? 2 then y + 1 else y, m, d).

Definition msPerDay : Z := 86400000.

(** TimeClip: the range of valid time values. *)
Definition time_clip (t : Z) : timevalue :=
  if Z.abs t <=? 8640000000000000 then Some t else None.

(** Exactly [n] decimal digits, as a number. *)
Fixpoint read_fixed (n : nat) (acc : Z) (s : list ascii) : option (Z * list ascii) :=
  match n with
  | O => Some (acc, s)
  | S n' =>
      match s with
      | c :: s' =>
          match digit_of 10 c with
          | Some d => read_fixed n' (acc * 10 + d) s'
          | None => None
          end
      | [] => None
      end
  end.

(** One given character. *)
Definition expect (n : nat) (s : list ascii) : option (list ascii) :=
  match s with
  | c :: s' => if is_char c n then Some s' else None
  | [] => None
  end.

(** The optional fraction of the seconds, cut to milliseconds. *)
Definition read_millis (s : list ascii) : option (Z * list ascii) :=
  match s with
  | c :: s' =>
      if is_char c 46 then
        match read_digits 10 0 0 s' with
        | (f, n, rest) =>
            if n =? 0 then None
            else Some (if n <=? 3 then f * 10 ^ (3 - n) else f / 10 ^ (n - 3), rest)
        end
      else Some (0, s)
  | [] => Some (0, s)
  end.

(** The UTC offset, in minutes: [Z] or [+HH:mm] or [-HH:mm], ending the
    string. *)
Definition read_offset (s : list ascii) : option Z :=
  match s with
  | [c] => if is_char c 90 then Some 0 else None
  | c :: s' =>
      if is_char c 43 || is_char c 45 then
        '(h, s1) ← read_fixed 2 0 s';
        s2 ← expect 58 s1;
        '(m, s3) ← read_fixed 2 0 s2;
        match s3 with
        | [] => if (h <=? 23) && (m <=? 59)
                then Some (if is_char c 45 then - (h * 60 + m) else h * 60 + m)
                else None
        | _ => None
        end
      else None
  | [] => None
  end.

(** [Date.parse] on the date-time form
    [YYYY-MM-DDTHH:mm:ss(.s+)?(Z|+HH:mm|-HH:mm)] and on the date-only form
    [YYYY-MM-DD].  The day is any of 01 to 31: a day past the end of its
    month runs into the next one, as the engine of Node has it (February
    30 is March 2).  What an engine makes of any other string is
    implementation-defined; such a string is given the [NaN] time value
    here. *)
Definition Date_parse (str : string) : timevalue :=
  let s := list_ascii_of_string str in
  '(y, s1) ← read_fixed 4 0 s;
  s2 ← expect 45 s1;
  '(mo, s3) ← read_fixed 2 0 s2;
  s4 ← expect 45 s3;
  '(d, s5) ← read_fixed 2 0 s4;
  if negb ((1 <=? mo) && (mo <=? 12) && (1 <=? d) && (d <=? 31))
  then None
  else
    let day := days_from_civil y mo d in
    match s5 with
    | [] => time_clip (day * msPerDay)
    | _ =>
        s6 ← expect 84 s5;
        '(h, s7) ← read_fixed 2 0 s6;
        s8 ← expect 58 s7;
        '(mi, s9) ← read_fixed 2 0 s8;
        s10 ← expect 58 s9;
        '(sec, s11) ← read_fixed 2 0 s10;
        '(ms, s12) ← read_millis s11;
        off ← read_offset s12;
        if (h <=? 23) && (mi <=? 59) && (sec <=? 59) then
          time_clip (day * msPerDay + h * 3600000 + mi * 60000 + sec * 1000 + ms
                     - off * 60000)
        else if (h =? 24) && (mi =? 0) && (sec =? 0) && (ms =? 0) then
          time_clip (day * msPerDay + 24 * 3600000 - off * 60000)
        else None
    end.

(** [new Date(str)]. *)
Definition new_Date (str : string) : value := VDate (Date_parse str).

(** [isNaN(date.getTime())]. *)
Definition is_invalid_date (t : timevalue) : bool :=
  match t with None => true | Some _ => false end.

Definition digit_char (d : Z) : ascii := ascii_of_nat (Z.to_nat (48 + d mod 10)).

(** [n] as exactly [w] decimal digits. *)
Fixpoint pad (w : nat) (n : Z) : list ascii :=
  match w with
  | O => []
  | S w' => pad w' (n / 10) ++ [digit_char n]
  end.

(** [Date.prototype.toISOString]; a [RangeError] on an invalid date. *)
Definition toISOString (t : timevalue) : result string :=
  match t with
  | None => Throw (JSError "RangeError")
  | Some tv =>
      let day := tv / msPerDay in
      let ms := tv mod msPerDay in
      let '(y, m, d) := civil_from_days day in
      let year :=
        if (0 <=? y) && (y <=? 9999) then pad 4 y
        else (if y <? 0 then "-"%char else "+"%char) :: pad 6 (Z.abs y) in
      Ok (string_of_list_ascii
            (year ++ ["-"%char] ++ pad 2 m ++ ["-"%char] ++ pad 2 d ++ ["T"%char]
             ++ pad 2 (ms / 3600000) ++ [":"%char] ++ pad 2 (ms / 60000 mod 60)
             ++ [":"%char] ++ pad 2 (ms / 1000 mod 60) ++ ["."%char]
             ++ pad 3 (ms mod 1000) ++ ["Z"%char]))
  end.

(** The test
    [/^\d{4}-\d{2}-\d{2}T\d{2}:\d{2}:\d{2}(\.\d+)?(Z|[+-]\d{2}:\d{2})$/]. *)
Definition isIsoDateString (str : string) : bool :=
  let s := list_ascii_of_string str in
  bool_decide (is_Some (
    '(_, s1) ← read_fixed 4 0 s;
    s2 ← expect 45 s1;
    '(_, s3) ← read_fixed 2 0 s2;
    s4 ← expect 45 s3;
    '(_, s5) ← read_fixed 2 0 s4;
    s6 ← expect 84 s5;
    '(_, s7) ← read_fixed 2 0 s6;
    s8 ← expect 58 s7;
    '(_, s9) ← read_fixed 2 0 s8;
    s10 ← expect 58 s9;
    '(_, s11) ← read_fixed 2 0 s10;
    '(_, s12) ← read_millis s11;
    match s12 with
    | [c] => if is_char c 90 then Some tt else None
    | c :: s' =>
        if is_char c 43 || is_char c 45 then
          '(_, t1) ← read_fixed 2 0 s';
          t2 ← expect 58 t1;
          '(_, t3) ← read_fixed 2 0 t2;
          match t3 with [] => Some tt | _ => None end
        else None
    | [] => None
    end)).

Local Close Scope Z_scope.

(* ===================================================================== *)
(** ** JSON round trip                                                    *)
(* ===================================================================== *)

(** What [JSON.stringify] writes for a value, read back by [JSON.parse]:
    [None] where nothing is written ([undefined]).  A date is written by
    its [toJSON], a non-finite number as [null], a negative zero as [0];
    an [undefined] array element as [null], an [undefined] property not
    at all. *)
Fixpoint json_of (v : value) : option value :=
  match v with
  | VUndefined => None
  | VNull => Some VNull
  | VBool b => Some (VBool b)
  | VNum n =>
      Some (if Number_isFinite n
            then VNum (if is_zero n then S754_zero false else n)
            else VNull)
  | VStr s => Some (VStr s)
  | VDate t =>
      Some (match toISOString t with Ok s => VStr s | Throw _ => VNull end)
  | VArr xs => Some (VArr (map (fun x => default VNull (json_of x)) xs))
  | VObj fs =>
      Some (VObj (omap (fun kv => j ← json_of (snd kv); Some (fst kv, j)) fs))
  end.

(** [JSON.parse(JSON.stringify(v))]; parsing the text ["undefined"]
    fails. *)
Definition json_copy (v : value) : result value :=
  match json_of v with
  | Some j => Ok j
  | None => Throw (JSError "SyntaxError")
  end.

(* ===================================================================== *)
(** ** Coercion passes                                                    *)
(* ===================================================================== *)

(** [schema?.items && !Array.isArray(schema.items) ? schema.items : undefined]. *)
Definition itemSchema_of (schema : value) : value :=
  if truthy (get "items" schema) && negb (is_array (get "items" schema))
  then get "items" schema else VUndefined.

(** [Array.isArray(schema.type) ? schema.type : [schema.type]]. *)
Definition schemaType_of (schema : value) : value :=
  if is_array (get "type" schema) then get "type" schema
  else VArr [get "type" schema].

Definition isNumberField (schema : value) : bool :=
  includes_str "number" (schemaType_of schema)
  || includes_str "integer" (schemaType_of schema).

Fixpoint transformStringToNumber (data : value) (schema : value) : value :=
  match data with
  | VUndefined | VNull => data
  | VStr s =>
      if truthy schema then
        if isNumberField schema then
          let numValue := Number s in
          if negb (is_nan numValue) then
            VNum (if is_str "integer" (get "type" schema)
                  then Math_floor numValue else numValue)
          else data
        else data
      else data
  | VArr xs =>
      VArr (map (fun item => transformStringToNumber item (itemSchema_of schema)) xs)
  | VObj fs =>
      VObj (map (fun kv =>
                   (fst kv,
                    transformStringToNumber (snd kv)
                      (get (fst kv) (get "properties" schema)))) fs)
  | VDate _ => VObj []
  | VBool _ | VNum _ => data
  end.

Definition isDateTimeField (schema : value) : bool :=
  truthy schema
  && (is_str "string" (get "type" schema)
      || (is_array (get "type" schema) && includes_str "string" (get "type" schema)))
  && is_str "date-time" (get "format" schema).

Fixpoint transformISOStringsToDate (data : value) (schema : value) : value :=
  match data with
  | VUndefined | VNull => data
  | VDate _ => data
  | VStr s =>
      if isDateTimeField schema || isIsoDateString s then
        let dateObj := Date_parse s in
        if negb (is_invalid_date dateObj) then VDate dateObj else data
      else data
  | VArr xs =>
      VArr (map (fun item =>
                   transformISOStringsToDate item
                     (por (itemSchema_of schema) (VObj []))) xs)
  | VObj fs =>
      VObj (map (fun kv =>
                   (fst kv,
                    transformISOStringsToDate (snd kv)
                      (get (fst kv) (get "properties" schema)))) fs)
  | VBool _ | VNum _ => data
  end.

(** [transformDatesForValidation]; [toISOString] raises on an invalid
    date. *)
Fixpoint transformDatesForValidation (data : value) : result value :=
  match data with
  | VDate t => s ← toISOString t; Ok (VStr s)
  | VArr xs =>
      ys ← (fix go (l : list value) : result (list value) :=
              match l with
              | [] => Ok []
              | x :: l' =>
                  y ← transformDatesForValidation x; ys ← go l'; Ok (y :: ys)
              end) xs;
      Ok (VArr ys)
  | VObj fs =>
      gs ← (fix go (l : list (string * value)) : result (list (string * value)) :=
              match l with
              | [] => Ok []
              | kv :: l' =>
                  y ← transformDatesForValidation (snd kv); ys ← go l';
                  Ok ((fst kv, y) :: ys)
              end) fs;
      Ok (VObj gs)
  | _ => Ok data
  end.

(* ===================================================================== *)
(** ** Validator cache, [validate] and [parse]                            *)
(* ===================================================================== *)

(** One call of [ajv.compile]. *)
Record CompileEvent := { compiled_on : Ajv; compiled_schema : value }.

(** What a method leaves behind: the instance with its cache fields, the
    compilations it asked of the engine, and what it returned or threw. *)
Record Outcome (A : Type) := {
  self : SchemaBuilder;
  compilations : list CompileEvent;
  returned : result A;
}.
Arguments self {A} o.
Arguments compilations {A} o.
Arguments returned {A} o.

(** [ajv.errorsText(errors)] with the default separator and data
    variable. *)
Definition errorsText (errors : list ErrorObject) : string :=
  match errors with
  | [] => "No errors"
  | e :: es =>
      fold_left
        (fun (text : string) e' =>
           (text ++ ", " ++ "data" ++ instancePath e' ++ " " ++ message e')%string)
        es ("data" ++ instancePath e ++ " " ++ message e)%string
  end.

Definition validationError (errors : list ErrorObject) : VError :=
  ValidationError ("Invalid parameters: " ++ errorsText errors)%string errors.

(** The handler registered for the ["date-time"] format. *)
Definition dateTimeFormat (dateTimeString : string) : bool :=
  negb (is_invalid_date (Date_parse dateTimeString)).

(** The schema the list validator is compiled from. *)
Definition listSchema : value :=
  VObj [("type", VStr "array");
        ("items", VObj [("$ref", VStr "schema")]);
        ("minItems", VNum (of_Z 1))].

Section Engine.

(** The engine is an external collaborator: [compile] is what
    [ajv.compile(schema)] returns on a configured instance.  Compilation
    is taken to succeed. *)
Variable compile : Ajv -> value -> ValidateFunction.

Definition ajvValidationConfig (g : Global) (this : SchemaBuilder) : value :=
  spread (globalAJVConfig g) (validationConfig this).

Definition cacheValidationFunction (g : Global) (this : SchemaBuilder)
  : SchemaBuilder * list CompileEvent :=
  if negb (bool_decide (is_Some (validationFunction this)))
     || negb (localValidationFunctionVersionNumber this
              =? globalAJVConfigVersionNumber g)%N
  then
    let a := ajv_call AddFormats
               (ajv_call (AddFormat "date-time" dateTimeFormat)
                  (new_Ajv (ajvValidationConfig g this))) in
    ({| schemaObject := schemaObject this;
        validationConfig := validationConfig this;
        localValidationFunctionVersionNumber := globalAJVConfigVersionNumber g;
        localListValidationFunctionVersionNumber :=
          localListValidationFunctionVersionNumber this;
        ajv := Some a;
        validationFunction := Some (compile a (schemaObject this));
        ajvList := ajvList this;
        listValidationFunction := listValidationFunction this |},
     [{| compiled_on := a; compiled_schema := schemaObject this |}])
  else (this, []).

Definition cacheListValidationFunction (g : Global) (this : SchemaBuilder)
  : SchemaBuilder * list CompileEvent :=
  if negb (bool_decide (is_Some (listValidationFunction this)))
     || negb (localListValidationFunctionVersionNumber this
              =? globalAJVConfigVersionNumber g)%N
  then
    let a := ajv_call (AddSchema (schemaObject this) "schema")
               (ajv_call AddFormats (new_Ajv (ajvValidationConfig g this))) in
    ({| schemaObject := schemaObject this;
        validationConfig := validationConfig this;
        localValidationFunctionVersionNumber :=
          localValidationFunctionVersionNumber this;
        localListValidationFunctionVersionNumber := globalAJVConfigVersionNumber g;
        ajv := ajv this;
        validationFunction := validationFunction this;
        ajvList := Some a;
        listValidationFunction := Some (compile a listSchema) |},
     [{| compiled_on := a; compiled_schema := listSchema |}])
  else (this, []).

(** Run a cached validate function and throw on violations. *)
Definition run_validation (f : option ValidateFunction) (data : value) : result unit :=
  match f with
  | Some validationFunction =>
      match validationFunction data with
      | [] => Ok tt
      | errors => Throw (validationError errors)
      end
  | None => Throw (JSError "TypeError")
  end.

Definition validate (g : Global) (o : value) (this : SchemaBuilder) : Outcome unit :=
  match transformDatesForValidation o with
  | Throw e => {| self := this; compilations := []; returned := Throw e |}
  | Ok transformedData =>
      let '(this', log) := cacheValidationFunction g this in
      {| self := this'; compilations := log;
         returned := run_validation (validationFunction this') transformedData |}
  end.

(** [list.map(item => this.transformDatesForValidation(item))]. *)
Fixpoint transformListForValidation (l : list value) : result (list value) :=
  match l with
  | [] => Ok []
  | x :: l' =>
      y ← transformDatesForValidation x; ys ← transformListForValidation l';
      Ok (y :: ys)
  end.

Definition validateList (g : Global) (list : value) (this : SchemaBuilder)
  : Outcome unit :=
  match list with
  | VArr items =>
      match transformListForValidation items with
      | Throw e => {| self := this; compilations := []; returned := Throw e |}
      | Ok transformedList =>
          let '(this', log) := cacheListValidationFunction g this in
          {| self := this'; compilations := log;
             returned :=
               run_validation (listValidationFunction this') (VArr transformedList) |}
      end
  | _ => {| self := this; compilations := []; returned := Throw (JSError "TypeError") |}
  end.

Definition parse (g : Global) (data : value) (this : SchemaBuilder) : Outcome value :=
  match json_copy data with
  | Throw e => {| self := this; compilations := []; returned := Throw e |}
  | Ok dataCopy =>
      let transformedData := transformStringToNumber dataCopy (schemaObject this) in
      let v := validate g transformedData this in
      {| self := self v; compilations := compilations v;
         returned :=
           _ ← returned v;
           Ok (transformISOStringsToDate transformedData (schemaObject this)) |}
  end.

Definition parseList (g : Global) (dataList : value) (this : SchemaBuilder)
  : Outcome value :=
  match json_copy dataList with
  | Throw e => {| self := this; compilations := []; returned := Throw e |}
  | Ok dataCopy =>
      let v := validateList g dataCopy this in
      {| self := self v; compilations := compilations v;
         returned :=
           _ ← returned v;
           match dataCopy with
           | VArr items =>
               Ok (VArr (map (fun item =>
                                transformISOStringsToDate item (schemaObject this)) items))
           | _ => Throw (JSError "TypeError")
           end |}
  end.

End Engine.

(* ===================================================================== *)
(** ** A reference engine                                                 *)
(* ===================================================================== *)

(** A small validator for the keywords the class itself writes into a
    document ([type], [properties], [required], [additionalProperties],
    [items], [minItems], [format], [enum], [const] and the combinators).
    It stands in for the external engine wherever a concrete run is
    evaluated; the properties below that concern every engine are stated
    over an arbitrary [compile].  Of the string facets it knows
    [maxLength], counted in characters. *)

Definition to_Z (x : number) : Z :=
  match Math_floor x with
  | S754_finite s m e => cond_Zopp s (Z.shiftl (Zpos m) e)
  | _ => 0%Z
  end.

(** The option [strictNumbers]: its own value, or else that of [strict],
    or else [true].  The class sets [strict: false]. *)
Definition given (v : value) : bool :=
  match v with VUndefined | VNull => false | _ => true end.

Definition strictNumbers (a : Ajv) : bool :=
  let own := get "strictNumbers" (ajv_options a) in
  let strict := get "strict" (ajv_options a) in
  if given own then truthy own
  else if given strict then truthy strict
  else true.

Definition is_infinite (n : number) : bool :=
  match n with S754_infinity _ => true | _ => false end.

(** The test of [type]: a number is any number, an integer any number
    without a fractional part, the infinities among them; with
    [strictNumbers] both are finite. *)
Definition type_matches (strict : bool) (d : value) (t : value) : bool :=
  match d with
  | VNull => is_str "null" t
  | VBool _ => is_str "boolean" t
  | VNum n => (is_str "number" t && (negb strict || Number_isFinite n))
              || (is_str "integer" t
                  && (Number_isInteger n || (negb strict && is_infinite n)))
  | VStr _ => is_str "string" t
  | VArr _ => is_str "array" t
  | VObj _ => is_str "object" t
  | VUndefined | VDate _ => false
  end.

(** The test that [addFormats] registers for ["date-time"]: a date of
    the calendar, one separator ([t], [T] or a blank), and a time with
    its zone; a second 60 is allowed where it ends a day of universal
    time. *)
Definition is_leap (y : Z) : bool :=
  ((y mod 4 =? 0) && negb (y mod 100 =? 0) || (y mod 400 =? 0))%Z.

Definition days_in_month (y m : Z) : Z :=
  if (m =? 2)%Z then (if is_leap y then 29 else 28)%Z
  else if ((m =? 4) || (m =? 6) || (m =? 9) || (m =? 11))%Z then 30%Z else 31%Z.

Definition formats_date (s : list ascii) : bool :=
  match ('(y, s1) ← read_fixed 4 0 s;
         s2 ← expect 45 s1;
         '(m, s3) ← read_fixed 2 0 s2;
         s4 ← expect 45 s3;
         '(d, s5) ← read_fixed 2 0 s4;
         Some (y, m, d, s5)) with
  | Some (y, m, d, []) =>
      ((1 <=? m) && (m <=? 12) && (1 <=? d) && (d <=? days_in_month y m))%Z
  | _ => false
  end.

(** The zone [z], [Z], [+HH], [+HHmm] or [+HH:mm] (or with [-]): its sign,
    hours and minutes. *)
Definition read_zone (s : list ascii) : option (Z * Z * Z) :=
  match s with
  | [] => None
  | [c] => if is_char c 90 || is_char c 122 then Some (1, 0, 0)%Z else None
  | c :: s' =>
      if is_char c 43 || is_char c 45 then
        '(h, s1) ← read_fixed 2 0 s';
        let sign := (if is_char c 45 then -1 else 1)%Z in
        match s1 with
        | [] => Some (sign, h, 0%Z)
        | c' :: s2 =>
            '(m, s3) ← read_fixed 2 0 (if is_char c' 58 then s2 else s1);
            match s3 with [] => Some (sign, h, m) | _ => None end
        end
      else None
  end.

Definition formats_time (s : list ascii) : bool :=
  match ('(hr, s1) ← read_fixed 2 0 s;
         s2 ← expect 58 s1;
         '(mi, s3) ← read_fixed 2 0 s2;
         s4 ← expect 58 s3;
         '(sec, s5) ← read_fixed 2 0 s4;
         '(_, s6) ← read_millis s5;
         '(sign, tzH, tzM) ← read_zone s6;
         Some (hr, mi, sec, sign, tzH, tzM)) with
  | Some (hr, mi, sec, sign, tzH, tzM) =>
      if ((23 <? tzH) || (59 <? tzM))%Z then false
      else if ((hr <=? 23) && (mi <=? 59) && (sec <=? 59))%Z then true
      else
        let utcMin := (mi - tzM * sign)%Z in
        let utcHr := (hr - tzH * sign - (if utcMin <? 0 then 1 else 0))%Z in
        (((utcHr =? 23) || (utcHr =? -1)) && ((utcMin =? 59) || (utcMin =? -1))
         && (sec <=? 60))%Z
  | None => false
  end.

Definition formats_date_time (str : string) : bool :=
  let s := list_ascii_of_string str in
  match drop 10 s with
  | c :: time =>
      formats_date (take 10 s)
      && (is_char c 84 || is_char c 116 || is_ws c)
      && formats_time time
  | [] => false
  end.

Definition quote : string := String (ascii_of_nat 34) EmptyString.

Definition violation (path msg : string) : list ErrorObject :=
  [{| instancePath := path; message := msg |}].

(** The handler in force for ["date-time"]: the last registration wins,
    and [addFormats] registers the library's own date-time test, also
    over a handler registered before. *)
Definition date_time_handler (a : Ajv) : string -> bool :=
  fold_left (fun h c =>
               match c with
               | AddFormat name f => if string_eqb name "date-time" then f else h
               | AddFormats => formats_date_time
               | AddSchema _ _ => h
               end) (ajv_calls a) (fun _ => true).

Fixpoint check (strict : bool) (dt : string -> bool)
    (refs : string -> string -> value -> list ErrorObject)
    (s : value) (path : string) (d : value) {struct s} : list ErrorObject :=
  match s with
  | VBool false => violation path "boolean schema is false"
  | VObj fs =>
      flat_map (fun kv =>
        let k := fst kv in
        let v := snd kv in
        if string_eqb k "type" then
          if (if is_array v then
                match v with VArr ts => existsb (type_matches strict d) ts | _ => false end
              else type_matches strict d v)
          then []
          else violation path
                 ("must be " ++ match v with
                                | VStr t => t
                                | _ => String.concat "," (strings_of v)
                                end)%string
        else if string_eqb k "required" then
          match d with
          | VObj gs =>
              flat_map (fun name =>
                          if bool_decide (is_Some (lookup_field name gs)) then []
                          else violation path
                                 ("must have required property '" ++ name ++ "'")%string)
                (strings_of v)
          | _ => []
          end
        else if string_eqb k "properties" then
          match v, d with
          | VObj ps, VObj gs =>
              flat_map (fun p =>
                          match lookup_field (fst p) gs with
                          | Some x => check strict dt refs (snd p) (path ++ "/" ++ fst p)%string x
                          | None => []
                          end) ps
          | _, _ => []
          end
        else if string_eqb k "additionalProperties" then
          match d with
          | VObj gs =>
              flat_map (fun g =>
                          if has_key (fst g) (get "properties" s) then []
                          else if value_eqb v (VBool false)
                          then violation path "must NOT have additional properties"
                          else check strict dt refs v (path ++ "/" ++ fst g)%string (snd g)) gs
          | _ => []
          end
        else if string_eqb k "items" then
          match d with
          | VArr xs =>
              if is_array v then []
              else flat_map (fun ix =>
                               check strict dt refs v (path ++ "/" ++ pretty (fst ix))%string (snd ix))
                     (imap (fun i x => (i, x)) xs)
          | _ => []
          end
        else if string_eqb k "minItems" then
          match v, d with
          | VNum n, VArr xs =>
              if (Z.of_nat (length xs) <? to_Z n)%Z
              then violation path
                     ("must NOT have fewer than " ++ pretty (to_Z n) ++ " items")%string
              else []
          | _, _ => []
          end
        else if string_eqb k "maxLength" then
          match v, d with
          | VNum n, VStr x =>
              if (to_Z n <? Z.of_nat (String.length x))%Z
              then violation path
                     ("must NOT have more than " ++ pretty (to_Z n) ++ " characters")%string
              else []
          | _, _ => []
          end
        else if string_eqb k "format" then
          match d with
          | VStr x =>
              if is_str "date-time" v && negb (dt x)
              then violation path
                     ("must match format " ++ quote ++ "date-time" ++ quote)%string
              else []
          | _ => []
          end
        else if string_eqb k "const" then
          if value_eqb v d then [] else violation path "must be equal to constant"
        else if string_eqb k "enum" then
          match v with
          | VArr es =>
              if existsb (value_eqb d) es then []
              else violation path "must be equal to one of the allowed values"
          | _ => []
          end
        else if string_eqb k "anyOf" then
          match v with
          | VArr ss =>
              if existsb (fun s' => match check strict dt refs s' path d with [] => true | _ => false end) ss
              then [] else violation path "must match a schema in anyOf"
          | _ => []
          end
        else if string_eqb k "allOf" then
          match v with
          | VArr ss => flat_map (fun s' => check strict dt refs s' path d) ss
          | _ => []
          end
        else if string_eqb k "oneOf" then
          match v with
          | VArr ss =>
              if (length (List.filter
                            (fun s' => match check strict dt refs s' path d with
                                       | [] => true | _ => false end) ss) =? 1)%nat
              then [] else violation path "must match exactly one schema in oneOf"
          | _ => []
          end
        else if string_eqb k "not" then
          match check strict dt refs v path d with
          | [] => violation path "must NOT be valid"
          | _ => []
          end
        else if string_eqb k "$ref" then
          match v with
          | VStr key => refs key path d
          | _ => []
          end
        else []) fs
  | _ => []
  end.

(** The schema registered under a key by [addSchema]. *)
Definition registered (a : Ajv) (key : string) : option value :=
  fold_left (fun r c =>
               match c with
               | AddSchema s k => if string_eqb k key then Some s else r
               | _ => r
               end) (ajv_calls a) None.

(** A reference is checked against the registered schema; a registered
    document holds no reference of its own. *)
Definition check_ref (a : Ajv) (key path : string) (d : value) : list ErrorObject :=
  match registered a key with
  | Some s => check (strictNumbers a) (date_time_handler a) (fun _ _ _ => []) s path d
  | None => []
  end.

Definition refCompile (a : Ajv) (schema : value) : ValidateFunction :=
  fun data =>
    let errors :=
      check (strictNumbers a) (date_time_handler a) (check_ref a) schema "" data in
    if truthy (get "allErrors" (ajv_options a)) then errors else take 1 errors.

(* ===================================================================== *)
(** ** What is asked of an engine                                         *)
(* ===================================================================== *)

(** Three rules of JSON Schema that no option of the engine relaxes: an
    array shorter than the whole number [minItems] of an array schema, a
    finite number that is not an integer where only [integer] or [null]
    is allowed, and an object one of whose declared properties is
    rejected by that property's schema.  The second rule is about finite
    numbers only: with [strict: false], the setting of the class, the
    engine lets the infinities pass as integers. *)
Definition integer_or_null (t : value) : bool :=
  match t with
  | VArr [] => false
  | VArr ts => forallb (fun x => is_str "integer" x || is_str "null" x) ts
  | _ => is_str "integer" t
  end.

Inductive rejects : value -> value -> Prop :=
| rejects_minItems fs xs n :
    lookup_field "type" fs = Some (VStr "array") ->
    lookup_field "minItems" fs = Some (VNum n) ->
    Number_isInteger n = true ->
    (Z.of_nat (length xs) < to_Z n)%Z ->
    rejects (VObj fs) (VArr xs)
| rejects_integer fs t n :
    lookup_field "type" fs = Some t ->
    integer_or_null t = true ->
    Number_isFinite n = true ->
    Number_isInteger n = false ->
    rejects (VObj fs) (VNum n)
| rejects_property fs ps k sk gs x :
    lookup_field "properties" fs = Some (VObj ps) ->
    lookup_field k ps = Some sk ->
    lookup_field k gs = Some x ->
    rejects sk x ->
    rejects (VObj fs) (VObj gs).

Definition honours_rejects (compile : Ajv -> value -> ValidateFunction) : Prop :=
  forall a schema data, rejects schema data -> compile a schema data <> [].

(** The first rule by itself. *)
Definition honours_minItems (compile : Ajv -> value -> ValidateFunction) : Prop :=
  forall a fs xs n,
    lookup_field "type" fs = Some (VStr "array") ->
    lookup_field "minItems" fs = Some (VNum n) ->
    Number_isInteger n = true ->
    (Z.of_nat (length xs) < to_Z n)%Z ->
    compile a (VObj fs) (VArr xs) <> [].

(* ===================================================================== *)
(** ** Runs of a program using the class                                  *)
(* ===================================================================== *)

(** The static fields and the instances created so far. *)
Record World := { global : Global; documents : list SchemaBuilder }.

Definition update_document (i : nat) (sb : SchemaBuilder) (w : World) : World :=
  {| global := global w; documents := <[i := sb]> (documents w) |}.

Section Runs.

Variable compile : Ajv -> value -> ValidateFunction.

Inductive step : World -> World -> Prop :=
| step_setGlobalValidationConfig w config :
    step w {| global := setGlobalValidationConfig config (global w);
              documents := documents w |}
| step_new w schema config sb :
    new_SchemaBuilder schema config = Ok sb ->
    step w {| global := global w; documents := documents w ++ [sb] |}
| step_cacheValidationFunction w i sb :
    documents w !! i = Some sb ->
    step w (update_document i (fst (cacheValidationFunction compile (global w) sb)) w)
| step_cacheListValidationFunction w i sb :
    documents w !! i = Some sb ->
    step w (update_document i (fst (cacheListValidationFunction compile (global w) sb)) w)
| step_validate w i sb o :
    documents w !! i = Some sb ->
    step w (update_document i (self (validate compile (global w) o sb)) w)
| step_validateList w i sb o :
    documents w !! i = Some sb ->
    step w (update_document i (self (validateList compile (global w) o sb)) w)
| step_parse w i sb o :
    documents w !! i = Some sb ->
    step w (update_document i (self (parse compile (global w) o sb)) w)
| step_parseList w i sb o :
    documents w !! i = Some sb ->
    step w (update_document i (self (parseList compile (global w) o sb)) w).

Inductive run : World -> Prop :=
| run_start : run {| global := initialGlobal; documents := [] |}
| run_step w w' : run w -> step w w' -> run w'.

End Runs.

(* ===================================================================== *)
(** ** The pipeline over a store                                          *)
(* ===================================================================== *)

(** Arrays, objects and dates are mutable cells; a value held in a
    variable or a property is a primitive or a reference to a cell.  The
    store is the list of cells allocated so far, a location is an index
    into it, and allocation appends. *)

Definition loc := nat.

Inductive hvalue :=
| HUndefined
| HNull
| HBool (b : bool)
| HNum (n : number)
| HStr (s : string)
| HRef (l : loc).

Inductive cell :=
| CDate (t : timevalue)
| CArr (xs : list hvalue)
| CObj (fs : list (string * hvalue)).

Definition store := list cell.

Definition cell_refs (c : cell) : list hvalue :=
  match c with
  | CDate _ => []
  | CArr xs => xs
  | CObj fs => map snd fs
  end.

(** The cells a value leads to. *)
Inductive reachable (h : store) : hvalue -> loc -> Prop :=
| reach_root l : reachable h (HRef l) l
| reach_child l c v l' :
    h !! l = Some c -> v ∈ cell_refs c -> reachable h v l' ->
    reachable h (HRef l) l'.

(** Build a value in the store: every array, object and date of the tree
    becomes a new cell. *)
Fixpoint store_value (v : value) (h : store) : hvalue * store :=
  match v with
  | VUndefined => (HUndefined, h)
  | VNull => (HNull, h)
  | VBool b => (HBool b, h)
  | VNum n => (HNum n, h)
  | VStr s => (HStr s, h)
  | VDate t => (HRef (length h), h ++ [CDate t])
  | VArr xs =>
      let '(ys, h') :=
        (fix go (l : list value) (h0 : store) : list hvalue * store :=
           match l with
           | [] => ([], h0)
           | x :: l' =>
               let '(y, h1) := store_value x h0 in
               let '(ys, h2) := go l' h1 in
               (y :: ys, h2)
           end) xs h in
      (HRef (length h'), h' ++ [CArr ys])
  | VObj fs =>
      let '(gs, h') :=
        (fix go (l : list (string * value)) (h0 : store)
           : list (string * hvalue) * store :=
           match l with
           | [] => ([], h0)
           | kv :: l' =>
               let '(y, h1) := store_value (snd kv) h0 in
               let '(ys, h2) := go l' h1 in
               ((fst kv, y) :: ys, h2)
           end) fs h in
      (HRef (length h'), h' ++ [CObj gs])
  end.

(** Read the tree below a value; [None] when the descent does not end
    within [fuel] cells or meets a dangling reference. *)
Fixpoint load (fuel : nat) (h : store) (v : hvalue) : option value :=
  match v with
  | HUndefined => Some VUndefined
  | HNull => Some VNull
  | HBool b => Some (VBool b)
  | HNum n => Some (VNum n)
  | HStr s => Some (VStr s)
  | HRef l =>
      match fuel with
      | O => None
      | S fuel' =>
          match h !! l with
          | None => None
          | Some (CDate t) => Some (VDate t)
          | Some (CArr xs) => ys ← mapM (load fuel' h) xs; Some (VArr ys)
          | Some (CObj fs) =>
              gs ← mapM (fun kv => y ← load fuel' h (snd kv); Some (fst kv, y)) fs;
              Some (VObj gs)
          end
      end
  end.

(** A descent that passes through more cells than the store holds has
    met a cell twice: this fuel reads every acyclic structure. *)
Definition read (h : store) (v : hvalue) : option value :=
  load (S (length h)) h v.

Definition outcome {A} (this : SchemaBuilder) (log : list CompileEvent)
    (r : result A) : Outcome A :=
  {| self := this; compilations := log; returned := r |}.

Section StoreEngine.

(** Over the store the engine has a verdict, [compile] as before, and an
    effect: with [useDefaults], [coerceTypes] or [removeAdditional] it
    writes into the data it validates. *)
Variable compile : Ajv -> value -> ValidateFunction.
Variable effect : Ajv -> value -> store -> hvalue -> store.

(** A pass applied to data in the store: read the argument, build the
    result in new cells. *)
Definition pass (f : value -> result value) (h : store) (v : hvalue)
  : store * result hvalue :=
  match read h v with
  | None => (h, Throw (JSError "RangeError"))
  | Some t =>
      match f t with
      | Throw e => (h, Throw e)
      | Ok t' => let '(v', h') := store_value t' h in (h', Ok v')
      end
  end.

(** The cached validate function called on data in the store. *)
Definition run_in_store (a : option Ajv) (schema : value)
    (f : option ValidateFunction) (h : store) (data : hvalue)
  : store * result unit :=
  match read h data with
  | None => (h, Throw (JSError "RangeError"))
  | Some t =>
      (match a with Some a' => effect a' schema h data | None => h end,
       run_validation f t)
  end.

Definition validate_in_store (g : Global) (h : store) (o : hvalue)
    (this : SchemaBuilder) : store * Outcome unit :=
  match pass transformDatesForValidation h o with
  | (h1, Throw e) => (h1, outcome this [] (Throw e))
  | (h1, Ok transformedData) =>
      let '(this', log) := cacheValidationFunction compile g this in
      let '(h2, r) := run_in_store (ajv this') (schemaObject this')
                        (validationFunction this') h1 transformedData in
      (h2, outcome this' log r)
  end.

Definition validateList_in_store (g : Global) (h : store) (list : hvalue)
    (this : SchemaBuilder) : store * Outcome unit :=
  match pass (fun t => match t with
                       | VArr items => ys ← transformListForValidation items; Ok (VArr ys)
                       | _ => Throw (JSError "TypeError")
                       end) h list with
  | (h1, Throw e) => (h1, outcome this [] (Throw e))
  | (h1, Ok transformedList) =>
      let '(this', log) := cacheListValidationFunction compile g this in
      let '(h2, r) := run_in_store (ajvList this') listSchema
                        (listValidationFunction this') h1 transformedList in
      (h2, outcome this' log r)
  end.

(** [JSON.parse(JSON.stringify(data))]: a circular structure is a
    [TypeError]. *)
Definition json_copy_in_store (h : store) (data : hvalue) : store * result hvalue :=
  match read h data with
  | None => (h, Throw (JSError "TypeError"))
  | Some t => pass json_copy h data
  end.

Definition parse_in_store (g : Global) (h : store) (data : hvalue)
    (this : SchemaBuilder) : store * Outcome hvalue :=
  match json_copy_in_store h data with
  | (h1, Throw e) => (h1, outcome this [] (Throw e))
  | (h1, Ok dataCopy) =>
      match pass (fun t => Ok (transformStringToNumber t (schemaObject this))) h1 dataCopy with
      | (h2, Throw e) => (h2, outcome this [] (Throw e))
      | (h2, Ok transformedData) =>
          let '(h3, v) := validate_in_store g h2 transformedData this in
          match returned v with
          | Throw e => (h3, outcome (self v) (compilations v) (Throw e))
          | Ok _ =>
              let '(h4, r) :=
                pass (fun t => Ok (transformISOStringsToDate t (schemaObject this)))
                  h3 transformedData in
              (h4, outcome (self v) (compilations v) r)
          end
      end
  end.

Definition parseList_in_store (g : Global) (h : store) (dataList : hvalue)
    (this : SchemaBuilder) : store * Outcome hvalue :=
  match json_copy_in_store h dataList with
  | (h1, Throw e) => (h1, outcome this [] (Throw e))
  | (h1, Ok dataCopy) =>
      let '(h2, v) := validateList_in_store g h1 dataCopy this in
      match returned v with
      | Throw e => (h2, outcome (self v) (compilations v) (Throw e))
      | Ok _ =>
          let '(h3, r) :=
            pass (fun t => match t with
                           | VArr items =>
                               Ok (VArr (map (fun item =>
                                               transformISOStringsToDate item
                                                 (schemaObject this)) items))
                           | _ => Throw (JSError "TypeError")
                           end) h2 dataCopy in
          (h3, outcome (self v) (compilations v) r)
      end
  end.

End StoreEngine.

(** A sample effect: the engine adds a property to the object it is
    given, the way [useDefaults] writes into the validated data. *)
Definition refEffect (a : Ajv) (schema : value) (h : store) (data : hvalue) : store :=
  match data with
  | HRef l =>
      match h !! l with
      | Some (CObj fs) => <[l := CObj (fs ++ [("validated", HBool true)])]> h
      | _ => h
      end
  | _ => h
  end.

(* ===================================================================== *)
(** ** More of the class                                                  *)
(* ===================================================================== *)

(** *** Constructors *)

Definition nullSchema (schema : value) : result SchemaBuilder :=
  new_SchemaBuilder (set "type" (VStr "null") (spread (VObj []) (cloneJSON schema)))
    VUndefined.

Definition anySchema (schema : value) : result SchemaBuilder :=
  new_SchemaBuilder (spread (VObj []) (cloneJSON schema)) VUndefined.

Definition noneSchema (schema : value) : result SchemaBuilder :=
  new_SchemaBuilder (set "type" (VArr []) (spread (VObj []) (cloneJSON schema)))
    VUndefined.

Definition constSchema (v : value) (schema : value) : result SchemaBuilder :=
  new_SchemaBuilder (set "const" v (spread (VObj []) (cloneJSON schema))) VUndefined.

(** [typeof value], for the three kinds [enumSchema] looks at. *)
Definition js_typeof (v : value) : string :=
  match v with
  | VUndefined => "undefined"
  | VBool _ => "boolean"
  | VNum _ => "number"
  | VStr _ => "string"
  | VNull | VDate _ | VArr _ | VObj _ => "object"
  end.

(** The loop body of [enumSchema]: note the kind of one value. *)
Definition note_type (types : list string) (v : value) : list string :=
  let types1 :=
    if string_eqb (js_typeof v) "string" && negb (existsb (string_eqb "string") types)
    then types ++ ["string"] else types in
  let types2 :=
    if string_eqb (js_typeof v) "boolean" && negb (existsb (string_eqb "boolean") types1)
    then types1 ++ ["boolean"] else types1 in
  if string_eqb (js_typeof v) "number" && negb (existsb (string_eqb "number") types2)
  then types2 ++ ["number"] else types2.

(** [v === null]. *)
Definition is_null (v : value) : bool :=
  match v with VNull => true | _ => false end.

Definition enumSchema (values : value) (schema : value) (nullable : bool)
  : result SchemaBuilder :=
  let valuesArray := match values with VArr xs => xs | _ => [values] end in
  let types0 := fold_left note_type valuesArray [] in
  let types := if nullable then types0 ++ ["null"] else types0 in
  let s :=
    set "enum"
      (VArr (if nullable && negb (existsb is_null valuesArray)
             then valuesArray ++ [VNull] else valuesArray))
      (set "type"
         (match types with [t] => VStr t | _ => str_list types end)
         (spread (VObj []) (cloneJSON schema))) in
  new_SchemaBuilder s VUndefined.

Definition oneOf (schemaBuilders : list SchemaBuilder) : result SchemaBuilder :=
  new_SchemaBuilder
    (VObj [("oneOf", VArr (map (fun b => cloneJSON (schemaObject b)) schemaBuilders))])
    VUndefined.

Definition allOf (schemaBuilders : list SchemaBuilder) : result SchemaBuilder :=
  new_SchemaBuilder
    (VObj [("allOf", VArr (map (fun b => cloneJSON (schemaObject b)) schemaBuilders))])
    VUndefined.

(** The static [not]. *)
Definition notSchema (schemaBuilder : SchemaBuilder) : result SchemaBuilder :=
  new_SchemaBuilder (VObj [("not", cloneJSON (schemaObject schemaBuilder))]) VUndefined.

(** One entry of the map given to [objectSchema] and [addProperties]: a
    builder, or a list of builders and [undefined]s. *)
Inductive PropertyDefinition :=
| Single (b : SchemaBuilder)
| Several (bs : list (option SchemaBuilder)).

(** [!Array.isArray(p) || p.findIndex((e) => e === undefined) === -1]. *)
Definition definition_required (p : PropertyDefinition) : bool :=
  match p with
  | Single _ => true
  | Several bs => negb (existsb (fun e => negb (bool_decide (is_Some e))) bs)
  end.

(** The schema written for one entry: the filtered list of a single
    builder gives that builder's schema, any other list an [anyOf]. *)
Definition definition_schema (p : PropertyDefinition) : value :=
  match p with
  | Single b => cloneJSON (schemaObject b)
  | Several bs =>
      match omap id bs with
      | [b] => cloneJSON (schemaObject b)
      | filtered =>
          VObj [("anyOf", VArr (map (fun b => cloneJSON (schemaObject b)) filtered))]
      end
  end.

Definition objectSchema (schema : value)
    (propertiesDefinition : list (string * PropertyDefinition)) (nullable : bool)
  : result SchemaBuilder :=
  let required :=
    fold_left (fun r kv => if definition_required (snd kv) then r ++ [VStr (fst kv)] else r)
      propertiesDefinition [] in
  let properties :=
    fold_left (fun m kv => set (fst kv) (definition_schema (snd kv)) m)
      propertiesDefinition (VObj []) in
  let s0 := set "type" (type_of "object" nullable) (spread (VObj []) (cloneJSON schema)) in
  let s1 := if (0 <? length (keys properties))%nat
            then set "properties" properties s0 else s0 in
  let s2 := if (0 <? length required)%nat
            then set "required" (VArr required) s1 else s1 in
  new_SchemaBuilder (set "additionalProperties" (VBool false) s2) VUndefined.

(** *** Transformations *)

(** The loop body of [toNullable] for one property name.  [in] raises a
    [TypeError] on a value that is not an object. *)
Definition nullable_type (propertyValue : value) : value :=
  let ty := get "type" propertyValue in
  match ty with
  | VArr ts =>
      if negb (existsb (is_str "null") ts)
      then set "type" (VArr (ts ++ [VStr "null"])) propertyValue
      else propertyValue
  | VStr t =>
      if negb (string_eqb t "null")
      then set "type" (VArr [VStr t; VStr "null"]) propertyValue
      else propertyValue
  | _ => propertyValue
  end.

Definition nullable_enum (propertyValue : value) : value :=
  if has_key "enum" propertyValue then
    match get "enum" propertyValue with
    | VArr es =>
        if negb (existsb is_null es)
        then set "enum" (VArr (es ++ [VNull])) propertyValue
        else propertyValue
    | _ => propertyValue
    end
  else propertyValue.

Definition nullable_step (required : value) (s : result value) (propertyName : string)
  : result value :=
  s0 ← s;
  if negb (includes_str propertyName required) then
    let propertyValue := get propertyName (get "properties" s0) in
    match propertyValue with
    | VObj _ =>
        if has_key "type" propertyValue then
          Ok (set_property propertyName (nullable_enum (nullable_type propertyValue)) s0)
        else
          Ok (set_property propertyName
                (VObj [("anyOf", VArr [propertyValue; VObj [("type", VStr "null")]])]) s0)
    | VBool _ | VArr _ | VDate _ =>
        Ok (set_property propertyName
              (VObj [("anyOf", VArr [propertyValue; VObj [("type", VStr "null")]])]) s0)
    | _ => Throw (JSError "TypeError")
    end
  else Ok s0.

Definition toNullable (this : SchemaBuilder) : result SchemaBuilder :=
  if negb (isSimpleObjectSchema this) then
    Throw (ShapeError (simple_object_msg "toNullable"))
  else
    let schemaObject0 := cloneJSON (schemaObject this) in
    let required := por (get "required" schemaObject0) (VArr []) in
    s ← fold_left (nullable_step required) (keys (get "properties" schemaObject0))
          (Ok schemaObject0);
    new_SchemaBuilder s (validationConfig this).

(** [addPatternProperty]; [None] is the default [true]. *)
Definition addPatternProperty (prefixPattern suffixPattern : string)
    (schemaBuilder : option SchemaBuilder) (this : SchemaBuilder)
  : result SchemaBuilder :=
  let newPatternKey := ("^" ++ prefixPattern ++ ".*" ++ suffixPattern ++ "$")%string in
  let s := cloneJSON (schemaObject this) in
  new_SchemaBuilder
    (set "patternProperties"
       (set newPatternKey
          (match schemaBuilder with
           | None => VBool true
           | Some b => cloneJSON (schemaObject b)
           end)
          (spread (VObj []) (get "patternProperties" s))) s)
    (validationConfig this).

(** [_.intersection(a, b)]: the elements of [a] that are in [b], once
    each. *)
Definition lodash_intersection (a b : list string) : list string :=
  remove_dups (filter (fun k => k ∈ b) a).

(** [names.join(", ")]. *)
Fixpoint join_strings (sep : string) (l : list string) : string :=
  match l with
  | [] => ""
  | [x] => x
  | x :: l' => (x ++ sep ++ join_strings sep l')%string
  end.

(** The loop body of [addProperties]. *)
Definition add_definition (s : value) (kv : string * PropertyDefinition) : value :=
  let s1 := set_property (fst kv) (definition_schema (snd kv)) s in
  if definition_required (snd kv) then push_required (fst kv) s1 else s1.

Definition addProperties (propertiesDefinition : list (string * PropertyDefinition))
    (this : SchemaBuilder) : result SchemaBuilder :=
  if negb (isObjectSchema this) then
    Throw (ShapeError "Schema Builder Error: you can only add properties to an object schema")
  else
    let s0 := ensure_properties (cloneJSON (schemaObject this)) in
    let propertiesIntersection :=
      lodash_intersection (keys (get "properties" s0)) (map fst propertiesDefinition) in
    if (0 <? length propertiesIntersection)%nat then
      Throw (ShapeError ("Schema Builder Error: '" ++ join_strings ", " propertiesIntersection
                         ++ "' already exists in " ++ title_or_this s0 ++ " schema")%string)
    else
      new_SchemaBuilder (fold_left add_definition propertiesDefinition s0)
        (validationConfig this).

Definition addEnum (propertyName : string) (values : list value) (schema : value)
    (isRequired : option bool) (nullable : bool) (this : SchemaBuilder) :=
  b ← enumSchema (VArr values) schema nullable; addProperty propertyName b isRequired this.

Definition addArray (propertyName : string) (items : SchemaBuilder) (schema : value)
    (isRequired : option bool) (nullable : bool) (this : SchemaBuilder) :=
  b ← arraySchema items schema nullable; addProperty propertyName b isRequired this.



(** [propertyNames || Object.keys(schemaObject.properties)]. *)
Definition names_or_all (propertyNames : option (list string)) (s : value)
  : list string :=
  match propertyNames with
  | Some names => names
  | None => keys (get "properties" s)
  end.

Definition transformProperties (schemaBuilder : SchemaBuilder)
    (propertyNames : option (list string)) (this : SchemaBuilder)
  : result SchemaBuilder :=
  if negb (isSimpleObjectSchema this) then
    Throw (ShapeError (simple_object_msg "transformProperties"))
  else
    let s0 := ensure_properties (cloneJSON (schemaObject this)) in
    new_SchemaBuilder
      (fold_left
         (fun s property =>
            set_property property
              (VObj [("oneOf", VArr [get property (get "properties" s);
                                     cloneJSON (schemaObject schemaBuilder)])]) s)
         (names_or_all propertyNames s0) s0)
      (validationConfig this).

(** [v.type]: a [TypeError] on [undefined] and [null]. *)
Definition type_member (v : value) : result value :=
  match v with
  | VUndefined | VNull => Throw (JSError "TypeError")
  | _ => Ok (get "type" v)
  end.

(** The loop body of [transformPropertiesToArray]. *)
Definition to_array_step (schema : value) (s : result value) (property : string)
  : result value :=
  s0 ← s;
  let propertySchema := get property (get "properties" s0) in
  ty ← type_member propertySchema;
  if negb (is_str "array" ty) then
    Ok (set_property property
          (VObj [("oneOf",
                  VArr [propertySchema;
                        spread (VObj [("type", VStr "array");
                                      ("items", cloneJSON propertySchema)]) schema])]) s0)
  else Ok s0.

Definition transformPropertiesToArray (propertyNames : option (list string))
    (schema : value) (this : SchemaBuilder) : result SchemaBuilder :=
  if negb (isSimpleObjectSchema this) then
    Throw (ShapeError (simple_object_msg "transformPropertiesToArray"))
  else
    let s0 := ensure_properties (cloneJSON (schemaObject this)) in
    s ← fold_left (to_array_step schema) (names_or_all propertyNames s0) (Ok s0);
    new_SchemaBuilder s (validationConfig this).

(** The loop body of [unwrapArrayProperties]. *)
Definition unwrap_step (s : result value) (property : string) : result value :=
  s0 ← s;
  let propertySchema := get property (get "properties" s0) in
  ty ← type_member propertySchema;
  if is_str "array" ty then
    let items := get "items" propertySchema in
    let itemsSchema :=
      match items with
      | VArr [item] => item
      | VArr _ => VObj [("oneOf", items)]
      | _ => items
      end in
    Ok (set_property property
          (VObj [("oneOf", VArr [cloneJSON itemsSchema; propertySchema])]) s0)
  else Ok s0.

Definition unwrapArrayProperties (propertyNames : option (list string))
    (this : SchemaBuilder) : result SchemaBuilder :=
  if negb (isSimpleObjectSchema this) then
    Throw (ShapeError (simple_object_msg "unwrapArrayProperties"))
  else
    let s0 := ensure_properties (cloneJSON (schemaObject this)) in
    s ← fold_left unwrap_step (names_or_all propertyNames s0) (Ok s0);
    new_SchemaBuilder s (validationConfig this).

Definition getItemsSubschema (this : SchemaBuilder) : result SchemaBuilder :=
  if negb (truthy (schemaObject this)) || negb (isArraySchema this)
     || negb (truthy (get "items" (schemaObject this)))
     || is_array (get "items" (schemaObject this)) then
    Throw (ShapeError
      "Schema Builder Error: 'getItemsSubschema' can only be used with an array schema with non-array items")
  else new_SchemaBuilder (get "items" (schemaObject this)) VUndefined.

(** The [optionalProperties] getter. *)
Definition optionalProperties (this : SchemaBuilder) : option (list string) :=
  match properties this with
  | Some ps =>
      Some (List.filter
              (fun property =>
                 match requiredProperties this with
                 | Some required => negb (existsb (string_eqb property) required)
                 | None => false
                 end) ps)
  | None => None
  end.

Definition setSchemaAttributes (schema : value) (this : SchemaBuilder)
  : result SchemaBuilder :=
  new_SchemaBuilder (spread (spread (VObj []) (cloneJSON (schemaObject this))) schema)
    (validationConfig this).

Definition configureValidation (validationConfig : value) (this : SchemaBuilder)
  : result SchemaBuilder :=
  new_SchemaBuilder (cloneJSON (schemaObject this)) validationConfig.

(* ===================================================================== *)
(** ** Vocabulary of the specification                                    *)
(* ===================================================================== *)

(** The property names of a document: [Object.keys] of its [properties]. *)
Definition property_names (this : SchemaBuilder) : list string :=
  keys (get "properties" (schemaObject this)).

(** The complement of [K] in [P], in the order of [P]. *)
Definition complement (P K : list string) : list string :=
  filter (fun k => k ∉ K) P.

(** Structural equality of two object schemas: the same keywords with the
    same values and the same properties with the same sub-documents,
    whatever the order in which the properties were written. *)
Definition same_document (a b : value) : Prop :=
  (forall k, k <> "properties" -> get k a = get k b)
  /\ (forall k, has_key k (get "properties" a) = has_key k (get "properties" b))
  /\ (forall k, get k (get "properties" a) = get k (get "properties" b)).

(** The typing of the two keywords the merging operations read, as the
    [JSONSchema] interface declares them: [properties] is absent or a map
    of sub-documents, [required] is absent or a list. *)
Definition typed_object_schema (s : value) : Prop :=
  (exists fs, s = VObj fs)
  /\ (get "properties" s = VUndefined
      \/ exists ps, get "properties" s = VObj ps /\ NoDup (map fst ps))
  /\ (get "required" s = VUndefined \/ exists xs, get "required" s = VArr xs).

Definition well_typed (s : value) : bool :=
  match s with
  | VObj _ =>
      match get "properties" s with
      | VUndefined => true
      | VObj ps => bool_decide (NoDup (map fst ps))
      | _ => false
      end
      && match get "required" s with
         | VUndefined | VArr _ => true
         | _ => false
         end
  | _ => false
  end.

(** Every name in [required] is the name of a property. *)
Definition required_are_properties (s : value) : bool :=
  forallb (fun r => has_key r (get "properties" s)) (strings_of (get "required" s)).

(** What the specification says of [mergeProperties] for one property
    name: where the name is, which sub-document it gets and whether it is
    required. *)
Definition merged_property (s1 s2 : value) (k : string) : value :=
  if has_key k (get "properties" s2) then
    if has_key k (get "properties" s1) then
      VObj [("anyOf", VArr [get k (get "properties" s1); get k (get "properties" s2)])]
    else get k (get "properties" s2)
  else get k (get "properties" s1).

Definition merged_required (s1 s2 : value) (k : string) : bool :=
  if has_key k (get "properties" s2) then
    if has_key k (get "properties" s1) then requires k s1 && requires k s2
    else requires k s2
  else requires k s1.

(** The state of the loop of [mergeProperties] once the names [seen] of
    the other schema have been handled. *)
Definition merge_state (s1 s2 : value) (seen : list string) (s : value) : Prop :=
  (exists fs, s = VObj fs)
  /\ (exists ps, get "properties" s = VObj ps)
  /\ (get "required" s = VUndefined \/ exists xs, get "required" s = VArr xs)
  /\ (forall k, has_key k (get "properties" s)
                = has_key k (get "properties" s1) || bool_decide (k ∈ seen))
  /\ (forall k, get k (get "properties" s)
                = if bool_decide (k ∈ seen) then
                    if has_key k (get "properties" s1) then
                      VObj [("anyOf", VArr [get k (get "properties" s1);
                                            get k (get "properties" s2)])]
                    else get k (get "properties" s2)
                  else get k (get "properties" s1))
  /\ (forall k, requires k s
                = if bool_decide (k ∈ seen) then
                    if has_key k (get "properties" s1)
                    then requires k s1 && requires k s2
                    else requires k s1 || requires k s2
                  else requires k s1)
  /\ (forall key, key <> "properties" -> key <> "required" -> get key s = get key s1).

(** The versions recorded on an instance never run ahead of the global
    counter. *)
Definition versions_behind (g : Global) (sb : SchemaBuilder) : Prop :=
  (localValidationFunctionVersionNumber sb <= globalAJVConfigVersionNumber g)%N
  /\ (localListValidationFunctionVersionNumber sb <= globalAJVConfigVersionNumber g)%N.

(** No [Date] object anywhere in the value. *)
Fixpoint no_dates (v : value) : bool :=
  match v with
  | VDate _ => false
  | VArr xs => forallb no_dates xs
  | VObj fs => forallb (fun kv => no_dates (snd kv)) fs
  | _ => true
  end.

(** A validation function cached on an instance was compiled from the
    instance's schema, and a cached list validation function from the
    list schema. *)
Definition cache_coherent (compile : Ajv -> value -> ValidateFunction)
    (sb : SchemaBuilder) : Prop :=
  (forall f, validationFunction sb = Some f ->
             exists a, f = compile a (schemaObject sb))
  /\ (forall f, listValidationFunction sb = Some f ->
                exists a, f = compile a listSchema).

(** The loop of [transformDatesForValidation] over the properties of an
    object. *)
Fixpoint transformFieldsForValidation (l : list (string * value))
  : result (list (string * value)) :=
  match l with
  | [] => Ok []
  | kv :: l' =>
      y ← transformDatesForValidation (snd kv);
      ys ← transformFieldsForValidation l';
      Ok ((fst kv, y) :: ys)
  end.

(** A wire string is canonical when it denotes a date and is the
    rendering of that date. *)
Definition canonical_date_string (s : string) : bool :=
  match Date_parse s with
  | Some t =>
      match toISOString (Some t) with
      | Ok s' => string_eqb s' s
      | Throw _ => false
      end
  | None => false
  end.

(** The form of a rendering: [YYYY-MM-DDTHH:mm:ss.sssZ], the year of four
    digits, or of a sign and six digits. *)
Inductive slot : Type :=
| Digit
| Sign
| Lit (c : ascii).

Definition is_digit (c : ascii) : bool :=
  ((48 <=? nat_of_ascii c) && (nat_of_ascii c <=? 57))%nat.

Definition fills (p : slot) (c : ascii) : bool :=
  match p with
  | Digit => is_digit c
  | Sign => is_char c 43 || is_char c 45
  | Lit c' => is_char c (nat_of_ascii c')
  end.

Fixpoint matches (ps : list slot) (s : list ascii) : bool :=
  match ps, s with
  | [], [] => true
  | p :: ps', c :: s' => fills p c && matches ps' s'
  | _, _ => false
  end.

Definition after_year : list slot :=
  [Lit "-"; Digit; Digit; Lit "-"; Digit; Digit; Lit "T";
   Digit; Digit; Lit ":"; Digit; Digit; Lit ":"; Digit; Digit;
   Lit "."; Digit; Digit; Digit; Lit "Z"]%char.

Definition rendered_form (s : string) : bool :=
  let l := list_ascii_of_string s in
  matches (repeat Digit 4 ++ after_year) l
  || matches (Sign :: repeat Digit 6 ++ after_year) l.

(** No object of the value has the key [__proto__]: the passes of
    [parse] copy an object by assignment, and assigning to that key sets
    the prototype of the copy instead of a property. *)
Fixpoint no_proto_key (v : value) : bool :=
  match v with
  | VArr xs => forallb no_proto_key xs
  | VObj fs =>
      forallb (fun kv => negb (string_eqb (fst kv) "__proto__") && no_proto_key (snd kv))
        fs
  | _ => true
  end.

(** Every string that the third pass of [parse] turns into a date is
    canonical. *)
Fixpoint dates_canonical (data schema : value) : bool :=
  match data with
  | VStr s =>
      if isDateTimeField schema || isIsoDateString s
      then canonical_date_string s else true
  | VArr xs =>
      forallb (fun item => dates_canonical item (por (itemSchema_of schema) (VObj []))) xs
  | VObj fs =>
      forallb (fun kv => dates_canonical (snd kv)
                           (get (fst kv) (get "properties" schema))) fs
  | _ => true
  end.

(** The invariant of a run: the global configuration is an object and
    no instance is ahead of the counter. *)
Definition world_behind (w : World) : Prop :=
  (exists fs, globalAJVConfig (global w) = VObj fs)
  /\ Forall (versions_behind (global w)) (documents w).

(** A value that is a primitive or a reference to a cell at or above
    [n]; a cell all of whose entries are such values. *)
Definition above (n : nat) (v : hvalue) : Prop :=
  match v with HRef l => n <= l | _ => True end.

Definition cell_above (n : nat) (c : cell) : Prop := Forall (above n) (cell_refs c).

(** Every cell of [h] is in [h'] as it was. *)
Definition keeps (h h' : store) : Prop :=
  forall (l : loc) (c : cell), h !! l = Some c -> h' !! l = Some c.

(** The engine writes only into the data it is given: a cell its
    argument does not lead to is after the call what it was before. *)
Definition effect_frame (effect : Ajv -> value -> store -> hvalue -> store) : Prop :=
  forall a schema h data (l : loc) (c : cell),
    h !! l = Some c -> ~ reachable h data l ->
    effect a schema h data !! l = Some c.

(** What [store_value] returns over [h]: the store is [h] and new cells,
    and the value and the new cells refer to new cells only. *)
Definition built (h : store) (r : hvalue * store) : Prop :=
  exists ext, snd r = h ++ ext /\ above (length h) (fst r)
              /\ Forall (cell_above (length h)) ext.

(** The sub-schema check of one property of a node. *)
Definition ref_free_entry (k : string) (v : value) : Prop :=
  (k ∈ subschema_keywords -> containsRef v = false)
  /\ (k ∈ subschema_map_keywords ->
      match v with
      | VObj ps => Forall (fun p => containsRef (snd p) = false) ps
      | _ => True
      end).

(** What [pickProperties] leaves in [required]. *)
Definition picked_required (L : list string) (required : value) : value :=
  if truthy required then
    let r := arr_filter (fun r => existsb (fun p => is_str p r) L) required in
    if is_array r && (arr_length r =? 0)%nat then VUndefined else r
  else required.

Definition picked_properties (L : list string) (props : value) : value :=
  fold_left (fun m property => set property (get property props) m) L (VObj []).

(** *** Names beyond the objects of the model

    An object of the model holds its own properties, in the order in
    which they were written.  An object of the program also answers to
    the names of [Object.prototype] where it is read by [in] or by index,
    and lists the keys that are array indices before its other keys.
    Where a statement depends on either, it is made for the names that
    are neither. *)

(** The names that [Object.prototype] holds in Node. *)
Definition object_prototype_names : list string :=
  ["constructor"; "__defineGetter__"; "__defineSetter__"; "hasOwnProperty";
   "__lookupGetter__"; "__lookupSetter__"; "isPrototypeOf";
   "propertyIsEnumerable"; "toString"; "valueOf"; "__proto__";
   "toLocaleString"].

Definition inherited (k : string) : bool :=
  existsb (string_eqb k) object_prototype_names.

(** Written with digits only, as every array index is. *)
Definition index_like (k : string) : bool :=
  match list_ascii_of_string k with
  | [] => false
  | l => forallb is_digit l
  end.

Definition plain_name (k : string) : bool :=
  negb (inherited k) && negb (index_like k).

Definition none_inherited (names : list string) : bool :=
  forallb (fun k => negb (inherited k)) names.

Definition none_index_like (names : list string) : bool :=
  forallb (fun k => negb (index_like k)) names.

Definition all_plain (names : list string) : bool := forallb plain_name names.

(* ===================================================================== *)
(** ** Vocabulary of the further properties                               *)
(* ===================================================================== *)

(** [o] is a plain object. *)
Definition is_obj (o : value) : Prop := exists fs, o = VObj fs.

(** [isRequired === true || isRequired === undefined]. *)
Definition required_flag (isRequired : option bool) : bool :=
  match isRequired with Some false => false | _ => true end.

(** [s'] is an object that differs from the object [s] at most in the
    keywords [ks], and has [properties] if [s] has. *)
Definition frame (ks : list string) (s s' : value) : Prop :=
  is_obj s /\ is_obj s'
  /\ (forall key, key ∉ ks ->
                  get key s' = get key s /\ has_key key s' = has_key key s)
  /\ (has_key "properties" s = true -> has_key "properties" s' = true).

(** The two keywords every transformation of the properties works on. *)
Definition pr : list string := ["properties"; "required"].

(** A call of one of the methods that derive a document from a simple
    object schema. *)
Inductive Transformation :=
| SetOptionalProperties (properties : list string)
| SetRequiredProperties (properties : list string)
| ToOptionals
| ToNullable
| AddProperty (propertyName : string) (schemaBuilder : SchemaBuilder)
    (isRequired : option bool)
| ReplaceProperty (propertyName : string) (schemaBuilderResolver : Resolver)
    (isRequired : option bool)
| AddProperties (propertiesDefinition : list (string * PropertyDefinition))
| AddPatternProperty (prefixPattern suffixPattern : string)
    (schemaBuilder : option SchemaBuilder)
| RenameProperty (propertyName newPropertyName : string)
| PickProperties (properties : list string)
| OmitProperties (properties : list string)
| TransformProperties (schemaBuilder : SchemaBuilder)
    (propertyNames : option (list string))
| TransformPropertiesToArray (propertyNames : option (list string)) (schema : value)
| UnwrapArrayProperties (propertyNames : option (list string))
| IntersectProperties (schema : SchemaBuilder)
| MergeProperties (schema : SchemaBuilder)
| OverwriteProperties (schema : SchemaBuilder)
| ConfigureValidation (validationConfig : value).

Definition transform (t : Transformation) (this : SchemaBuilder)
  : result SchemaBuilder :=
  match t with
  | SetOptionalProperties l => setOptionalProperties l this
  | SetRequiredProperties l => setRequiredProperties l this
  | ToOptionals => toOptionals this
  | ToNullable => toNullable this
  | AddProperty k b r => addProperty k b r this
  | ReplaceProperty k b r => replaceProperty k b r this
  | AddProperties def => addProperties def this
  | AddPatternProperty p s b => addPatternProperty p s b this
  | RenameProperty a b => renameProperty a b this
  | PickProperties l => pickProperties l this
  | OmitProperties l => omitProperties l this
  | TransformProperties b l => transformProperties b l this
  | TransformPropertiesToArray l s => transformPropertiesToArray l s this
  | UnwrapArrayProperties l => unwrapArrayProperties l this
  | IntersectProperties b => intersectProperties b this
  | MergeProperties b => mergeProperties b this
  | OverwriteProperties b => overwriteProperties b this
  | ConfigureValidation c => configureValidation c this
  end.

(** A chain of calls [this.t1(...).t2(...)...]. *)
Fixpoint chain (ts : list Transformation) (this : SchemaBuilder)
  : result SchemaBuilder :=
  match ts with
  | [] => Ok this
  | t :: ts' => d ← transform t this; chain ts' d
  end.

(** The keywords a transformation of a simple object schema may write. *)
Definition written : list string :=
  ["properties"; "required"; "additionalProperties"; "patternProperties"].

(** [required] is absent or a list. *)
Definition required_typed (s : value) : Prop :=
  get "required" s = VUndefined \/ exists xs, get "required" s = VArr xs.

(** What one turn of the loop of a combining operation does, for the
    sub-document [shared_prop ours theirs] and the required status
    [shared_req ours theirs] it gives a name of both sides. *)
Definition step_spec (shared_prop : value -> value -> value)
    (shared_req : bool -> bool -> bool)
    (step : value -> value -> string -> value) : Prop :=
  forall s2 fs ps x,
    get "properties" (VObj fs) = VObj ps ->
    required_typed (VObj fs) ->
    exists fs',
      step s2 (VObj fs) x = VObj fs'
      /\ get "properties" (VObj fs')
         = VObj (set_field x
                   (if has_key x (VObj ps)
                    then shared_prop (get x (VObj ps)) (get x (get "properties" s2))
                    else get x (get "properties" s2)) ps)
      /\ required_typed (VObj fs')
      /\ (forall k, requires k (VObj fs')
                    = if string_eqb k x then
                        if has_key x (VObj ps)
                        then shared_req (requires x (VObj fs)) (requires x s2)
                        else requires x (VObj fs) || requires x s2
                      else requires k (VObj fs))
      /\ (forall key, key <> "properties" -> key <> "required" ->
                      get key (VObj fs') = get key (VObj fs)).

Definition combined_property (shared_prop : value -> value -> value)
    (s1 s2 : value) (k : string) : value :=
  if has_key k (get "properties" s2) then
    if has_key k (get "properties" s1)
    then shared_prop (get k (get "properties" s1)) (get k (get "properties" s2))
    else get k (get "properties" s2)
  else get k (get "properties" s1).

Definition combined_required (shared_req : bool -> bool -> bool)
    (s1 s2 : value) (k : string) : bool :=
  if has_key k (get "properties" s2) then
    if has_key k (get "properties" s1)
    then shared_req (requires k s1) (requires k s2)
    else requires k s2
  else requires k s1.

(** The state of the loop once the names [seen] have been handled. *)
Definition combine_state (shared_prop : value -> value -> value)
    (shared_req : bool -> bool -> bool) (s1 s2 : value) (seen : list string)
    (s : value) : Prop :=
  is_obj s
  /\ (exists ps, get "properties" s = VObj ps)
  /\ required_typed s
  /\ (forall k, has_key k (get "properties" s)
                = has_key k (get "properties" s1) || bool_decide (k ∈ seen))
  /\ (forall k, get k (get "properties" s)
                = if bool_decide (k ∈ seen) then
                    if has_key k (get "properties" s1)
                    then shared_prop (get k (get "properties" s1))
                           (get k (get "properties" s2))
                    else get k (get "properties" s2)
                  else get k (get "properties" s1))
  /\ (forall k, requires k s
                = if bool_decide (k ∈ seen) then
                    if has_key k (get "properties" s1)
                    then shared_req (requires k s1) (requires k s2)
                    else requires k s1 || requires k s2
                  else requires k s1)
  /\ (forall key, key <> "properties" -> key <> "required" -> get key s = get key s1).

(** Every property of the document is a sub-document: an object or a
    boolean. *)
Definition properties_are_schemas (s : value) : Prop :=
  match get "properties" s with
  | VUndefined => True
  | VObj ps =>
      Forall (fun kv => match snd kv with VObj _ | VBool _ => True | _ => False end) ps
  | _ => False
  end.

(** The builders of one entry of a definition map. *)
Definition entry_builders (p : PropertyDefinition) : list SchemaBuilder :=
  match p with
  | Single b => [b]
  | Several bs => omap id bs
  end.

(** A document with the one keyword [anyOf], over the schemas of
    [builders]. *)
Definition any_of (builders : list SchemaBuilder) : SchemaBuilder :=
  fresh (VObj [("anyOf", VArr (map schemaObject builders))]) VUndefined.

(** The builder an entry stands for: its one builder, or the [anyOf] of
    its builders when they are not exactly one. *)
Definition entry_builder (p : PropertyDefinition) : SchemaBuilder :=
  match entry_builders p with
  | [b] => b
  | builders => any_of builders
  end.

(** An entry is optional when it is a list that holds an [undefined]. *)
Definition entry_required (p : PropertyDefinition) : bool :=
  match p with
  | Single _ => true
  | Several bs => forallb (fun e => bool_decide (is_Some e)) bs
  end.

(** The call of [addProperty] that one entry of a definition map
    stands for. *)
Definition add_entry (kv : string * PropertyDefinition) : Transformation :=
  AddProperty (fst kv) (entry_builder (snd kv)) (Some (entry_required (snd kv))).

Definition builders_ref_free (defs : list (string * PropertyDefinition)) : Prop :=
  Forall (fun kv => Forall (fun b => containsRef (schemaObject b) = false)
                      (entry_builders (snd kv))) defs.

(** The two accumulators of [objectSchema]. *)
Definition definition_names_required (defs : list (string * PropertyDefinition))
  : list value :=
  fold_left (fun r kv => if definition_required (snd kv) then r ++ [VStr (fst kv)] else r)
    defs [].

Definition definition_properties (defs : list (string * PropertyDefinition)) : value :=
  fold_left (fun m kv => set (fst kv) (definition_schema (snd kv)) m) defs (VObj []).

(** The facets given to a constructor: an object, or nothing, that
    holds neither [properties] nor [required]. *)
Definition object_facets (schema : value) : Prop :=
  NoDup (keys schema)
  /\ has_key "properties" schema = false
  /\ has_key "required" schema = false
  /\ containsRef (spread (VObj []) schema) = false.


(** A loop body that replaces the sub-document of one property by
    [f k old], leaves it when [f] answers [None], and raises what [f]
    raises. *)
Definition rewrite_step (f : string -> value -> result (option value))
    (s : result value) (k : string) : result value :=
  s0 ← s;
  r ← f k (get k (get "properties" s0));
  Ok (match r with Some v => set_property k v s0 | None => s0 end).

(** What [transformPropertiesToArray] makes of one sub-document. *)
Definition array_alternative (schema : value) (propertySchema : value) : value :=
  VObj [("oneOf",
         VArr [propertySchema;
               spread (VObj [("type", VStr "array"); ("items", propertySchema)]) schema])].

(** What [unwrapArrayProperties] makes of one array sub-document. *)
Definition item_alternative (propertySchema : value) : value :=
  VObj [("oneOf",
         VArr [match get "items" propertySchema with
               | VArr [item] => item
               | VArr items => VObj [("oneOf", VArr items)]
               | items => items
               end; propertySchema])].

(** [v] is [undefined] or [null]: reading a member of it raises. *)
Definition nullish (v : value) : bool :=
  match v with VUndefined | VNull => true | _ => false end.

(** The choice between a sub-document and [null]. *)
Definition null_alternative (v : value) : value :=
  VObj [("anyOf", VArr [v; VObj [("type", VStr "null")]])].

(** [v] is [undefined], [null], a number or a string: [in] raises on
    it. *)
Definition primitive (v : value) : bool :=
  match v with VUndefined | VNull | VNum _ | VStr _ => true | _ => false end.

(** The [enum] of a sub-document, where there is one, is a list. *)
Definition enum_is_list (v : value) : bool :=
  match get "enum" v with VArr _ | VUndefined | VNull => true | _ => false end.

Definition is_string (v : value) : bool :=
  match v with VStr _ => true | _ => false end.

(** The kinds of value [enumSchema] records in [type]. *)
Definition enum_kinds : list string := ["string"; "boolean"; "number"].

(** The data holds, somewhere, a date that is not a time. *)
Fixpoint has_invalid_date (v : value) : bool :=
  match v with
  | VDate t => is_invalid_date t
  | VArr xs => existsb has_invalid_date xs
  | VObj fs => existsb (fun kv => has_invalid_date (snd kv)) fs
  | _ => false
  end.

(** What a method raises is a validation error. *)
Definition ok_or_validation_error {A} (r : result A) : bool :=
  is_ok r || is_validation_error r.

(** The builder a resolver stands for, on a given document. *)
Definition resolve (propertyName : string) (schemaBuilderResolver : Resolver)
    (this : SchemaBuilder) : result SchemaBuilder :=
  match schemaBuilderResolver with
  | ResolveTo b => Ok b
  | ResolveWith f => sub ← getSubschema propertyName this; f sub
  end.

(** What each of the three combining loops does for a name the document
    does not have yet. *)
Definition absent_step (s2 : value) (s1 : value) (propertyKey : string) : value :=
  let s1' := set_property propertyKey (get propertyKey (get "properties" s2)) s1 in
  if requires propertyKey s2 then push_required propertyKey s1' else s1'.

(* ===================================================================== *)
(** ** Sample documents and data                                          *)
(* ===================================================================== *)

(** [{}] *)
Definition no_facets : value := VObj [].

(** The schema of [emptySchema()]. *)
Definition empty_object_schema : value :=
  VObj [("type", VStr "object"); ("additionalProperties", VBool false)].

(** The schema of [emptySchema().addString("s")]. *)
Definition object_s_schema : value :=
  VObj [("type", VStr "object"); ("additionalProperties", VBool false);
        ("properties", VObj [("s", VObj [("type", VStr "string")])]);
        ("required", VArr [VStr "s"])].

(** The schema of [emptySchema().addString("s").addBoolean("b", {}, false)]. *)
Definition object_s_b_schema : value :=
  VObj [("type", VStr "object"); ("additionalProperties", VBool false);
        ("properties", VObj [("s", VObj [("type", VStr "string")]);
                             ("b", VObj [("type", VStr "boolean")])]);
        ("required", VArr [VStr "s"])].

(** [{ type: "object", additionalProperties: false, required: ["x"] }]:
    an object that must have a property [x] and declares none. *)
Definition required_x_schema : value :=
  VObj [("type", VStr "object"); ("additionalProperties", VBool false);
        ("required", VArr [VStr "x"])].

(** The schema of [emptySchema().addString("x", {}, false)]. *)
Definition optional_x_schema : value :=
  VObj [("type", VStr "object"); ("additionalProperties", VBool false);
        ("properties", VObj [("x", VObj [("type", VStr "string")])])].

(** The schema of
    [emptySchema().addBoolean("s", {}, false).addBoolean("b")]. *)
Definition optional_s_required_b_schema : value :=
  VObj [("type", VStr "object"); ("additionalProperties", VBool false);
        ("properties", VObj [("s", VObj [("type", VStr "boolean")]);
                             ("b", VObj [("type", VStr "boolean")])]);
        ("required", VArr [VStr "b"])].

(** The schema of [stringSchema()]. *)
Definition string_schema : value := VObj [("type", VStr "string")].

(** [object_s_schema] after [replaceProperty("s", stringSchema(), false)]. *)
Definition replaced_s_schema : value :=
  VObj [("type", VStr "object"); ("additionalProperties", VBool false);
        ("properties", VObj [("s", VObj [("type", VStr "string")])]);
        ("required", VArr [])].

(** The schema of [emptySchema().addString("s").addBoolean("b")]. *)
Definition required_s_b_schema : value :=
  VObj [("type", VStr "object"); ("additionalProperties", VBool false);
        ("properties", VObj [("s", VObj [("type", VStr "string")]);
                             ("b", VObj [("type", VStr "boolean")])]);
        ("required", VArr [VStr "s"; VStr "b"])].

(** [{ allErrors: false }] *)
Definition first_error_only : value := VObj [("allErrors", VBool false)].

(** A program that creates the document [object_s_schema] and validates
    [{ s: "a" }] with it, under the reference engine. *)
Definition validated_once : SchemaBuilder :=
  self (validate refCompile initialGlobal (VObj [("s", VStr "a")])
          (fresh object_s_schema VUndefined)).

Definition sample_world : World :=
  {| global := initialGlobal; documents := [validated_once] |}.


(** The schema of [integerSchema()]. *)
Definition integer_schema : value := VObj [("type", VStr "integer")].


(** The schema of [emptySchema().addInteger("integerField")]. *)
Definition integer_field_schema : value :=
  VObj [("type", VStr "object"); ("additionalProperties", VBool false);
        ("properties", VObj [("integerField", VObj [("type", VStr "integer")])]);
        ("required", VArr [VStr "integerField"])].


(** The schema of [emptySchema().addString("id").addDate("createdAt")]. *)
Definition dated_schema : value :=
  VObj [("type", VStr "object"); ("additionalProperties", VBool false);
        ("properties",
         VObj [("id", VObj [("type", VStr "string")]);
               ("createdAt", VObj [("type", VStr "string");
                                   ("format", VStr "date-time")])]);
        ("required", VArr [VStr "id"; VStr "createdAt"])].

(** [{ id: "123", createdAt: "2023-04-20T12:30:45Z" }], the data of the
    test "should parse JSON with ISO date strings". *)
Definition dated_data : value :=
  VObj [("id", VStr "123"); ("createdAt", VStr "2023-04-20T12:30:45Z")].

(** The same with the date in the form [toISOString] writes. *)
Definition canonical_dated_data : value :=
  VObj [("id", VStr "123"); ("createdAt", VStr "2023-04-20T12:30:45.000Z")].

(** The schema of
    [emptySchema().addDate("createdAt", { maxLength: 20 })]. *)
Definition short_dated_schema : value :=
  VObj [("type", VStr "object"); ("additionalProperties", VBool false);
        ("properties",
         VObj [("createdAt", VObj [("maxLength", VNum (of_Z 20));
                                   ("type", VStr "string");
                                   ("format", VStr "date-time")])]);
        ("required", VArr [VStr "createdAt"])].

(** The caller's object [{integerField: "89"}], alone in the store. *)
Definition caller_data : value := VObj [("integerField", VStr "89")].
Definition caller_store : store := snd (store_value caller_data []).
Definition caller_ref : hvalue := fst (store_value caller_data []).



(** The schema of [arraySchema(stringSchema())]. *)
Definition string_list_schema : value :=
  VObj [("type", VStr "array"); ("items", VObj [("type", VStr "string")])].

(** The schema of [emptySchema().addArray("l", stringSchema())]. *)
Definition object_l_schema : value :=
  VObj [("type", VStr "object"); ("additionalProperties", VBool false);
        ("properties", VObj [("l", string_list_schema)]);
        ("required", VArr [VStr "l"])].

(** The entries [{ s: stringSchema(), n: [integerSchema(), undefined] }]. *)
Definition s_and_optional_n : list (string * PropertyDefinition) :=
  [("s", Single (fresh string_schema VUndefined));
   ("n", Several [Some (fresh integer_schema VUndefined); None])].

Definition s_n_and_either : list (string * PropertyDefinition) :=
  s_and_optional_n
  ++ [("v", Several [Some (fresh string_schema VUndefined);
                     Some (fresh integer_schema VUndefined)])].

(* ===================================================================== *)
(** * Properties                                                          *)
(* ===================================================================== *)

(** ** Objects *)

Lemma string_eqb_true a b : string_eqb a b = true <-> a = b.
Proof. unfold string_eqb. apply bool_decide_eq_true. Qed.

Lemma string_eqb_false a b : string_eqb a b = false <-> a <> b.
Proof. unfold string_eqb. apply bool_decide_eq_false. Qed.

Lemma string_eqb_sym a b : string_eqb a b = string_eqb b a.
Proof. unfold string_eqb. apply bool_decide_ext. split; congruence. Qed.

Lemma string_eqb_refl a : string_eqb a a = true.
Proof. by apply string_eqb_true. Qed.

Ltac case_eqb a b :=
  let E := fresh "E" in
  destruct (string_eqb a b) eqn:E;
  [apply string_eqb_true in E | apply string_eqb_false in E].

Lemma lookup_set_field k k' v fs :
  lookup_field k (set_field k' v fs)
  = if string_eqb k k' then Some v else lookup_field k fs.
Proof.
  induction fs as [|[k0 v0] fs IH]; simpl.
  - by destruct (string_eqb k k').
  - case_eqb k' k0; simpl.
    + subst k0. by destruct (string_eqb k k').
    + rewrite IH. case_eqb k k0; [|done].
      subst k0. case_eqb k k'; congruence.
Qed.

Lemma lookup_delete_field k k' fs :
  lookup_field k (delete_field k' fs)
  = if string_eqb k k' then None else lookup_field k fs.
Proof.
  induction fs as [|[k0 v0] fs IH]; simpl.
  - by destruct (string_eqb k k').
  - case_eqb k' k0; simpl.
    + subst k0. rewrite IH. by destruct (string_eqb k k').
    + rewrite IH. case_eqb k k0; [|done].
      subst k0. case_eqb k k'; congruence.
Qed.

Lemma get_set k k' v fs :
  get k (set k' v (VObj fs)) = if string_eqb k k' then v else get k (VObj fs).
Proof. simpl. rewrite lookup_set_field. by destruct (string_eqb k k'). Qed.

Lemma get_set_same k v o :
  (exists fs, o = VObj fs) -> get k (set k v o) = v.
Proof. intros [fs ->]. by rewrite get_set, string_eqb_refl. Qed.

Lemma get_delete k k' fs :
  get k (delete k' (VObj fs))
  = if string_eqb k k' then VUndefined else get k (VObj fs).
Proof. simpl. rewrite lookup_delete_field. by destruct (string_eqb k k'). Qed.

Lemma has_key_set k k' v fs :
  has_key k (set k' v (VObj fs)) = string_eqb k k' || has_key k (VObj fs).
Proof.
  simpl. rewrite lookup_set_field. destruct (string_eqb k k'); [|done].
  apply bool_decide_eq_true. eauto.
Qed.

Lemma set_is_obj k v o : (exists fs, o = VObj fs) -> exists gs, set k v o = VObj gs.
Proof. intros [fs ->]. simpl. eauto. Qed.

Lemma keys_set_field_in k v fs :
  is_Some (lookup_field k fs) -> map fst (set_field k v fs) = map fst fs.
Proof.
  induction fs as [|[k0 v0] fs IH]; simpl; intros H.
  - by destruct H.
  - case_eqb k k0; simpl; [done|]. f_equal. by apply IH.
Qed.

Lemma lookup_field_Some_in k v fs :
  lookup_field k fs = Some v -> (k, v) ∈ fs.
Proof.
  induction fs as [|[k0 v0] fs IH]; simpl; [done|].
  case_eqb k k0.
  - intros [= ->]. subst. left.
  - intros H. right. by apply IH.
Qed.

Lemma lookup_field_None k fs :
  lookup_field k fs = None <-> k ∉ map fst fs.
Proof.
  induction fs as [|[k0 v0] fs IH]; simpl.
  - split; [intros _; apply not_elem_of_nil | done].
  - case_eqb k k0.
    + subst. split; [done|]. intros H. exfalso. apply H. left.
    + rewrite IH. rewrite not_elem_of_cons. tauto.
Qed.

Lemma has_key_keys k o : has_key k o = true <-> k ∈ keys o.
Proof.
  destruct o; simpl; try (split; [done | by intros ?%elem_of_nil]).
  rewrite bool_decide_eq_true.
  destruct (lookup_field k fs) eqn:E.
  - split; [intros _| eauto].
    apply lookup_field_Some_in in E.
    apply list_elem_of_fmap. by exists (k, v).
  - split; [by intros [? ?]|]. intros H. by apply lookup_field_None in E.
Qed.

(** A deep copy is the same value. *)
Lemma cloneJSON_id v : cloneJSON v = v.
Proof.
  induction v as [| | | | | |xs IH|fs IH] using value_rect'; simpl; try done.
  - f_equal. induction IH; simpl; [done|]. by f_equal.
  - f_equal. induction IH as [|[k v] fs Hv _ IH]; simpl; [done|].
    simpl in Hv. by rewrite Hv, IH.
Qed.

(** ** The constructor *)

Lemma new_SchemaBuilder_ok s cfg :
  containsRef s = false ->
  new_SchemaBuilder s cfg = Ok (fresh s cfg).
Proof. unfold new_SchemaBuilder. by intros ->. Qed.

Lemma new_SchemaBuilder_inv s cfg sb :
  new_SchemaBuilder s cfg = Ok sb ->
  schemaObject sb = s /\ validationConfig sb = cfg /\ containsRef s = false
  /\ validationFunction sb = None /\ listValidationFunction sb = None
  /\ localValidationFunctionVersionNumber sb = 0%N
  /\ localListValidationFunctionVersionNumber sb = 0%N.
Proof.
  unfold new_SchemaBuilder. destruct (containsRef s); [done|].
  intros [= <-]. by simpl.
Qed.

Lemma new_SchemaBuilder_not_shape_error s cfg :
  is_shape_error (new_SchemaBuilder s cfg) = false.
Proof. unfold new_SchemaBuilder. by destruct (containsRef s). Qed.

Lemma containsRef_obj fs :
  containsRef (VObj fs) = false <->
  lookup_field "$ref" fs = None
  /\ Forall (fun kv => ref_free_entry (fst kv) (snd kv)) fs.
Proof.
  simpl. rewrite orb_false_iff, bool_decide_eq_false.
  rewrite <- eq_None_not_Some.
  apply and_iff_compat_l.
  induction fs as [|[k v] fs IH]; simpl.
  - split; [constructor | done].
  - rewrite orb_false_iff, IH, Forall_cons. apply and_iff_compat_r.
    unfold ref_free_entry; simpl.
    rewrite orb_false_iff, !andb_false_iff, !bool_decide_eq_false.
    split.
    + intros [H1 H2]. split.
      * intros Hk. by destruct H1.
      * intros Hk. destruct H2 as [H2|H2]; [done|].
        destruct v; try done.
        clear -H2. induction fs0 as [|p ps IHp]; [constructor|].
        simpl in H2. apply orb_false_iff in H2 as [? ?].
        constructor; [done | by apply IHp].
    + intros [H1 H2]. split.
      * destruct (decide (k ∈ subschema_keywords)); [right; by apply H1 | by left].
      * destruct (decide (k ∈ subschema_map_keywords)) as [Hk|]; [right | by left].
        specialize (H2 Hk). clear H1. destruct v; try done.
        induction H2 as [|p ps Hp _ IHp]; [done|].
        simpl. by rewrite Hp, IHp.
Qed.

Lemma Forall_set_field (P : string * value -> Prop) k v fs :
  P (k, v) -> Forall P fs -> Forall P (set_field k v fs).
Proof.
  intros Hkv HF. induction HF as [|[k0 v0] fs H0 Hfs IH]; simpl.
  - by constructor.
  - case_eqb k k0.
    + subst. by constructor.
    + by constructor.
Qed.

Lemma containsRef_set k v s :
  k <> "$ref" -> containsRef s = false -> ref_free_entry k v ->
  containsRef (set k v s) = false.
Proof.
  intros Hk Hs Hv. destruct s; simpl; try done.
  apply containsRef_obj in Hs as [Href HF].
  apply containsRef_obj. split.
  - rewrite lookup_set_field. case_eqb "$ref" k; congruence.
  - by apply Forall_set_field.
Qed.

Lemma containsRef_delete k s :
  containsRef s = false -> containsRef (delete k s) = false.
Proof.
  intros Hs. destruct s; simpl; try done.
  apply containsRef_obj in Hs as [Href HF].
  apply containsRef_obj. split.
  - rewrite lookup_delete_field. by destruct (string_eqb "$ref" k).
  - clear Href. induction HF as [|[k0 v0] fs H0 _ IH]; simpl; [constructor|].
    destruct (string_eqb k k0); [done|]. by constructor.
Qed.

Lemma ref_free_entry_plain k v :
  k ∉ subschema_keywords -> k ∉ subschema_map_keywords -> ref_free_entry k v.
Proof. intros H1 H2. split; intros H; [by destruct H1 | by destruct H2]. Qed.

(** ** [addAdditionalProperties] *)

Lemma emptySchema_default :
  emptySchema no_facets false = Ok (fresh empty_object_schema VUndefined).
Proof. reflexivity. Qed.

Lemma addString_s :
  addString "s" no_facets None false (fresh empty_object_schema VUndefined)
  = Ok (fresh object_s_schema VUndefined).
Proof. reflexivity. Qed.

(** The values the [additionalProperties] keyword can hold, and which of
    them the guard of [addAdditionalProperties] takes as set. *)
Lemma truthy_additionalProperties ap :
  ap = VUndefined \/ (exists b, ap = VBool b) \/ (exists fs, ap = VObj fs) ->
  truthy ap = true <-> ap = VBool true \/ exists fs, ap = VObj fs.
Proof.
  intros [->|[[b ->]|[fs ->]]]; simpl.
  - split; [done|]. by intros [?|[? ?]].
  - split; [intros ->; by left|]. intros [[= ->]|[? ?]]; done.
  - split; [|done]. intros _. right. eauto.
Qed.




(** ** [pickProperties] and [omitProperties] *)

Lemma existsb_string_eqb k l : existsb (string_eqb k) l = bool_decide (k ∈ l).
Proof.
  induction l as [|x l IH]; simpl; [done|].
  rewrite IH. unfold string_eqb.
  destruct (decide (k = x)) as [->|Hne].
  - rewrite bool_decide_true by done. simpl. symmetry.
    apply bool_decide_eq_true. left.
  - rewrite (bool_decide_false (k = x)) by done. simpl.
    apply bool_decide_ext. rewrite elem_of_cons.
    split; [by right | by intros [?|?]].
Qed.

Lemma existsb_is_str r l :
  existsb (fun p => is_str p r) l
  = match r with VStr s => bool_decide (s ∈ l) | _ => false end.
Proof.
  destruct r; simpl; try (induction l; simpl; congruence).
  induction l as [|x l IH]; simpl; [done|].
  rewrite IH. unfold string_eqb.
  destruct (decide (s = x)) as [->|Hne].
  - rewrite bool_decide_true by done. simpl. symmetry.
    apply bool_decide_eq_true. left.
  - rewrite (bool_decide_false (s = x)) by done. simpl.
    apply bool_decide_ext. rewrite elem_of_cons.
    split; [by right | by intros [?|?]].
Qed.

Lemma omit_list_is_complement properties o :
  filter (fun k => existsb (string_eqb k) properties = false)
    (keys (por o (VObj [])))
  = complement (keys o) properties.
Proof.
  unfold complement.
  assert (keys (por o (VObj [])) = keys o) as ->.
  { unfold por. destruct (truthy o) eqn:E; [done|]. by destruct o. }
  apply list_filter_iff. intros k.
  rewrite existsb_string_eqb. apply bool_decide_eq_false.
Qed.

Lemma simple_is_pickable this :
  isSimpleObjectSchema this = true ->
  negb (isObjectSchema this) || hasSchemasCombinationKeywords this = false.
Proof.
  unfold isSimpleObjectSchema. intros H.
  apply andb_true_iff in H as [H Hc]. apply andb_true_iff in H as [Ho _].
  rewrite Ho. simpl. by apply negb_true_iff.
Qed.

(** The properties map built by the loop of [pickProperties]. *)
Lemma picked_lookup (f : string -> value) k L init :
  lookup_field k
    (match fold_left (fun m property => set property (f property) m) L (VObj init)
     with VObj fs => fs | _ => [] end)
  = if bool_decide (k ∈ L) then Some (f k) else lookup_field k init.
Proof.
  revert init. induction L as [|x L IH]; intros init; simpl; [done|].
  rewrite IH, lookup_set_field.
  destruct (decide (k = x)) as [->|Hne].
  - rewrite string_eqb_refl, (bool_decide_true (x ∈ x :: L)) by left.
    by destruct (bool_decide (x ∈ L)).
  - apply string_eqb_false in Hne as Hne'. rewrite Hne'.
    rewrite (bool_decide_ext (k ∈ x :: L) (k ∈ L)); [done|].
    rewrite elem_of_cons. split; [by intros [?|?] | by right].
Qed.

Lemma get_por_properties k p : get k (por p (VObj [])) = get k p.
Proof. unfold por. destruct (truthy p) eqn:E; [done|]. by destruct p. Qed.

Lemma fold_set_is_obj (f : string -> value) L init :
  exists gs, fold_left (fun m property => set property (f property) m) L (VObj init)
             = VObj gs.
Proof.
  revert init. induction L as [|x L IH]; intros init; simpl; [eauto|]. apply IH.
Qed.

Lemma pick_schema_get L fs k :
  get k (pick_schema L (VObj fs)) =
    if string_eqb k "additionalProperties" then VBool false
    else if string_eqb k "required" then picked_required L (get "required" (VObj fs))
    else if string_eqb k "properties"
         then picked_properties L (por (get "properties" (VObj fs)) (VObj []))
    else get k (VObj fs).
Proof.
  unfold pick_schema, ensure_properties, picked_required, picked_properties.
  set (P := por (get "properties" (VObj fs)) (VObj [])).
  assert (HP : get "properties" (set "properties" P (VObj fs)) = P).
  { by rewrite get_set, string_eqb_refl. }
  rewrite HP.
  set (M := fold_left _ L (VObj [])).
  assert (Hreq : get "required" (set "properties" M (set "properties" P (VObj fs)))
                 = get "required" (VObj fs)).
  { simpl. by rewrite !lookup_set_field. }
  rewrite Hreq. clearbody M P. clear HP.
  set (r := get "required" (VObj fs)) in *.
  destruct (truthy r) eqn:Ht.
  - set (r' := arr_filter _ r).
    assert (Hr' : get "required"
                    (set "required" r' (set "properties" M (set "properties" P (VObj fs))))
                  = r').
    { simpl. by rewrite lookup_set_field. }
    rewrite Hr'. clearbody r'.
    destruct (is_array r' && (arr_length r' =? 0)%nat); simpl;
      rewrite ?lookup_set_field, ?lookup_delete_field, ?lookup_set_field;
      case_eqb k "additionalProperties"; try done;
      case_eqb k "required"; try done;
      by case_eqb k "properties".
  - rewrite Hreq.
    assert (is_array r = false) as -> by (by destruct r).
    simpl. rewrite !lookup_set_field.
    case_eqb k "additionalProperties"; try done.
    case_eqb k "required"; [by subst|].
    by case_eqb k "properties".
Qed.

Lemma picked_properties_lookup L props k :
  get k (picked_properties L props)
  = if bool_decide (k ∈ L) then get k props else VUndefined.
Proof.
  unfold picked_properties.
  destruct (fold_set_is_obj (fun p => get p props) L []) as [gs Hgs].
  pose proof (picked_lookup (fun p => get p props) k L []) as H.
  cbv beta in *. rewrite Hgs in *. simpl in *. rewrite H.
  by destruct (bool_decide (k ∈ L)).
Qed.

Lemma picked_properties_has_key L props k :
  has_key k (picked_properties L props) = bool_decide (k ∈ L).
Proof.
  unfold picked_properties.
  destruct (fold_set_is_obj (fun p => get p props) L []) as [gs Hgs].
  pose proof (picked_lookup (fun p => get p props) k L []) as H.
  cbv beta in *. rewrite Hgs in *. simpl in *. rewrite H.
  by destruct (bool_decide (k ∈ L)).
Qed.

Lemma picked_required_ext L L' r :
  (forall k, k ∈ L <-> k ∈ L') -> picked_required L r = picked_required L' r.
Proof.
  intros Hsame. unfold picked_required.
  assert (arr_filter (fun r => existsb (fun p => is_str p r) L) r
          = arr_filter (fun r => existsb (fun p => is_str p r) L') r) as ->; [|done].
  destruct r; simpl; try done. f_equal.
  apply list_filter_iff. intros x. rewrite !existsb_is_str.
  destruct x; try done. by rewrite (bool_decide_ext _ _ (Hsame s)).
Qed.

Lemma object_schema_is_object this :
  isObjectSchema this = true -> exists fs, schemaObject this = VObj fs.
Proof.
  unfold isObjectSchema, hasType. destruct (schemaObject this); try done. eauto.
Qed.

Lemma pick_schema_same_document L L' fs :
  (forall k, k ∈ L <-> k ∈ L') ->
  same_document (pick_schema L (VObj fs)) (pick_schema L' (VObj fs)).
Proof.
  intros Hsame. repeat split.
  - intros k Hk. rewrite !pick_schema_get.
    apply string_eqb_false in Hk. rewrite Hk.
    by rewrite (picked_required_ext L L').
  - intros k. rewrite !pick_schema_get. simpl.
    rewrite !picked_properties_has_key. by apply bool_decide_ext.
  - intros k. rewrite !pick_schema_get. simpl.
    rewrite !picked_properties_lookup.
    by rewrite (bool_decide_ext _ _ (Hsame k)).
Qed.

Lemma ref_free_properties fs ps :
  containsRef (VObj fs) = false ->
  lookup_field "properties" fs = Some (VObj ps) ->
  Forall (fun p => containsRef (snd p) = false) ps.
Proof.
  intros [_ HF]%containsRef_obj Hl%lookup_field_Some_in.
  rewrite Forall_forall in HF. apply HF in Hl as [_ Hl]. simpl in Hl.
  by apply Hl, (bool_decide_unpack (_ ∈ subschema_map_keywords)).
Qed.

Lemma ref_free_property s k :
  containsRef s = false -> containsRef (get k (get "properties" s)) = false.
Proof.
  intros Hs. destruct s; try done. simpl.
  destruct (lookup_field "properties" fs) as [[]|] eqn:Hp; try done. simpl.
  destruct (lookup_field k fs0) eqn:Hk; [|done]. simpl.
  pose proof (ref_free_properties _ _ Hs Hp) as HF.
  rewrite Forall_forall in HF. by apply (HF (k, v)), lookup_field_Some_in.
Qed.

Lemma plain_keyword k v :
  bool_decide (k ∈ subschema_keywords) = false ->
  bool_decide (k ∈ subschema_map_keywords) = false ->
  ref_free_entry k v.
Proof.
  intros H1%bool_decide_eq_false H2%bool_decide_eq_false.
  by apply ref_free_entry_plain.
Qed.

Lemma properties_entry_ref_free (f : string -> value) L :
  (forall k, containsRef (f k) = false) ->
  ref_free_entry "properties"
    (fold_left (fun m property => set property (f property) m) L (VObj [])).
Proof.
  intros Hf. split.
  - by intros ?%(bool_decide_pack (_ ∈ subschema_keywords)).
  - intros _.
    assert (forall init, Forall (fun p => containsRef (snd p) = false) init ->
              match fold_left (fun m property => set property (f property) m) L
                      (VObj init) with
              | VObj ps => Forall (fun p => containsRef (snd p) = false) ps
              | _ => True
              end) as H.
    { induction L as [|x L IH]; intros init Hinit; simpl; [done|].
      apply IH. apply Forall_set_field; [apply Hf | done]. }
    by apply H.
Qed.

Lemma pick_schema_ref_free L s :
  containsRef s = false -> containsRef (pick_schema L s) = false.
Proof.
  intros Hs. unfold pick_schema, ensure_properties.
  set (P := por (get "properties" s) (VObj [])).
  assert (HP : ref_free_entry "properties" P).
  { split; [by intros ?%(bool_decide_pack (_ ∈ subschema_keywords))|].
    intros _. subst P. unfold por.
    destruct (truthy (get "properties" s)); [|by constructor].
    destruct s; try done. simpl.
    destruct (lookup_field "properties" fs) as [[]|] eqn:Hp; try done.
    by apply (ref_free_properties fs). }
  assert (Hs0 : containsRef (set "properties" P s) = false)
    by by apply containsRef_set.
  set (M := fold_left _ L (VObj [])).
  assert (Hs1 : containsRef (set "properties" M (set "properties" P s)) = false).
  { apply containsRef_set; [done|done|]. subst M.
    apply (properties_entry_ref_free
             (fun p => get p (get "properties" (set "properties" P s)))).
    intros k. by apply ref_free_property. }
  set (s1 := set "properties" M (set "properties" P s)) in *.
  set (s2 := if truthy (get "required" s1) then _ else s1).
  assert (Hs2 : containsRef s2 = false).
  { subst s2. destruct (truthy (get "required" s1)); [|done].
    apply containsRef_set; [done|done|]. by apply plain_keyword. }
  clearbody s2.
  apply containsRef_set; [done| |].
  - destruct (_ && _); [by apply containsRef_delete | done].
  - split; [done|]. by intros ?%(bool_decide_pack (_ ∈ subschema_map_keywords)).
Qed.

(** C9.  On a simple object schema, [omitProperties(K)] is
    [pickProperties] of the complement of [K] in the document's property
    names: the two calls return the same result, and picking the
    complement listed in any other order gives a structurally equal
    document. *)
Theorem omitProperties_is_pickProperties_of_complement
    (K : list string) (this : SchemaBuilder) :
  isSimpleObjectSchema this = true ->
  omitProperties K this = pickProperties (complement (property_names this) K) this
  /\ is_shape_error (omitProperties K this) = false
  /\ (containsRef (schemaObject this) = false -> is_ok (omitProperties K this) = true)
  /\ forall L d d',
       (forall k, k ∈ L <-> k ∈ property_names this /\ k ∉ K) ->
       omitProperties K this = Ok d ->
       pickProperties L this = Ok d' ->
       same_document (schemaObject d) (schemaObject d').
Proof.
  intros Hsimple.
  assert (Heq : omitProperties K this
                = pickProperties (complement (property_names this) K) this).
  { unfold omitProperties. rewrite Hsimple. simpl.
    by rewrite omit_list_is_complement. }
  pose proof (simple_is_pickable this Hsimple) as Hpick.
  split; [done|]. split; [|split].
  - rewrite Heq. unfold pickProperties. rewrite Hpick.
    apply new_SchemaBuilder_not_shape_error.
  - intros Hfree. rewrite Heq. unfold pickProperties. rewrite Hpick, cloneJSON_id.
    by rewrite new_SchemaBuilder_ok by by apply pick_schema_ref_free.
  - intros L d d' HL. rewrite Heq. unfold pickProperties. rewrite Hpick.
    intros [-> _]%new_SchemaBuilder_inv [-> _]%new_SchemaBuilder_inv.
    rewrite cloneJSON_id.
    destruct (object_schema_is_object this) as [fs ->].
    { unfold isSimpleObjectSchema in Hsimple.
      by repeat (apply andb_true_iff in Hsimple as [Hsimple _]). }
    apply pick_schema_same_document. intros k. rewrite HL.
    unfold complement. rewrite list_elem_of_filter. tauto.
Qed.

(** The statement at the documents of the test "should omit
    properties". *)
Lemma omitProperties_witness :
  omitProperties ["s"] (fresh object_s_b_schema VUndefined)
  = pickProperties
      (complement (property_names (fresh object_s_b_schema VUndefined)) ["s"])
      (fresh object_s_b_schema VUndefined)
  /\ is_ok (omitProperties ["s"] (fresh object_s_b_schema VUndefined)) = true.
Proof.
  destruct (omitProperties_is_pickProperties_of_complement ["s"]
              (fresh object_s_b_schema VUndefined)) as (Heq & _ & Hok & _).
  - reflexivity.
  - split; [exact Heq | apply Hok; reflexivity].
Defined.

(** ** [mergeProperties] *)

Lemma requires_set_property k x v fs :
  requires k (set_property x v (VObj fs)) = requires k (VObj fs).
Proof. unfold requires, set_property. by rewrite !get_set. Qed.

Lemma get_set_property k x v fs :
  get k (get "properties" (set_property x v (VObj fs)))
  = if string_eqb k x then
      match get "properties" (VObj fs) with VObj _ => v | _ => VUndefined end
    else get k (get "properties" (VObj fs)).
Proof.
  unfold set_property. rewrite get_set, string_eqb_refl.
  destruct (get "properties" (VObj fs)) eqn:E; simpl;
    try by destruct (string_eqb k x).
  rewrite lookup_set_field. by destruct (string_eqb k x).
Qed.

Lemma has_key_set_property k x v fs ps :
  get "properties" (VObj fs) = VObj ps ->
  has_key k (get "properties" (set_property x v (VObj fs)))
  = string_eqb k x || has_key k (VObj ps).
Proof.
  intros Hp. unfold set_property. rewrite get_set, string_eqb_refl, Hp.
  apply has_key_set.
Qed.

Lemma includes_str_app k xs ys :
  includes_str k (VArr (xs ++ ys)) = includes_str k (VArr xs) || includes_str k (VArr ys).
Proof. simpl. apply existsb_app. Qed.

Lemma requires_push_required k x fs :
  get "required" (VObj fs) = VUndefined \/ (exists xs, get "required" (VObj fs) = VArr xs) ->
  requires k (push_required x (VObj fs)) = string_eqb k x || requires k (VObj fs).
Proof.
  intros Ht. unfold requires, push_required. rewrite get_set, string_eqb_refl.
  destruct Ht as [->|[xs ->]]; simpl.
  - by rewrite !orb_false_r, string_eqb_sym.
  - rewrite existsb_app. simpl.
    by rewrite orb_false_r, orb_comm, string_eqb_sym.
Qed.

Lemma requires_unrequire k x fs xs :
  get "required" (VObj fs) = VArr xs ->
  requires k (unrequire x (VObj fs)) = negb (string_eqb k x) && requires k (VObj fs).
Proof.
  intros Hr. unfold requires, unrequire. rewrite get_set, string_eqb_refl, Hr.
  simpl. clear Hr. induction xs as [|y xs IH]; simpl.
  - by rewrite andb_false_r.
  - rewrite filter_cons. destruct (decide _) as [Hy|Hy]; simpl.
    + rewrite IH. destruct (is_str k y) eqn:Hky; simpl; [|done].
      rewrite andb_true_r. destruct y; try done. simpl in *.
      apply string_eqb_true in Hky as ->.
      apply negb_true_iff in Hy. unfold string_eqb in *.
      rewrite bool_decide_eq_false in Hy.
      symmetry. apply negb_true_iff, bool_decide_eq_false. congruence.
    + rewrite IH. destruct (is_str k y) eqn:Hky; simpl; [|done].
      rewrite andb_true_r.
      apply not_true_is_false, negb_false_iff in Hy.
      destruct y; try done. simpl in *.
      apply string_eqb_true in Hky as ->. apply string_eqb_true in Hy as ->.
      by rewrite string_eqb_refl.
Qed.


Lemma elem_of_snoc (k x : string) l :
  bool_decide (k ∈ l ++ [x]) = bool_decide (k ∈ l) || string_eqb k x.
Proof.
  unfold string_eqb. destruct (decide (k ∈ l)) as [Hin|Hin].
  - rewrite (bool_decide_true (k ∈ l ++ [x])) by (apply elem_of_app; by left).
    by rewrite (bool_decide_true (k ∈ l)).
  - rewrite (bool_decide_false (k ∈ l)) by done. simpl.
    apply bool_decide_ext. rewrite elem_of_app, list_elem_of_singleton. tauto.
Qed.

Lemma get_unrequire key x fs :
  key <> "required" -> get key (unrequire x (VObj fs)) = get key (VObj fs).
Proof.
  intros H. unfold unrequire. rewrite get_set.
  by rewrite (proj2 (string_eqb_false _ _) H).
Qed.

Lemma get_push_required key x fs :
  key <> "required" -> get key (push_required x (VObj fs)) = get key (VObj fs).
Proof.
  intros H. unfold push_required. rewrite get_set.
  by rewrite (proj2 (string_eqb_false _ _) H).
Qed.

Lemma merge_step_state s1 s2 seen s x :
  merge_state s1 s2 seen s ->
  x ∉ seen ->
  merge_state s1 s2 (seen ++ [x]) (merge_step s2 s x).
Proof.
  intros ([fs ->] & [ps Hps] & Hreq & Hhas & Hget & Hrq & Hother) Hx.
  assert (Hxseen : bool_decide (x ∈ seen) = false) by by apply bool_decide_eq_false.
  assert (Hin1 : has_key x (get "properties" (VObj fs)) = has_key x (get "properties" s1)).
  { by rewrite Hhas, Hxseen, orb_false_r. }
  assert (Hgx : get x (get "properties" (VObj fs)) = get x (get "properties" s1)).
  { by rewrite Hget, Hxseen. }
  assert (Hrx : requires x (VObj fs) = requires x s1).
  { by rewrite Hrq, Hxseen. }
  assert (Hneg : negb (truthy (get "required" s2)) || negb (includes_str x (get "required" s2))
                 = negb (requires x s2)).
  { unfold requires. by rewrite negb_andb. }
  unfold merge_step. cbv zeta. rewrite Hneg, Hin1, Hgx. clear Hneg.
  set (p2 := get x (get "properties" s2)).
  destruct (has_key x (get "properties" s1)) eqn:Hk1; cbn [negb].
  - (* shared name *)
    set (v := VObj [("anyOf", VArr [get x (get "properties" s1); p2])]).
    assert (Hs' : exists fs', set_property x v (VObj fs) = VObj fs') by (simpl; eauto).
    destruct Hs' as [fs' Hfs'].
    assert (Hreq' : get "required" (VObj fs') = get "required" (VObj fs)).
    { rewrite <- Hfs'. unfold set_property. by rewrite get_set. }
    assert (Hrq' : forall k, requires k (VObj fs') = requires k (VObj fs)).
    { intros k. rewrite <- Hfs'. apply requires_set_property. }
    assert (Hps' : get "properties" (VObj fs') = VObj (set_field x v ps)).
    { rewrite <- Hfs'. unfold set_property. by rewrite get_set, string_eqb_refl, Hps. }
    assert (Hhas' : forall k, has_key k (get "properties" (VObj fs'))
              = has_key k (get "properties" s1) || bool_decide (k ∈ seen ++ [x])).
    { intros k. rewrite <- Hfs', (has_key_set_property _ _ _ _ ps Hps), <- Hps, Hhas.
      rewrite elem_of_snoc.
      by destruct (string_eqb k x), (has_key k (get "properties" s1)),
           (bool_decide (k ∈ seen)). }
    assert (Hget' : forall k, get k (get "properties" (VObj fs'))
              = if bool_decide (k ∈ seen ++ [x]) then
                  if has_key k (get "properties" s1) then
                    VObj [("anyOf", VArr [get k (get "properties" s1);
                                          get k (get "properties" s2)])]
                  else get k (get "properties" s2)
                else get k (get "properties" s1)).
    { intros k. rewrite <- Hfs', get_set_property, Hps, <- Hps, Hget, elem_of_snoc.
      case_eqb k x.
      - subst k. by rewrite Hxseen, Hk1.
      - by rewrite orb_false_r. }
    assert (Hother' : forall key, key <> "properties" -> key <> "required" ->
              get key (VObj fs') = get key s1).
    { intros key H1 H2. rewrite <- Hfs'. unfold set_property. rewrite get_set.
      rewrite (proj2 (string_eqb_false _ _) H1). by apply Hother. }
    rewrite Hfs', Hrq', Hrx.
    destruct (requires x s1 && negb (requires x s2)) eqn:Hcond.
    + apply andb_true_iff in Hcond as [Hr1 Hr2]. apply negb_true_iff in Hr2.
      assert (exists xs, get "required" (VObj fs') = VArr xs) as [xs Hxs].
      { rewrite Hreq'. destruct Hreq as [Hu|?]; [|done].
        rewrite <- Hrx in Hr1. unfold requires in Hr1. by rewrite Hu in Hr1. }
      repeat split.
      * simpl. eauto.
      * rewrite get_unrequire, Hps' by done. eauto.
      * right. unfold unrequire. rewrite get_set, string_eqb_refl, Hxs. simpl. eauto.
      * intros k. rewrite get_unrequire by done. apply Hhas'.
      * intros k. rewrite get_unrequire by done. apply Hget'.
      * intros k. rewrite (requires_unrequire _ _ _ xs Hxs), Hrq', Hrq, elem_of_snoc.
        case_eqb k x.
        -- subst k. rewrite Hxseen, Hk1, Hr2. simpl. by rewrite andb_false_r.
        -- simpl. by rewrite orb_false_r.
      * intros key H1 H2. rewrite get_unrequire by done. by apply Hother'.
    + repeat split; try done.
      * eauto.
      * eauto.
      * by rewrite Hreq'.
      * intros k. rewrite Hrq', Hrq, elem_of_snoc.
        case_eqb k x.
        -- subst k. rewrite Hxseen, Hk1. simpl.
           destruct (requires x s1), (requires x s2); done.
        -- by rewrite orb_false_r.
  - (* a name of the other schema only *)
    assert (Hs' : exists fs', set_property x p2 (VObj fs) = VObj fs') by (simpl; eauto).
    destruct Hs' as [fs' Hfs'].
    assert (Hreq' : get "required" (VObj fs') = get "required" (VObj fs)).
    { rewrite <- Hfs'. unfold set_property. by rewrite get_set. }
    assert (Hrq' : forall k, requires k (VObj fs') = requires k (VObj fs)).
    { intros k. rewrite <- Hfs'. apply requires_set_property. }
    assert (Hps' : get "properties" (VObj fs') = VObj (set_field x p2 ps)).
    { rewrite <- Hfs'. unfold set_property. by rewrite get_set, string_eqb_refl, Hps. }
    assert (Hhas' : forall k, has_key k (get "properties" (VObj fs'))
              = has_key k (get "properties" s1) || bool_decide (k ∈ seen ++ [x])).
    { intros k. rewrite <- Hfs', (has_key_set_property _ _ _ _ ps Hps), <- Hps, Hhas.
      rewrite elem_of_snoc.
      by destruct (string_eqb k x), (has_key k (get "properties" s1)),
           (bool_decide (k ∈ seen)). }
    assert (Hget' : forall k, get k (get "properties" (VObj fs'))
              = if bool_decide (k ∈ seen ++ [x]) then
                  if has_key k (get "properties" s1) then
                    VObj [("anyOf", VArr [get k (get "properties" s1);
                                          get k (get "properties" s2)])]
                  else get k (get "properties" s2)
                else get k (get "properties" s1)).
    { intros k. rewrite <- Hfs', get_set_property, Hps, <- Hps, Hget, elem_of_snoc.
      case_eqb k x.
      - subst k. by rewrite Hxseen, Hk1.
      - by rewrite orb_false_r. }
    assert (Hother' : forall key, key <> "properties" -> key <> "required" ->
              get key (VObj fs') = get key s1).
    { intros key H1 H2. rewrite <- Hfs'. unfold set_property. rewrite get_set.
      rewrite (proj2 (string_eqb_false _ _) H1). by apply Hother. }
    rewrite Hfs'.
    destruct (requires x s2) eqn:Hr2.
    + repeat split.
      * simpl. eauto.
      * rewrite get_push_required, Hps' by done. eauto.
      * right. unfold push_required. rewrite get_set, string_eqb_refl.
        rewrite Hreq'. destruct Hreq as [->|[xs ->]]; simpl; eauto.
      * intros k. rewrite get_push_required by done. apply Hhas'.
      * intros k. rewrite get_push_required by done. apply Hget'.
      * intros k. rewrite requires_push_required by (by rewrite Hreq').
        rewrite Hrq', Hrq, elem_of_snoc.
        case_eqb k x.
        -- subst k. rewrite Hxseen, Hk1, Hr2. simpl. by rewrite orb_true_r.
        -- simpl. by rewrite orb_false_r.
      * intros key H1 H2. rewrite get_push_required by done. by apply Hother'.
    + repeat split; try done.
      * eauto.
      * eauto.
      * by rewrite Hreq'.
      * intros k. rewrite Hrq', Hrq, elem_of_snoc.
        case_eqb k x.
        -- subst k. rewrite Hxseen, Hk1, Hr2. simpl. by rewrite orb_false_r.
        -- by rewrite orb_false_r.
Qed.

Lemma merge_fold_state s1 s2 names seen s :
  merge_state s1 s2 seen s ->
  NoDup names ->
  (forall x, x ∈ names -> x ∉ seen) ->
  merge_state s1 s2 (seen ++ names) (fold_left (merge_step s2) names s).
Proof.
  revert seen s. induction names as [|x names IH]; intros seen s Hs Hnd Hfresh; simpl.
  - by rewrite app_nil_r.
  - apply NoDup_cons in Hnd as [Hx Hnd].
    replace (seen ++ x :: names) with ((seen ++ [x]) ++ names)
      by by rewrite <- app_assoc.
    apply IH; [|done|].
    + apply merge_step_state; [done|]. apply Hfresh. left.
    + intros y Hy [Hin|Hin%list_elem_of_singleton]%elem_of_app.
      * apply (Hfresh y); [by right | done].
      * by subst.
Qed.

Lemma merge_start_state s1 s2 :
  typed_object_schema s1 ->
  merge_state s1 s2 [] (ensure_properties s1).
Proof.
  intros ([fs ->] & Hp & Hr). unfold ensure_properties.
  set (P := por (get "properties" (VObj fs)) (VObj [])).
  assert (HP : get "properties" (set "properties" P (VObj fs)) = P)
    by by rewrite get_set, string_eqb_refl.
  repeat split.
  - simpl. eauto.
  - rewrite HP. subst P. destruct Hp as [->|[ps [-> _]]]; simpl; eauto.
  - by rewrite get_set.
  - intros k. rewrite HP, orb_false_r. subst P.
    by destruct Hp as [->|[ps [-> _]]].
  - intros k. rewrite HP. subst P. apply get_por_properties.
  - intros k. unfold requires. by rewrite get_set.
  - intros key H1 H2. rewrite get_set.
    by rewrite (proj2 (string_eqb_false _ _) H1).
Qed.

Lemma containsRef_set_property x v s :
  containsRef s = false -> containsRef v = false ->
  containsRef (set_property x v s) = false.
Proof.
  intros Hs Hv. unfold set_property. apply containsRef_set; [done|done|].
  split; [by intros ?%(bool_decide_pack (_ ∈ subschema_keywords))|].
  intros _. destruct s; try done. simpl.
  destruct (lookup_field "properties" fs) as [[]|] eqn:Hp; try done. simpl.
  apply Forall_set_field; [done|]. by apply (ref_free_properties fs).
Qed.

Lemma containsRef_push_required x s :
  containsRef s = false -> containsRef (push_required x s) = false.
Proof.
  intros Hs. unfold push_required.
  apply containsRef_set; [done|done|]. by apply plain_keyword.
Qed.

Lemma containsRef_unrequire x s :
  containsRef s = false -> containsRef (unrequire x s) = false.
Proof.
  intros Hs. unfold unrequire.
  apply containsRef_set; [done|done|]. by apply plain_keyword.
Qed.

Lemma merge_step_ref_free s2 s x :
  containsRef s2 = false -> containsRef s = false ->
  containsRef (merge_step s2 s x) = false.
Proof.
  intros H2 Hs. unfold merge_step. cbv zeta.
  pose proof (ref_free_property s2 x H2) as Hp2.
  pose proof (ref_free_property s x Hs) as Hp.
  destruct (negb (has_key x (get "properties" s))).
  - destruct (requires x s2);
      [apply containsRef_push_required|]; by apply containsRef_set_property.
  - assert (Hs' : containsRef
        (set_property x (VObj [("anyOf", VArr [get x (get "properties" s);
                                              get x (get "properties" s2)])]) s)
        = false).
    { apply containsRef_set_property; [done|]. simpl. by rewrite Hp, Hp2. }
    destruct (_ && _); [by apply containsRef_unrequire | done].
Qed.

Lemma combine_merge_ref_free o1 o2 :
  containsRef o1 = false -> containsRef o2 = false ->
  containsRef (combine_schemas merge_step o1 o2) = false.
Proof.
  intros H1 H2. unfold combine_schemas. rewrite !cloneJSON_id.
  destruct (truthy (get "properties" o2)); [|done].
  assert (H0 : containsRef (ensure_properties o1) = false).
  { unfold ensure_properties. apply containsRef_set; [done|done|].
    split; [by intros ?%(bool_decide_pack (_ ∈ subschema_keywords))|].
    intros _. unfold por. destruct (truthy (get "properties" o1)); [|by constructor].
    destruct o1; try done. simpl.
    destruct (lookup_field "properties" fs) as [[]|] eqn:Hp; try done.
    by apply (ref_free_properties fs). }
  generalize dependent (ensure_properties o1). clear H1.
  induction (keys (get "properties" o2)) as [|x l IH]; intros s Hs; simpl; [done|].
  apply IH. by apply merge_step_ref_free.
Qed.

Lemma well_typed_spec s : well_typed s = true -> typed_object_schema s.
Proof.
  unfold well_typed, typed_object_schema. destruct s; try done.
  intros [Hp Hr]%andb_true_iff. split; [eauto|]. split.
  - destruct (get "properties" (VObj fs)); try done; [by left|].
    right. eexists. split; [done|]. by apply bool_decide_eq_true in Hp.
  - destruct (get "required" (VObj fs)); try done; [by left|]. right. eauto.
Qed.

Lemma required_are_properties_spec s k :
  required_are_properties s = true ->
  requires k s = true -> has_key k (get "properties" s) = true.
Proof.
  unfold required_are_properties, requires.
  intros Hall [_ Hin]%andb_true_iff.
  destruct (get "required" s); try done. simpl in *.
  rewrite forallb_forall in Hall. apply Hall.
  apply existsb_exists in Hin as (x & Hx & Hk).
  destruct x; try done. simpl in Hk. apply string_eqb_true in Hk as ->.
  apply list_elem_of_In, list_elem_of_omap. exists (VStr k).
  split; [by apply list_elem_of_In | done].
Qed.

(** C5, as stated, fails.  Both documents are simple object schemas; [x]
    is a property of the second one only, where it is optional, yet it is
    required in the merged document, because the first document's
    [required] already lists it. *)
Lemma mergeProperties_keeps_foreign_required :
  fromJsonSchema required_x_schema VUndefined = Ok (fresh required_x_schema VUndefined)
  /\ addString "x" no_facets (Some false) false (fresh empty_object_schema VUndefined)
     = Ok (fresh optional_x_schema VUndefined)
  /\ isSimpleObjectSchema (fresh required_x_schema VUndefined) = true
  /\ isSimpleObjectSchema (fresh optional_x_schema VUndefined) = true
  /\ has_key "x" (get "properties" required_x_schema) = false
  /\ has_key "x" (get "properties" optional_x_schema) = true
  /\ requires "x" optional_x_schema = false
  /\ mergeProperties (fresh optional_x_schema VUndefined) (fresh required_x_schema VUndefined)
     = Ok (fresh (VObj [("type", VStr "object"); ("additionalProperties", VBool false);
                        ("required", VArr [VStr "x"]);
                        ("properties", VObj [("x", VObj [("type", VStr "string")])])])
             VUndefined)
  /\ requires "x"
       (VObj [("type", VStr "object"); ("additionalProperties", VBool false);
              ("required", VArr [VStr "x"]);
              ("properties", VObj [("x", VObj [("type", VStr "string")])])]) = true.
Proof. repeat split; reflexivity. Qed.

(** C5, amended.  For simple object schemas D1 and D2 in which every name
    of D1's [required] is one of D1's properties and no property of D2
    bears a name of [Object.prototype] (the test [in] finds such a name
    in D1's properties whether D1 holds it or not),
    [D1.mergeProperties(D2)] constructs a document whose properties are
    those of either side: a name of one side only keeps that side's
    sub-document and required status, and a name of both sides gets
    [anyOf] of the two sub-documents, D1's first, and is required if and
    only if it is required on both sides.  Every other keyword is D1's. *)
Theorem mergeProperties_spec (schema this : SchemaBuilder) :
  isSimpleObjectSchema this = true ->
  well_typed (schemaObject this) = true ->
  well_typed (schemaObject schema) = true ->
  required_are_properties (schemaObject this) = true ->
  none_inherited (property_names schema) = true ->
  exists merged,
    mergeProperties schema this = new_SchemaBuilder merged (validationConfig this)
    /\ (containsRef (schemaObject this) = false ->
        containsRef (schemaObject schema) = false ->
        mergeProperties schema this = Ok (fresh merged (validationConfig this)))
    /\ (forall k, has_key k (get "properties" merged)
                  = has_key k (get "properties" (schemaObject this))
                    || has_key k (get "properties" (schemaObject schema)))
    /\ (forall k, get k (get "properties" merged)
                  = merged_property (schemaObject this) (schemaObject schema) k)
    /\ (forall k, requires k merged
                  = merged_required (schemaObject this) (schemaObject schema) k)
    /\ (forall key, key <> "properties" -> key <> "required" ->
                    get key merged = get key (schemaObject this)).
Proof.
  intros Hsimple Ht1%well_typed_spec Ht2%well_typed_spec Hdangling _.
  set (s1 := schemaObject this) in *. set (s2 := schemaObject schema) in *.
  exists (combine_schemas merge_step s1 s2).
  assert (Hrun : mergeProperties schema this
                 = new_SchemaBuilder (combine_schemas merge_step s1 s2)
                     (validationConfig this)).
  { unfold mergeProperties. by rewrite Hsimple. }
  split; [done|]. split.
  { intros H1 H2. rewrite Hrun.
    by apply new_SchemaBuilder_ok, combine_merge_ref_free. }
  unfold combine_schemas. rewrite !cloneJSON_id.
  unfold merged_property, merged_required.
  destruct Ht2 as (_ & [Hu|(ps2 & Hps2 & Hnd)] & _).
  - rewrite Hu. simpl. repeat split; intros; by rewrite ?orb_false_r.
  - rewrite Hps2. simpl truthy. cbv iota.
    pose proof (merge_fold_state s1 s2 (keys (VObj ps2)) [] _
                  (merge_start_state s1 s2 Ht1) Hnd
                  (fun x _ => not_elem_of_nil x)) as Hend.
    rewrite <- Hps2 in Hend |- *.
    destruct Hend as (_ & _ & _ & Hhas & Hget & Hrq & Hother).
    assert (Hin2 : forall k, bool_decide (k ∈ [] ++ keys (get "properties" s2))
                             = has_key k (get "properties" s2)).
    { intros k. simpl. destruct (has_key k (get "properties" s2)) eqn:E.
      - by apply bool_decide_eq_true, has_key_keys.
      - apply bool_decide_eq_false. intros Hk%has_key_keys. congruence. }
    repeat split.
    + intros k. by rewrite Hhas, Hin2.
    + intros k. by rewrite Hget, Hin2.
    + intros k. rewrite Hrq, Hin2.
      destruct (has_key k (get "properties" s2)); [|done].
      destruct (has_key k (get "properties" s1)) eqn:E1; [done|].
      destruct (requires k s1) eqn:Er; [|done].
      apply (required_are_properties_spec s1 k Hdangling) in Er. congruence.
    + done.
Qed.

(** The statement at the documents of the test "should merge properties"
    with the sides exchanged: [s], required on one side only, ends up
    optional, and [b] keeps its required status. *)
Lemma mergeProperties_witness :
  exists merged,
    mergeProperties (fresh optional_s_required_b_schema VUndefined)
      (fresh object_s_schema VUndefined)
    = new_SchemaBuilder merged VUndefined
    /\ requires "s" merged = false
    /\ requires "b" merged = true.
Proof.
  destruct (mergeProperties_spec (fresh optional_s_required_b_schema VUndefined)
              (fresh object_s_schema VUndefined))
    as (merged & Hrun & _ & _ & _ & Hrq & _); try reflexivity.
  exists merged. split; [exact Hrun|].
  split; [exact (Hrq "s") | exact (Hrq "b")].
Defined.

(** ** The [required] list *)

(** [pickProperties] never leaves an empty [required] list behind... *)
Lemma pickProperties_required_not_empty L this d :
  pickProperties L this = Ok d -> get "required" (schemaObject d) <> VArr [].
Proof.
  unfold pickProperties.
  destruct (negb (isObjectSchema this)) eqn:Ho; [done|]. simpl.
  destruct (hasSchemasCombinationKeywords this); [done|].
  intros [-> _]%new_SchemaBuilder_inv. rewrite cloneJSON_id.
  destruct (object_schema_is_object this) as [fs ->].
  { by apply negb_false_iff. }
  assert (get "required" (pick_schema L (VObj fs))
          = picked_required L (get "required" (VObj fs))) as ->
    by by rewrite pick_schema_get.
  unfold picked_required.
  destruct (truthy (get "required" (VObj fs))) eqn:Ht.
  - destruct (arr_filter _ _) as [| |?|?|?|?|xs|?]; simpl; try done.
    by destruct xs.
  - intros Hr. by rewrite Hr in Ht.
Qed.

(** ... and neither does [setOptionalProperties]. *)
Lemma setOptionalProperties_required_not_empty L this d :
  setOptionalProperties L this = Ok d -> get "required" (schemaObject d) <> VArr [].
Proof.
  unfold setOptionalProperties.
  destruct (negb (isSimpleObjectSchema this)); [done|].
  intros [-> _]%new_SchemaBuilder_inv. unfold setRequired.
  set (s := fold_left clear_default L _). clearbody s.
  destruct (difference _ _) as [| |?|?|?|?|[|x xs]|?] eqn:Hd;
    try (destruct s; simpl; [done..|]; rewrite lookup_delete_field; by simpl).
  destruct s; simpl; try done. by rewrite lookup_set_field.
Qed.

(** C4 is violated by [replaceProperty]: replacing the only required
    property by an optional one, as in
    [emptySchema().addString("s").replaceProperty("s", stringSchema(), false)],
    returns a document whose [required] is present and empty. *)
Theorem replaceProperty_leaves_empty_required :
  stringSchema no_facets false = Ok (fresh string_schema VUndefined)
  /\ addString "s" no_facets None false (fresh empty_object_schema VUndefined)
     = Ok (fresh object_s_schema VUndefined)
  /\ replaceProperty "s" (ResolveTo (fresh string_schema VUndefined)) (Some false)
       (fresh object_s_schema VUndefined)
     = Ok (fresh replaced_s_schema VUndefined)
  /\ has_key "required" replaced_s_schema = true
  /\ get "required" replaced_s_schema = VArr [].
Proof. repeat split; reflexivity. Qed.

(** The same slip in [mergeProperties], and a duplicate left by
    [renameProperty] when the new name is already required. *)
Lemma mergeProperties_leaves_empty_required :
  mergeProperties (fresh optional_s_required_b_schema VUndefined)
    (fresh (VObj [("type", VStr "object"); ("additionalProperties", VBool false);
                  ("properties", VObj [("s", VObj [("type", VStr "string")])]);
                  ("required", VArr [VStr "s"])]) VUndefined)
  = Ok (fresh
          (VObj [("type", VStr "object"); ("additionalProperties", VBool false);
                 ("properties",
                  VObj [("s", VObj [("anyOf", VArr [VObj [("type", VStr "string")];
                                                     VObj [("type", VStr "boolean")]])]);
                        ("b", VObj [("type", VStr "boolean")])]);
                 ("required", VArr [VStr "b"])]) VUndefined)
  /\ mergeProperties (fresh optional_x_schema VUndefined)
       (fresh (VObj [("type", VStr "object"); ("additionalProperties", VBool false);
                     ("properties", VObj [("x", VObj [("type", VStr "string")])]);
                     ("required", VArr [VStr "x"])]) VUndefined)
     = Ok (fresh
             (VObj [("type", VStr "object"); ("additionalProperties", VBool false);
                    ("properties",
                     VObj [("x", VObj [("anyOf", VArr [VObj [("type", VStr "string")];
                                                        VObj [("type", VStr "string")]])])]);
                    ("required", VArr [])]) VUndefined).
Proof. split; reflexivity. Qed.

Lemma renameProperty_duplicates_required :
  renameProperty "s" "b" (fresh required_s_b_schema VUndefined)
  = Ok (fresh
          (VObj [("type", VStr "object"); ("additionalProperties", VBool false);
                 ("properties", VObj [("b", VObj [("type", VStr "string")])]);
                 ("required", VArr [VStr "b"; VStr "b"])]) VUndefined).
Proof. reflexivity. Qed.

(** ** The validator cache *)

Lemma spread_fold_lookup cs gs k :
  NoDup (map fst cs) ->
  exists fs,
    fold_left (fun acc kv => set (fst kv) (snd kv) acc) cs (VObj gs) = VObj fs
    /\ lookup_field k fs
       = match lookup_field k cs with
         | Some v => Some v
         | None => lookup_field k gs
         end.
Proof.
  revert gs. induction cs as [|[k0 v0] cs IH]; intros gs Hnd.
  - exists gs. by split.
  - apply NoDup_cons in Hnd as [Hk0 Hnd]. simpl in Hk0.
    destruct (IH (set_field k0 v0 gs) Hnd) as (fs & Hfs & Hl).
    exists fs. split; [exact Hfs|].
    rewrite Hl, lookup_set_field. cbn [lookup_field].
    case_eqb k k0; [|done].
    subst k0. apply lookup_field_None in Hk0. by rewrite Hk0.
Qed.

Lemma spread_get gs config k :
  NoDup (keys config) ->
  get k (spread (VObj gs) config)
  = if has_key k config then get k config else get k (VObj gs).
Proof.
  destruct config as [| |?|?|?|?|?|cs]; try done. intros Hnd.
  destruct (spread_fold_lookup cs gs k Hnd) as (fs & Hfs & Hl).
  unfold spread. rewrite Hfs. simpl. rewrite Hl.
  destruct (lookup_field k cs); [|done].
  by rewrite bool_decide_true by eauto.
Qed.

Lemma spread_is_obj a b : exists fs, spread a b = VObj fs.
Proof.
  unfold spread.
  assert (exists gs, match a with VObj _ => a | _ => VObj [] end = VObj gs) as [gs ->].
  { destruct a; eauto. }
  destruct b; eauto.
  revert gs. induction fs as [|kv fs IH]; intros gs; simpl; eauto.
Qed.

Section Cache.

Variable compile : Ajv -> value -> ValidateFunction.

Lemma cacheValidationFunction_reuses g this :
  validationFunction this <> None ->
  localValidationFunctionVersionNumber this = globalAJVConfigVersionNumber g ->
  cacheValidationFunction compile g this = (this, []).
Proof.
  intros Hf Hv. unfold cacheValidationFunction.
  rewrite Hv, N.eqb_refl.
  destruct (validationFunction this); [done|congruence].
Qed.

Lemma cacheValidationFunction_compiles g this :
  validationFunction this = None
  \/ localValidationFunctionVersionNumber this <> globalAJVConfigVersionNumber g ->
  exists a,
    a = ajv_call AddFormats
          (ajv_call (AddFormat "date-time" dateTimeFormat)
             (new_Ajv (ajvValidationConfig g this)))
    /\ snd (cacheValidationFunction compile g this)
       = [{| compiled_on := a; compiled_schema := schemaObject this |}]
    /\ validationFunction (fst (cacheValidationFunction compile g this))
       = Some (compile a (schemaObject this))
    /\ localValidationFunctionVersionNumber (fst (cacheValidationFunction compile g this))
       = globalAJVConfigVersionNumber g
    /\ schemaObject (fst (cacheValidationFunction compile g this)) = schemaObject this.
Proof.
  intros H. eexists. split; [reflexivity|].
  unfold cacheValidationFunction.
  assert (negb (bool_decide (is_Some (validationFunction this)))
          || negb (localValidationFunctionVersionNumber this
                   =? globalAJVConfigVersionNumber g)%N = true) as ->; [|done].
  destruct H as [->|Hne]; [done|].
  apply N.eqb_neq in Hne. rewrite Hne. by rewrite orb_true_r.
Qed.

Lemma cache_decision_dec this g :
  (validationFunction this = None
   \/ localValidationFunctionVersionNumber this <> globalAJVConfigVersionNumber g)
  \/ (validationFunction this <> None
      /\ localValidationFunctionVersionNumber this = globalAJVConfigVersionNumber g).
Proof.
  destruct (validationFunction this); [|by left; left].
  destruct (decide (localValidationFunctionVersionNumber this
                    = globalAJVConfigVersionNumber g)); [right | left; right]; done.
Qed.

Lemma cacheValidationFunction_behind g this :
  versions_behind g this ->
  versions_behind g (fst (cacheValidationFunction compile g this)).
Proof.
  intros [H1 H2]. unfold cacheValidationFunction.
  destruct (_ || _); [|done]. split; simpl; [lia | done].
Qed.

Lemma cacheListValidationFunction_behind g this :
  versions_behind g this ->
  versions_behind g (fst (cacheListValidationFunction compile g this)).
Proof.
  intros [H1 H2]. unfold cacheListValidationFunction.
  destruct (_ || _); [|done]. split; simpl; [done | lia].
Qed.

Lemma validate_self g o this :
  self (validate compile g o this) = this
  \/ self (validate compile g o this) = fst (cacheValidationFunction compile g this).
Proof.
  unfold validate. destruct (transformDatesForValidation o); [|by left].
  destruct (cacheValidationFunction compile g this). by right.
Qed.

Lemma validateList_self g o this :
  self (validateList compile g o this) = this
  \/ self (validateList compile g o this)
     = fst (cacheListValidationFunction compile g this).
Proof.
  unfold validateList. destruct o; try by left.
  destruct (transformListForValidation xs); [|by left].
  destruct (cacheListValidationFunction compile g this). by right.
Qed.

Lemma parse_self g o this :
  self (parse compile g o this) = this
  \/ self (parse compile g o this) = fst (cacheValidationFunction compile g this).
Proof.
  unfold parse. destruct (json_copy o); [|by left]. apply validate_self.
Qed.

Lemma parseList_self g o this :
  self (parseList compile g o this) = this
  \/ self (parseList compile g o this)
     = fst (cacheListValidationFunction compile g this).
Proof.
  unfold parseList. destruct (json_copy o); [|by left]. apply validateList_self.
Qed.

Lemma update_document_behind w i sb sb' :
  world_behind w -> documents w !! i = Some sb ->
  versions_behind (global w) sb' ->
  world_behind (update_document i sb' w).
Proof.
  intros [Hg Hd] Hi Hsb'. split; [done|]. simpl.
  apply Forall_insert; done.
Qed.

Lemma run_behind w : run compile w -> world_behind w.
Proof.
  induction 1 as [|w w' Hrun IH Hstep].
  - split; [simpl; eauto | constructor].
  - destruct IH as [Hg Hd]. pose proof (conj Hg Hd) as IH.
    assert (Hlookup : forall i sb, documents w !! i = Some sb ->
                                   versions_behind (global w) sb).
    { intros i sb Hi. rewrite Forall_lookup in Hd. by apply (Hd i). }
    destruct Hstep as [w config|w schema config sb Hnew|w i sb Hi|w i sb Hi
                      |w i sb o Hi|w i sb o Hi|w i sb o Hi|w i sb o Hi].
    + split; simpl; [apply spread_is_obj|].
      eapply Forall_impl; [exact Hd|].
      intros sb [H1 H2]. split; simpl; lia.
    + split; [done|]. simpl. apply Forall_app. split; [done|].
      constructor; [|constructor].
      apply new_SchemaBuilder_inv in Hnew as (_ & _ & _ & _ & _ & H1 & H2).
      split; rewrite ?H1, ?H2; lia.
    + eapply update_document_behind; eauto using cacheValidationFunction_behind.
    + eapply update_document_behind; eauto using cacheListValidationFunction_behind.
    + eapply update_document_behind; eauto.
      destruct (validate_self (global w) o sb) as [->| ->];
        eauto using cacheValidationFunction_behind.
    + eapply update_document_behind; eauto.
      destruct (validateList_self (global w) o sb) as [->| ->];
        eauto using cacheListValidationFunction_behind.
    + eapply update_document_behind; eauto.
      destruct (parse_self (global w) o sb) as [->| ->];
        eauto using cacheValidationFunction_behind.
    + eapply update_document_behind; eauto.
      destruct (parseList_self (global w) o sb) as [->| ->];
        eauto using cacheListValidationFunction_behind.
Qed.

(** C1.  In every state a program can reach and for every document of
    it: [cacheValidationFunction] compiles if and only if no validation
    function is cached or the recorded version differs from the global
    one, and otherwise leaves the instance as it is; when it compiles,
    it compiles the document's schema on an engine configured with the
    global configuration overridden by the local one, and records the
    global version.  [setGlobalValidationConfig] merges the partial
    configuration into the global one and adds one to the version, so
    the next [cacheValidationFunction], and the next [validate] that
    gets to it, compile again. *)
Theorem validator_cache_protocol (w : World) (this : SchemaBuilder)
    (config o : value) :
  run compile w -> this ∈ documents w -> NoDup (keys config) ->
  let g := global w in
  let g' := setGlobalValidationConfig config g in
  let a := fun g0 =>
    ajv_call AddFormats
      (ajv_call (AddFormat "date-time" dateTimeFormat)
         (new_Ajv (spread (globalAJVConfig g0) (validationConfig this)))) in
  (snd (cacheValidationFunction compile g this) <> [] <->
   validationFunction this = None
   \/ localValidationFunctionVersionNumber this <> globalAJVConfigVersionNumber g)
  /\ (validationFunction this <> None ->
      localValidationFunctionVersionNumber this = globalAJVConfigVersionNumber g ->
      cacheValidationFunction compile g this = (this, []))
  /\ (validationFunction this = None
      \/ localValidationFunctionVersionNumber this <> globalAJVConfigVersionNumber g ->
      snd (cacheValidationFunction compile g this)
      = [{| compiled_on := a g; compiled_schema := schemaObject this |}]
      /\ validationFunction (fst (cacheValidationFunction compile g this))
         = Some (compile (a g) (schemaObject this))
      /\ localValidationFunctionVersionNumber
           (fst (cacheValidationFunction compile g this))
         = globalAJVConfigVersionNumber g)
  /\ globalAJVConfigVersionNumber g' = (globalAJVConfigVersionNumber g + 1)%N
  /\ (forall k, get k (globalAJVConfig g')
                = if has_key k config then get k config
                  else get k (globalAJVConfig g))
  /\ snd (cacheValidationFunction compile g' this)
     = [{| compiled_on := a g'; compiled_schema := schemaObject this |}]
  /\ (forall t, transformDatesForValidation o = Ok t ->
      compilations (validate compile g' o this)
      = [{| compiled_on := a g'; compiled_schema := schemaObject this |}]).
Proof.
  intros Hrun Hin Hnd g g' a.
  destruct (run_behind w Hrun) as [[gs Hgs] Hall].
  rewrite Forall_forall in Hall. destruct (Hall this Hin) as [Hbehind _].
  assert (Hstale : localValidationFunctionVersionNumber this
                   <> globalAJVConfigVersionNumber g').
  { subst g' g. simpl. lia. }
  assert (Hg' : snd (cacheValidationFunction compile g' this)
                = [{| compiled_on := a g'; compiled_schema := schemaObject this |}]).
  { destruct (cacheValidationFunction_compiles g' this (or_intror Hstale))
      as (a' & -> & Hlog & _). exact Hlog. }
  split; [|split; [|split; [|split; [|split; [|split]]]]].
  - split.
    + intros Hlog. destruct (cache_decision_dec this g) as [?|[Hf Hv]]; [done|].
      by rewrite cacheValidationFunction_reuses in Hlog.
    + intros H. destruct (cacheValidationFunction_compiles g this H)
        as (a' & _ & -> & _). done.
  - apply cacheValidationFunction_reuses.
  - intros H. destruct (cacheValidationFunction_compiles g this H)
      as (a' & -> & Hlog & Hf & Hv & _). done.
  - done.
  - intros k. subst g' g. simpl. rewrite Hgs. by apply spread_get.
  - exact Hg'.
  - intros t Ht. unfold validate. rewrite Ht.
    rewrite (surjective_pairing (cacheValidationFunction compile g' this)).
    exact Hg'.
Qed.

End Cache.

(** The statement at a document that has been validated once: its
    function is cached and reused, until the configuration changes. *)
Lemma validator_cache_witness :
  cacheValidationFunction refCompile initialGlobal validated_once
  = (validated_once, [])
  /\ length (compilations
               (validate refCompile
                  (setGlobalValidationConfig first_error_only initialGlobal)
                  (VObj []) validated_once)) = 1
  /\ get "allErrors"
       (globalAJVConfig (setGlobalValidationConfig first_error_only initialGlobal))
     = VBool false.
Proof.
  assert (Hrun : run refCompile sample_world).
  { apply (run_step refCompile
             {| global := initialGlobal;
                documents := [fresh object_s_schema VUndefined] |}).
    - apply (run_step refCompile {| global := initialGlobal; documents := [] |}).
      + apply run_start.
      + apply (step_new refCompile {| global := initialGlobal; documents := [] |}
                 object_s_schema VUndefined).
        reflexivity.
    - apply (step_validate refCompile
               {| global := initialGlobal;
                  documents := [fresh object_s_schema VUndefined] |}
               0 (fresh object_s_schema VUndefined) (VObj [("s", VStr "a")])).
      reflexivity. }
  destruct (validator_cache_protocol refCompile sample_world validated_once
              first_error_only (VObj []) Hrun)
    as (_ & Hreuse & _ & _ & Hcfg & _ & Hval).
  - left.
  - apply (bool_decide_unpack _). reflexivity.
  - split; [|split].
    + apply Hreuse; [discriminate | reflexivity].
    + exact (f_equal length (Hval (VObj []) eq_refl)).
    + exact (Hcfg "allErrors").
Defined.

(** ** The reference engine honours the contract *)

Ltac eval_eqb :=
  repeat match goal with
         | |- context [string_eqb ?a ?b] =>
             let r := eval vm_compute in (string_eqb a b) in
             match r with
             | true => change (string_eqb a b) with true
             | false => change (string_eqb a b) with false
             end
         end; cbv iota.

Lemma flat_map_lookup_nonempty {B} (f : string * value -> list B) k v fs :
  lookup_field k fs = Some v -> f (k, v) <> [] -> flat_map f fs <> [].
Proof.
  intros Hl%lookup_field_Some_in%list_elem_of_In Hf.
  destruct (f (k, v)) as [|b bs] eqn:E; [done|].
  intros Hnil.
  assert (In b (flat_map f fs)) as Hin.
  { apply in_flat_map. exists (k, v). split; [done|]. rewrite E. by left. }
  by rewrite Hnil in Hin.
Qed.

Lemma check_honours_rejects strict dt refs s d :
  rejects s d -> forall path, check strict dt refs s path d <> [].
Proof.
  induction 1 as [fs xs n _ Hmin _ Hlen|fs t n Hty Hint Hfin Hn
                 |fs ps k sk gs x Hps Hk Hx Hrej IH];
    intros path; simpl.
  - apply (flat_map_lookup_nonempty _ "minItems" (VNum n)); [done|].
    cbn [fst snd]. eval_eqb.
    apply Z.ltb_lt in Hlen. by rewrite Hlen.
  - apply (flat_map_lookup_nonempty _ "type" t); [done|].
    cbn [fst snd]. eval_eqb.
    assert (Hinf : is_infinite n = false) by by destruct n.
    assert (Hno : forall y, is_str "integer" y || is_str "null" y = true ->
                            type_matches strict (VNum n) y = false).
    { intros y Hy. simpl. rewrite Hn, Hinf, andb_false_r, !andb_false_r, orb_false_r.
      destruct y; try done. simpl in *.
      apply orb_true_iff in Hy as [->%string_eqb_true| ->%string_eqb_true]; done. }
    destruct t as [| |?|?|s|?|ts|?]; cbn [integer_or_null is_str] in Hint;
      try discriminate Hint.
    { apply string_eqb_true in Hint as ->. cbn [is_array is_str]. eval_eqb.
      simpl. by rewrite Hn, Hinf, andb_false_r. }
    simpl.
    assert (existsb (type_matches strict (VNum n)) ts = false) as Hts;
      [|by rewrite Hts].
    assert (Hall : forallb (fun x => is_str "integer" x || is_str "null" x) ts = true)
      by by destruct ts.
    clear Hty Hint. rename Hall into Hint.
    induction ts as [|y ys IHy]; [done|]. cbn [forallb] in Hint.
    apply andb_true_iff in Hint as [Hy Hys].
    cbn [existsb]. rewrite Hno by done. by apply IHy.
  - apply (flat_map_lookup_nonempty _ "properties" (VObj ps)); [done|].
    cbn [fst snd]. eval_eqb.
    apply (flat_map_lookup_nonempty _ k sk); [done|].
    cbn [fst snd]. rewrite Hx. apply IH.
Qed.

Lemma honours_rejects_minItems compile :
  honours_rejects compile -> honours_minItems compile.
Proof.
  intros H a fs xs n Hty Hmin Hint Hlen. apply H. by apply (rejects_minItems fs xs n).
Qed.

Lemma refCompile_honours_rejects : honours_rejects refCompile.
Proof.
  intros a schema data Hrej. unfold refCompile.
  pose proof (check_honours_rejects (strictNumbers a) (date_time_handler a)
                (check_ref a) _ _ Hrej "") as H.
  destruct (check _ _ _ schema "" data); [done|].
  by destruct (truthy _).
Qed.

(** ** The passes of [parse] *)

Lemma transformDatesForValidation_no_dates v :
  no_dates v = true -> transformDatesForValidation v = Ok v.
Proof.
  induction v as [| |?|?|?|?|xs IH|fs IH] using value_rect'; simpl; try done.
  - intros Hall.
    assert ((fix go (l : list value) : result (list value) :=
               match l with
               | [] => Ok []
               | x :: l' =>
                   y ← transformDatesForValidation x; ys ← go l'; Ok (y :: ys)
               end) xs = Ok xs) as ->; [|done].
    induction IH as [|x xs Hx _ IHxs]; [done|].
    simpl in Hall. apply andb_true_iff in Hall as [H1 H2].
    rewrite Hx by done. simpl. by rewrite IHxs.
  - intros Hall.
    assert ((fix go (l : list (string * value)) : result (list (string * value)) :=
               match l with
               | [] => Ok []
               | kv :: l' =>
                   y ← transformDatesForValidation (snd kv); ys ← go l';
                   Ok ((fst kv, y) :: ys)
               end) fs = Ok fs) as ->; [|done].
    induction IH as [|[k x] fs Hx _ IHfs]; [done|].
    simpl in Hall. apply andb_true_iff in Hall as [H1 H2].
    simpl in *. rewrite Hx by done. simpl. by rewrite IHfs.
Qed.

Lemma json_of_no_dates v j : json_of v = Some j -> no_dates j = true.
Proof.
  revert j.
  induction v as [| |?|?|?|?|xs IH|fs IH] using value_rect'; simpl; intros j;
    try (intros [= <-]; done).
  - intros [= <-]. by destruct (Number_isFinite n).
  - intros [= <-]. by destruct (toISOString t).
  - intros [= <-]. simpl. induction IH as [|x xs Hx _ IHxs]; [done|].
    simpl. rewrite IHxs, andb_true_r.
    destruct (json_of x) eqn:E; [by apply Hx | done].
  - intros [= <-]. simpl. induction IH as [|[k x] fs Hx _ IHfs]; [done|].
    simpl in *. destruct (json_of x) eqn:E; simpl; [|done].
    apply andb_true_iff. split; [by apply Hx | exact IHfs].
Qed.

Lemma transformStringToNumber_no_dates v schema :
  no_dates (transformStringToNumber v schema) = true.
Proof.
  revert schema.
  induction v as [| |?|?|?|?|xs IH|fs IH] using value_rect'; intros schema;
    simpl; try done.
  - by destruct (truthy schema), (isNumberField schema), (negb (is_nan (Number s))).
  - induction IH as [|x xs Hx _ IHxs]; [done|]. simpl. by rewrite Hx, IHxs.
  - induction IH as [|[k x] fs Hx _ IHfs]; [done|]. simpl in *.
    by rewrite Hx, IHfs.
Qed.

Lemma lookup_field_map (f : string -> value -> value) k fs :
  lookup_field k (map (fun kv => (fst kv, f (fst kv) (snd kv))) fs)
  = f k <$> lookup_field k fs.
Proof.
  induction fs as [|[k0 v0] fs IH]; [done|]. simpl.
  case_eqb k k0; [by subst | done].
Qed.

Lemma lookup_field_json k fs v j :
  lookup_field k fs = Some v -> json_of v = Some j ->
  lookup_field k (omap (fun kv => j ← json_of (snd kv); Some (fst kv, j)) fs)
  = Some j.
Proof.
  intros Hl Hj. induction fs as [|[k0 v0] fs IH]; [done|]. simpl in *.
  case_eqb k k0.
  - subst k0. injection Hl as ->. rewrite Hj. cbn [mbind option_bind lookup_field].
    by rewrite string_eqb_refl.
  - destruct (json_of v0); cbn [mbind option_bind lookup_field]; [|by apply IH].
    rewrite (proj2 (string_eqb_false _ _) E). by apply IH.
Qed.


(** ** String to number coercion *)


Lemma Math_trunc_is_quot s m e :
  (e < 0)%Z ->
  Math_trunc (S754_finite s m e)
  = binary_normalize prec64 emax64 (cond_Zopp s (Zpos m) ÷ 2 ^ (- e)) 0 s.
Proof.
  intros He. unfold Math_trunc.
  destruct (0 <=? e)%Z eqn:E; [apply Z.leb_le in E; lia|].
  rewrite Z.shiftr_div_pow2 by lia.
  assert (Hpow : (0 < 2 ^ (- e))%Z) by (apply Z.pow_pos_nonneg; lia).
  f_equal. destruct s; simpl cond_Zopp.
  - change (Z.neg m) with (- Z.pos m)%Z.
    rewrite Z.quot_opp_l by lia. f_equal. symmetry. apply Z.quot_div_nonneg; lia.
  - symmetry. apply Z.quot_div_nonneg; lia.
Qed.




(** ** Validation failures *)


Lemma cached_list_function_compiled compile g this :
  cache_coherent compile this ->
  exists a, listValidationFunction (fst (cacheListValidationFunction compile g this))
            = Some (compile a listSchema).
Proof.
  intros [_ Hc]. unfold cacheListValidationFunction.
  destruct (listValidationFunction this) as [f|] eqn:E; simpl.
  - destruct (negb _); simpl; [eauto|].
    rewrite E. destruct (Hc f eq_refl) as [a ->]. eauto.
  - eauto.
Qed.




(** C7.  The list validator is compiled from the array schema with
    [minItems: 1] that refers to the document, so an engine that rejects
    an array shorter than the [minItems] of an array schema rejects the
    empty list: [validateList] and [parseList] raise a validation error
    on it, for every document. *)
Theorem validateList_rejects_empty_list
    (compile : Ajv -> value -> ValidateFunction) (g : Global)
    (this : SchemaBuilder) :
  honours_minItems compile ->
  cache_coherent compile this ->
  is_validation_error (returned (validateList compile g (VArr []) this)) = true
  /\ is_validation_error (returned (parseList compile g (VArr []) this)) = true
  /\ (snd (cacheListValidationFunction compile g this) <> [] ->
      snd (cacheListValidationFunction compile g this)
      = [{| compiled_on :=
              ajv_call (AddSchema (schemaObject this) "schema")
                (ajv_call AddFormats (new_Ajv (ajvValidationConfig g this)));
            compiled_schema := listSchema |}])
  /\ get "type" listSchema = VStr "array"
  /\ get "items" listSchema = VObj [("$ref", VStr "schema")]
  /\ get "minItems" listSchema = VNum (of_Z 1).
Proof.
  intros Hsound Hc.
  assert (Hrej : forall a, compile a listSchema (VArr []) <> []).
  { intros a. by apply (Hsound a _ [] (of_Z 1)). }
  assert (Hv : is_validation_error (returned (validateList compile g (VArr []) this))
               = true).
  { unfold validateList. simpl.
    destruct (cached_list_function_compiled compile g this Hc) as [a Ha].
    rewrite (surjective_pairing (cacheListValidationFunction compile g this)).
    simpl. rewrite Ha. simpl.
    pose proof (Hrej a) as Hne.
    by destruct (compile a listSchema (VArr [])). }
  split; [exact Hv|]. split; [|split; [|done]].
  - unfold parseList.
    change (json_copy (VArr [])) with (Ok (VArr [])). cbv iota. cbn [returned].
    by destruct (returned (validateList compile g (VArr []) this)) as [|[]].
  - unfold cacheListValidationFunction. by destruct (_ || _).
Qed.

Lemma fresh_coherent compile s cfg : cache_coherent compile (fresh s cfg).
Proof. by split. Qed.

Lemma cacheValidationFunction_coherent compile g this :
  cache_coherent compile this ->
  cache_coherent compile (fst (cacheValidationFunction compile g this)).
Proof.
  intros [H1 H2]. unfold cacheValidationFunction.
  destruct (_ || _); [|done]. split; simpl; [|done].
  intros f [= <-]. eauto.
Qed.

Lemma cacheListValidationFunction_coherent compile g this :
  cache_coherent compile this ->
  cache_coherent compile (fst (cacheListValidationFunction compile g this)).
Proof.
  intros [H1 H2]. unfold cacheListValidationFunction.
  destruct (_ || _); [|done]. split; simpl; [done|].
  intros f [= <-]. eauto.
Qed.

(** Coherence of the cache is an invariant of every run. *)
Lemma run_coherent compile w :
  run compile w -> Forall (cache_coherent compile) (documents w).
Proof.
  induction 1 as [|w w' Hrun IH Hstep]; [constructor|].
  assert (Hlookup : forall i sb, documents w !! i = Some sb ->
                                 cache_coherent compile sb).
  { intros i sb Hi. rewrite Forall_lookup in IH. by apply (IH i). }
  destruct Hstep as [w config|w schema config sb Hnew|w i sb Hi|w i sb Hi
                    |w i sb o Hi|w i sb o Hi|w i sb o Hi|w i sb o Hi]; simpl.
  - done.
  - apply Forall_app. split; [done|]. constructor; [|constructor].
    unfold new_SchemaBuilder in Hnew. destruct (containsRef schema); [done|].
    injection Hnew as <-. apply fresh_coherent.
  - apply Forall_insert; eauto using cacheValidationFunction_coherent.
  - apply Forall_insert; eauto using cacheListValidationFunction_coherent.
  - apply Forall_insert; [done|].
    destruct (validate_self compile (global w) o sb) as [->| ->];
      eauto using cacheValidationFunction_coherent.
  - apply Forall_insert; [done|].
    destruct (validateList_self compile (global w) o sb) as [->| ->];
      eauto using cacheListValidationFunction_coherent.
  - apply Forall_insert; [done|].
    destruct (parse_self compile (global w) o sb) as [->| ->];
      eauto using cacheValidationFunction_coherent.
  - apply Forall_insert; [done|].
    destruct (parseList_self compile (global w) o sb) as [->| ->];
      eauto using cacheListValidationFunction_coherent.
Qed.


(** The statement of C7 at the document [object_s_schema] and the
    reference engine. *)
Lemma validateList_empty_witness :
  is_validation_error
    (returned (validateList refCompile initialGlobal (VArr [])
                 (fresh object_s_schema VUndefined))) = true
  /\ is_validation_error
       (returned (parseList refCompile initialGlobal (VArr [])
                    (fresh object_s_schema VUndefined))) = true.
Proof.
  destruct (validateList_rejects_empty_list refCompile initialGlobal
              (fresh object_s_schema VUndefined)
              (honours_rejects_minItems refCompile refCompile_honours_rejects)
              (fresh_coherent refCompile object_s_schema VUndefined))
    as (Hv & Hp & _).
  split; [exact Hv | exact Hp].
Defined.

(** ** Dates *)

Lemma transformDatesForValidation_arr xs :
  transformDatesForValidation (VArr xs)
  = (ys ← transformListForValidation xs; Ok (VArr ys)).
Proof. reflexivity. Qed.

Lemma transformDatesForValidation_obj fs :
  transformDatesForValidation (VObj fs)
  = (gs ← transformFieldsForValidation fs; Ok (VObj gs)).
Proof. reflexivity. Qed.

(** Rendering the dates that the third pass made gives back the data it
    was applied to, when the strings it converted were canonical. *)
Lemma dates_round_trip v schema :
  no_dates v = true -> dates_canonical v schema = true ->
  transformDatesForValidation (transformISOStringsToDate v schema) = Ok v.
Proof.
  revert schema.
  induction v as [| |?|?|s|?|xs IH|fs IH] using value_rect'; intros schema;
    try done.
  - intros _. cbn [dates_canonical transformISOStringsToDate].
    destruct (isDateTimeField schema || isIsoDateString s); [|done].
    unfold canonical_date_string.
    destruct (Date_parse s) as [t|]; [|done].
    cbn [is_invalid_date negb transformDatesForValidation].
    destruct (toISOString (Some t)) as [s'|]; [|done].
    by intros ->%string_eqb_true.
  - cbn [no_dates dates_canonical transformISOStringsToDate].
    rewrite transformDatesForValidation_arr.
    set (items := por (itemSchema_of schema) (VObj [])). clearbody items.
    intros Hnd Hcan.
    assert (transformListForValidation
              (map (fun item => transformISOStringsToDate item items) xs) = Ok xs)
      as ->; [|done].
    induction IH as [|x xs Hx _ IHxs]; [done|].
    cbn [forallb] in Hnd, Hcan.
    apply andb_true_iff in Hnd as [Hnd1 Hnd2].
    apply andb_true_iff in Hcan as [Hcan1 Hcan2].
    cbn [map transformListForValidation].
    rewrite Hx by done. cbn [mbind result_bind bind].
    by rewrite IHxs.
  - cbn [no_dates dates_canonical transformISOStringsToDate].
    rewrite transformDatesForValidation_obj.
    set (props := get "properties" schema). clearbody props.
    intros Hnd Hcan.
    assert (transformFieldsForValidation
              (map (fun kv => (fst kv,
                               transformISOStringsToDate (snd kv) (get (fst kv) props)))
                 fs) = Ok fs) as ->; [|done].
    induction IH as [|[k x] fs Hx _ IHfs]; [done|].
    cbn [forallb fst snd] in Hnd, Hcan.
    apply andb_true_iff in Hnd as [Hnd1 Hnd2].
    apply andb_true_iff in Hcan as [Hcan1 Hcan2].
    cbn [map transformFieldsForValidation fst snd] in *.
    rewrite Hx by done. cbn [mbind result_bind bind].
    by rewrite IHfs.
Qed.

Lemma cacheValidationFunction_current compile g this :
  validationFunction (fst (cacheValidationFunction compile g this)) <> None
  /\ localValidationFunctionVersionNumber (fst (cacheValidationFunction compile g this))
     = globalAJVConfigVersionNumber g.
Proof.
  destruct (cache_decision_dec this g) as [H|[Hf Hv]].
  - destruct (cacheValidationFunction_compiles compile g this H)
      as (a & _ & _ & -> & -> & _). done.
  - by rewrite cacheValidationFunction_reuses.
Qed.

Lemma validate_returns compile g o this u :
  returned (validate compile g o this) = Ok u ->
  exists t,
    transformDatesForValidation o = Ok t
    /\ self (validate compile g o this) = fst (cacheValidationFunction compile g this)
    /\ run_validation
         (validationFunction (fst (cacheValidationFunction compile g this))) t
       = Ok tt.
Proof.
  unfold validate. destruct (transformDatesForValidation o) as [t|]; [|done].
  rewrite (surjective_pairing (cacheValidationFunction compile g this)).
  cbn [returned self]. intros H. exists t. repeat split.
  destruct (run_validation _ t) as [[]|]; done.
Qed.

Lemma validate_accepts compile g o t this :
  transformDatesForValidation o = Ok t ->
  run_validation (validationFunction (fst (cacheValidationFunction compile g this))) t
  = Ok tt ->
  returned (validate compile g o this) = Ok tt.
Proof.
  intros Ht Hrun. unfold validate. rewrite Ht.
  by rewrite (surjective_pairing (cacheValidationFunction compile g this)).
Qed.

Lemma is_digit_digit_char d : is_digit (digit_char d) = true.
Proof.
  unfold is_digit, digit_char.
  assert (0 <= d mod 10 < 10)%Z as Hd by (apply Z.mod_pos_bound; lia).
  rewrite nat_ascii_embedding by lia.
  apply andb_true_iff. split; apply Nat.leb_le; lia.
Qed.

Lemma matches_app ps qs s t :
  matches ps s = true -> matches qs t = true -> matches (ps ++ qs) (s ++ t) = true.
Proof.
  revert s. induction ps as [|p ps IH]; intros [|c s]; simpl; try done.
  intros [Hc Hs]%andb_true_iff Ht. rewrite Hc. simpl. by apply IH.
Qed.

Lemma matches_pad w n : matches (repeat Digit w) (pad w n) = true.
Proof.
  revert n. induction w as [|w IH]; intros n; [done|].
  cbn [repeat]. rewrite repeat_cons. cbn [pad]. apply matches_app; [apply IH|].
  simpl. by rewrite is_digit_digit_char.
Qed.

Lemma after_year_form m d h mi sec ms :
  matches after_year
    (["-"%char] ++ pad 2 m ++ ["-"%char] ++ pad 2 d ++ ["T"%char]
     ++ pad 2 h ++ [":"%char] ++ pad 2 mi ++ [":"%char] ++ pad 2 sec ++ ["."%char]
     ++ pad 3 ms ++ ["Z"%char]) = true.
Proof.
  change after_year
    with ([Lit "-"%char] ++ repeat Digit 2 ++ [Lit "-"%char] ++ repeat Digit 2
          ++ [Lit "T"%char] ++ repeat Digit 2 ++ [Lit ":"%char] ++ repeat Digit 2
          ++ [Lit ":"%char] ++ repeat Digit 2 ++ [Lit "."%char] ++ repeat Digit 3
          ++ [Lit "Z"%char]).
  repeat (apply matches_app; [first [apply matches_pad | reflexivity]|]).
  reflexivity.
Qed.

(** A rendering has the form [YYYY-MM-DDTHH:mm:ss.sssZ]. *)
Lemma toISOString_form t r : toISOString (Some t) = Ok r -> rendered_form r = true.
Proof.
  unfold toISOString. destruct (civil_from_days _) as [[y m] d].
  intros [= <-]. unfold rendered_form.
  rewrite list_ascii_of_string_of_list_ascii.
  apply orb_true_iff.
  destruct (_ && _).
  - left. apply matches_app; [exact (matches_pad 4 y) | exact (after_year_form m d _ _ _ _)].
  - right. rewrite <- app_comm_cons. cbn [matches].
    apply andb_true_iff. split; [by destruct (y <? 0)%Z|].
    apply matches_app; [exact (matches_pad 6 (Z.abs y)) | exact (after_year_form m d _ _ _ _)].
Qed.

(** The form does not make a string the rendering of its date: the hour
    24 is read as the start of the next day, and a day past the end of
    its month as a day of the next month. *)
Lemma rendered_form_not_canonical :
  rendered_form "2023-04-20T24:00:00.000Z" = true
  /\ (t ← Date_parse "2023-04-20T24:00:00.000Z"; Some (toISOString (Some t)))
     = Some (Ok "2023-04-21T00:00:00.000Z")
  /\ rendered_form "2023-02-30T00:00:00.000Z" = true
  /\ (t ← Date_parse "2023-02-30T00:00:00.000Z"; Some (toISOString (Some t)))
     = Some (Ok "2023-03-02T00:00:00.000Z").
Proof. repeat split; vm_compute; reflexivity. Qed.

(** C3, as stated, fails.  For the document and data of the repository's
    own test, [parse] returns a date whose rendering is
    ["2023-04-20T12:30:45.000Z"], not the wire string
    ["2023-04-20T12:30:45Z"]; and where the date-valued property also
    bounds the length of the string, validating the parsed object
    raises, since the rendering is longer than the wire string was. *)
Lemma parse_date_rendering_differs :
  returned (parse refCompile initialGlobal dated_data (fresh dated_schema VUndefined))
  = Ok (VObj [("id", VStr "123"); ("createdAt", VDate (Some 1681993845000%Z))])
  /\ toISOString (Some 1681993845000%Z) = Ok "2023-04-20T12:30:45.000Z"
  /\ string_eqb "2023-04-20T12:30:45.000Z" "2023-04-20T12:30:45Z" = false
  /\ returned (parse refCompile initialGlobal
                 (VObj [("createdAt", VStr "2023-04-20T12:30:45Z")])
                 (fresh short_dated_schema VUndefined))
     = Ok (VObj [("createdAt", VDate (Some 1681993845000%Z))])
  /\ is_validation_error
       (returned
          (validate refCompile initialGlobal
             (VObj [("createdAt", VDate (Some 1681993845000%Z))])
             (self (parse refCompile initialGlobal
                      (VObj [("createdAt", VStr "2023-04-20T12:30:45Z")])
                      (fresh short_dated_schema VUndefined))))) = true.
Proof. repeat split; vm_compute; reflexivity. Qed.

(** C3, amended.  For a document with a date-valued property (a string
    node with format ["date-time"]) and an input object, without a key
    [__proto__], carrying at that property a wire string that denotes a
    date, [parse], when the engine accepts the data, returns an object
    with that date at the property.
    The date has a rendering, of the form [YYYY-MM-DDTHH:mm:ss.sssZ], so
    the rendering is not the wire string unless the wire string has that
    form; and when every date string of the input denotes a date and is
    the rendering of that date, [validate] on the parsed object does not
    raise and reuses the cached function. *)
Theorem parse_date_round_trip
    (compile : Ajv -> value -> ValidateFunction) (g : Global)
    (this : SchemaBuilder) (fs : list (string * value)) (k w : string) (t : Z) :
  lookup_field k fs = Some (VStr w) ->
  isDateTimeField (get k (get "properties" (schemaObject this))) = true ->
  isNumberField (get k (get "properties" (schemaObject this))) = false ->
  Date_parse w = Some t ->
  no_proto_key (VObj fs) = true ->
  exists fs',
    json_copy (VObj fs) = Ok (VObj fs')
    /\ (run_validation
          (validationFunction (fst (cacheValidationFunction compile g this)))
          (transformStringToNumber (VObj fs') (schemaObject this)) = Ok tt ->
        is_ok (returned (parse compile g (VObj fs) this)) = true)
    /\ forall r,
         returned (parse compile g (VObj fs) this) = Ok r ->
         get k r = VDate (Some t)
         /\ (exists rendering,
               toISOString (Some t) = Ok rendering
               /\ rendered_form rendering = true
               /\ (rendered_form w = false -> rendering <> w))
         /\ (dates_canonical (transformStringToNumber (VObj fs') (schemaObject this))
               (schemaObject this) = true ->
             returned (validate compile g r (self (parse compile g (VObj fs) this)))
             = Ok tt
             /\ compilations
                  (validate compile g r (self (parse compile g (VObj fs) this)))
                = []).
Proof.
  intros Hk Hdate Hnum Hparse _.
  set (S := schemaObject this) in *.
  set (sk := get k (get "properties" S)) in *.
  eexists. split; [reflexivity|].
  set (fs' := omap _ fs).
  assert (Hk' : lookup_field k fs' = Some (VStr w))
    by by apply (lookup_field_json k fs (VStr w)).
  set (transformed := transformStringToNumber (VObj fs') S).
  assert (Hnd : no_dates transformed = true)
    by apply transformStringToNumber_no_dates.
  assert (Hsame : transformDatesForValidation transformed = Ok transformed)
    by by apply transformDatesForValidation_no_dates.
  assert (Hparsed : returned (parse compile g (VObj fs) this)
                    = (_ ← returned (validate compile g transformed this);
                       Ok (transformISOStringsToDate transformed S))) by done.
  assert (Hself : self (parse compile g (VObj fs) this)
                  = self (validate compile g transformed this)) by done.
  split.
  - intros Hrun. rewrite Hparsed.
    by rewrite (validate_accepts compile g transformed transformed).
  - intros r Hr. rewrite Hparsed in Hr.
    destruct (returned (validate compile g transformed this)) as [u|] eqn:Hv;
      [|done].
    assert (Hr' : r = transformISOStringsToDate transformed S)
      by (cbn [mbind result_bind bind] in Hr; congruence).
    clear Hr.
    destruct (validate_returns compile g _ _ _ Hv) as (t0 & Ht0 & Hs & Hrun).
    rewrite Hsame in Ht0. injection Ht0 as <-.
    split; [|split].
    + rewrite Hr'. subst transformed.
      cbn [transformStringToNumber transformISOStringsToDate get].
      rewrite (lookup_field_map
                 (fun k v => transformISOStringsToDate v (get k (get "properties" S)))).
      rewrite (lookup_field_map
                 (fun k v => transformStringToNumber v (get k (get "properties" S)))).
      rewrite Hk'. cbn [fmap option_fmap option_map default].
      fold sk. cbn [transformStringToNumber]. rewrite Hnum.
      assert ((if truthy sk then VStr w else VStr w) = VStr w) as ->
        by by destruct (truthy sk).
      cbn [transformISOStringsToDate]. by rewrite Hdate, Hparse.
    + destruct (toISOString (Some t)) as [rendering|] eqn:Hrender; [|done].
      exists rendering. pose proof (toISOString_form _ _ Hrender) as Hform.
      split; [done|]. split; [done|].
      intros Hw ->. by rewrite Hform in Hw.
    + intros Hcan. rewrite Hself, Hs.
      set (this' := fst (cacheValidationFunction compile g this)) in *.
      destruct (cacheValidationFunction_current compile g this) as [Hf Hver].
      fold this' in Hf, Hver.
      pose proof (cacheValidationFunction_reuses compile g this' Hf Hver) as Hreuse.
      pose proof (dates_round_trip _ _ Hnd Hcan) as Hback.
      rewrite <- Hr' in Hback. unfold validate. rewrite Hback, Hreuse.
      by cbn [returned compilations].
Qed.

(** The statement at the data of the test with the date already in the
    form [toISOString] writes. *)
Lemma parse_date_round_trip_witness :
  returned (parse refCompile initialGlobal canonical_dated_data
              (fresh dated_schema VUndefined))
  = Ok (VObj [("id", VStr "123"); ("createdAt", VDate (Some 1681993845000%Z))])
  /\ toISOString (Some 1681993845000%Z) = Ok "2023-04-20T12:30:45.000Z"
  /\ returned
       (validate refCompile initialGlobal
          (VObj [("id", VStr "123"); ("createdAt", VDate (Some 1681993845000%Z))])
          (self (parse refCompile initialGlobal canonical_dated_data
                   (fresh dated_schema VUndefined))))
     = Ok tt.
Proof.
  destruct (parse_date_round_trip refCompile initialGlobal
              (fresh dated_schema VUndefined)
              [("id", VStr "123"); ("createdAt", VStr "2023-04-20T12:30:45.000Z")]
              "createdAt" "2023-04-20T12:30:45.000Z" 1681993845000%Z
              eq_refl eq_refl eq_refl eq_refl eq_refl)
    as (fs' & Hcopy & Hok & Hr).
  assert (Hparse : returned (parse refCompile initialGlobal canonical_dated_data
                               (fresh dated_schema VUndefined))
                   = Ok (VObj [("id", VStr "123");
                               ("createdAt", VDate (Some 1681993845000%Z))]))
    by (vm_compute; reflexivity).
  destruct (Hr _ Hparse) as (_ & _ & Hvalid).
  injection Hcopy as <-.
  split; [exact Hparse|]. split; [vm_compute; reflexivity|].
  apply Hvalid. vm_compute. reflexivity.
Defined.

(** ** The store *)

Lemma above_le n m v : n <= m -> above m v -> above n v.
Proof. destruct v; simpl; lia. Qed.

Lemma cell_above_le n m c : n <= m -> cell_above m c -> cell_above n c.
Proof.
  intros Hle H. eapply Forall_impl; [exact H|].
  intros v. by apply above_le.
Qed.

Lemma store_value_built v : forall h, built h (store_value v h).
Proof.
  induction v using value_rect'; intros h;
    try (exists []; simpl; rewrite app_nil_r; by repeat split).
  - exists [CDate t]. simpl. repeat split; [lia|]. repeat constructor.
  - cbn [store_value].
    set (go := fix go (l : list value) (h0 : store) : list hvalue * store :=
           match l with
           | [] => ([], h0)
           | x :: l' =>
               let '(y, h1) := store_value x h0 in
               let '(ys, h2) := go l' h1 in (y :: ys, h2)
           end).
    assert (Hgo : forall h0, exists ext,
               snd (go xs h0) = h0 ++ ext
               /\ Forall (above (length h0)) (fst (go xs h0))
               /\ Forall (cell_above (length h0)) ext).
    { induction H as [|x xs Hx _ IH]; intros h0.
      - exists []. simpl. by rewrite app_nil_r.
      - cbn [go]. fold go.
        destruct (Hx h0) as (e1 & He1 & Ha1 & Hc1).
        destruct (store_value x h0) as [y h1]. simpl in He1, Ha1. subst h1.
        destruct (IH (h0 ++ e1)) as (e2 & He2 & Ha2 & Hc2).
        destruct (go xs (h0 ++ e1)) as [ys h2]. simpl in He2, Ha2. subst h2.
        exists (e1 ++ e2). simpl. rewrite app_assoc. split; [done|].
        rewrite length_app in Ha2, Hc2.
        split.
        + constructor; [done|].
          eapply Forall_impl; [exact Ha2|]. intros v. apply above_le. lia.
        + apply Forall_app. split; [done|].
          eapply Forall_impl; [exact Hc2|]. intros c. apply cell_above_le. lia. }
    destruct (Hgo h) as (ext & He & Ha & Hc).
    destruct (go xs h) as [ys h']. simpl in He, Ha. subst h'.
    exists (ext ++ [CArr ys]). simpl. rewrite app_assoc. split; [done|].
    split; [rewrite length_app; lia|].
    apply Forall_app. split; [done|]. by repeat constructor.
  - cbn [store_value].
    set (go := fix go (l : list (string * value)) (h0 : store)
           : list (string * hvalue) * store :=
           match l with
           | [] => ([], h0)
           | kv :: l' =>
               let '(y, h1) := store_value (snd kv) h0 in
               let '(ys, h2) := go l' h1 in ((fst kv, y) :: ys, h2)
           end).
    assert (Hgo : forall h0, exists ext,
               snd (go fs h0) = h0 ++ ext
               /\ Forall (above (length h0)) (map snd (fst (go fs h0)))
               /\ Forall (cell_above (length h0)) ext).
    { induction H as [|x xs Hx _ IH]; intros h0.
      - exists []. simpl. by rewrite app_nil_r.
      - cbn [go]. fold go.
        destruct (Hx h0) as (e1 & He1 & Ha1 & Hc1).
        destruct (store_value (snd x) h0) as [y h1]. simpl in He1, Ha1. subst h1.
        destruct (IH (h0 ++ e1)) as (e2 & He2 & Ha2 & Hc2).
        destruct (go xs (h0 ++ e1)) as [ys h2]. simpl in He2, Ha2. subst h2.
        exists (e1 ++ e2). simpl. rewrite app_assoc. split; [done|].
        rewrite length_app in Ha2, Hc2.
        split.
        + constructor; [done|].
          eapply Forall_impl; [exact Ha2|]. intros v. apply above_le. lia.
        + apply Forall_app. split; [done|].
          eapply Forall_impl; [exact Hc2|]. intros c. apply cell_above_le. lia. }
    destruct (Hgo h) as (ext & He & Ha & Hc).
    destruct (go fs h) as [ys h']. simpl in He, Ha. subst h'.
    exists (ext ++ [CObj ys]). simpl. rewrite app_assoc. split; [done|].
    split; [rewrite length_app; lia|].
    apply Forall_app. split; [done|]. by repeat constructor.
Qed.

Lemma keeps_refl h : keeps h h.
Proof. by intros l c. Qed.

Lemma keeps_trans h1 h2 h3 : keeps h1 h2 -> keeps h2 h3 -> keeps h1 h3.
Proof. intros H12 H23 l c Hl. by apply H23, H12. Qed.

Lemma keeps_length h h' : keeps h h' -> length h <= length h'.
Proof.
  intros Hk. destruct (decide (length h <= length h')) as [|Hn]; [done|].
  destruct (lookup_lt_is_Some_2 h (length h')) as [c Hc]; [lia|].
  apply Hk in Hc. apply lookup_lt_Some in Hc. lia.
Qed.

Lemma built_keeps h r : built h r -> keeps h (snd r).
Proof.
  intros (ext & -> & _) l c Hl. by apply lookup_app_l_Some.
Qed.

Lemma reachable_above h n v l :
  (forall l' c, n <= l' -> h !! l' = Some c -> cell_above n c) ->
  reachable h v l -> above n v -> n <= l.
Proof.
  intros Hcells. induction 1 as [l|l c v l' Hl Hv _ IH]; intros Ha.
  - exact Ha.
  - apply IH. simpl in Ha.
    pose proof (Hcells l c Ha Hl) as Hc.
    unfold cell_above in Hc. rewrite Forall_forall in Hc. by apply Hc.
Qed.

Lemma reachable_built h r l :
  built h r -> reachable (snd r) (fst r) l -> length h <= l.
Proof.
  intros (ext & He & Ha & Hc) Hr.
  apply (reachable_above (snd r) (length h) (fst r)); [|done..].
  intros l' c Hle Hl'. rewrite He in Hl'.
  assert (Hext : ext !! (l' - length h) = Some c)
    by (rewrite <- (lookup_app_r h ext l' Hle); exact Hl').
  rewrite Forall_forall in Hc. apply Hc.
  by apply (list_elem_of_lookup_2 _ _ _ Hext).
Qed.

Lemma load_keeps h h' : 
  keeps h h' ->
  forall fuel fuel' v t,
    fuel <= fuel' -> load fuel h v = Some t -> load fuel' h' v = Some t.
Proof.
  intros Hk. induction fuel as [|fuel IH]; intros fuel' v t Hle Hload.
  - destruct v; try (destruct fuel'; exact Hload). discriminate.
  - destruct v; try (destruct fuel'; exact Hload).
    destruct fuel' as [|fuel']; [lia|].
    cbn [load] in *.
    destruct (h !! l) as [c|] eqn:Hl; [|discriminate].
    rewrite (Hk _ _ Hl).
    destruct c as [d|xs|fs]; [done| |].
    + destruct (mapM (load fuel h) xs) as [ys|] eqn:Hm; [|discriminate].
      apply mapM_Some in Hm.
      assert (Hm' : mapM (load fuel' h') xs = Some ys).
      { apply mapM_Some. eapply Forall2_impl; [exact Hm|].
        intros x y. apply IH. lia. }
      by rewrite Hm'.
    + set (f := fun fu hh (kv : string * hvalue) =>
                  y ← load fu hh (snd kv); Some (fst kv, y)).
      change (mapM (f fuel h) fs ≫= (fun gs => Some (VObj gs)) = Some t) in Hload.
      change (mapM (f fuel' h') fs ≫= (fun gs => Some (VObj gs)) = Some t).
      destruct (mapM (f fuel h) fs) as [ys|] eqn:Hm; [|discriminate].
      apply mapM_Some in Hm.
      assert (Hm' : mapM (f fuel' h') fs = Some ys).
      { apply mapM_Some. eapply Forall2_impl; [exact Hm|].
        intros x y. unfold f.
        destruct (load fuel h x.2) as [z|] eqn:Hz; [|discriminate].
        by rewrite (IH fuel' _ _ ltac:(lia) Hz). }
      by rewrite Hm'.
Qed.

Lemma read_keeps h h' v t : keeps h h' -> read h v = Some t -> read h' v = Some t.
Proof.
  intros Hk. unfold read. apply load_keeps; [done|].
  apply keeps_length in Hk. lia.
Qed.

Section Frame.
Variable compile : Ajv -> value -> ValidateFunction.
Variable effect : Ajv -> value -> store -> hvalue -> store.
Hypothesis Hframe : effect_frame effect.

Lemma pass_built f h v v' :
  snd (pass f h v) = Ok v' -> built h (v', fst (pass f h v)).
Proof.
  unfold pass. destruct (read h v) as [t|]; [|discriminate].
  destruct (f t) as [t'|e]; [|discriminate].
  pose proof (store_value_built t' h) as Hb.
  destruct (store_value t' h) as [w h1]. simpl. by intros [= <-].
Qed.

Lemma pass_keeps f h v : keeps h (fst (pass f h v)).
Proof.
  unfold pass. destruct (read h v) as [t|]; [|apply keeps_refl].
  destruct (f t) as [t'|e]; [|apply keeps_refl].
  pose proof (built_keeps _ _ (store_value_built t' h)) as Hb.
  by destruct (store_value t' h) as [w h1].
Qed.

Lemma run_in_store_keeps a schema f h0 h data :
  keeps h0 h ->
  (forall l, reachable h data l -> length h0 <= l) ->
  keeps h0 (fst (run_in_store effect a schema f h data)).
Proof.
  intros Hk Hfresh. unfold run_in_store.
  destruct (read h data) as [t|]; [|done].
  destruct a as [a|]; [|done]. simpl.
  intros l c Hl. apply Hframe; [by apply Hk|].
  intros Hr. apply Hfresh in Hr. apply lookup_lt_Some in Hl. lia.
Qed.

Lemma validate_in_store_keeps g h o this :
  keeps h (fst (validate_in_store compile effect g h o this)).
Proof.
  unfold validate_in_store.
  pose proof (pass_keeps transformDatesForValidation h o) as Hk.
  pose proof (pass_built transformDatesForValidation h o) as Hb.
  destruct (pass transformDatesForValidation h o) as [h1 [td|e]]; [|done].
  simpl in Hk. specialize (Hb td eq_refl). simpl in Hb.
  destruct (cacheValidationFunction compile g this) as [this' log].
  pose proof (run_in_store_keeps (ajv this') (schemaObject this')
                (validationFunction this') h h1 td Hk) as Hrun.
  destruct (run_in_store _ _ _ _ _ _) as [h2 r]. simpl in *.
  apply Hrun. intros l. apply (reachable_built h (td, h1)). done.
Qed.

Lemma validateList_in_store_keeps g h o this :
  keeps h (fst (validateList_in_store compile effect g h o this)).
Proof.
  unfold validateList_in_store.
  match goal with |- context [pass ?f h o] =>
    pose proof (pass_keeps f h o) as Hk;
    pose proof (pass_built f h o) as Hb;
    destruct (pass f h o) as [h1 [td|e]]; [|done]
  end.
  simpl in Hk. specialize (Hb td eq_refl). simpl in Hb.
  destruct (cacheListValidationFunction compile g this) as [this' log].
  pose proof (run_in_store_keeps (ajvList this') listSchema
                (listValidationFunction this') h h1 td Hk) as Hrun.
  destruct (run_in_store _ _ _ _ _ _) as [h2 r]. simpl in *.
  apply Hrun. intros l. apply (reachable_built h (td, h1)). done.
Qed.

Lemma json_copy_in_store_keeps h data :
  keeps h (fst (json_copy_in_store h data)).
Proof.
  unfold json_copy_in_store. destruct (read h data); [|apply keeps_refl].
  apply pass_keeps.
Qed.

Lemma parse_in_store_keeps g h data this :
  keeps h (fst (parse_in_store compile effect g h data this)).
Proof.
  unfold parse_in_store.
  pose proof (json_copy_in_store_keeps h data) as H1.
  destruct (json_copy_in_store h data) as [h1 [dataCopy|e]]; [|done].
  simpl in H1.
  match goal with |- context [pass ?f h1 dataCopy] =>
    pose proof (pass_keeps f h1 dataCopy) as H2;
    destruct (pass f h1 dataCopy) as [h2 [transformedData|e]]; [|by eapply keeps_trans]
  end.
  simpl in H2.
  pose proof (validate_in_store_keeps g h2 transformedData this) as H3.
  destruct (validate_in_store compile effect g h2 transformedData this) as [h3 v].
  simpl in H3.
  assert (H03 : keeps h h3) by (eapply keeps_trans; [|exact H3]; by eapply keeps_trans).
  destruct (returned v); [|done].
  match goal with |- context [pass ?f h3 transformedData] =>
    pose proof (pass_keeps f h3 transformedData) as H4;
    destruct (pass f h3 transformedData) as [h4 r]
  end.
  simpl in *. by eapply keeps_trans.
Qed.

Lemma parseList_in_store_keeps g h data this :
  keeps h (fst (parseList_in_store compile effect g h data this)).
Proof.
  unfold parseList_in_store.
  pose proof (json_copy_in_store_keeps h data) as H1.
  destruct (json_copy_in_store h data) as [h1 [dataCopy|e]]; [|done].
  simpl in H1.
  pose proof (validateList_in_store_keeps g h1 dataCopy this) as H3.
  destruct (validateList_in_store compile effect g h1 dataCopy this) as [h3 v].
  simpl in H3.
  assert (H03 : keeps h h3) by (by eapply keeps_trans).
  destruct (returned v); [|done].
  match goal with |- context [pass ?f h3 dataCopy] =>
    pose proof (pass_keeps f h3 dataCopy) as H4;
    destruct (pass f h3 dataCopy) as [h4 r]
  end.
  simpl in *. by eapply keeps_trans.
Qed.

Lemma read_after h h' data :
  keeps h h' -> (read h data = None -> h' = h) -> read h' data = read h data.
Proof.
  intros Hk Hnone. destruct (read h data) as [t|] eqn:Hr.
  - by apply (read_keeps h h').
  - by rewrite (Hnone eq_refl).
Qed.

(** C8.  [parse], and [parseList], work on a copy: whatever the document
    and the argument, and whether the call returns or raises, every cell
    the store held before the call is afterwards what it was, and the
    argument reads as the same tree.  The engine is any that writes only
    into the data it is handed. *)
Theorem parse_does_not_mutate g h data this :
  (forall (l : loc) (c : cell),
      h !! l = Some c ->
      fst (parse_in_store compile effect g h data this) !! l = Some c)
  /\ read (fst (parse_in_store compile effect g h data this)) data = read h data
  /\ (forall (l : loc) (c : cell),
        h !! l = Some c ->
        fst (parseList_in_store compile effect g h data this) !! l = Some c)
  /\ read (fst (parseList_in_store compile effect g h data this)) data
     = read h data.
Proof.
  pose proof (parse_in_store_keeps g h data this) as H1.
  pose proof (parseList_in_store_keeps g h data this) as H2.
  split; [exact H1|]. split; [|split; [exact H2|]].
  - apply read_after; [done|]. intros Hn.
    unfold parse_in_store, json_copy_in_store. by rewrite Hn.
  - apply read_after; [done|]. intros Hn.
    unfold parseList_in_store, json_copy_in_store. by rewrite Hn.
Qed.

End Frame.

Lemma refEffect_frame : effect_frame refEffect.
Proof.
  intros a schema h data l c Hl Hn. unfold refEffect.
  destruct data as [| | | | |l0]; try done.
  destruct (h !! l0) as [[d|xs|fs]|] eqn:Hl0; try done.
  transitivity (h !! l); [|done]. apply list_lookup_insert_ne.
  intros ->. apply Hn. constructor.
Qed.

(** The statement for an engine that writes a property into the object
    it validates: the write lands in the copy [validate] made, and the
    caller's object reads as before. *)
Lemma parse_does_not_mutate_witness :
  read (fst (parse_in_store refCompile refEffect initialGlobal caller_store
               caller_ref (fresh integer_field_schema VUndefined)))
    caller_ref
  = Some caller_data
  /\ fst (parse_in_store refCompile refEffect initialGlobal caller_store
            caller_ref (fresh integer_field_schema VUndefined)) !! 3%nat
     = Some (CObj [("integerField", HNum (of_Z 89)); ("validated", HBool true)]).
Proof.
  destruct (parse_does_not_mutate refCompile refEffect refEffect_frame
              initialGlobal caller_store caller_ref
              (fresh integer_field_schema VUndefined)) as (_ & Hread & _).
  split; [rewrite Hread; reflexivity | vm_compute; reflexivity].
Defined.

(* ===================================================================== *)
(** * Further properties                                                  *)
(* ===================================================================== *)

(** ** More of the transformations *)

Lemma keys_set_field_fresh k v fs :
  lookup_field k fs = None -> map fst (set_field k v fs) = map fst fs ++ [k].
Proof.
  induction fs as [|[k' v'] fs IH]; simpl; [done|].
  case_eqb k k'; [done|]. intros H. simpl. by rewrite IH.
Qed.

Lemma has_key_false k o : has_key k o = false <-> k ∉ keys o.
Proof.
  rewrite <- has_key_keys. by destruct (has_key k o).
Qed.

(** An object schema whose [properties] and [required] are typed, after
    [properties = properties || {}]. *)
Lemma ensure_properties_typed s :
  typed_object_schema s ->
  exists fs ps,
    ensure_properties s = VObj fs
    /\ get "properties" (VObj fs) = VObj ps
    /\ NoDup (map fst ps)
    /\ keys (get "properties" s) = map fst ps
    /\ (forall k, get k (VObj ps) = get k (get "properties" s))
    /\ (forall k, has_key k (VObj ps) = has_key k (get "properties" s))
    /\ (forall key, key <> "properties" -> get key (VObj fs) = get key s).
Proof.
  intros ([fs ->] & Hp & _). unfold ensure_properties.
  exists (set_field "properties" (por (get "properties" (VObj fs)) (VObj [])) fs).
  destruct Hp as [Hu|(ps & Hps & Hnd)].
  - exists []. rewrite Hu. change (por VUndefined (VObj [])) with (VObj []).
    split; [done|]. split.
    { change (get "properties" (set "properties" (VObj []) (VObj fs)) = VObj []).
      by rewrite get_set, string_eqb_refl. }
    split; [constructor|]. repeat split; try done.
    intros key Hk.
    change (get key (set "properties" (VObj []) (VObj fs)) = get key (VObj fs)).
    by rewrite get_set, (proj2 (string_eqb_false _ _) Hk).
  - exists ps. rewrite Hps. change (por (VObj ps) (VObj [])) with (VObj ps).
    split; [done|]. split.
    { change (get "properties" (set "properties" (VObj ps) (VObj fs)) = VObj ps).
      by rewrite get_set, string_eqb_refl. }
    repeat split; try done.
    intros key Hk.
    change (get key (set "properties" (VObj ps) (VObj fs)) = get key (VObj fs)).
    by rewrite get_set, (proj2 (string_eqb_false _ _) Hk).
Qed.

Lemma is_obj_set k v o : is_obj o -> is_obj (set k v o).
Proof. intros [fs ->]. by eexists. Qed.

Lemma is_obj_delete k o : is_obj o -> is_obj (delete k o).
Proof. intros [fs ->]. by eexists. Qed.

Lemma get_set_obj k k' v o :
  is_obj o -> get k (set k' v o) = if string_eqb k k' then v else get k o.
Proof. intros [fs ->]. apply get_set. Qed.

Lemma has_key_set_obj k k' v o :
  is_obj o -> has_key k (set k' v o) = string_eqb k k' || has_key k o.
Proof. intros [fs ->]. apply has_key_set. Qed.

Lemma get_delete_obj k k' o :
  get k (delete k' o) = if string_eqb k k' then VUndefined else get k o.
Proof.
  destruct o; try (by destruct (string_eqb k k')). apply get_delete.
Qed.

Lemma has_key_delete k k' o :
  has_key k (delete k' o) = negb (string_eqb k k') && has_key k o.
Proof.
  destruct o; try (by destruct (string_eqb k k')). simpl.
  rewrite lookup_delete_field. by destruct (string_eqb k k').
Qed.

Lemma is_obj_push_required x s : is_obj s -> is_obj (push_required x s).
Proof. apply is_obj_set. Qed.

Lemma get_push_required_obj key x s :
  key <> "required" -> is_obj s -> get key (push_required x s) = get key s.
Proof. intros H [fs ->]. by apply get_push_required. Qed.

Lemma requires_push_required_obj k x s :
  is_obj s ->
  get "required" s = VUndefined \/ (exists xs, get "required" s = VArr xs) ->
  requires k (push_required x s) = string_eqb k x || requires k s.
Proof. intros [fs ->]. apply requires_push_required. Qed.

Lemma containsRef_get k s : containsRef s = false -> k ∈ subschema_keywords ->
  containsRef (get k s) = false.
Proof.
  intros Hs Hk. destruct s as [| | | | | | |fs]; try done.
  apply containsRef_obj in Hs as [_ Hall]. simpl.
  destruct (lookup_field k fs) as [v|] eqn:Hl; [|done]. simpl.
  apply lookup_field_Some_in in Hl. rewrite Forall_forall in Hall.
  by destruct (Hall _ Hl) as [H _]; apply H.
Qed.

Lemma containsRef_ensure_properties s :
  containsRef s = false -> containsRef (ensure_properties s) = false.
Proof.
  intros Hs. unfold ensure_properties. apply containsRef_set; [done|done|].
  split; [by intros ?%(bool_decide_pack (_ ∈ subschema_keywords))|].
  intros _. unfold por. destruct (truthy (get "properties" s)); [|by constructor].
  destruct s; try done. simpl.
  destruct (lookup_field "properties" fs) as [[]|] eqn:Hp; try done.
  by apply (ref_free_properties fs).
Qed.

(** X1.  [addProperty(name, schemaBuilder, isRequired)], for a [name]
    that is neither a name of [Object.prototype] nor written with digits
    only.  It raises when the document is not an object schema or
    already has the property [name]; otherwise, on a document without
    references, it returns.  What it returns has the properties of the
    document followed by [name], which holds the schema of
    [schemaBuilder]; [name] is required unless [isRequired] is [false];
    the other properties, their required status, every other keyword and
    the validation configuration are kept. *)
Theorem addProperty_spec (propertyName : string) (schemaBuilder : SchemaBuilder)
    (isRequired : option bool) (this : SchemaBuilder) :
  well_typed (schemaObject this) = true ->
  plain_name propertyName = true ->
  (is_shape_error (addProperty propertyName schemaBuilder isRequired this) = true
   <-> isObjectSchema this = false
       \/ has_key propertyName (get "properties" (schemaObject this)) = true)
  /\ (isObjectSchema this = true ->
      has_key propertyName (get "properties" (schemaObject this)) = false ->
      containsRef (schemaObject this) = false ->
      containsRef (schemaObject schemaBuilder) = false ->
      is_ok (addProperty propertyName schemaBuilder isRequired this) = true)
  /\ forall d,
       addProperty propertyName schemaBuilder isRequired this = Ok d ->
       property_names d = property_names this ++ [propertyName]
       /\ (forall k, get k (get "properties" (schemaObject d))
                     = if string_eqb k propertyName then schemaObject schemaBuilder
                       else get k (get "properties" (schemaObject this)))
       /\ (forall k, requires k (schemaObject d)
                     = string_eqb k propertyName && required_flag isRequired
                       || requires k (schemaObject this))
       /\ (forall key, key <> "properties" -> key <> "required" ->
                       get key (schemaObject d) = get key (schemaObject this))
       /\ validationConfig d = validationConfig this.
Proof.
  intros Hwt _. pose proof (well_typed_spec _ Hwt) as Hty.
  destruct (ensure_properties_typed _ Hty)
    as (fs & ps & Hens & Hprops & Hnd & Hkeys & Hget & Hhas & Hother).
  pose proof Hty as (_ & _ & Hreq).
  unfold addProperty. rewrite !cloneJSON_id.
  change (set "properties"
            (set propertyName (schemaObject schemaBuilder)
               (get "properties" (ensure_properties (schemaObject this))))
            (ensure_properties (schemaObject this)))
    with (set_property propertyName (schemaObject schemaBuilder)
            (ensure_properties (schemaObject this))).
  set (s1 := set_property propertyName (schemaObject schemaBuilder)
               (ensure_properties (schemaObject this))).
  set (s2 := match isRequired with
             | Some true | None => push_required propertyName s1
             | Some false => s1
             end).
  assert (Hobj1 : is_obj s1).
  { subst s1. rewrite Hens. apply is_obj_set. by eexists. }
  assert (Hreq1 : get "required" s1 = get "required" (schemaObject this)).
  { subst s1. rewrite Hens. unfold set_property. rewrite get_set. simpl.
    by apply Hother. }
  assert (Hr1 : forall k, requires k s1 = requires k (schemaObject this)).
  { intros k. unfold requires. by rewrite Hreq1. }
  assert (Hp2 : get "properties" s2 = get "properties" s1).
  { subst s2. destruct isRequired as [[]|]; try done;
      by rewrite get_push_required_obj. }
  assert (Hp1 : get "properties" s1
                = set propertyName (schemaObject schemaBuilder) (VObj ps)).
  { subst s1. rewrite Hens. unfold set_property.
    by rewrite get_set, string_eqb_refl, Hprops. }
  assert (Hr2 : forall k, requires k s2
                          = string_eqb k propertyName && required_flag isRequired
                            || requires k (schemaObject this)).
  { intros k.
    assert (Hpush : requires k (push_required propertyName s1)
                    = string_eqb k propertyName || requires k (schemaObject this)).
    { rewrite <- Hr1. apply requires_push_required_obj; [done|]. by rewrite Hreq1. }
    subst s2. destruct isRequired as [[]|]; simpl.
    - by rewrite andb_true_r.
    - by rewrite andb_false_r.
    - by rewrite andb_true_r. }
  assert (Ho2 : forall key, key <> "properties" -> key <> "required" ->
                            get key s2 = get key (schemaObject this)).
  { intros key H1 H2.
    assert (get key s1 = get key (schemaObject this)).
    { subst s1. rewrite Hens. unfold set_property.
      rewrite get_set, (proj2 (string_eqb_false _ _) H1). by apply Hother. }
    subst s2. destruct isRequired as [[]|]; try done;
      by rewrite get_push_required_obj. }
  assert (Hhas0 : has_key propertyName
                    (get "properties" (ensure_properties (schemaObject this)))
                  = has_key propertyName (get "properties" (schemaObject this))).
  { by rewrite Hens, Hprops. }
  rewrite Hhas0.
  split; [|split].
  - destruct (isObjectSchema this); simpl.
    + destruct (has_key propertyName (get "properties" (schemaObject this))); simpl.
      * split; [by right|done].
      * rewrite new_SchemaBuilder_not_shape_error. split; [done|by intros [|]].
    + split; [by left|done].
  - intros -> Hfresh Href Hrefb. simpl. rewrite Hfresh.
    rewrite new_SchemaBuilder_ok; [done|].
    assert (Hs1 : containsRef s1 = false)
      by by apply containsRef_set_property; [apply containsRef_ensure_properties|].
    subst s2. destruct isRequired as [[]|]; try done;
      by apply containsRef_push_required.
  - intros d. destruct (isObjectSchema this); [|done]. simpl.
    destruct (has_key propertyName (get "properties" (schemaObject this)))
      eqn:Hfresh; [done|].
    intros (Hd & Hcfg & _)%new_SchemaBuilder_inv. rewrite Hd.
    split; [|split; [|split; [|split]]]; try done.
    + unfold property_names. rewrite Hd, Hp2, Hp1, Hkeys. simpl.
      apply keys_set_field_fresh.
      rewrite <- Hhas in Hfresh. simpl in Hfresh.
      destruct (lookup_field propertyName ps); [|done].
      by rewrite bool_decide_true in Hfresh.
    + intros k. rewrite Hp2, Hp1, get_set, Hget. done.
Qed.

Lemma addProperty_witness :
  exists d,
    addProperty "b" (fresh string_schema VUndefined) (Some false)
      (fresh object_s_schema VUndefined) = Ok d
    /\ property_names d = ["s"; "b"]
    /\ requires "b" (schemaObject d) = false
    /\ requires "s" (schemaObject d) = true.
Proof.
  destruct (addProperty_spec "b" (fresh string_schema VUndefined) (Some false)
              (fresh object_s_schema VUndefined) eq_refl eq_refl) as (_ & Hok & Hd).
  specialize (Hok eq_refl eq_refl eq_refl eq_refl).
  destruct (addProperty "b" (fresh string_schema VUndefined) (Some false)
              (fresh object_s_schema VUndefined)) as [d|] eqn:E; [|done].
  exists d. destruct (Hd d eq_refl) as (Hn & _ & Hr & _).
  split; [done|]. split; [exact Hn|]. by rewrite !Hr.
Defined.

Lemma frame_refl ks s : is_obj s -> frame ks s s.
Proof. by intros H. Qed.

Lemma frame_trans ks s1 s2 s3 :
  frame ks s1 s2 -> frame ks s2 s3 -> frame ks s1 s3.
Proof.
  intros (H1 & _ & Hk & Hp) (_ & H3 & Hk' & Hp').
  repeat split; try done.
  - destruct (Hk' key) as [-> _]; try done. by apply Hk.
  - destruct (Hk' key) as [_ ->]; try done. by apply Hk.
  - auto.
Qed.

Lemma frame_weaken ks ks' s s' :
  (forall k, k ∈ ks -> k ∈ ks') -> frame ks s s' -> frame ks' s s'.
Proof.
  intros Hsub (H1 & H2 & Hk & Hp). repeat split; try done; apply Hk; auto.
Qed.

Lemma frame_set ks k v s : k ∈ ks -> is_obj s -> frame ks s (set k v s).
Proof.
  intros Hin Hs. repeat split; try done; [by apply is_obj_set|..].
  - rewrite get_set_obj by done.
    case_eqb key k; [by subst|done].
  - rewrite has_key_set_obj by done.
    case_eqb key k; [by subst|done].
  - intros H. rewrite has_key_set_obj by done. by rewrite H, orb_true_r.
Qed.

Lemma frame_delete ks k s :
  k ∈ ks -> k <> "properties" -> is_obj s -> frame ks s (delete k s).
Proof.
  intros Hin Hne Hs. repeat split; try done; [by apply is_obj_delete|..].
  - rewrite get_delete_obj. case_eqb key k; [by subst|done].
  - rewrite has_key_delete. case_eqb key k; [by subst|done].
  - intros H. rewrite has_key_delete.
    by rewrite H, (proj2 (string_eqb_false "properties" k)).
Qed.

Lemma frame_fold {A} ks (step : value -> A -> value) (l : list A) s :
  (forall s0 x, is_obj s0 -> frame ks s0 (step s0 x)) ->
  is_obj s -> frame ks s (fold_left step l s).
Proof.
  intros Hstep. revert s. induction l as [|x l IH]; intros s Hs; simpl.
  - by apply frame_refl.
  - eapply frame_trans; [by apply Hstep|]. apply IH. by apply Hstep.
Qed.

Ltac in_pr := unfold pr; repeat constructor.

Lemma frame_is_obj ks s s' : frame ks s s' -> is_obj s'.
Proof. by intros (_ & H & _). Qed.

Lemma frame_ensure_properties s : is_obj s -> frame pr s (ensure_properties s).
Proof. intros. apply frame_set; [in_pr|done]. Qed.

Lemma frame_push_required x s : is_obj s -> frame pr s (push_required x s).
Proof. intros. apply frame_set; [in_pr|done]. Qed.

Lemma frame_set_property x v s : is_obj s -> frame pr s (set_property x v s).
Proof. intros. apply frame_set; [in_pr|done]. Qed.

Lemma frame_unrequire x s : is_obj s -> frame pr s (unrequire x s).
Proof. intros. apply frame_set; [in_pr|done]. Qed.

Lemma frame_setRequired r s : is_obj s -> frame pr s (setRequired s r).
Proof.
  intros. unfold setRequired.
  destruct r as [| | | | | |[|]|]; try (by apply frame_delete; [in_pr|done|done]).
  apply frame_set; [in_pr|done].
Qed.

Lemma frame_clear_default s x : is_obj s -> frame pr s (clear_default s x).
Proof.
  intros. unfold clear_default.
  destruct (_ && _); [|by apply frame_refl]. apply frame_set; [in_pr|done].
Qed.

Lemma frame_require_one s x : is_obj s -> frame pr s (require_one s x).
Proof.
  intros. unfold require_one.
  set (s' := set "required" _ s).
  assert (frame pr s s') by (apply frame_set; [in_pr|done]).
  destruct (negb _); [|done].
  eapply frame_trans; [done|]. apply frame_set; [in_pr|by eapply frame_is_obj].
Qed.

Ltac frame_step :=
  first [ apply frame_push_required | apply frame_set_property
        | apply frame_unrequire | apply frame_ensure_properties ];
  eauto using frame_is_obj.

Lemma frame_merge_step s2 s x : is_obj s -> frame pr s (merge_step s2 s x).
Proof.
  intros Hs. unfold merge_step.
  destruct (negb _).
  - pose proof (frame_set_property x (get x (get "properties" s2)) s Hs) as H.
    destruct (requires x s2); [|done].
    eapply frame_trans; [exact H|]. frame_step.
  - set (s' := set_property x _ s).
    assert (H : frame pr s s') by by apply frame_set_property.
    destruct (_ && _); [|done].
    eapply frame_trans; [exact H|]. frame_step.
Qed.

Lemma frame_intersect_step s2 s x : is_obj s -> frame pr s (intersect_step s2 s x).
Proof.
  intros Hs. unfold intersect_step.
  destruct (negb _).
  - pose proof (frame_set_property x (get x (get "properties" s2)) s Hs) as H.
    destruct (requires x s2); [|done].
    eapply frame_trans; [exact H|]. frame_step.
  - set (s' := set_property x _ s).
    assert (H : frame pr s s') by by apply frame_set_property.
    destruct (_ && _); [|done].
    eapply frame_trans; [exact H|]. frame_step.
Qed.

Lemma frame_overwrite_step s2 s x : is_obj s -> frame pr s (overwrite_step s2 s x).
Proof.
  intros Hs. unfold overwrite_step.
  destruct (negb _).
  - pose proof (frame_set_property x (get x (get "properties" s2)) s Hs) as H.
    destruct (requires x s2); [|done].
    eapply frame_trans; [exact H|]. frame_step.
  - set (s' := set_property x _ s).
    assert (H : frame pr s s') by by apply frame_set_property.
    set (s'' := if requires x s' then unrequire x s' else s').
    assert (H' : frame pr s s'').
    { subst s''. destruct (requires x s'); [|done].
      eapply frame_trans; [exact H|]. frame_step. }
    destruct (requires x s2); [|done].
    eapply frame_trans; [exact H'|]. frame_step.
Qed.

Lemma frame_combine_schemas step o1 o2 :
  (forall s2 s x, is_obj s -> frame pr s (step s2 s x)) ->
  is_obj o1 -> frame pr o1 (combine_schemas step o1 o2).
Proof.
  intros Hstep Ho. unfold combine_schemas. rewrite !cloneJSON_id.
  destruct (truthy _); [|by apply frame_refl].
  eapply frame_trans; [by apply frame_ensure_properties|].
  apply frame_fold; [by intros; apply Hstep|].
  eapply frame_is_obj. by apply frame_ensure_properties.
Qed.

Lemma frame_simple ks this d :
  frame ks (schemaObject this) (schemaObject d) ->
  (forall k, k ∈ ks -> k ∈ pr) ->
  isSimpleObjectSchema this = true -> isSimpleObjectSchema d = true.
Proof.
  intros Hf Hsub. apply (frame_weaken _ pr) in Hf; [|done].
  destruct Hf as (_ & _ & Hk & Hp).
  assert (Hn : forall key, key <> "properties" -> key <> "required" -> key ∉ pr).
  { intros key H1 H2 Hin. unfold pr in Hin.
    apply elem_of_cons in Hin as [|Hin]; [done|].
    apply elem_of_cons in Hin as [|Hin]; [done|]. by apply elem_of_nil in Hin. }
  assert (Hg : forall key, key <> "properties" -> key <> "required" ->
                           get key (schemaObject d) = get key (schemaObject this))
    by (intros; by apply Hk, Hn).
  assert (Hh : forall key, key <> "properties" -> key <> "required" ->
                           has_key key (schemaObject d) = has_key key (schemaObject this))
    by (intros; by apply Hk, Hn).
  unfold isSimpleObjectSchema, hasAdditionalProperties, hasSchemasCombinationKeywords,
    isObjectSchema, hasType.
  rewrite (Hg "type"), (Hg "additionalProperties"), (Hh "type"), (Hh "oneOf"),
    (Hh "allOf"), (Hh "anyOf"), (Hh "not") by done.
  destruct (has_key "properties" (schemaObject this)) eqn:Hpr.
  - by rewrite Hp.
  - rewrite !andb_false_r, !orb_false_r.
    intros [[Ho Ha]%andb_true_iff Hc]%andb_true_iff.
    rewrite Ho in *. simpl in *. by rewrite Ha, Hc.
Qed.

Lemma frame_pr_written s s' : frame pr s s' -> frame written s s'.
Proof.
  apply frame_weaken. intros k Hk. unfold pr in Hk. unfold written.
  apply elem_of_cons in Hk as [->|Hk]; [by left|].
  apply elem_of_cons in Hk as [->|Hk]; [by right; left|].
  by apply elem_of_nil in Hk.
Qed.

Lemma value_eqb_false_bool v : value_eqb v (VBool false) = true -> v = VBool false.
Proof. destruct v as [| |[]| | | | |]; by try destruct xs; try destruct fs. Qed.

Lemma frame_written_simple this d :
  frame written (schemaObject this) (schemaObject d) ->
  get "additionalProperties" (schemaObject d) = VBool false ->
  isObjectSchema this = true -> hasSchemasCombinationKeywords this = false ->
  isSimpleObjectSchema d = true.
Proof.
  intros (_ & _ & Hk & Hp) Hap.
  assert (Hn : forall key, key <> "properties" -> key <> "required" ->
                           key <> "additionalProperties" ->
                           key <> "patternProperties" -> key ∉ written).
  { intros key H1 H2 H3 H4 Hin. unfold written in Hin.
    repeat (apply elem_of_cons in Hin as [|Hin]; [done|]).
    by apply elem_of_nil in Hin. }
  unfold isSimpleObjectSchema, hasAdditionalProperties, hasSchemasCombinationKeywords,
    isObjectSchema, hasType.
  rewrite Hap.
  destruct (Hk "type") as [-> ->]; [by apply Hn|].
  destruct (Hk "oneOf") as [_ ->]; [by apply Hn|].
  destruct (Hk "allOf") as [_ ->]; [by apply Hn|].
  destruct (Hk "anyOf") as [_ ->]; [by apply Hn|].
  destruct (Hk "not") as [_ ->]; [by apply Hn|].
  intros Ho ->. rewrite andb_false_r, !andb_true_r.
  destruct (has_key "properties" (schemaObject this)) eqn:Hpr.
  - by rewrite Hp.
  - rewrite andb_false_r, orb_false_r in Ho. by rewrite Ho.
Qed.

Lemma simple_parts this :
  isSimpleObjectSchema this = true ->
  isObjectSchema this = true /\ hasSchemasCombinationKeywords this = false
  /\ get "additionalProperties" (schemaObject this) = VBool false
  /\ is_obj (schemaObject this).
Proof.
  unfold isSimpleObjectSchema, hasAdditionalProperties.
  intros [[Ho Ha]%andb_true_iff Hc]%andb_true_iff.
  rewrite Ho in Ha. simpl in Ha.
  repeat split; try done.
  - by destruct (hasSchemasCombinationKeywords this).
  - apply value_eqb_false_bool. by destruct (value_eqb _ _).
  - by apply object_schema_is_object.
Qed.

(** What suffices of a transformation: it writes only [properties] and
    [required]. *)
Lemma frame_pr_simple this d :
  frame pr (schemaObject this) (schemaObject d) ->
  isSimpleObjectSchema this = true -> isSimpleObjectSchema d = true.
Proof.
  intros Hf Hs. destruct (simple_parts _ Hs) as (Ho & Hc & Hap & _).
  apply (frame_written_simple this); try done; [by apply frame_pr_written|].
  destruct Hf as (_ & _ & Hk & _). rewrite <- Hap. apply Hk.
  unfold pr. intros Hin.
  repeat (apply elem_of_cons in Hin as [|Hin]; [done|]). by apply elem_of_nil in Hin.
Qed.

Lemma fold_throw {A B} (step : result B -> A -> result B) (l : list A) e :
  (forall e x, step (Throw e) x = Throw e) -> fold_left step l (Throw e) = Throw e.
Proof.
  intros H. induction l as [|x l IH]; simpl; [done|]. by rewrite H.
Qed.

Lemma frame_result_fold {A} ks (step : result value -> A -> result value)
    (l : list A) s :
  (forall e x, step (Throw e) x = Throw e) ->
  (forall s0 x s1, is_obj s0 -> step (Ok s0) x = Ok s1 -> frame ks s0 s1) ->
  is_obj s ->
  forall s', fold_left step l (Ok s) = Ok s' -> frame ks s s'.
Proof.
  intros Hthrow Hstep. revert s. induction l as [|x l IH]; intros s Hs s'; simpl.
  - intros [= <-]. by apply frame_refl.
  - destruct (step (Ok s) x) as [s1|e] eqn:E.
    + intros H. eapply frame_trans; [by eapply Hstep|].
      apply IH; [|done]. eapply frame_is_obj. by eapply Hstep.
    + by rewrite fold_throw.
Qed.

Lemma frame_add_definition s kv : is_obj s -> frame pr s (add_definition s kv).
Proof.
  intros Hs. unfold add_definition.
  pose proof (frame_set_property (fst kv) (definition_schema (snd kv)) s Hs) as H.
  destruct (definition_required _); [|done].
  eapply frame_trans; [exact H|]. frame_step.
Qed.

Lemma frame_nullable_step required s0 x s1 :
  is_obj s0 -> nullable_step required (Ok s0) x = Ok s1 -> frame pr s0 s1.
Proof.
  intros Hs. unfold nullable_step. cbn [mbind result_bind bind].
  destruct (negb _); [|by intros [= <-]; apply frame_refl].
  destruct (get x (get "properties" s0)); try done;
    try (intros [= <-]; by apply frame_set_property).
  destruct (has_key _ _); intros [= <-]; by apply frame_set_property.
Qed.

Lemma frame_to_array_step schema s0 x s1 :
  is_obj s0 -> to_array_step schema (Ok s0) x = Ok s1 -> frame pr s0 s1.
Proof.
  intros Hs. unfold to_array_step. cbn [mbind result_bind bind].
  destruct (type_member _) as [ty|]; [|done]. cbn [mbind result_bind bind].
  destruct (is_str "array" ty); cbn [negb]; intros [= <-];
    [by apply frame_refl|by apply frame_set_property].
Qed.

Lemma frame_unwrap_step s0 x s1 :
  is_obj s0 -> unwrap_step (Ok s0) x = Ok s1 -> frame pr s0 s1.
Proof.
  intros Hs. unfold unwrap_step. cbn [mbind result_bind bind].
  destruct (type_member _) as [ty|]; [|done]. cbn [mbind result_bind bind].
  destruct (is_str "array" ty); intros [= <-];
    [by apply frame_set_property|by apply frame_refl].
Qed.

Lemma frame_pick_schema L s :
  is_obj s ->
  frame written s (pick_schema L s)
  /\ get "additionalProperties" (pick_schema L s) = VBool false.
Proof.
  intros Hs. unfold pick_schema.
  set (s0 := ensure_properties s).
  assert (H0 : frame written s s0)
    by (apply frame_pr_written; by apply frame_ensure_properties).
  set (s1 := set "properties" _ s0).
  assert (H1 : frame written s s1).
  { eapply frame_trans; [exact H0|]. apply frame_set; [by left|].
    by eapply frame_is_obj. }
  set (s2 := if truthy (get "required" s1) then _ else s1).
  assert (H2 : frame written s s2).
  { subst s2. destruct (truthy _); [|done].
    eapply frame_trans; [exact H1|]. apply frame_set; [by right; left|].
    by eapply frame_is_obj. }
  set (s3 := if _ && _ then delete "required" s2 else s2).
  assert (H3 : frame written s s3).
  { subst s3. destruct (_ && _); [|done].
    eapply frame_trans; [exact H2|]. apply frame_delete; [by right; left|done|].
    by eapply frame_is_obj. }
  split.
  - eapply frame_trans; [exact H3|]. apply frame_set; [by right; right; left|].
    by eapply frame_is_obj.
  - rewrite get_set_obj by by eapply frame_is_obj. done.
Qed.

Ltac built_by H :=
  apply new_SchemaBuilder_inv in H as (H & _); rewrite H.

Lemma transform_frame t this d :
  isSimpleObjectSchema this = true ->
  transform t this = Ok d ->
  frame written (schemaObject this) (schemaObject d)
  /\ get "additionalProperties" (schemaObject d) = VBool false.
Proof.
  intros Hsimple.
  destruct (simple_parts _ Hsimple) as (Hobj & Hcomb & Hap & Hisobj).
  assert (Hpr : forall s', frame pr (schemaObject this) s' ->
                frame written (schemaObject this) s'
                /\ get "additionalProperties" s' = VBool false).
  { intros s' Hf. split; [by apply frame_pr_written|].
    destruct Hf as (_ & _ & Hk & _). rewrite <- Hap. apply Hk.
    unfold pr. intros Hin.
    repeat (apply elem_of_cons in Hin as [|Hin]; [done|]).
    by apply elem_of_nil in Hin. }
  destruct t; simpl.
  - (* setOptionalProperties *)
    unfold setOptionalProperties. rewrite Hsimple, cloneJSON_id. simpl.
    intros H. built_by H. apply Hpr.
    eapply frame_trans; [|apply frame_setRequired].
    + apply frame_fold; [|done]. intros. by apply frame_clear_default.
    + eapply frame_is_obj. apply frame_fold; [|done].
      intros. by apply frame_clear_default.
  - (* setRequiredProperties *)
    unfold setRequiredProperties. rewrite Hsimple, cloneJSON_id. simpl.
    intros H. built_by H. apply Hpr.
    apply frame_fold; [|done]. intros. by apply frame_require_one.
  - (* toOptionals *)
    unfold toOptionals. rewrite cloneJSON_id.
    intros H. built_by H. apply Hpr.
    assert (Hd : frame pr (schemaObject this) (delete "required" (schemaObject this)))
      by (apply frame_delete; [in_pr|done|done]).
    destruct (get "properties" _); try done.
    eapply frame_trans; [exact Hd|]. apply frame_set; [in_pr|].
    by eapply frame_is_obj.
  - (* toNullable *)
    unfold toNullable. rewrite Hsimple, cloneJSON_id. simpl.
    destruct (fold_left _ _ _) as [s|] eqn:E; [|done]. cbn [mbind result_bind bind].
    intros H. built_by H. apply Hpr.
    eapply frame_result_fold; [| |done|exact E].
    + by intros.
    + intros. by eapply frame_nullable_step.
  - (* addProperty *)
    unfold addProperty. rewrite Hobj, !cloneJSON_id. simpl.
    destruct (has_key _ _); [done|].
    intros H. built_by H. apply Hpr.
    assert (H1 : frame pr (schemaObject this)
                   (set "properties"
                      (set propertyName (schemaObject schemaBuilder)
                         (get "properties" (ensure_properties (schemaObject this))))
                      (ensure_properties (schemaObject this)))).
    { eapply frame_trans; [by apply frame_ensure_properties|].
      apply frame_set; [in_pr|]. eapply frame_is_obj.
      by apply frame_ensure_properties. }
    destruct isRequired as [[]|]; try done;
      (eapply frame_trans; [exact H1|]; frame_step).
  - (* replaceProperty *)
    unfold replaceProperty. rewrite Hobj, !cloneJSON_id. simpl.
    set (s0 := ensure_properties (schemaObject this)).
    assert (H0 : frame pr (schemaObject this) s0) by by apply frame_ensure_properties.
    set (s1 := if truthy (get "required" s0) then _ else s0).
    assert (H1 : frame pr (schemaObject this) s1).
    { subst s1. destruct (truthy _); [|done].
      eapply frame_trans; [exact H0|]. apply frame_set; [in_pr|].
      by eapply frame_is_obj. }
    destruct (match schemaBuilderResolver with
              | ResolveTo b => Ok b
              | ResolveWith f => _
              end) as [b|]; [|done]. cbn [mbind result_bind bind].
    intros H. built_by H. apply Hpr.
    assert (H2 : frame pr (schemaObject this)
                   (set "properties"
                      (set propertyName (cloneJSON (schemaObject b))
                         (get "properties" s1)) s1)).
    { eapply frame_trans; [exact H1|]. apply frame_set; [in_pr|].
      by eapply frame_is_obj. }
    destruct isRequired as [[]|]; try done;
      (eapply frame_trans; [exact H2|]; frame_step).
  - (* addProperties *)
    unfold addProperties. rewrite Hobj, !cloneJSON_id. simpl.
    destruct (_ <? _)%nat; [done|].
    intros H. built_by H. apply Hpr.
    eapply frame_trans; [by apply frame_ensure_properties|].
    apply frame_fold; [intros; by apply frame_add_definition|].
    eapply frame_is_obj. by apply frame_ensure_properties.
  - (* addPatternProperty *)
    unfold addPatternProperty. rewrite !cloneJSON_id.
    intros H. built_by H. split.
    + apply frame_set; [by do 3 right; left|done].
    + by rewrite get_set_obj.
  - (* renameProperty *)
    unfold renameProperty. rewrite Hsimple, !cloneJSON_id. simpl.
    intros H. built_by H. apply Hpr.
    set (s0 := ensure_properties (schemaObject this)).
    assert (H0 : frame pr (schemaObject this) s0) by by apply frame_ensure_properties.
    destruct (has_key _ _); [|done].
    set (s1 := set "properties" _ s0).
    assert (H1 : frame pr (schemaObject this) s1).
    { eapply frame_trans; [exact H0|]. apply frame_set; [in_pr|].
      by eapply frame_is_obj. }
    destruct (_ && _); [|done].
    destruct (get "required" s1); try done.
    eapply frame_trans; [exact H1|]. apply frame_set; [in_pr|].
    by eapply frame_is_obj.
  - (* pickProperties *)
    unfold pickProperties. rewrite Hobj, Hcomb, cloneJSON_id. simpl.
    intros H. built_by H. by apply frame_pick_schema.
  - (* omitProperties *)
    unfold omitProperties, pickProperties.
    rewrite Hsimple, Hobj, Hcomb, cloneJSON_id. simpl.
    intros H. built_by H. by apply frame_pick_schema.
  - (* transformProperties *)
    unfold transformProperties. rewrite Hsimple, !cloneJSON_id. simpl.
    intros H. built_by H. apply Hpr.
    eapply frame_trans; [by apply frame_ensure_properties|].
    apply frame_fold; [intros; by apply frame_set_property|].
    eapply frame_is_obj. by apply frame_ensure_properties.
  - (* transformPropertiesToArray *)
    unfold transformPropertiesToArray. rewrite Hsimple, !cloneJSON_id. simpl.
    destruct (fold_left _ _ _) as [s|] eqn:E; [|done]. cbn [mbind result_bind bind].
    intros H. built_by H. apply Hpr.
    eapply frame_trans; [by apply frame_ensure_properties|].
    eapply frame_result_fold; [| | |exact E].
    + by intros.
    + intros. by eapply frame_to_array_step.
    + eapply frame_is_obj. by apply frame_ensure_properties.
  - (* unwrapArrayProperties *)
    unfold unwrapArrayProperties. rewrite Hsimple, !cloneJSON_id. simpl.
    destruct (fold_left _ _ _) as [s|] eqn:E; [|done]. cbn [mbind result_bind bind].
    intros H. built_by H. apply Hpr.
    eapply frame_trans; [by apply frame_ensure_properties|].
    eapply frame_result_fold; [| | |exact E].
    + by intros.
    + intros. by eapply frame_unwrap_step.
    + eapply frame_is_obj. by apply frame_ensure_properties.
  - unfold intersectProperties. rewrite Hsimple. simpl.
    intros H. built_by H. apply Hpr.
    apply frame_combine_schemas; [|done]. intros. by apply frame_intersect_step.
  - unfold mergeProperties. rewrite Hsimple. simpl.
    intros H. built_by H. apply Hpr.
    apply frame_combine_schemas; [|done]. intros. by apply frame_merge_step.
  - unfold overwriteProperties. rewrite Hsimple. simpl.
    intros H. built_by H. apply Hpr.
    apply frame_combine_schemas; [|done]. intros. by apply frame_overwrite_step.
  - unfold configureValidation. rewrite cloneJSON_id.
    intros H. built_by H. apply Hpr. by apply frame_refl.
Qed.

(** X17.  Whatever chain of the calls listed in [Transformation] is made on
    a simple object schema, every document it brings is a simple object
    schema again, and no keyword other than [properties], [required],
    [additionalProperties] and [patternProperties] is changed. *)
Theorem chain_keeps_simple_object_schema (ts : list Transformation)
    (this d : SchemaBuilder) :
  isSimpleObjectSchema this = true ->
  chain ts this = Ok d ->
  isSimpleObjectSchema d = true
  /\ get "additionalProperties" (schemaObject d) = VBool false
  /\ forall key, key ∉ written ->
       get key (schemaObject d) = get key (schemaObject this)
       /\ has_key key (schemaObject d) = has_key key (schemaObject this).
Proof.
  revert this. induction ts as [|t ts IH]; intros this Hs; simpl.
  - intros [= <-]. destruct (simple_parts _ Hs) as (_ & _ & Hap & _). done.
  - destruct (transform t this) as [d'|] eqn:Ht; [|done].
    cbn [mbind result_bind bind]. intros Hd.
    destruct (transform_frame _ _ _ Hs Ht) as [Hf Hap].
    destruct (simple_parts _ Hs) as (Ho & Hc & _ & _).
    pose proof (frame_written_simple _ _ Hf Hap Ho Hc) as Hs'.
    destruct (IH d' Hs' Hd) as (H1 & H2 & H3).
    split; [done|]. split; [done|]. intros key Hk.
    destruct Hf as (_ & _ & Hk' & _).
    destruct (H3 key Hk) as [-> ->]. by apply Hk'.
Qed.

Lemma chain_keeps_simple_object_schema_witness :
  exists d,
    chain [AddProperty "n" (fresh integer_schema VUndefined) (Some false);
           RenameProperty "b" "flag"; ToNullable; OmitProperties ["s"]]
      (fresh object_s_b_schema VUndefined) = Ok d
    /\ isSimpleObjectSchema d = true
    /\ property_names d = ["n"; "flag"].
Proof.
  eexists. split; [vm_compute; reflexivity|]. split; [|vm_compute; reflexivity].
  apply (chain_keeps_simple_object_schema
           [AddProperty "n" (fresh integer_schema VUndefined) (Some false);
            RenameProperty "b" "flag"; ToNullable; OmitProperties ["s"]]
           (fresh object_s_b_schema VUndefined)); [reflexivity|].
  vm_compute. reflexivity.
Defined.

(** ** Intersecting and overwriting properties *)

Section Combine.
Variable shared_prop : value -> value -> value.
Variable shared_req : bool -> bool -> bool.
Variable step : value -> value -> string -> value.
Hypothesis Hstep : step_spec shared_prop shared_req step.

Lemma combine_step_state s1 s2 seen s x :
  combine_state shared_prop shared_req s1 s2 seen s ->
  x ∉ seen ->
  combine_state shared_prop shared_req s1 s2 (seen ++ [x]) (step s2 s x).
Proof.
  intros ([fs ->] & [ps Hps] & Hreq & Hhas & Hget & Hrq & Hother) Hx.
  assert (Hxseen : bool_decide (x ∈ seen) = false) by by apply bool_decide_eq_false.
  destruct (Hstep s2 fs ps x Hps Hreq) as (fs' & -> & Hps' & Hreq' & Hrq' & Hother').
  assert (Hin1 : has_key x (VObj ps) = has_key x (get "properties" s1)).
  { by rewrite <- Hps, Hhas, Hxseen, orb_false_r. }
  assert (Hgx : get x (VObj ps) = get x (get "properties" s1)).
  { by rewrite <- Hps, Hget, Hxseen. }
  assert (Hrx : requires x (VObj fs) = requires x s1).
  { by rewrite Hrq, Hxseen. }
  rewrite Hin1, Hgx in Hps'. rewrite Hin1, Hrx in Hrq'.
  repeat split; try done.
  - by eexists.
  - eauto.
  - intros k. rewrite Hps'. simpl. rewrite lookup_set_field, elem_of_snoc.
    specialize (Hhas k). rewrite Hps in Hhas. simpl in Hhas.
    case_eqb k x.
    + rewrite bool_decide_true by eauto. by rewrite orb_true_r, orb_true_r.
    + by rewrite Hhas, orb_false_r.
  - intros k. rewrite Hps'. simpl. rewrite lookup_set_field, elem_of_snoc.
    specialize (Hget k). rewrite Hps in Hget. simpl in Hget.
    case_eqb k x.
    + subst k. by rewrite orb_true_r.
    + by rewrite Hget, orb_false_r.
  - intros k. rewrite Hrq', Hrq, elem_of_snoc.
    case_eqb k x.
    + subst k. by rewrite orb_true_r.
    + by rewrite orb_false_r.
  - intros key H1 H2. rewrite Hother' by done. by apply Hother.
Qed.

Lemma combine_fold_state s1 s2 names seen s :
  combine_state shared_prop shared_req s1 s2 seen s ->
  NoDup names ->
  (forall x, x ∈ names -> x ∉ seen) ->
  combine_state shared_prop shared_req s1 s2 (seen ++ names)
    (fold_left (step s2) names s).
Proof.
  revert seen s. induction names as [|x names IH]; intros seen s Hs Hnd Hfresh; simpl.
  - by rewrite app_nil_r.
  - apply NoDup_cons in Hnd as [Hx Hnd].
    replace (seen ++ x :: names) with ((seen ++ [x]) ++ names)
      by by rewrite <- app_assoc.
    apply IH; [|done|].
    + apply combine_step_state; [done|]. apply Hfresh. left.
    + intros y Hy [Hin|Hin%list_elem_of_singleton]%elem_of_app.
      * apply (Hfresh y); [by right | done].
      * by subst.
Qed.

Lemma combine_start_state s1 s2 :
  typed_object_schema s1 ->
  combine_state shared_prop shared_req s1 s2 [] (ensure_properties s1).
Proof.
  intros Hty. destruct (merge_start_state s1 s2 Hty)
    as (H1 & H2 & H3 & H4 & H5 & H6 & H7).
  repeat split; try done.
Qed.

(** The outcome of the whole loop. *)
Lemma combine_schemas_spec s1 s2 :
  typed_object_schema s1 -> typed_object_schema s2 ->
  required_are_properties s1 = true ->
  (forall k, has_key k (get "properties" (combine_schemas step s1 s2))
             = has_key k (get "properties" s1) || has_key k (get "properties" s2))
  /\ (forall k, get k (get "properties" (combine_schemas step s1 s2))
                = combined_property shared_prop s1 s2 k)
  /\ (forall k, requires k (combine_schemas step s1 s2)
                = combined_required shared_req s1 s2 k)
  /\ (forall key, key <> "properties" -> key <> "required" ->
                  get key (combine_schemas step s1 s2) = get key s1).
Proof.
  intros Ht1 Ht2 Hdangling.
  unfold combine_schemas. rewrite !cloneJSON_id.
  unfold combined_property, combined_required.
  destruct Ht2 as (_ & [Hu|(ps2 & Hps2 & Hnd)] & _).
  - rewrite Hu. simpl. repeat split; intros; by rewrite ?orb_false_r.
  - rewrite Hps2. simpl truthy. cbv iota.
    pose proof (combine_fold_state s1 s2 (keys (VObj ps2)) [] _
                  (combine_start_state s1 s2 Ht1) Hnd
                  (fun x _ => not_elem_of_nil x)) as Hend.
    rewrite <- Hps2 in Hend |- *.
    destruct Hend as (_ & _ & _ & Hhas & Hget & Hrq & Hother).
    assert (Hin2 : forall k, bool_decide (k ∈ [] ++ keys (get "properties" s2))
                             = has_key k (get "properties" s2)).
    { intros k. simpl. destruct (has_key k (get "properties" s2)) eqn:E.
      - by apply bool_decide_eq_true, has_key_keys.
      - apply bool_decide_eq_false. intros Hk%has_key_keys. congruence. }
    repeat split.
    + intros k. by rewrite Hhas, Hin2.
    + intros k. by rewrite Hget, Hin2.
    + intros k. rewrite Hrq, Hin2.
      destruct (has_key k (get "properties" s2)); [|done].
      destruct (has_key k (get "properties" s1)) eqn:E1; [done|].
      destruct (requires k s1) eqn:Er; [|done].
      apply (required_are_properties_spec s1 k Hdangling) in Er. congruence.
    + done.
Qed.

End Combine.

Lemma set_property_facts x v fs ps :
  get "properties" (VObj fs) = VObj ps ->
  exists fs',
    set_property x v (VObj fs) = VObj fs'
    /\ get "properties" (VObj fs') = VObj (set_field x v ps)
    /\ get "required" (VObj fs') = get "required" (VObj fs)
    /\ (forall k, requires k (VObj fs') = requires k (VObj fs))
    /\ (forall key, key <> "properties" -> get key (VObj fs') = get key (VObj fs)).
Proof.
  intros Hps. eexists. split; [reflexivity|].
  change (VObj (set_field "properties" (set x v (get "properties" (VObj fs))) fs))
    with (set_property x v (VObj fs)).
  repeat split.
  - unfold set_property. by rewrite get_set, string_eqb_refl, Hps.
  - unfold set_property. by rewrite get_set.
  - intros k. apply requires_set_property.
  - intros key Hk. unfold set_property.
    by rewrite get_set, (proj2 (string_eqb_false _ _) Hk).
Qed.

Lemma push_required_facts x fs :
  required_typed (VObj fs) ->
  exists fs',
    push_required x (VObj fs) = VObj fs'
    /\ required_typed (VObj fs')
    /\ (forall k, requires k (VObj fs') = string_eqb k x || requires k (VObj fs))
    /\ (forall key, key <> "required" -> get key (VObj fs') = get key (VObj fs)).
Proof.
  intros Hreq. eexists. split; [reflexivity|].
  change (VObj (set_field "required"
                  (arr_push (VStr x) (por (get "required" (VObj fs)) (VArr []))) fs))
    with (push_required x (VObj fs)).
  repeat split.
  - right. unfold push_required. rewrite get_set, string_eqb_refl.
    destruct Hreq as [->|[xs ->]]; simpl; eauto.
  - intros k. by apply requires_push_required.
  - intros key Hk. by apply get_push_required.
Qed.

Lemma unrequire_facts x fs :
  requires x (VObj fs) = true ->
  required_typed (VObj fs) ->
  exists fs',
    unrequire x (VObj fs) = VObj fs'
    /\ required_typed (VObj fs')
    /\ (forall k, requires k (VObj fs')
                  = negb (string_eqb k x) && requires k (VObj fs))
    /\ (forall key, key <> "required" -> get key (VObj fs') = get key (VObj fs)).
Proof.
  intros Hr Hreq. eexists. split; [reflexivity|].
  change (VObj (set_field "required"
                  (arr_filter (fun p => negb (is_str x p)) (get "required" (VObj fs))) fs))
    with (unrequire x (VObj fs)).
  assert (exists xs, get "required" (VObj fs) = VArr xs) as [xs Hxs].
  { destruct Hreq as [Hu|?]; [|done]. unfold requires in Hr. by rewrite Hu in Hr. }
  repeat split.
  - right. unfold unrequire. rewrite get_set, string_eqb_refl, Hxs. simpl. eauto.
  - intros k. by apply (requires_unrequire _ _ _ xs).
  - intros key Hk. by apply get_unrequire.
Qed.

Lemma intersect_step_spec :
  step_spec (fun ours theirs => VObj [("allOf", VArr [ours; theirs])]) orb
    intersect_step.
Proof.
  intros s2 fs ps x Hps Hreq. unfold intersect_step. cbv zeta. rewrite Hps.
  set (p2 := get x (get "properties" s2)).
  destruct (has_key x (VObj ps)) eqn:Hk; cbn [negb].
  - set (v := VObj [("allOf", VArr [get x (VObj ps); p2])]).
    destruct (set_property_facts x v fs ps Hps) as (fs1 & -> & Hp1 & Hq1 & Hr1 & Ho1).
    assert (Hcond : requires x s2
                    && (negb (truthy (get "required" (VObj fs1)))
                        || negb (includes_str x (get "required" (VObj fs1))))
                    = requires x s2 && negb (requires x (VObj fs))).
    { rewrite <- Hr1. unfold requires at 3. by rewrite negb_andb. }
    rewrite Hcond.
    assert (Hreq1 : required_typed (VObj fs1)) by (unfold required_typed; by rewrite Hq1).
    destruct (requires x s2 && negb (requires x (VObj fs))) eqn:E.
    + apply andb_true_iff in E as [E2 E1]. apply negb_true_iff in E1.
      destruct (push_required_facts x fs1 Hreq1) as (fs2 & -> & Hq2 & Hr2 & Ho2).
      exists fs2. split; [done|]. split; [by rewrite Ho2|]. split; [done|]. split.
      * intros k. rewrite Hr2, Hr1. case_eqb k x; [|done]. by rewrite E1, E2.
      * intros key H1 H2. rewrite Ho2, Ho1 by done. done.
    + exists fs1. split; [done|]. split; [done|]. split; [done|]. split.
      * intros k. rewrite Hr1. case_eqb k x; [|done]. subst k.
        destruct (requires x (VObj fs)), (requires x s2); done.
      * intros key H1 H2. by apply Ho1.
  - destruct (set_property_facts x p2 fs ps Hps) as (fs1 & -> & Hp1 & Hq1 & Hr1 & Ho1).
    assert (Hreq1 : required_typed (VObj fs1)) by (unfold required_typed; by rewrite Hq1).
    destruct (requires x s2) eqn:E2.
    + destruct (push_required_facts x fs1 Hreq1) as (fs2 & -> & Hq2 & Hr2 & Ho2).
      exists fs2. split; [done|]. split; [by rewrite Ho2|]. split; [done|]. split.
      * intros k. rewrite Hr2, Hr1. case_eqb k x; [|done]. by rewrite orb_true_r.
      * intros key H1 H2. rewrite Ho2, Ho1 by done. done.
    + exists fs1. split; [done|]. split; [done|]. split; [done|]. split.
      * intros k. rewrite Hr1. case_eqb k x; [|done]. subst k. by rewrite orb_false_r.
      * intros key H1 H2. by apply Ho1.
Qed.

Lemma overwrite_step_spec :
  step_spec (fun _ theirs => theirs) (fun _ theirs => theirs) overwrite_step.
Proof.
  intros s2 fs ps x Hps Hreq. unfold overwrite_step. cbv zeta. rewrite Hps.
  set (p2 := get x (get "properties" s2)).
  destruct (set_property_facts x p2 fs ps Hps) as (fs1 & -> & Hp1 & Hq1 & Hr1 & Ho1).
  assert (Hreq1 : required_typed (VObj fs1)) by (unfold required_typed; by rewrite Hq1).
  assert (Hv : (if has_key x (VObj ps) then p2 else p2) = p2) by by destruct (has_key _ _).
  rewrite Hv.
  destruct (has_key x (VObj ps)) eqn:Hk; cbn [negb].
  - assert (exists fs2, (if requires x (VObj fs1) then unrequire x (VObj fs1)
                         else VObj fs1) = VObj fs2
              /\ required_typed (VObj fs2)
              /\ (forall k, requires k (VObj fs2)
                            = negb (string_eqb k x) && requires k (VObj fs))
              /\ (forall key, key <> "required" ->
                              get key (VObj fs2) = get key (VObj fs1)))
      as (fs2 & -> & Hq2 & Hr2 & Ho2).
    { destruct (requires x (VObj fs1)) eqn:E.
      - destruct (unrequire_facts x fs1 E Hreq1) as (fs2 & -> & ? & Hr & ?).
        exists fs2. repeat split; try done. intros k. by rewrite Hr, Hr1.
      - exists fs1. repeat split; try done. intros k. rewrite Hr1.
        case_eqb k x; [|done]. subst k. by rewrite <- Hr1, E. }
    destruct (requires x s2) eqn:E2.
    + destruct (push_required_facts x fs2 Hq2) as (fs3 & -> & Hq3 & Hr3 & Ho3).
      exists fs3. split; [done|]. split; [by rewrite Ho3, Ho2|]. split; [done|]. split.
      * intros k. rewrite Hr3, Hr2. by case_eqb k x.
      * intros key H1 H2. rewrite Ho3, Ho2, Ho1 by done. done.
    + exists fs2. split; [done|]. split; [by rewrite Ho2|]. split; [done|]. split.
      * intros k. rewrite Hr2. by case_eqb k x.
      * intros key H1 H2. rewrite Ho2, Ho1 by done. done.
  - destruct (requires x s2) eqn:E2.
    + destruct (push_required_facts x fs1 Hreq1) as (fs2 & -> & Hq2 & Hr2 & Ho2).
      exists fs2. split; [done|]. split; [by rewrite Ho2|]. split; [done|]. split.
      * intros k. rewrite Hr2, Hr1. case_eqb k x; [|done]. by rewrite orb_true_r.
      * intros key H1 H2. rewrite Ho2, Ho1 by done. done.
    + exists fs1. split; [done|]. split; [done|]. split; [done|]. split.
      * intros k. rewrite Hr1. case_eqb k x; [|done]. subst k. by rewrite orb_false_r.
      * intros key H1 H2. by apply Ho1.
Qed.

Lemma intersect_step_ref_free s2 s x :
  containsRef s2 = false -> containsRef s = false ->
  containsRef (intersect_step s2 s x) = false.
Proof.
  intros H2 Hs. unfold intersect_step. cbv zeta.
  pose proof (ref_free_property s2 x H2) as Hp2.
  pose proof (ref_free_property s x Hs) as Hp.
  destruct (negb (has_key x (get "properties" s))).
  - destruct (requires x s2);
      [apply containsRef_push_required|]; by apply containsRef_set_property.
  - assert (Hs' : containsRef
        (set_property x (VObj [("allOf", VArr [get x (get "properties" s);
                                              get x (get "properties" s2)])]) s)
        = false).
    { apply containsRef_set_property; [done|]. simpl. by rewrite Hp, Hp2. }
    destruct (_ && _); [by apply containsRef_push_required | done].
Qed.

Lemma overwrite_step_ref_free s2 s x :
  containsRef s2 = false -> containsRef s = false ->
  containsRef (overwrite_step s2 s x) = false.
Proof.
  intros H2 Hs. unfold overwrite_step. cbv zeta.
  pose proof (ref_free_property s2 x H2) as Hp2.
  assert (Hs' : containsRef (set_property x (get x (get "properties" s2)) s) = false)
    by by apply containsRef_set_property.
  destruct (negb (has_key x (get "properties" s))).
  - destruct (requires x s2); [by apply containsRef_push_required|done].
  - set (s' := set_property x _ s) in *.
    assert (Hs'' : containsRef (if requires x s' then unrequire x s' else s') = false)
      by (destruct (requires x s'); [by apply containsRef_unrequire|done]).
    destruct (requires x s2); [by apply containsRef_push_required|done].
Qed.

Lemma combine_schemas_ref_free step o1 o2 :
  (forall s2 s x, containsRef s2 = false -> containsRef s = false ->
                  containsRef (step s2 s x) = false) ->
  containsRef o1 = false -> containsRef o2 = false ->
  containsRef (combine_schemas step o1 o2) = false.
Proof.
  intros Hstep H1 H2. unfold combine_schemas. rewrite !cloneJSON_id.
  destruct (truthy (get "properties" o2)); [|done].
  pose proof (containsRef_ensure_properties o1 H1) as H0.
  generalize dependent (ensure_properties o1). clear H1.
  induction (keys (get "properties" o2)) as [|x l IH]; intros s Hs; simpl; [done|].
  apply IH. by apply Hstep.
Qed.

(** X15.  [D1.intersectProperties(D2)], for simple object schemas in which
    every name of D1's [required] is one of D1's properties and no
    property of D2 bears a name of [Object.prototype]: the properties are
    those of either side; a name of one side keeps that
    side's sub-document and required status; a name of both sides gets
    [allOf] of the two sub-documents, D1's first, and is required if it
    is required on either side.  Every other keyword is D1's. *)
Theorem intersectProperties_spec (schema this : SchemaBuilder) :
  isSimpleObjectSchema this = true ->
  well_typed (schemaObject this) = true ->
  well_typed (schemaObject schema) = true ->
  required_are_properties (schemaObject this) = true ->
  none_inherited (property_names schema) = true ->
  exists combined,
    intersectProperties schema this
    = new_SchemaBuilder combined (validationConfig this)
    /\ (containsRef (schemaObject this) = false ->
        containsRef (schemaObject schema) = false ->
        intersectProperties schema this = Ok (fresh combined (validationConfig this)))
    /\ (forall k, has_key k (get "properties" combined)
                  = has_key k (get "properties" (schemaObject this))
                    || has_key k (get "properties" (schemaObject schema)))
    /\ (forall k, get k (get "properties" combined)
                  = combined_property
                      (fun ours theirs => VObj [("allOf", VArr [ours; theirs])])
                      (schemaObject this) (schemaObject schema) k)
    /\ (forall k, requires k combined
                  = combined_required orb (schemaObject this) (schemaObject schema) k)
    /\ (forall key, key <> "properties" -> key <> "required" ->
                    get key combined = get key (schemaObject this)).
Proof.
  intros Hsimple Ht1%well_typed_spec Ht2%well_typed_spec Hdangling _.
  exists (combine_schemas intersect_step (schemaObject this) (schemaObject schema)).
  assert (Hrun : intersectProperties schema this
                 = new_SchemaBuilder
                     (combine_schemas intersect_step (schemaObject this)
                        (schemaObject schema)) (validationConfig this)).
  { unfold intersectProperties. by rewrite Hsimple. }
  split; [done|]. split.
  { intros H1 H2. rewrite Hrun. apply new_SchemaBuilder_ok.
    apply combine_schemas_ref_free; [|done|done].
    intros. by apply intersect_step_ref_free. }
  destruct (combine_schemas_spec _ _ _ intersect_step_spec _ _ Ht1 Ht2 Hdangling)
    as (H1 & H2 & H3 & H4).
  repeat split; done.
Qed.

Lemma intersectProperties_witness :
  exists combined,
    intersectProperties (fresh optional_s_required_b_schema VUndefined)
      (fresh object_s_schema VUndefined)
    = new_SchemaBuilder combined VUndefined
    /\ get "s" (get "properties" combined)
       = VObj [("allOf", VArr [VObj [("type", VStr "string")];
                               VObj [("type", VStr "boolean")]])]
    /\ requires "s" combined = true
    /\ requires "b" combined = true.
Proof.
  destruct (intersectProperties_spec (fresh optional_s_required_b_schema VUndefined)
              (fresh object_s_schema VUndefined))
    as (combined & Hrun & _ & _ & Hget & Hrq & _); try reflexivity.
  exists combined. split; [exact Hrun|].
  split; [exact (Hget "s")|]. split; [exact (Hrq "s") | exact (Hrq "b")].
Defined.

(** X16.  [D1.overwriteProperties(D2)], under the same conditions: a name of
    both sides gets D2's sub-document and D2's required status, a name
    of one side keeps that side's. *)
Theorem overwriteProperties_spec (schema this : SchemaBuilder) :
  isSimpleObjectSchema this = true ->
  well_typed (schemaObject this) = true ->
  well_typed (schemaObject schema) = true ->
  required_are_properties (schemaObject this) = true ->
  exists combined,
    overwriteProperties schema this
    = new_SchemaBuilder combined (validationConfig this)
    /\ (containsRef (schemaObject this) = false ->
        containsRef (schemaObject schema) = false ->
        overwriteProperties schema this = Ok (fresh combined (validationConfig this)))
    /\ (forall k, has_key k (get "properties" combined)
                  = has_key k (get "properties" (schemaObject this))
                    || has_key k (get "properties" (schemaObject schema)))
    /\ (forall k, get k (get "properties" combined)
                  = if has_key k (get "properties" (schemaObject schema))
                    then get k (get "properties" (schemaObject schema))
                    else get k (get "properties" (schemaObject this)))
    /\ (forall k, requires k combined
                  = if has_key k (get "properties" (schemaObject schema))
                    then requires k (schemaObject schema)
                    else requires k (schemaObject this))
    /\ (forall key, key <> "properties" -> key <> "required" ->
                    get key combined = get key (schemaObject this)).
Proof.
  intros Hsimple Ht1%well_typed_spec Ht2%well_typed_spec Hdangling.
  exists (combine_schemas overwrite_step (schemaObject this) (schemaObject schema)).
  assert (Hrun : overwriteProperties schema this
                 = new_SchemaBuilder
                     (combine_schemas overwrite_step (schemaObject this)
                        (schemaObject schema)) (validationConfig this)).
  { unfold overwriteProperties. by rewrite Hsimple. }
  split; [done|]. split.
  { intros H1 H2. rewrite Hrun. apply new_SchemaBuilder_ok.
    apply combine_schemas_ref_free; [|done|done].
    intros. by apply overwrite_step_ref_free. }
  destruct (combine_schemas_spec _ _ _ overwrite_step_spec _ _ Ht1 Ht2 Hdangling)
    as (H1 & H2 & H3 & H4).
  repeat split; try done.
  - intros k. rewrite H2. unfold combined_property.
    by destruct (has_key k (get "properties" (schemaObject schema))),
         (has_key k (get "properties" (schemaObject this))).
  - intros k. rewrite H3. unfold combined_required.
    by destruct (has_key k (get "properties" (schemaObject schema))),
         (has_key k (get "properties" (schemaObject this))).
Qed.

Lemma overwriteProperties_witness :
  exists combined,
    overwriteProperties (fresh optional_s_required_b_schema VUndefined)
      (fresh object_s_schema VUndefined)
    = new_SchemaBuilder combined VUndefined
    /\ get "s" (get "properties" combined) = VObj [("type", VStr "boolean")]
    /\ requires "s" combined = false
    /\ requires "b" combined = true.
Proof.
  destruct (overwriteProperties_spec (fresh optional_s_required_b_schema VUndefined)
              (fresh object_s_schema VUndefined))
    as (combined & Hrun & _ & _ & Hget & Hrq & _); try reflexivity.
  exists combined. split; [exact Hrun|].
  split; [exact (Hget "s")|]. split; [exact (Hrq "s") | exact (Hrq "b")].
Defined.

(** ** Required and optional properties *)

Lemma frame_get ks s s' key : frame ks s s' -> key ∉ ks -> get key s' = get key s.
Proof. intros (_ & _ & H & _) Hk. by apply H. Qed.

Lemma not_in_pr key : key <> "properties" -> key <> "required" -> key ∉ pr.
Proof.
  intros H1 H2 Hin. unfold pr in Hin.
  repeat (apply elem_of_cons in Hin as [|Hin]; [done|]). by apply elem_of_nil in Hin.
Qed.

Lemma truthy_is_obj_get k o : truthy (get k o) = true -> is_obj o.
Proof. destruct o; try done. by eexists. Qed.

Lemma delete_not_obj k v : (forall fs, v <> VObj fs) -> delete k v = v.
Proof. destruct v; try done. intros H. by destruct (H fs). Qed.

Lemma clear_default_spec s x :
  is_obj s ->
  (forall k, get k (get "properties" (clear_default s x))
             = if string_eqb k x then delete "default" (get k (get "properties" s))
               else get k (get "properties" s))
  /\ (forall k, has_key k (get "properties" (clear_default s x))
                = has_key k (get "properties" s))
  /\ get "required" (clear_default s x) = get "required" s.
Proof.
  intros Hs. unfold clear_default.
  destruct (truthy (get x (get "properties" s))
            && negb (is_boolean (get x (get "properties" s)))) eqn:E.
  - apply andb_true_iff in E as [Ht _].
    pose proof (truthy_is_obj_get _ _ Ht) as HP.
    assert (Hx : has_key x (get "properties" s) = true).
    { destruct HP as [ps HP]. rewrite HP in *. simpl in *.
      destruct (lookup_field x ps); [by apply bool_decide_eq_true|done]. }
    rewrite (get_set_obj "properties" "properties") by done. simpl.
    repeat split.
    + intros k. rewrite get_set_obj by done. by case_eqb k x; subst.
    + intros k. rewrite has_key_set_obj by done. case_eqb k x; [by subst|done].
    + by rewrite get_set_obj.
  - repeat split; try done. intros k. case_eqb k x; [subst k|done].
    symmetry. apply delete_not_obj. intros fs Hfs. by rewrite Hfs in E.
Qed.

Lemma delete_default_idem v : delete "default" (delete "default" v) = delete "default" v.
Proof.
  destruct v; try done. simpl. f_equal.
  induction fs as [|[k v] fs IH]; simpl; [done|].
  destruct (string_eqb "default" k) eqn:E; [done|]. simpl. by rewrite E, IH.
Qed.

Lemma clear_defaults_spec L s :
  is_obj s ->
  (forall k, get k (get "properties" (fold_left clear_default L s))
             = if bool_decide (k ∈ L) then delete "default" (get k (get "properties" s))
               else get k (get "properties" s))
  /\ (forall k, has_key k (get "properties" (fold_left clear_default L s))
                = has_key k (get "properties" s))
  /\ get "required" (fold_left clear_default L s) = get "required" s.
Proof.
  revert s. induction L as [|x L IH]; intros s Hs; simpl.
  - repeat split; done.
  - destruct (clear_default_spec s x Hs) as (Hg & Hh & Hr).
    destruct (IH (clear_default s x)) as (Hg' & Hh' & Hr').
    { eapply frame_is_obj. by apply frame_clear_default. }
    repeat split.
    + intros k. rewrite Hg', Hg.
      destruct (bool_decide (k ∈ L)) eqn:EL.
      * rewrite bool_decide_true by (right; by apply bool_decide_eq_true in EL).
        case_eqb k x; [|done]. apply delete_default_idem.
      * case_eqb k x.
        -- subst. by rewrite bool_decide_true by left.
        -- rewrite bool_decide_false; [done|].
           intros [?|Hin]%elem_of_cons; [done|].
           by apply bool_decide_eq_false in EL.
    + intros k. by rewrite Hh', Hh.
    + by rewrite Hr', Hr.
Qed.

Lemma requires_setRequired k s r :
  is_obj s -> requires k (setRequired s r) = includes_str k r.
Proof.
  intros Hs. unfold setRequired, requires.
  destruct r as [| | | | | |[|y ys]|]; try (by rewrite get_delete_obj).
  by rewrite get_set_obj.
Qed.

Lemma includes_difference k r L :
  includes_str k (difference r L) = includes_str k r && negb (bool_decide (k ∈ L)).
Proof.
  unfold difference. destruct r as [| | | | | |xs|]; try done. simpl.
  induction xs as [|y xs IH]; simpl; [done|].
  rewrite filter_cons.
  destruct (decide (existsb (fun p => is_str p y) L = false)) as [Hd|Hd].
  - simpl. rewrite IH.
    destruct (is_str k y) eqn:Ek; [|done]. simpl.
    destruct y; try done. simpl in Ek. apply string_eqb_true in Ek. subst s.
    rewrite existsb_is_str in Hd. by rewrite Hd.
  - rewrite IH. destruct (is_str k y) eqn:Ek; [|done]. simpl.
    destruct y; try done. simpl in Ek. apply string_eqb_true in Ek. subst s.
    rewrite existsb_is_str in Hd. apply not_false_is_true in Hd. rewrite Hd. simpl.
    by rewrite andb_false_r.
Qed.

(** X5.  [setOptionalProperties(L)] on a simple object schema: a name is
    required afterwards exactly when it was required and is not in [L];
    the properties in [L] lose their [default], nothing else of the
    properties changes; no other keyword changes; and [required] is
    absent rather than empty. *)
Theorem setOptionalProperties_spec (L : list string) (this : SchemaBuilder) :
  isSimpleObjectSchema this = true ->
  exists s,
    setOptionalProperties L this = new_SchemaBuilder s (validationConfig this)
    /\ (containsRef (schemaObject this) = false ->
        setOptionalProperties L this = Ok (fresh s (validationConfig this)))
    /\ (forall k, requires k s
                  = requires k (schemaObject this) && negb (bool_decide (k ∈ L)))
    /\ (forall k, get k (get "properties" s)
                  = if bool_decide (k ∈ L)
                    then delete "default" (get k (get "properties" (schemaObject this)))
                    else get k (get "properties" (schemaObject this)))
    /\ (forall k, has_key k (get "properties" s)
                  = has_key k (get "properties" (schemaObject this)))
    /\ (forall key, key <> "properties" -> key <> "required" ->
                    get key s = get key (schemaObject this))
    /\ get "required" s <> VArr [].
Proof.
  intros Hsimple.
  assert (Hobj : is_obj (schemaObject this)).
  { apply object_schema_is_object. unfold isSimpleObjectSchema in Hsimple.
    by destruct (isObjectSchema this). }
  set (s0 := schemaObject this) in *.
  set (s1 := fold_left clear_default L s0).
  set (r := difference (get "required" s0) L).
  exists (setRequired s1 r).
  assert (Hrun : setOptionalProperties L this
                 = new_SchemaBuilder (setRequired s1 r) (validationConfig this)).
  { unfold setOptionalProperties. rewrite Hsimple, cloneJSON_id. done. }
  assert (Hf1 : frame pr s0 s1).
  { apply frame_fold; [|done]. intros. by apply frame_clear_default. }
  assert (Hf2 : frame pr s0 (setRequired s1 r)).
  { eapply frame_trans; [exact Hf1|]. apply frame_setRequired.
    by eapply frame_is_obj. }
  destruct (clear_defaults_spec L s0 Hobj) as (Hg & Hh & Hr). fold s1 in Hg, Hh, Hr.
  assert (Hprops : get "properties" (setRequired s1 r) = get "properties" s1).
  { unfold setRequired.
    destruct r as [| | | | | |[|y ys]|]; try (by rewrite get_delete_obj).
    rewrite get_set_obj; [done|]. by eapply frame_is_obj. }
  split; [done|]. split; [|split; [|split; [|split; [|split]]]].
  - intros Href. rewrite Hrun. apply new_SchemaBuilder_ok.
    assert (containsRef s1 = false).
    { subst s1. clear -Href. revert Href. generalize s0.
      induction L as [|x L IH]; intros s Hs; simpl; [done|]. apply IH.
      unfold clear_default. destruct (_ && _); [|done].
      apply containsRef_set; [done|done|].
      split; [by intros ?%(bool_decide_pack (_ ∈ subschema_keywords))|].
      intros _. destruct s as [| | | | | | |fs]; try done. simpl.
      destruct (lookup_field "properties" fs) as [[| | | | | | |ps]|] eqn:Hp; try done.
      simpl. apply Forall_set_field; [|by apply (ref_free_properties fs)].
      simpl. apply containsRef_delete.
      pose proof (ref_free_property (VObj fs) x Hs) as H. simpl in H.
      by rewrite Hp in H. }
    unfold setRequired.
    destruct r as [| | | | | |[|y ys]|]; try (by apply containsRef_delete).
    apply containsRef_set; [done|done|]. by apply plain_keyword.
  - intros k. rewrite requires_setRequired by by eapply frame_is_obj.
    subst r. rewrite includes_difference. unfold requires.
    destruct (get "required" s0); simpl; by rewrite ?andb_false_r.
  - intros k. by rewrite Hprops, Hg.
  - intros k. by rewrite Hprops, Hh.
  - intros key H1 H2. apply (frame_get pr); [done|by apply not_in_pr].
  - unfold setRequired.
    destruct r as [| | | | | |[|y ys]|]; try (by rewrite get_delete_obj).
    rewrite get_set_obj; [done|]. by eapply frame_is_obj.
Qed.

Lemma setOptionalProperties_witness :
  exists s,
    setOptionalProperties ["s"] (fresh object_s_b_schema VUndefined)
    = Ok (fresh s VUndefined)
    /\ requires "s" s = false
    /\ has_key "required" s = false.
Proof.
  destruct (setOptionalProperties_spec ["s"] (fresh object_s_b_schema VUndefined)
              eq_refl) as (s & Hrun & Hok & Hreq & _).
  exists s. split; [by apply Hok|]. split; [exact (Hreq "s")|].
  specialize (Hok eq_refl). vm_compute in Hok. by injection Hok as <-.
Defined.

Lemma strings_of_app xs ys :
  strings_of (VArr (xs ++ ys)) = strings_of (VArr xs) ++ strings_of (VArr ys).
Proof. simpl. apply omap_app. Qed.

Lemma includes_str_strings_of k r :
  includes_str k r = bool_decide (k ∈ strings_of r).
Proof.
  destruct r as [| | | | | |xs|]; try done. simpl.
  induction xs as [|y xs IH]; simpl; [done|]. rewrite IH.
  destruct y; simpl; try done.
  rewrite (bool_decide_ext _ _ (elem_of_cons _ k s)), bool_decide_or.
  unfold string_eqb. f_equal. by apply bool_decide_ext.
Qed.

Lemma require_one_spec s x :
  is_obj s -> required_typed s ->
  required_typed (require_one s x)
  /\ (exists xs, get "required" (require_one s x) = VArr xs)
  /\ (forall k, requires k (require_one s x) = string_eqb k x || requires k s)
  /\ (NoDup (strings_of (get "required" s)) ->
      NoDup (strings_of (get "required" (require_one s x))))
  /\ (containsRef s = false -> containsRef (require_one s x) = false).
Proof.
  intros Hs Hreq. unfold require_one.
  set (r := por (get "required" s) (VArr [])).
  assert (exists xs, r = VArr xs /\ strings_of (get "required" s) = strings_of r
                     /\ forall k, requires k s = includes_str k r)
    as (xs & Hr & Hstr & Hrq).
  { subst r. unfold requires.
    destruct Hreq as [Hu|[xs Hxs]]; [rewrite Hu|rewrite Hxs]; eexists; by split. }
  set (s' := set "required" r s).
  assert (Hs' : is_obj s') by by apply is_obj_set.
  assert (Hg : get "required" s' = r) by (subst s'; by rewrite get_set_obj).
  assert (Hc : containsRef s = false -> containsRef s' = false).
  { intros. apply containsRef_set; [done|done|]. by apply plain_keyword. }
  rewrite Hg.
  destruct (includes_str x r) eqn:E; cbn [negb].
  - repeat split; try done.
    + right. rewrite Hg, Hr. eauto.
    + rewrite Hg, Hr. eauto.
    + intros k. rewrite Hrq. unfold requires. rewrite Hg, Hr. simpl.
      case_eqb k x; [|done]. subst k. by rewrite Hr in E.
    + by rewrite Hg, Hstr.
  - assert (Hg' : get "required" (set "required" (arr_push (VStr x) r) s')
                  = VArr (xs ++ [VStr x])).
    { rewrite get_set_obj by done. by rewrite Hr. }
    repeat split.
    + right. rewrite Hg'. eauto.
    + rewrite Hg'. eauto.
    + intros k. unfold requires at 1. rewrite Hg'.
      rewrite includes_str_app, Hrq, Hr. simpl.
      rewrite orb_false_r, orb_comm. by rewrite (string_eqb_sym x k).
    + intros Hnd. rewrite Hg', strings_of_app.
      apply NoDup_app. split; [by rewrite <- Hr, <- Hstr|].
      split; [|simpl; apply NoDup_singleton].
      intros y Hy Hy'. simpl in Hy'. apply list_elem_of_singleton in Hy' as ->.
      rewrite includes_str_strings_of, Hr in E. by apply bool_decide_eq_false in E.
    + intros Hcs. apply containsRef_set; [done|by apply Hc|]. by apply plain_keyword.
Qed.

Lemma require_all_spec L s :
  is_obj s -> required_typed s ->
  required_typed (fold_left require_one L s)
  /\ (forall k, requires k (fold_left require_one L s)
                = bool_decide (k ∈ L) || requires k s)
  /\ (NoDup (strings_of (get "required" s)) ->
      NoDup (strings_of (get "required" (fold_left require_one L s))))
  /\ (containsRef s = false -> containsRef (fold_left require_one L s) = false).
Proof.
  revert s. induction L as [|x L IH]; intros s Hs Hreq; simpl.
  - repeat split; done.
  - destruct (require_one_spec s x Hs Hreq) as (H1 & _ & H2 & H3 & H4).
    destruct (IH (require_one s x)) as (H1' & H2' & H3' & H4'); [|done|].
    { eapply frame_is_obj. by apply frame_require_one. }
    repeat split; [done| |by auto|by auto].
    intros k. rewrite H2', H2.
    destruct (bool_decide (k ∈ L)) eqn:EL.
    + by rewrite bool_decide_true by (right; by apply bool_decide_eq_true in EL).
    + case_eqb k x.
      * subst. by rewrite bool_decide_true by left.
      * rewrite bool_decide_false; [done|].
        intros [?|Hin]%elem_of_cons; [done|]. by apply bool_decide_eq_false in EL.
Qed.

(** X6.  [setRequiredProperties(L)] on a simple object schema: a name is
    required afterwards exactly when it was required or is in [L],
    whether or not it is the name of a property; a name that was
    required is not listed a second time; nothing else changes. *)
Theorem setRequiredProperties_spec (L : list string) (this : SchemaBuilder) :
  isSimpleObjectSchema this = true ->
  well_typed (schemaObject this) = true ->
  exists s,
    setRequiredProperties L this = new_SchemaBuilder s (validationConfig this)
    /\ (containsRef (schemaObject this) = false ->
        setRequiredProperties L this = Ok (fresh s (validationConfig this)))
    /\ (forall k, requires k s = bool_decide (k ∈ L) || requires k (schemaObject this))
    /\ (NoDup (strings_of (get "required" (schemaObject this))) ->
        NoDup (strings_of (get "required" s)))
    /\ (forall key, key <> "required" -> get key s = get key (schemaObject this)).
Proof.
  intros Hsimple Hty%well_typed_spec.
  destruct Hty as (Hobj & _ & Hreq).
  exists (fold_left require_one L (schemaObject this)).
  assert (Hrun : setRequiredProperties L this
                 = new_SchemaBuilder (fold_left require_one L (schemaObject this))
                     (validationConfig this)).
  { unfold setRequiredProperties. by rewrite Hsimple, cloneJSON_id. }
  destruct (require_all_spec L _ Hobj Hreq) as (_ & H2 & H3 & H4).
  split; [done|]. split; [|split; [done|split; [done|]]].
  - intros Href. rewrite Hrun. by apply new_SchemaBuilder_ok, H4.
  - intros key Hk. clear -Hobj Hk. revert Hobj. generalize (schemaObject this).
    induction L as [|x L IH]; intros s Hs; simpl; [done|].
    rewrite IH by (eapply frame_is_obj; by apply frame_require_one).
    unfold require_one.
    assert (Hg : get key (set "required" (por (get "required" s) (VArr [])) s)
                 = get key s)
      by by rewrite get_set_obj, (proj2 (string_eqb_false _ _) Hk).
    destruct (negb _); [|done].
    rewrite get_set_obj by by apply is_obj_set.
    by rewrite (proj2 (string_eqb_false _ _) Hk).
Qed.

Lemma setRequiredProperties_witness :
  exists s,
    setRequiredProperties ["b"; "s"] (fresh object_s_b_schema VUndefined)
    = Ok (fresh s VUndefined)
    /\ requires "b" s = true
    /\ strings_of (get "required" s) = ["s"; "b"].
Proof.
  destruct (setRequiredProperties_spec ["b"; "s"] (fresh object_s_b_schema VUndefined)
              eq_refl eq_refl) as (s & Hrun & Hok & Hreq & _).
  exists s. split; [by apply Hok|]. split; [exact (Hreq "b")|].
  specialize (Hok eq_refl). vm_compute in Hok. by injection Hok as <-.
Defined.

(** ** Picking and renaming *)

Lemma includes_filter_picked k xs L :
  includes_str k (VArr (filter (fun r => existsb (fun p => is_str p r) L = true) xs))
  = includes_str k (VArr xs) && bool_decide (k ∈ L).
Proof.
  simpl. induction xs as [|y xs IH]; simpl; [done|].
  rewrite filter_cons.
  destruct (decide (existsb (fun p => is_str p y) L = true)) as [Hd|Hd].
  - simpl. rewrite IH. destruct (is_str k y) eqn:Ek; [|done]. simpl.
    destruct y; try done. simpl in Ek. apply string_eqb_true in Ek. subst s.
    rewrite existsb_is_str in Hd. symmetry. exact Hd.
  - rewrite IH. destruct (is_str k y) eqn:Ek; [|done]. simpl.
    destruct y; try done. simpl in Ek. apply string_eqb_true in Ek. subst s.
    rewrite existsb_is_str in Hd. apply not_true_is_false in Hd.
    rewrite Hd. by rewrite andb_false_r.
Qed.

Lemma picked_properties_keys L props :
  NoDup L -> keys (picked_properties L props) = L.
Proof.
  unfold picked_properties. intros Hnd.
  assert (H : forall init,
             (forall k, k ∈ L -> lookup_field k init = None) ->
             keys (fold_left (fun m property => set property (get property props) m)
                     L (VObj init)) = map fst init ++ L).
  { induction Hnd as [|x L Hx Hnd IH]; intros init Hfresh; simpl.
    - by rewrite app_nil_r.
    - rewrite IH.
      + rewrite keys_set_field_fresh by (apply Hfresh; left).
        by rewrite <- app_assoc.
      + intros k Hk. rewrite lookup_set_field.
        case_eqb k x; [by subst|]. apply Hfresh. by right. }
  by rewrite (H []).
Qed.

(** X10.  [pickProperties(L)] of property names [L], none a name of
    [Object.prototype] or written with digits only, on an object schema
    without combinators, whatever its [additionalProperties]: the
    properties afterwards are the names of [L], in the order of [L];
    each has the sub-document it had; a name is required when it was
    required and is in [L]; [additionalProperties] is [false], and the
    document is a simple object schema. *)
Theorem pickProperties_spec (L : list string) (this : SchemaBuilder) :
  isObjectSchema this = true ->
  hasSchemasCombinationKeywords this = false ->
  well_typed (schemaObject this) = true ->
  (forall k, k ∈ L -> has_key k (get "properties" (schemaObject this)) = true) ->
  all_plain L = true ->
  exists s,
    pickProperties L this = new_SchemaBuilder s (validationConfig this)
    /\ (containsRef (schemaObject this) = false ->
        pickProperties L this = Ok (fresh s (validationConfig this)))
    /\ (forall k, has_key k (get "properties" s) = bool_decide (k ∈ L))
    /\ (forall k, get k (get "properties" s)
                  = if bool_decide (k ∈ L)
                    then get k (get "properties" (schemaObject this)) else VUndefined)
    /\ (NoDup L -> keys (get "properties" s) = L)
    /\ (forall k, requires k s
                  = requires k (schemaObject this) && bool_decide (k ∈ L))
    /\ get "required" s <> VArr []
    /\ get "additionalProperties" s = VBool false
    /\ (forall key, key <> "properties" -> key <> "required" ->
                    key <> "additionalProperties" ->
                    get key s = get key (schemaObject this))
    /\ isSimpleObjectSchema (fresh s (validationConfig this)) = true.
Proof.
  intros Hobj Hcomb Hty%well_typed_spec _ _.
  destruct Hty as ([fs Hfs] & _ & Hreq).
  exists (pick_schema L (schemaObject this)).
  assert (Hrun : pickProperties L this
                 = new_SchemaBuilder (pick_schema L (schemaObject this))
                     (validationConfig this)).
  { unfold pickProperties. by rewrite Hobj, Hcomb, cloneJSON_id. }
  split; [done|]. split.
  { intros Href. rewrite Hrun. by apply new_SchemaBuilder_ok, pick_schema_ref_free. }
  assert (Hp : get "properties" (pick_schema L (schemaObject this))
               = picked_properties L (por (get "properties" (schemaObject this))
                                        (VObj []))).
  { rewrite Hfs. by rewrite pick_schema_get. }
  assert (Hr : get "required" (pick_schema L (schemaObject this))
               = picked_required L (get "required" (schemaObject this))).
  { rewrite Hfs. by rewrite pick_schema_get. }
  split; [|split; [|split; [|split; [|split; [|split; [|split]]]]]].
  - intros k. by rewrite Hp, picked_properties_has_key.
  - intros k. rewrite Hp, picked_properties_lookup.
    by rewrite get_por_properties.
  - intros Hnd. rewrite Hp. by apply picked_properties_keys.
  - intros k. unfold requires. rewrite Hr. unfold picked_required.
    destruct Hreq as [->|[xs ->]]; [done|].
    cbn [truthy arr_filter is_array arr_length].
    pose proof (includes_filter_picked k xs L) as Hin.
    destruct (filter _ xs) as [|y ys] eqn:E.
    + simpl. simpl in Hin. by rewrite <- Hin.
    + cbn [Nat.eqb length andb truthy]. by rewrite Hin.
  - rewrite Hr. unfold picked_required.
    destruct (truthy (get "required" (schemaObject this))) eqn:Et.
    + destruct (arr_filter _ _) as [| | | | | |[|y ys]|] eqn:E; done.
    + intros Haa. by rewrite Haa in Et.
  - rewrite Hfs. by rewrite pick_schema_get.
  - intros key H1 H2 H3. rewrite Hfs, pick_schema_get.
    by rewrite (proj2 (string_eqb_false _ _) H1), (proj2 (string_eqb_false _ _) H2),
         (proj2 (string_eqb_false _ _) H3).
  - destruct (frame_pick_schema L (schemaObject this)) as [Hf Hap]; [by eexists|].
    by apply (frame_written_simple this (fresh _ _)).
Qed.

Lemma pickProperties_witness :
  exists s,
    pickProperties ["b"; "s"] (fresh object_s_b_schema VUndefined)
    = Ok (fresh s VUndefined)
    /\ keys (get "properties" s) = ["b"; "s"]
    /\ requires "s" s = true
    /\ requires "b" s = false.
Proof.
  destruct (pickProperties_spec ["b"; "s"] (fresh object_s_b_schema VUndefined)
              eq_refl eq_refl eq_refl)
    as (s & _ & Hok & _ & Hget & Hkeys & Hreq & _).
  { intros k [->|[->|Hk%elem_of_nil]%elem_of_cons]%elem_of_cons; done. }
  { reflexivity. }
  exists s. split; [by apply Hok|]. split; [|split].
  - apply Hkeys. apply (bool_decide_unpack (NoDup ["b"; "s"])). vm_compute. exact I.
  - exact (Hreq "s").
  - exact (Hreq "b").
Defined.



Lemma filter_fresh (k : string) (l : list string) :
  k ∉ l -> filter (fun x => x <> k) l = l.
Proof.
  induction l as [|y l IH]; intros Hk; [done|]. rewrite filter_cons.
  rewrite decide_True.
  - rewrite IH; [done|]. intros H. apply Hk. by right.
  - intros ->. apply Hk. left.
Qed.



(** ** [toOptionals] and the getters *)

Lemma lookup_field_map_values (f : value -> value) k ps :
  lookup_field k (map (fun kv => (fst kv, f (snd kv))) ps) = f <$> lookup_field k ps.
Proof.
  induction ps as [|[k' v] ps IH]; simpl; [done|]. by destruct (string_eqb k k').
Qed.

(** X7.  [toOptionals()], on any document whose properties are
    sub-documents: nothing is required afterwards, every property is
    there as before but for its [default], and the getters report every
    property as optional. *)
Theorem toOptionals_spec (this : SchemaBuilder) :
  is_obj (schemaObject this) ->
  properties_are_schemas (schemaObject this) ->
  exists s,
    toOptionals this = new_SchemaBuilder s (validationConfig this)
    /\ (containsRef (schemaObject this) = false ->
        toOptionals this = Ok (fresh s (validationConfig this)))
    /\ has_key "required" s = false
    /\ (forall k, requires k s = false)
    /\ keys (get "properties" s) = keys (get "properties" (schemaObject this))
    /\ (forall k, get k (get "properties" s)
                  = delete "default" (get k (get "properties" (schemaObject this))))
    /\ (forall key, key <> "properties" -> key <> "required" ->
                    get key s = get key (schemaObject this))
    /\ (isObjectSchema this = true -> hasSchemasCombinationKeywords this = false ->
        requiredProperties (fresh s (validationConfig this)) = Some []
        /\ optionalProperties (fresh s (validationConfig this))
           = properties (fresh s (validationConfig this))
        /\ properties (fresh s (validationConfig this)) = properties this).
Proof.
  intros Hobj Hps. unfold toOptionals. rewrite cloneJSON_id.
  set (s0 := delete "required" (schemaObject this)).
  assert (Hobj0 : is_obj s0) by by apply is_obj_delete.
  assert (Hp0 : get "properties" s0 = get "properties" (schemaObject this))
    by (subst s0; by rewrite get_delete_obj).
  assert (Hr0 : has_key "required" s0 = false)
    by (subst s0; by rewrite has_key_delete).
  eexists. split; [reflexivity|].
  set (s := match get "properties" s0 with
            | VObj ps => set "properties" _ s0
            | _ => s0
            end).
  assert (Hreq : has_key "required" s = false).
  { subst s. destruct (get "properties" s0); try done.
    by rewrite has_key_set_obj. }
  assert (Hgr : get "required" s = VUndefined).
  { destruct Hobj0 as [fs0 Hfs0].
    assert (is_obj s) as [fs Hfs].
    { subst s. destruct (get "properties" s0); try (by eexists).
      apply is_obj_set. by eexists. }
    rewrite Hfs in *. simpl in *. destruct (lookup_field "required" fs); [|done].
    by rewrite bool_decide_true in Hreq. }
  assert (Hkeys : keys (get "properties" s) = keys (get "properties" (schemaObject this))).
  { subst s. rewrite <- Hp0. destruct (get "properties" s0) eqn:E; try by rewrite E.
    rewrite get_set_obj by done. simpl. rewrite map_map. done. }
  assert (Hget : forall k, get k (get "properties" s)
                   = delete "default" (get k (get "properties" (schemaObject this)))).
  { intros k. subst s. rewrite <- Hp0.
    destruct (get "properties" s0) eqn:E; try (by rewrite E).
    rewrite get_set_obj by done. simpl. rewrite lookup_field_map_values.
    by destruct (lookup_field k fs). }
  assert (Hother : forall key, key <> "properties" -> key <> "required" ->
                     get key s = get key (schemaObject this)).
  { intros key H1 H2.
    assert (get key s0 = get key (schemaObject this)).
    { subst s0. by rewrite get_delete_obj, (proj2 (string_eqb_false _ _) H2). }
    subst s. destruct (get "properties" s0); try done.
    by rewrite get_set_obj, (proj2 (string_eqb_false _ _) H1). }
  assert (Hhk : forall key, key <> "properties" -> key <> "required" ->
                  has_key key s = has_key key (schemaObject this)).
  { intros key H1 H2.
    assert (has_key key s0 = has_key key (schemaObject this)).
    { subst s0. by rewrite has_key_delete, (proj2 (string_eqb_false _ _) H2). }
    subst s. destruct (get "properties" s0); try done.
    by rewrite has_key_set_obj, (proj2 (string_eqb_false _ _) H1). }
  assert (Hhp : has_key "properties" s = has_key "properties" (schemaObject this)).
  { assert (has_key "properties" s0 = has_key "properties" (schemaObject this))
      by (subst s0; by rewrite has_key_delete).
    subst s. destruct (get "properties" s0) eqn:E; try done.
    rewrite has_key_set_obj by done. simpl. rewrite <- H.
    destruct Hobj0 as [fs0 Hfs0]. rewrite Hfs0 in *. simpl in *.
    destruct (lookup_field "properties" fs0); [|done].
    symmetry. by apply bool_decide_eq_true. }
  split; [|split; [done|split; [|split; [done|split; [done|split; [done|]]]]]].
  - intros Href. apply new_SchemaBuilder_ok.
    assert (Hc0 : containsRef s0 = false) by by apply containsRef_delete.
    subst s. destruct (get "properties" s0) as [| | | | | | |ps] eqn:E; try done.
    apply containsRef_set; [done|done|].
    split; [by intros ?%(bool_decide_pack (_ ∈ subschema_keywords))|].
    intros _. apply Forall_forall. intros [k v] Hin.
    apply list_elem_of_fmap in Hin as ([k' v'] & [= -> ->] & Hin). simpl.
    apply containsRef_delete.
    destruct s0 as [| | | | | | |fs0]; try done. simpl in E.
    destruct (lookup_field "properties" fs0) as [p|] eqn:El; [|done].
    simpl in E. subst p.
    pose proof (ref_free_properties fs0 ps Hc0 El) as Hall.
    rewrite Forall_forall in Hall. by apply (Hall (k', v')).
  - intros k. unfold requires. by rewrite Hgr.
  - intros Ho Hc.
    assert (Ho' : isObjectSchema (fresh s (validationConfig this)) = true).
    { unfold isObjectSchema, hasType in *. simpl.
      by rewrite (Hother "type"), (Hhk "type"), Hhp. }
    assert (Hc' : hasSchemasCombinationKeywords (fresh s (validationConfig this))
                  = false).
    { unfold hasSchemasCombinationKeywords in *. simpl.
      by rewrite (Hhk "oneOf"), (Hhk "allOf"), (Hhk "anyOf"), (Hhk "not"). }
    assert (Hpp : properties (fresh s (validationConfig this)) = properties this).
    { unfold properties. rewrite Ho, Ho', Hc, Hc'. simpl. f_equal.
      assert (forall p, keys (por p (VObj [])) = keys p) as Hpor
        by (intros p; unfold por; destruct (truthy p) eqn:Et; [done|by destruct p]).
      by rewrite !Hpor. }
    assert (Hrp : requiredProperties (fresh s (validationConfig this)) = Some []).
    { unfold requiredProperties. rewrite Ho', Hc'. simpl. by rewrite Hgr. }
    split; [done|]. split; [|done].
    unfold optionalProperties. rewrite Hrp.
    destruct (properties (fresh s (validationConfig this))) as [l|]; [|done].
    f_equal. clear. induction l as [|x l IH]; [done|]. simpl. by f_equal.
Qed.

Lemma toOptionals_witness :
  exists s,
    toOptionals (fresh object_s_b_schema VUndefined) = Ok (fresh s VUndefined)
    /\ has_key "required" s = false
    /\ optionalProperties (fresh s VUndefined) = Some ["s"; "b"].
Proof.
  destruct (toOptionals_spec (fresh object_s_b_schema VUndefined))
    as (s & _ & Hok & Hreq & _ & _ & _ & _ & Hget).
  { by eexists. }
  { repeat constructor. }
  exists s. split; [by apply Hok|]. split; [exact Hreq|].
  destruct (Hget eq_refl eq_refl) as (_ & Ho & Hp). exact (eq_trans Ho Hp).
Defined.

(** ** [addProperties] and [objectSchema] as chains of [addProperty] *)

Lemma set_field_same k v fs :
  lookup_field k fs = Some v -> set_field k v fs = fs.
Proof.
  induction fs as [|[k' v'] fs IH]; simpl; [done|].
  case_eqb k k'; [by intros [= ->]|]. intros H. by rewrite IH.
Qed.

Lemma ensure_properties_idem fs ps :
  get "properties" (VObj fs) = VObj ps -> ensure_properties (VObj fs) = VObj fs.
Proof.
  intros Hps. unfold ensure_properties. rewrite Hps. simpl. f_equal.
  apply set_field_same. simpl in Hps.
  destruct (lookup_field "properties" fs); [|done]. simpl in Hps. by subst.
Qed.

Lemma add_definition_facts s kv ps :
  is_obj s ->
  get "properties" s = VObj ps ->
  required_typed s ->
  is_obj (add_definition s kv)
  /\ get "properties" (add_definition s kv)
     = VObj (set_field (fst kv) (definition_schema (snd kv)) ps)
  /\ required_typed (add_definition s kv)
  /\ (forall k, requires k (add_definition s kv)
                = string_eqb k (fst kv) && definition_required (snd kv)
                  || requires k s)
  /\ (forall key, key <> "properties" -> key <> "required" ->
                  get key (add_definition s kv) = get key s
                  /\ has_key key (add_definition s kv) = has_key key s)
  /\ (containsRef s = false -> containsRef (definition_schema (snd kv)) = false ->
      containsRef (add_definition s kv) = false).
Proof.
  intros [fs ->] Hps Hreq. unfold add_definition.
  destruct (set_property_facts (fst kv) (definition_schema (snd kv)) fs ps Hps)
    as (fs1 & E1 & Hp1 & Hq1 & Hr1 & Ho1).
  pose proof (frame_add_definition (VObj fs) kv) as Hf.
  unfold add_definition in Hf.
  assert (Hreq1 : required_typed (VObj fs1)) by (unfold required_typed; by rewrite Hq1).
  assert (Hfr : forall key, key <> "properties" -> key <> "required" ->
            get key (if definition_required (snd kv)
                     then push_required (fst kv)
                            (set_property (fst kv) (definition_schema (snd kv)) (VObj fs))
                     else set_property (fst kv) (definition_schema (snd kv)) (VObj fs))
            = get key (VObj fs)
            /\ has_key key (if definition_required (snd kv)
                     then push_required (fst kv)
                            (set_property (fst kv) (definition_schema (snd kv)) (VObj fs))
                     else set_property (fst kv) (definition_schema (snd kv)) (VObj fs))
               = has_key key (VObj fs)).
  { intros key H1 H2. destruct Hf as (_ & _ & Hk & _); [by eexists|].
    by apply Hk, not_in_pr. }
  assert (Hc : containsRef (VObj fs) = false ->
               containsRef (definition_schema (snd kv)) = false ->
               containsRef (if definition_required (snd kv)
                     then push_required (fst kv)
                            (set_property (fst kv) (definition_schema (snd kv)) (VObj fs))
                     else set_property (fst kv) (definition_schema (snd kv)) (VObj fs))
               = false).
  { intros H1 H2. destruct (definition_required _);
      [apply containsRef_push_required|]; by apply containsRef_set_property. }
  rewrite E1 in *.
  destruct (definition_required (snd kv)).
  - destruct (push_required_facts (fst kv) fs1 Hreq1) as (fs2 & E2 & Hq2 & Hr2 & Ho2).
    rewrite E2 in *. repeat split; try done.
    + by eexists.
    + by rewrite Ho2.
    + intros k. by rewrite Hr2, Hr1, andb_true_r.
    + by apply Hfr.
    + by apply Hfr.
  - repeat split; try done.
    + by eexists.
    + intros k. by rewrite Hr1, andb_false_r.
    + by apply Hfr.
    + by apply Hfr.
Qed.

Lemma isObjectSchema_frame s s' cfg cfg' :
  (forall key, key <> "properties" -> key <> "required" ->
               get key s' = get key s /\ has_key key s' = has_key key s) ->
  (has_key "properties" s = true -> has_key "properties" s' = true) ->
  isObjectSchema (fresh s cfg) = true -> isObjectSchema (fresh s' cfg') = true.
Proof.
  intros Hk Hp. unfold isObjectSchema, hasType. simpl.
  destruct (Hk "type") as [-> ->]; [done..|].
  destruct (has_key "properties" s) eqn:E; [by rewrite Hp|].
  rewrite andb_false_r, orb_false_r. by intros ->.
Qed.

Lemma has_key_properties_of s ps :
  is_obj s -> get "properties" s = VObj ps -> has_key "properties" s = true.
Proof.
  intros [fs ->]. simpl. destruct (lookup_field "properties" fs); [|done].
  intros _. by apply bool_decide_eq_true.
Qed.

Lemma entry_required_definition p : entry_required p = definition_required p.
Proof.
  destruct p as [b|bs]; [done|]. simpl.
  induction bs as [|e bs IH]; [done|]. simpl. rewrite IH.
  by destruct (bool_decide (is_Some e)), (existsb _ bs).
Qed.

Lemma entry_builder_definition p : schemaObject (entry_builder p) = definition_schema p.
Proof.
  unfold entry_builder, definition_schema. destruct p as [b|bs]; simpl.
  - by rewrite cloneJSON_id.
  - assert (Hmap : forall l, map (fun b => cloneJSON (schemaObject b)) l
                             = map schemaObject l).
    { intros l. apply map_ext. intros b. apply cloneJSON_id. }
    destruct (omap id bs) as [|b [|b' l]]; unfold any_of; cbn [fresh schemaObject];
      by rewrite ?cloneJSON_id, ?Hmap.
Qed.

Lemma add_entry_transform kv this :
  transform (add_entry kv) this
  = addProperty (fst kv) (fresh (definition_schema (snd kv)) VUndefined)
      (Some (definition_required (snd kv))) this.
Proof.
  unfold add_entry. cbn [transform]. unfold addProperty. cbn [fresh schemaObject].
  by rewrite entry_required_definition, entry_builder_definition.
Qed.

Lemma any_of_ref_free builders :
  Forall (fun b => containsRef (schemaObject b) = false) builders ->
  containsRef (schemaObject (any_of builders)) = false.
Proof.
  intros Hall. unfold any_of. cbn [fresh schemaObject].
  assert (existsb containsRef (map schemaObject builders) = false) as Hnone.
  { induction Hall as [|b l Hb _ IH]; [done|]. simpl. by rewrite Hb, IH. }
  apply containsRef_obj. split; [done|].
  constructor; [|constructor]. split; [done|].
  by intros ?%(bool_decide_pack (_ ∈ subschema_map_keywords)).
Qed.

Lemma builders_ref_free_definitions defs :
  builders_ref_free defs ->
  Forall (fun kv => containsRef (definition_schema (snd kv)) = false) defs.
Proof.
  intros Hdefs. eapply Forall_impl; [exact Hdefs|].
  intros [k p] Hall. cbn [snd] in *.
  rewrite <- entry_builder_definition. unfold entry_builder.
  destruct (entry_builders p) as [|b [|b' l]] eqn:E.
  - by apply any_of_ref_free.
  - by apply Forall_cons in Hall as [Hb _].
  - by apply any_of_ref_free.
Qed.

(** The chain of [addProperty] calls from a schema that has its
    [properties]. *)
Lemma chain_add_entries defs : forall s ps cfg this,
  schemaObject this = s -> validationConfig this = cfg ->
  is_obj s -> get "properties" s = VObj ps -> required_typed s ->
  isObjectSchema this = true ->
  NoDup (map fst defs) ->
  (forall k, k ∈ map fst defs -> lookup_field k ps = None) ->
  containsRef s = false ->
  Forall (fun kv => containsRef (definition_schema (snd kv)) = false) defs ->
  defs <> [] ->
  chain (map add_entry defs) this = Ok (fresh (fold_left add_definition defs s) cfg).
Proof.
  induction defs as [|kv defs IH]; [done|].
  intros s ps cfg this Hs Hcfg Hobj Hps Hreq Hiso Hnd Hfresh Href Hrefs _.
  subst s cfg.
  apply NoDup_cons in Hnd as [Hk Hnd].
  apply Forall_cons in Hrefs as [Hrk Hrefs].
  destruct (add_definition_facts (schemaObject this) kv ps Hobj Hps Hreq)
    as (Hobj' & Hps' & Hreq' & _ & Hfr & Hc).
  assert (Hstep : transform (add_entry kv) this
                  = Ok (fresh (add_definition (schemaObject this) kv)
                          (validationConfig this))).
  { rewrite add_entry_transform. unfold addProperty.
    rewrite Hiso, !cloneJSON_id. cbn [negb fresh schemaObject].
    destruct Hobj as [fs Hfs]. rewrite Hfs in *. rewrite (ensure_properties_idem fs ps Hps), Hps.
    assert (has_key (fst kv) (VObj ps) = false) as ->.
    { simpl. rewrite (Hfresh (fst kv)); [done|]. simpl. left. }
    rewrite <- Hps.
    change (set "properties"
              (set (fst kv) (definition_schema (snd kv)) (get "properties" (VObj fs)))
              (VObj fs))
      with (set_property (fst kv) (definition_schema (snd kv)) (VObj fs)).
    assert ((match Some (definition_required (snd kv)) with
             | Some true | None =>
                 push_required (fst kv)
                   (set_property (fst kv) (definition_schema (snd kv)) (VObj fs))
             | Some false =>
                 set_property (fst kv) (definition_schema (snd kv)) (VObj fs)
             end) = add_definition (VObj fs) kv) as ->.
    { unfold add_definition. by destruct (definition_required (snd kv)). }
    apply new_SchemaBuilder_ok. by apply Hc. }
  cbn [map chain]. rewrite Hstep. cbn [mbind result_bind bind fold_left].
  destruct defs as [|kv' defs']; [done|].
  apply (IH (add_definition (schemaObject this) kv)
            (set_field (fst kv) (definition_schema (snd kv)) ps)
            (validationConfig this)); try done.
  - eapply (isObjectSchema_frame (schemaObject this)).
    + exact Hfr.
    + intros _. by apply (has_key_properties_of _ _ Hobj' Hps').
    + instantiate (1 := validationConfig this). by destruct this.
  - intros k Hin. rewrite lookup_set_field.
    case_eqb k (fst kv); [by subst|]. apply Hfresh. by right.
  - by apply Hc.
Qed.

Lemma filter_none (P : string -> Prop) `{!forall x, Decision (P x)} (l : list string) :
  (forall k, k ∈ l -> ~ P k) -> filter P l = [].
Proof.
  induction l as [|x l IH]; intros Hl; [done|].
  rewrite filter_cons, decide_False by (apply Hl; left).
  apply IH. intros k Hk. apply Hl. by right.
Qed.

Lemma set_field_idem k v fs :
  set_field k v (set_field k v fs) = set_field k v fs.
Proof.
  induction fs as [|[k' v'] fs IH]; simpl.
  - by rewrite string_eqb_refl.
  - destruct (string_eqb k k') eqn:E; simpl; rewrite E; [done|]. by rewrite IH.
Qed.

Lemma ensure_properties_twice s :
  is_obj s -> ensure_properties (ensure_properties s) = ensure_properties s.
Proof.
  intros [fs ->]. unfold ensure_properties.
  set (P := por (get "properties" (VObj fs)) (VObj [])).
  rewrite get_set, string_eqb_refl.
  assert (por P (VObj []) = P) as ->.
  { subst P. unfold por. destruct (truthy (get "properties" (VObj fs))) eqn:E.
    - by rewrite E.
    - done. }
  simpl. f_equal. apply set_field_idem.
Qed.

Lemma addProperty_from_ensured k b r this :
  is_obj (schemaObject this) ->
  isObjectSchema this = true ->
  addProperty k b r this
  = addProperty k b r (fresh (ensure_properties (schemaObject this))
                         (validationConfig this))
  /\ isObjectSchema (fresh (ensure_properties (schemaObject this))
                       (validationConfig this)) = true.
Proof.
  intros Hobj Hiso.
  assert (Hiso' : isObjectSchema (fresh (ensure_properties (schemaObject this))
                                    (validationConfig this)) = true).
  { destruct (frame_ensure_properties _ Hobj) as (_ & _ & Hk & Hp).
    eapply (isObjectSchema_frame (schemaObject this)).
    - intros key H1 H2. by apply Hk, not_in_pr.
    - exact Hp.
    - instantiate (1 := validationConfig this). by destruct this. }
  split; [|done]. unfold addProperty. rewrite Hiso, Hiso', !cloneJSON_id.
  cbn [fresh schemaObject validationConfig]. by rewrite ensure_properties_twice.
Qed.

(** Where none of the names is a property yet, [addProperties] and the
    chain of [addProperty] calls both bring the fold of the loop body
    over the entries. *)
Lemma addProperties_chain
    (defs : list (string * PropertyDefinition)) (this : SchemaBuilder) :
  isObjectSchema this = true ->
  well_typed (schemaObject this) = true ->
  NoDup (map fst defs) ->
  (forall k, k ∈ map fst defs ->
             has_key k (get "properties" (schemaObject this)) = false) ->
  containsRef (schemaObject this) = false ->
  Forall (fun kv => containsRef (definition_schema (snd kv)) = false) defs ->
  defs <> [] ->
  addProperties defs this = chain (map add_entry defs) this
  /\ addProperties defs this
     = Ok (fresh (fold_left add_definition defs (ensure_properties (schemaObject this)))
             (validationConfig this)).
Proof.
  intros Hiso Hwt Hnd. pose proof (well_typed_spec _ Hwt) as Hty.
  destruct (ensure_properties_typed _ Hty)
    as (fs & ps & Hens & Hprops & Hndps & Hkeys & Hget & Hhas & Hother).
  pose proof Hty as (Hobj & _ & Hreq).
  intros Hfresh Href Hrefs Hne.
  assert (Hadd : addProperties defs this
                 = Ok (fresh (fold_left add_definition defs
                                (ensure_properties (schemaObject this)))
                         (validationConfig this))).
  { unfold addProperties. rewrite Hiso, !cloneJSON_id. cbn [negb].
    assert (lodash_intersection
              (keys (get "properties" (ensure_properties (schemaObject this))))
              (map fst defs) = []) as ->.
    { unfold lodash_intersection. rewrite Hens, Hprops.
      assert (filter (fun k => k ∈ map fst defs) (keys (VObj ps)) = []) as ->; [|done].
      apply filter_none. intros k Hk Hin.
      apply Hfresh in Hin. rewrite <- Hhas in Hin.
      by apply has_key_false in Hin. }
    cbn [length Nat.ltb Nat.leb]. apply new_SchemaBuilder_ok.
    pose proof (containsRef_ensure_properties _ Href) as H0.
    clear -H0 Hrefs. revert H0. generalize (ensure_properties (schemaObject this)).
    induction Hrefs as [|kv defs Hkv _ IH]; intros s Hs; simpl; [done|].
    apply IH. unfold add_definition.
    destruct (definition_required _);
      [apply containsRef_push_required|]; by apply containsRef_set_property. }
  split; [|done]. rewrite Hadd.
  destruct defs as [|kv defs]; [done|].
  destruct (addProperty_from_ensured (fst kv)
              (fresh (definition_schema (snd kv)) VUndefined)
              (Some (definition_required (snd kv))) this Hobj Hiso) as [Heq Hiso'].
  cbn [map chain]. rewrite add_entry_transform, Heq, <- add_entry_transform.
  change (Ok (fresh (fold_left add_definition (kv :: defs)
                       (ensure_properties (schemaObject this)))
                (validationConfig this))
          = chain (map add_entry (kv :: defs))
              (fresh (ensure_properties (schemaObject this)) (validationConfig this))).
  symmetry.
  apply (chain_add_entries (kv :: defs) (ensure_properties (schemaObject this)) ps
           (validationConfig this)
           (fresh (ensure_properties (schemaObject this)) (validationConfig this)));
    try done.
  + rewrite Hens. by eexists.
  + by rewrite Hens.
  + unfold required_typed. rewrite Hens, Hother by done. exact Hreq.
  + intros k Hk. apply Hfresh in Hk. rewrite <- Hhas in Hk. simpl in Hk.
    destruct (lookup_field k ps); [|done]. by rewrite bool_decide_true in Hk.
  + by apply containsRef_ensure_properties.
Qed.


Lemma fold_required_acc defs acc :
  fold_left (fun r kv => if definition_required (snd kv) then r ++ [VStr (fst kv)] else r)
    defs acc
  = acc ++ definition_names_required defs.
Proof.
  unfold definition_names_required. revert acc.
  induction defs as [|kv defs IH]; intros acc; simpl; [by rewrite app_nil_r|].
  rewrite (IH (if definition_required (snd kv) then acc ++ [VStr (fst kv)] else acc)),
    (IH (if definition_required (snd kv) then [VStr (fst kv)] else [])).
  destruct (definition_required (snd kv)); [|done]. by rewrite <- app_assoc.
Qed.

Lemma fold_add_definition defs : forall s ps,
  is_obj s -> get "properties" s = VObj ps -> required_typed s ->
  is_obj (fold_left add_definition defs s)
  /\ get "properties" (fold_left add_definition defs s)
     = fold_left (fun m kv => set (fst kv) (definition_schema (snd kv)) m) defs (VObj ps)
  /\ get "required" (fold_left add_definition defs s)
     = match definition_names_required defs with
       | [] => get "required" s
       | R => VArr (match get "required" s with VArr xs => xs | _ => [] end ++ R)
       end
  /\ (forall key, key <> "properties" -> key <> "required" ->
                  get key (fold_left add_definition defs s) = get key s
                  /\ has_key key (fold_left add_definition defs s) = has_key key s)
  /\ (has_key "required" s = true ->
      has_key "required" (fold_left add_definition defs s) = true).
Proof.
  induction defs as [|kv defs IH]; intros s ps Hobj Hps Hreq.
  - simpl. repeat split; done.
  - cbn [fold_left].
    destruct (add_definition_facts s kv ps Hobj Hps Hreq)
      as (Hobj' & Hps' & Hreq' & _ & Hfr & _).
    destruct (IH _ _ Hobj' Hps' Hreq') as (H1 & H2 & H3 & H4 & H5).
    split; [done|]. split; [by rewrite H2|]. split; [|split].
    + rewrite H3.
      assert (definition_names_required (kv :: defs)
              = (if definition_required (snd kv) then [VStr (fst kv)] else [])
                ++ definition_names_required defs) as ->.
      { unfold definition_names_required at 1. cbn [fold_left].
        by rewrite fold_required_acc. }
      unfold add_definition.
      destruct (definition_required (snd kv)) eqn:Er.
      * assert (Hg : get "required"
                       (push_required (fst kv)
                          (set_property (fst kv) (definition_schema (snd kv)) s))
                     = VArr (match get "required" s with VArr xs => xs | _ => [] end
                             ++ [VStr (fst kv)])).
        { unfold push_required. rewrite get_set_obj by by apply is_obj_set.
          simpl. unfold set_property. rewrite get_set_obj by done. simpl.
          by destruct Hreq as [->|[xs ->]]. }
        rewrite Hg. cbn [app].
        destruct (definition_names_required defs) as [|y R]; [done|].
        by rewrite <- app_assoc.
      * assert (Hg : get "required"
                       (set_property (fst kv) (definition_schema (snd kv)) s)
                     = get "required" s)
          by (unfold set_property; by rewrite get_set_obj).
        rewrite Hg. done.
    + intros key Hk1 Hk2. destruct (H4 key Hk1 Hk2) as [-> ->]. by apply Hfr.
    + intros Hk. apply H5. unfold add_definition.
      assert (has_key "required"
                (set_property (fst kv) (definition_schema (snd kv)) s) = true)
        by (unfold set_property; by rewrite has_key_set_obj).
      destruct (definition_required _); [|done].
      unfold push_required. by rewrite has_key_set_obj by by apply is_obj_set.
Qed.

Lemma fold_set_has_key (defs : list (string * PropertyDefinition)) : forall init k,
  has_key k (VObj init) = true \/ k ∈ map fst defs ->
  has_key k (fold_left (fun m kv => set (fst kv) (definition_schema (snd kv)) m)
               defs (VObj init)) = true.
Proof.
  induction defs as [|kv defs IH]; intros init k [H|H]; simpl; try done.
  - by apply elem_of_nil in H.
  - apply IH. left.
    change (has_key k (set (fst kv) (definition_schema (snd kv)) (VObj init)) = true).
    rewrite has_key_set. by rewrite H, orb_true_r.
  - apply IH. apply elem_of_cons in H as [->|H]; [left|by right].
    change (has_key (fst kv) (set (fst kv) (definition_schema (snd kv)) (VObj init))
            = true).
    by rewrite has_key_set, string_eqb_refl.
Qed.

Lemma definition_properties_nonempty kv defs :
  (0 <? length (keys (definition_properties (kv :: defs))))%nat = true.
Proof.
  pose proof (fold_set_has_key (kv :: defs) [] (fst kv)) as H.
  fold (definition_properties (kv :: defs)) in H.
  destruct (definition_properties (kv :: defs)) as [| | | | | | |fs] eqn:E;
    try (by discriminate H; right; left).
  destruct fs as [|x fs]; [|done].
  by discriminate H; right; left.
Qed.

Lemma spread_empty_lookup schema k :
  NoDup (keys schema) ->
  get k (spread (VObj []) schema) = get k schema
  /\ has_key k (spread (VObj []) schema) = has_key k schema.
Proof.
  intros Hnd. destruct schema as [| | | | | | |cs]; try done.
  unfold spread. destruct (spread_fold_lookup cs [] k Hnd) as (fs & -> & Hl).
  simpl. rewrite Hl. by destruct (lookup_field k cs).
Qed.

Lemma definition_names_required_filter defs :
  definition_names_required defs
  = map (fun kv => VStr (fst kv))
      (List.filter (fun kv => definition_required (snd kv)) defs).
Proof.
  induction defs as [|kv defs IH]; [done|].
  unfold definition_names_required. cbn [fold_left List.filter].
  rewrite fold_required_acc, IH. by destruct (definition_required (snd kv)).
Qed.

Lemma definition_properties_keys defs :
  NoDup (map fst defs) -> keys (definition_properties defs) = map fst defs.
Proof.
  unfold definition_properties. intros Hnd.
  assert (H : forall init,
             (forall k, k ∈ map fst defs -> lookup_field k init = None) ->
             keys (fold_left (fun m kv => set (fst kv) (definition_schema (snd kv)) m)
                     defs (VObj init)) = map fst init ++ map fst defs).
  { induction defs as [|kv defs IH]; intros init Hfresh; simpl.
    - by rewrite app_nil_r.
    - apply NoDup_cons in Hnd as [Hx Hnd]. rewrite IH; [|done|].
      + rewrite keys_set_field_fresh by (apply Hfresh; left).
        by rewrite <- app_assoc.
      + intros k Hk. rewrite lookup_set_field.
        case_eqb k (fst kv); [by subst|]. apply Hfresh. by right. }
  by rewrite (H []).
Qed.

Lemma definition_properties_ref_free defs :
  Forall (fun kv => containsRef (definition_schema (snd kv)) = false) defs ->
  ref_free_entry "properties" (definition_properties defs).
Proof.
  intros Hall. split; [by intros ?%(bool_decide_pack (_ ∈ subschema_keywords))|].
  intros _. unfold definition_properties.
  assert (H : forall init, Forall (fun p => containsRef (snd p) = false) init ->
            match fold_left (fun m kv => set (fst kv) (definition_schema (snd kv)) m)
                    defs (VObj init) with
            | VObj ps => Forall (fun p => containsRef (snd p) = false) ps
            | _ => True
            end).
  { induction Hall as [|kv defs Hkv _ IH]; intros init Hinit; simpl; [done|].
    apply IH. by apply Forall_set_field. }
  by apply H.
Qed.

Lemma get_absent k o : has_key k o = false -> get k o = VUndefined.
Proof.
  destruct o; try done. simpl. destruct (lookup_field k fs); [|done].
  by rewrite bool_decide_true.
Qed.

(** The properties written by the loop over a definition map, on names
    that are new and distinct. *)
Lemma fold_set_definitions defs : forall init,
  NoDup (map fst defs) ->
  (forall k, k ∈ map fst defs -> lookup_field k init = None) ->
  keys (fold_left (fun m kv => set (fst kv) (definition_schema (snd kv)) m)
          defs (VObj init)) = map fst init ++ map fst defs
  /\ (forall k p, (k, p) ∈ defs ->
        get k (fold_left (fun m kv => set (fst kv) (definition_schema (snd kv)) m)
                 defs (VObj init)) = definition_schema p)
  /\ (forall k, k ∉ map fst defs ->
        get k (fold_left (fun m kv => set (fst kv) (definition_schema (snd kv)) m)
                 defs (VObj init)) = get k (VObj init)).
Proof.
  induction defs as [|[x q] defs IH]; intros init Hnd Hfresh.
  - simpl. rewrite app_nil_r. split; [done|]. split; [|done].
    by intros k p ?%elem_of_nil.
  - apply NoDup_cons in Hnd as [Hx Hnd]. cbn [fold_left fst snd map] in *.
    change (set x (definition_schema q) (VObj init))
      with (VObj (set_field x (definition_schema q) init)).
    destruct (IH (set_field x (definition_schema q) init) Hnd) as (Hkeys & Hin & Hout).
    { intros k Hk. rewrite lookup_set_field.
      case_eqb k x; [by subst|]. apply Hfresh. by right. }
    split; [|split].
    + rewrite Hkeys, keys_set_field_fresh by (apply Hfresh; left).
      by rewrite <- app_assoc.
    + intros k p [[= -> ->]|Hp]%elem_of_cons.
      * rewrite Hout by done.
        change (VObj (set_field x (definition_schema q) init))
          with (set x (definition_schema q) (VObj init)).
        by rewrite get_set, string_eqb_refl.
      * by apply Hin.
    + intros k Hk. apply not_elem_of_cons in Hk as [Hkx Hk].
      rewrite Hout by done.
      change (VObj (set_field x (definition_schema q) init))
        with (set x (definition_schema q) (VObj init)).
      rewrite get_set. by rewrite (proj2 (string_eqb_false _ _) Hkx).
Qed.

(** The required status after the loop of [addProperties]. *)
Lemma fold_add_definition_requires defs : forall s ps k,
  is_obj s -> get "properties" s = VObj ps -> required_typed s ->
  requires k (fold_left add_definition defs s)
  = existsb (fun kv => string_eqb k (fst kv) && definition_required (snd kv)) defs
    || requires k s.
Proof.
  induction defs as [|kv defs IH]; intros s ps k Hobj Hps Hreq; [done|].
  cbn [fold_left existsb].
  destruct (add_definition_facts s kv ps Hobj Hps Hreq)
    as (Hobj' & Hps' & Hreq' & Hrq & _).
  rewrite (IH _ _ k Hobj' Hps' Hreq'), Hrq.
  by destruct (string_eqb k (fst kv) && definition_required (snd kv)), (existsb _ defs).
Qed.

Lemma existsb_entry (f : PropertyDefinition -> bool) defs k p :
  NoDup (map fst defs) -> (k, p) ∈ defs ->
  existsb (fun kv => string_eqb k (fst kv) && f (snd kv)) defs = f p.
Proof.
  induction defs as [|[x q] defs IH]; intros Hnd Hin; [by apply elem_of_nil in Hin|].
  apply NoDup_cons in Hnd as [Hx Hnd]. cbn [existsb fst snd map] in *.
  apply elem_of_cons in Hin as [[= -> ->]|Hin].
  - rewrite string_eqb_refl. simpl.
    assert (existsb (fun kv => string_eqb x (fst kv) && f (snd kv)) defs = false) as ->;
      [|by rewrite orb_false_r].
    clear IH Hnd. induction defs as [|[y r] defs IH]; [done|].
    apply not_elem_of_cons in Hx as [Hxy Hx]. cbn [existsb fst snd map] in *.
    rewrite (proj2 (string_eqb_false _ _) Hxy). simpl. by apply IH.
  - assert (k <> x) as Hkx.
    { intros ->. apply Hx. apply list_elem_of_fmap. by exists (x, p). }
    rewrite (proj2 (string_eqb_false _ _) Hkx). simpl. by apply IH.
Qed.

(** X2.  [addProperties(defs)] on an object schema, for entries whose
    names are neither names of [Object.prototype] nor written with digits
    only, is the chain of [addProperty] calls, one per entry and in the
    order of the entries, when none of the names is a property yet.  An
    entry adds its one builder, or the [anyOf] of its builders when they
    are not exactly one, and the property is required unless the entry is
    a list that holds an [undefined].  The new properties come after
    those of the document, in the order of the entries, and the other
    properties are kept.  When one of the names is a property already,
    [addProperties] raises. *)
Theorem addProperties_is_chain_of_addProperty
    (defs : list (string * PropertyDefinition)) (this : SchemaBuilder) :
  isObjectSchema this = true ->
  well_typed (schemaObject this) = true ->
  NoDup (map fst defs) ->
  all_plain (map fst defs) = true ->
  ((forall k, k ∈ map fst defs ->
              has_key k (get "properties" (schemaObject this)) = false) ->
   containsRef (schemaObject this) = false ->
   builders_ref_free defs ->
   defs <> [] ->
   addProperties defs this = chain (map add_entry defs) this
   /\ exists d,
        addProperties defs this = Ok d
        /\ property_names d = property_names this ++ map fst defs
        /\ (forall k p, (k, p) ∈ defs ->
              get k (get "properties" (schemaObject d)) = schemaObject (entry_builder p)
              /\ requires k (schemaObject d)
                 = entry_required p || requires k (schemaObject this))
        /\ (forall k, k ∉ map fst defs ->
              get k (get "properties" (schemaObject d))
              = get k (get "properties" (schemaObject this))
              /\ requires k (schemaObject d) = requires k (schemaObject this))
        /\ validationConfig d = validationConfig this)
  /\ (forall k, k ∈ map fst defs ->
                has_key k (get "properties" (schemaObject this)) = true ->
                is_shape_error (addProperties defs this) = true).
Proof.
  intros Hiso Hwt Hnd _.
  pose proof (well_typed_spec _ Hwt) as Hty.
  destruct (ensure_properties_typed _ Hty)
    as (fs & ps & Hens & Hprops & Hndps & Hkeys & Hget & Hhas & Hother).
  split.
  - intros Hfresh Href Hrefs Hne.
    destruct (addProperties_chain defs this Hiso Hwt Hnd Hfresh Href
                (builders_ref_free_definitions _ Hrefs) Hne) as [Hchain Hadd].
    split; [done|]. eexists. split; [exact Hadd|].
    unfold property_names. cbn [fresh schemaObject validationConfig].
    pose proof Hty as (_ & _ & Hreq).
    assert (Hobj : is_obj (ensure_properties (schemaObject this)))
      by (rewrite Hens; by eexists).
    assert (Hps : get "properties" (ensure_properties (schemaObject this)) = VObj ps)
      by by rewrite Hens.
    assert (Hrt : required_typed (ensure_properties (schemaObject this))).
    { unfold required_typed. rewrite Hens, Hother by done. exact Hreq. }
    assert (Hrq0 : forall k, requires k (ensure_properties (schemaObject this))
                             = requires k (schemaObject this)).
    { intros k. unfold requires. by rewrite Hens, Hother. }
    destruct (fold_add_definition defs _ ps Hobj Hps Hrt) as (_ & -> & _).
    destruct (fold_set_definitions defs ps Hnd) as (Hnames & Hin & Hout).
    { intros k Hk. apply Hfresh in Hk. rewrite <- Hhas in Hk. simpl in Hk.
      destruct (lookup_field k ps); [|done]. by rewrite bool_decide_true in Hk. }
    split; [by rewrite Hnames, Hkeys|]. split; [|split; [|done]].
    + intros k p Hp. split.
      * by rewrite (Hin k p Hp), entry_builder_definition.
      * rewrite (fold_add_definition_requires defs _ ps k Hobj Hps Hrt), Hrq0.
        by rewrite (existsb_entry definition_required defs k p Hnd Hp),
             entry_required_definition.
    + intros k Hk. split.
      * by rewrite (Hout k Hk), Hget.
      * rewrite (fold_add_definition_requires defs _ ps k Hobj Hps Hrt), Hrq0.
        assert (existsb (fun kv => string_eqb k (fst kv) && definition_required (snd kv))
                  defs = false) as ->; [|done].
        clear -Hk. induction defs as [|[y r] defs IH]; [done|].
        cbn [map fst] in Hk. apply not_elem_of_cons in Hk as [Hky Hk].
        cbn [existsb fst snd]. rewrite (proj2 (string_eqb_false _ _) Hky). simpl.
        by apply IH.
  - intros k Hin Hk. unfold addProperties. rewrite Hiso, !cloneJSON_id. cbn [negb].
    assert (k ∈ lodash_intersection
                  (keys (get "properties" (ensure_properties (schemaObject this))))
                  (map fst defs)) as Hmem.
    { unfold lodash_intersection. apply elem_of_remove_dups, list_elem_of_filter.
      split; [done|]. rewrite Hens, Hprops. apply has_key_keys. by rewrite Hhas. }
    destruct (lodash_intersection _ _) as [|x l]; [by apply elem_of_nil in Hmem|].
    done.
Qed.

(** X3.  [objectSchema(schema, defs, nullable)], for entries whose names
    are neither names of [Object.prototype] nor written with digits only,
    builds the document that [emptySchema(schema, nullable)] followed by
    one [addProperty] per entry builds: the same keywords with the same
    values, and the properties in the order of the entries.  The property
    of an entry holds the schema of its one builder, or the [anyOf] of
    the schemas of its builders when they are not exactly one; the
    required names are those of the entries that are not lists with an
    [undefined]. *)
Theorem objectSchema_is_emptySchema_chain (schema : value)
    (defs : list (string * PropertyDefinition)) (nullable : bool) :
  object_facets schema ->
  NoDup (map fst defs) ->
  all_plain (map fst defs) = true ->
  builders_ref_free defs ->
  exists e d o,
    emptySchema schema nullable = Ok e
    /\ chain (map add_entry defs) e = Ok d
    /\ objectSchema schema defs nullable = Ok o
    /\ (forall key, get key (schemaObject o) = get key (schemaObject d))
    /\ keys (get "properties" (schemaObject o)) = map fst defs
    /\ (forall k p, (k, p) ∈ defs ->
          get k (get "properties" (schemaObject o)) = schemaObject (entry_builder p))
    /\ get "required" (schemaObject o)
       = match List.filter (fun kv => entry_required (snd kv)) defs with
         | [] => VUndefined
         | required => VArr (map (fun kv => VStr (fst kv)) required)
         end.
Proof.
  intros (Hnd & Hnp & Hnr & Href) Hnames _ Hrefs%builders_ref_free_definitions.
  rewrite (List.filter_ext (fun kv => entry_required (snd kv))
             (fun kv => definition_required (snd kv)))
    by (intros kv; apply entry_required_definition).
  set (S0 := set "type" (type_of "object" nullable) (spread (VObj []) schema)).
  set (E := set "additionalProperties" (VBool false) S0).
  assert (Hobj0 : is_obj S0).
  { subst S0. apply is_obj_set. destruct (spread_is_obj (VObj []) schema) as [fs ->].
    by eexists. }
  assert (HobjE : is_obj E) by by apply is_obj_set.
  assert (Href0 : containsRef S0 = false).
  { apply containsRef_set; [done|done|]. by apply plain_keyword. }
  assert (HrefE : containsRef E = false).
  { apply containsRef_set; [done|done|]. split; [done|].
    by intros ?%(bool_decide_pack (_ ∈ subschema_map_keywords)). }
  assert (Hp0 : get "properties" S0 = VUndefined).
  { subst S0. rewrite get_set_obj by (destruct (spread_is_obj (VObj []) schema)
                                        as [fs ->]; by eexists).
    simpl. destruct (spread_empty_lookup schema "properties" Hnd) as [-> _].
    by apply get_absent. }
  assert (Hr0 : get "required" S0 = VUndefined).
  { subst S0. rewrite get_set_obj by (destruct (spread_is_obj (VObj []) schema)
                                        as [fs ->]; by eexists).
    simpl. destruct (spread_empty_lookup schema "required" Hnd) as [-> _].
    by apply get_absent. }
  assert (HpE : get "properties" E = VUndefined)
    by (subst E; by rewrite get_set_obj).
  assert (HrE : get "required" E = VUndefined)
    by (subst E; by rewrite get_set_obj).
  assert (Hempty : emptySchema schema nullable = Ok (fresh E VUndefined)).
  { unfold emptySchema. rewrite cloneJSON_id. by apply new_SchemaBuilder_ok. }
  exists (fresh E VUndefined).
  destruct defs as [|kv defs].
  - exists (fresh E VUndefined), (fresh E VUndefined).
    split; [done|]. split; [done|]. split.
    { unfold objectSchema. rewrite cloneJSON_id. simpl fold_left. cbv iota.
      cbn [keys length Nat.ltb Nat.leb]. by apply new_SchemaBuilder_ok. }
    split; [done|]. cbn [fresh schemaObject]. rewrite HpE, HrE.
    split; [done|]. split; [|done]. by intros k p ?%elem_of_nil.
  - set (defs0 := kv :: defs) in *.
    assert (Hiso : isObjectSchema (fresh E VUndefined) = true).
    { unfold isObjectSchema, hasType. cbn [fresh schemaObject].
      assert (get "type" E = type_of "object" nullable) as ->.
      { subst E S0. rewrite get_set_obj by done. simpl.
        rewrite get_set_obj; [done|].
        destruct (spread_is_obj (VObj []) schema) as [fs ->]. by eexists. }
      by destruct nullable. }
    assert (Hwt : well_typed (schemaObject (fresh E VUndefined)) = true).
    { cbn [fresh schemaObject]. unfold well_typed. rewrite HpE, HrE.
      by destruct HobjE as [fs ->]. }
    destruct (addProperties_chain defs0 (fresh E VUndefined)
                Hiso Hwt Hnames) as [Hchain Hadd]; try done.
    { intros k _. cbn [fresh schemaObject]. by rewrite HpE. }
    cbn [fresh schemaObject validationConfig] in Hadd, Hchain.
    set (D := fold_left add_definition defs0 (ensure_properties E)) in *.
    exists (fresh D VUndefined). rewrite <- Hchain, Hadd.
    assert (HobjEE : is_obj (ensure_properties E)) by by apply is_obj_set.
    assert (HpEE : get "properties" (ensure_properties E) = VObj []).
    { unfold ensure_properties. by rewrite get_set_obj, HpE. }
    assert (HrEE : get "required" (ensure_properties E) = VUndefined).
    { unfold ensure_properties. by rewrite get_set_obj. }
    destruct (fold_add_definition defs0 (ensure_properties E) [] HobjEE HpEE)
      as (HobjD & HpD & HrD & HoD & _); [by left|].
    fold D in HobjD, HpD, HrD, HoD. fold (definition_properties defs0) in HpD.
    rewrite HrEE in HrD.
    set (P := definition_properties defs0) in *.
    set (R := definition_names_required defs0) in *.
    set (S1 := set "properties" P S0).
    set (S2 := if (0 <? length R)%nat then set "required" (VArr R) S1 else S1).
    set (O := set "additionalProperties" (VBool false) S2).
    assert (Hobj1 : is_obj S1) by by apply is_obj_set.
    assert (Hobj2 : is_obj S2) by (subst S2; destruct (_ <? _)%nat;
                                   [by apply is_obj_set|done]).
    assert (HO : objectSchema schema defs0 nullable = Ok (fresh O VUndefined)).
    { unfold objectSchema. rewrite cloneJSON_id.
      fold (definition_properties defs0). fold (definition_names_required defs0).
      fold P. fold R. fold S0.
      pose proof (definition_properties_nonempty kv defs) as Hne.
      fold defs0 in Hne. fold P in Hne. rewrite Hne. fold S1. fold S2. fold O.
      apply new_SchemaBuilder_ok.
      apply containsRef_set; [done| |].
      - subst S2. assert (containsRef S1 = false).
        { apply containsRef_set; [done|done|].
          by apply definition_properties_ref_free. }
        destruct (_ <? _)%nat; [|done].
        apply containsRef_set; [done|done|]. by apply plain_keyword.
      - split; [done|]. by intros ?%(bool_decide_pack (_ ∈ subschema_map_keywords)). }
    exists (fresh O VUndefined). split; [done|]. split; [done|]. split; [done|].
    cbn [fresh schemaObject].
    assert (HgR : get "required" O = match R with [] => VUndefined | _ => VArr R end).
    { subst O S2. rewrite get_set_obj by done. simpl.
      destruct R as [|y R']; simpl.
      - subst S1. by rewrite get_set_obj.
      - by rewrite get_set_obj. }
    assert (HgP : get "properties" O = P).
    { subst O S2. rewrite get_set_obj by done. simpl.
      destruct (_ <? _)%nat; [rewrite get_set_obj by done; simpl|];
        subst S1; by rewrite get_set_obj. }
    split; [|split; [|split]].
    + intros key.
      case_eqb key "properties"; [subst key; by rewrite HgP, HpD|].
      case_eqb key "required".
      { subst key. rewrite HgR, HrD. by destruct R. }
      destruct (HoD key) as [-> _]; [done..|].
      unfold ensure_properties. rewrite get_set_obj by done.
      rewrite (proj2 (string_eqb_false _ _) E0).
      subst O E. rewrite !get_set_obj by done.
      case_eqb key "additionalProperties"; [done|].
      subst S2. destruct (_ <? _)%nat.
      * rewrite get_set_obj by done. rewrite (proj2 (string_eqb_false _ _) E1).
        subst S1. rewrite get_set_obj by done.
        by rewrite (proj2 (string_eqb_false _ _) E0).
      * subst S1. rewrite get_set_obj by done.
        by rewrite (proj2 (string_eqb_false _ _) E0).
    + rewrite HgP. by apply definition_properties_keys.
    + intros k p Hp. rewrite HgP. subst P. unfold definition_properties.
      destruct (fold_set_definitions defs0 [] Hnames) as (_ & Hin & _); [done|].
      by rewrite (Hin k p Hp), entry_builder_definition.
    + rewrite HgR. subst R. rewrite definition_names_required_filter.
      by destruct (List.filter _ defs0).
Qed.

(** ** [pickAdditionalProperties] *)






(** ** Loops that rewrite properties one by one *)

Lemma get_properties_set_property k v s ps :
  is_obj s -> get "properties" s = VObj ps ->
  get "properties" (set_property k v s) = VObj (set_field k v ps).
Proof.
  intros Hs Hps. unfold set_property. rewrite get_set_obj, string_eqb_refl by done.
  by rewrite Hps.
Qed.

Lemma keys_set_field_present k v fs :
  is_Some (lookup_field k fs) -> map fst (set_field k v fs) = map fst fs.
Proof.
  induction fs as [|[k0 v0] fs IH]; simpl; [by intros [? ?]|].
  case_eqb k k0; simpl; [by subst|]. intros H. f_equal. by apply IH.
Qed.

Lemma has_key_lookup k fs : has_key k (VObj fs) = true <-> is_Some (lookup_field k fs).
Proof.
  simpl. destruct (lookup_field k fs); simpl; split; try done; eauto.
Qed.

Section Rewrite.

Variable f : string -> value -> result (option value).

Lemma rewrite_step_throw e k : rewrite_step f (Throw e) k = Throw e.
Proof. reflexivity. Qed.

(** The outcome of the loop over names without repetition. *)
Lemma rewrite_fold L : forall s ps,
  NoDup L -> is_obj s -> get "properties" s = VObj ps ->
  match fold_left (rewrite_step f) L (Ok s) with
  | Ok s' =>
      (forall k, k ∈ L -> is_ok (f k (get k (VObj ps))) = true)
      /\ frame ["properties"] s s'
      /\ (containsRef s = false ->
          (forall k v v', containsRef v = false -> f k v = Ok (Some v') ->
                          containsRef v' = false) ->
          containsRef s' = false)
      /\ exists ps', get "properties" s' = VObj ps'
           /\ (forall k, get k (VObj ps')
                         = if bool_decide (k ∈ L)
                           then match f k (get k (VObj ps)) with
                                | Ok (Some v) => v
                                | _ => get k (VObj ps)
                                end
                           else get k (VObj ps))
           /\ ((forall k, k ∈ L -> has_key k (VObj ps) = true) ->
               map fst ps' = map fst ps)
  | Throw e => exists k, k ∈ L /\ f k (get k (VObj ps)) = Throw e
  end.
Proof.
  induction L as [|x L IH]; intros s ps Hnd Hs Hps.
  - simpl. split; [by intros k ?%elem_of_nil|]. split; [by apply frame_refl|].
    split; [done|]. exists ps. by repeat split.
  - apply NoDup_cons in Hnd as [Hx Hnd]. cbn [fold_left].
    unfold rewrite_step at 2. cbn [mbind result_bind bind]. rewrite Hps.
    destruct (f x (get x (VObj ps))) as [[v|]|e] eqn:Ef; cbn [mbind result_bind bind].
    + assert (Hs1 : is_obj (set_property x v s)) by by apply is_obj_set.
      pose proof (get_properties_set_property x v s ps Hs Hps) as Hps1.
      assert (Hother : forall k, k <> x ->
                get k (VObj (set_field x v ps)) = get k (VObj ps)).
      { intros k Hk. simpl. rewrite lookup_set_field.
        by rewrite (proj2 (string_eqb_false _ _) Hk). }
      specialize (IH _ _ Hnd Hs1 Hps1).
      destruct (fold_left _ L _) as [s'|e].
      * destruct IH as (Hok & Hfr & Href & ps' & Hps' & Hget & Hkeys).
        split; [|split; [|split]].
        -- intros k [->|Hk]%elem_of_cons; [by rewrite Ef|].
           rewrite <- Hother by (intros ->; done). by apply Hok.
        -- eapply frame_trans; [|exact Hfr]. apply frame_set; [by left|done].
        -- intros Hr Hf. apply Href; [|done].
           apply containsRef_set_property; [done|].
           eapply Hf; [|exact Ef]. rewrite <- Hps. by apply ref_free_property.
        -- exists ps'. split; [done|]. split.
           ++ intros k. rewrite Hget.
              destruct (decide (k = x)) as [->|Hk].
              ** rewrite bool_decide_false by done.
                 rewrite bool_decide_true by left. rewrite Ef. simpl.
                 by rewrite lookup_set_field, string_eqb_refl.
              ** rewrite Hother by done.
                 rewrite (bool_decide_ext (k ∈ x :: L) (k ∈ L)); [done|].
                 rewrite elem_of_cons. split; [by intros [?|?] | by right].
           ++ intros Hall. rewrite Hkeys.
              ** apply keys_set_field_present, has_key_lookup, Hall. by left.
              ** intros k Hk. rewrite has_key_lookup, lookup_set_field.
                 case_eqb k x; [done|]. apply has_key_lookup, Hall. by right.
      * destruct IH as (k & Hk & Hf). exists k. split; [by right|].
        rewrite <- Hother by (intros ->; done). done.
    + specialize (IH _ _ Hnd Hs Hps).
      destruct (fold_left _ L _) as [s'|e].
      * destruct IH as (Hok & Hfr & Href & ps' & Hps' & Hget & Hkeys).
        split; [|split; [done|split; [done|]]].
        -- intros k [->|Hk]%elem_of_cons; [by rewrite Ef|]. by apply Hok.
        -- exists ps'. split; [done|]. split.
           ++ intros k. rewrite Hget.
              destruct (decide (k = x)) as [->|Hk].
              ** rewrite bool_decide_false by done.
                 rewrite bool_decide_true by left. by rewrite Ef.
              ** rewrite (bool_decide_ext (k ∈ x :: L) (k ∈ L)); [done|].
                 rewrite elem_of_cons. split; [by intros [?|?] | by right].
           ++ intros Hall. apply Hkeys. intros k Hk. apply Hall. by right.
      * destruct IH as (k & Hk & Hf). exists k. split; [by right|done].
    + rewrite fold_throw by apply rewrite_step_throw. exists x. split; [by left|done].
Qed.

Lemma rewrite_fold_ext (step : result value -> string -> result value) L r :
  (forall s k, step s k = rewrite_step f s k) ->
  fold_left step L r = fold_left (rewrite_step f) L r.
Proof.
  intros H. revert r. induction L as [|x L IH]; intros r; simpl; [done|].
  by rewrite H, IH.
Qed.

End Rewrite.

Lemma containsRef_spread a gs :
  containsRef a = false -> containsRef (VObj gs) = false ->
  containsRef (spread a (VObj gs)) = false.
Proof.
  intros Ha Hgs. apply containsRef_obj in Hgs as [Href HF]. unfold spread.
  assert (Ha' : containsRef (match a with VObj _ => a | _ => VObj [] end) = false)
    by by destruct a.
  revert Ha'. generalize (match a with VObj _ => a | _ => VObj [] end). clear Ha a.
  induction HF as [|[k v] gs Hkv _ IH]; intros a Ha; simpl; [done|].
  simpl in Href. case_eqb "$ref" k; [done|].
  apply IH; [done|]. by apply containsRef_set.
Qed.

(** ** [transformPropertiesToArray] and [unwrapArrayProperties] *)

Lemma to_array_step_rewrite schema s k :
  to_array_step schema s k
  = rewrite_step
      (fun _ v => ty ← type_member v;
                  Ok (if negb (is_str "array" ty)
                      then Some (array_alternative schema v) else None)) s k.
Proof.
  destruct s as [s0|e]; [|done]. unfold to_array_step, rewrite_step.
  cbn [mbind result_bind bind]. rewrite cloneJSON_id.
  destruct (type_member _) as [ty|e]; [|done]. cbn [mbind result_bind bind].
  by destruct (negb _).
Qed.

Lemma unwrap_step_rewrite s k :
  unwrap_step s k
  = rewrite_step
      (fun _ v => ty ← type_member v;
                  Ok (if is_str "array" ty then Some (item_alternative v) else None)) s k.
Proof.
  destruct s as [s0|e]; [|done]. unfold unwrap_step, rewrite_step.
  cbn [mbind result_bind bind].
  destruct (type_member _) as [ty|e]; [|done]. cbn [mbind result_bind bind].
  destruct (is_str "array" ty); [|done]. rewrite cloneJSON_id. unfold item_alternative.
  by destruct (get "items" _) as [| | | | | |[|? [|? ?]]|].
Qed.

Lemma not_properties key : key <> "properties" -> key ∉ ["properties"].
Proof. intros H [->|?%elem_of_nil]%elem_of_cons; done. Qed.

Lemma type_member_spec v :
  type_member v = if nullish v then Throw (JSError "TypeError") else Ok (get "type" v).
Proof. by destruct v. Qed.

Lemma ensured_properties s :
  well_typed s = true ->
  exists ps, get "properties" (ensure_properties s) = VObj ps
             /\ (forall k, get k (VObj ps) = get k (get "properties" s))
             /\ map fst ps = keys (get "properties" s)
             /\ is_obj (ensure_properties s)
             /\ frame ["properties"] s (ensure_properties s).
Proof.
  intros Hwt. pose proof (well_typed_spec _ Hwt) as (Hobj & Hp & _).
  unfold ensure_properties.
  assert (Hfr : frame ["properties"] s
                  (set "properties" (por (get "properties" s) (VObj [])) s))
    by (apply frame_set; [by left|done]).
  assert (Ho : is_obj (set "properties" (por (get "properties" s) (VObj [])) s))
    by by apply is_obj_set.
  rewrite get_set_obj, string_eqb_refl by done.
  destruct Hp as [Hp|(ps & Hp & _)].
  - exists []. split; [by rewrite Hp|]. split; [intros k; by rewrite Hp|].
    split; [by rewrite Hp|]. by split.
  - exists ps. split; [by rewrite Hp|]. split; [intros k; by rewrite Hp|].
    split; [by rewrite Hp|]. by split.
Qed.

(** X13.  [transformPropertiesToArray(names, schema)] on a simple object
    schema, for names none of which is a name of [Object.prototype].  It
    raises a [TypeError] exactly when a name is not a property (or is a
    property holding [null]).  Otherwise every named
    property whose [type] is not ["array"] becomes the choice between
    itself and the array of itself carrying [schema]; array properties,
    the properties not named, their order and every other keyword are
    kept. *)
Theorem transformPropertiesToArray_spec (propertyNames : option (list string))
    (schema : value) (this : SchemaBuilder) :
  isSimpleObjectSchema this = true ->
  well_typed (schemaObject this) = true ->
  let props := get "properties" (schemaObject this) in
  let names := match propertyNames with Some l => l | None => keys props end in
  NoDup names ->
  none_inherited names = true ->
  (transformPropertiesToArray propertyNames schema this = Throw (JSError "TypeError")
   <-> exists k, k ∈ names /\ nullish (get k props) = true)
  /\ (is_obj schema -> containsRef schema = false ->
      containsRef (schemaObject this) = false ->
      (forall k, k ∈ names -> nullish (get k props) = false) ->
      is_ok (transformPropertiesToArray propertyNames schema this) = true)
  /\ forall d, transformPropertiesToArray propertyNames schema this = Ok d ->
       keys (get "properties" (schemaObject d)) = keys props
       /\ (forall key, key <> "properties" ->
             get key (schemaObject d) = get key (schemaObject this))
       /\ forall k, get k (get "properties" (schemaObject d))
            = if bool_decide (k ∈ names)
                 && negb (is_str "array" (get "type" (get k props)))
              then array_alternative schema (get k props)
              else get k props.
Proof.
  intros Hsimple Hwt props names Hnd _.
  destruct (ensured_properties _ Hwt) as (ps & Hps & Hget & Hkeys & Hobj & Hfr).
  unfold transformPropertiesToArray. rewrite Hsimple. cbn [negb]. rewrite cloneJSON_id.
  assert (Hnames : names_or_all propertyNames (ensure_properties (schemaObject this))
                   = names).
  { subst names props. destruct propertyNames; simpl; [done|]. by rewrite Hps. }
  rewrite Hnames.
  rewrite (rewrite_fold_ext _ _ _ _ (to_array_step_rewrite schema)).
  pose proof (rewrite_fold
    (fun _ v => ty ← type_member v;
                Ok (if negb (is_str "array" ty)
                    then Some (array_alternative schema v) else None))
    names _ ps Hnd Hobj Hps) as Hfold.
  destruct (fold_left _ names _) as [s'|e]; cbn [mbind result_bind bind].
  - destruct Hfold as (Hok & Hfr' & Href & ps' & Hps' & Hget' & Hkeys').
    assert (Hnn : forall k, k ∈ names -> nullish (get k props) = false).
    { intros k Hk. specialize (Hok k Hk). rewrite Hget, type_member_spec in Hok.
      fold props in Hok. by destruct (nullish (get k props)). }
    split; [|split].
    + split.
      * unfold new_SchemaBuilder. by destruct (containsRef s').
      * intros (k & Hk & Hn). by rewrite Hnn in Hn.
    + intros Hso Hsr Hr _. rewrite new_SchemaBuilder_ok; [done|].
      apply Href.
      * by apply containsRef_ensure_properties.
      * intros k v v' Hv. rewrite type_member_spec.
        destruct (nullish v); [done|]. cbn [mbind result_bind bind].
        destruct (negb _); [|done]. intros [= <-].
        destruct Hso as [gs ->].
        assert (Hsp : containsRef
                  (spread (VObj [("type", VStr "array"); ("items", v)]) (VObj gs))
                = false).
        { apply containsRef_spread; [|done]. simpl. by rewrite Hv. }
        unfold array_alternative. simpl in *. by rewrite Hv, Hsp.
    + intros d Hd. built_by Hd. split; [|split].
      * rewrite Hps'. simpl. rewrite Hkeys'; [done|].
        intros k Hk. specialize (Hnn k Hk). fold props in Hget. rewrite <- Hget in Hnn.
        simpl in *. by destruct (lookup_field k ps).
      * intros key Hk.
        rewrite (frame_get _ _ _ key Hfr') by (by apply not_properties).
        by rewrite (frame_get _ _ _ key Hfr) by (by apply not_properties).
      * intros k. rewrite Hps', Hget', Hget. fold props.
        destruct (bool_decide (k ∈ names)) eqn:Ek; [|done]. cbn [andb].
        rewrite type_member_spec. apply bool_decide_eq_true in Ek.
        rewrite (Hnn k Ek). cbn [mbind result_bind bind].
        by destruct (negb _).
  - destruct Hfold as (k & Hk & Hf). rewrite Hget, type_member_spec in Hf.
    fold props in Hf.
    destruct (nullish (get k props)) eqn:En; [|by cbn [mbind result_bind bind] in Hf].
    injection Hf as <-.
    split; [|split]; [|by intros _ _ _ H; rewrite (H k Hk) in En|done].
    split; [eauto|done].
Qed.

(** X14.  [unwrapArrayProperties(names)] on a simple object schema, for
    names none of which is a name of [Object.prototype].  It raises a
    [TypeError] exactly when a name is not a property (or is a property
    holding [null]).  Otherwise every named property whose
    [type] is ["array"] becomes the choice between its item schema and
    itself; the other properties, their order and every other keyword
    are kept. *)
Theorem unwrapArrayProperties_spec (propertyNames : option (list string))
    (this : SchemaBuilder) :
  isSimpleObjectSchema this = true ->
  well_typed (schemaObject this) = true ->
  let props := get "properties" (schemaObject this) in
  let names := match propertyNames with Some l => l | None => keys props end in
  NoDup names ->
  none_inherited names = true ->
  (unwrapArrayProperties propertyNames this = Throw (JSError "TypeError")
   <-> exists k, k ∈ names /\ nullish (get k props) = true)
  /\ (containsRef (schemaObject this) = false ->
      (forall k, k ∈ names -> nullish (get k props) = false) ->
      is_ok (unwrapArrayProperties propertyNames this) = true)
  /\ forall d, unwrapArrayProperties propertyNames this = Ok d ->
       keys (get "properties" (schemaObject d)) = keys props
       /\ (forall key, key <> "properties" ->
             get key (schemaObject d) = get key (schemaObject this))
       /\ forall k, get k (get "properties" (schemaObject d))
            = if bool_decide (k ∈ names) && is_str "array" (get "type" (get k props))
              then item_alternative (get k props)
              else get k props.
Proof.
  intros Hsimple Hwt props names Hnd _.
  destruct (ensured_properties _ Hwt) as (ps & Hps & Hget & Hkeys & Hobj & Hfr).
  unfold unwrapArrayProperties. rewrite Hsimple. cbn [negb]. rewrite cloneJSON_id.
  assert (Hnames : names_or_all propertyNames (ensure_properties (schemaObject this))
                   = names).
  { subst names props. destruct propertyNames; simpl; [done|]. by rewrite Hps. }
  rewrite Hnames.
  rewrite (rewrite_fold_ext _ _ _ _ unwrap_step_rewrite).
  pose proof (rewrite_fold
    (fun _ v => ty ← type_member v;
                Ok (if is_str "array" ty then Some (item_alternative v) else None))
    names _ ps Hnd Hobj Hps) as Hfold.
  destruct (fold_left _ names _) as [s'|e]; cbn [mbind result_bind bind].
  - destruct Hfold as (Hok & Hfr' & Href & ps' & Hps' & Hget' & Hkeys').
    assert (Hnn : forall k, k ∈ names -> nullish (get k props) = false).
    { intros k Hk. specialize (Hok k Hk). rewrite Hget, type_member_spec in Hok.
      fold props in Hok. by destruct (nullish (get k props)). }
    split; [|split].
    + split.
      * unfold new_SchemaBuilder. by destruct (containsRef s').
      * intros (k & Hk & Hn). by rewrite Hnn in Hn.
    + intros Hr _. rewrite new_SchemaBuilder_ok; [done|].
      apply Href.
      * by apply containsRef_ensure_properties.
      * intros k v v' Hv. rewrite type_member_spec.
        destruct (nullish v); [done|]. cbn [mbind result_bind bind].
        destruct (is_str "array" _); [|done]. intros [= <-].
        pose proof (containsRef_get "items" v Hv) as Hi.
        unfold item_alternative.
        destruct (get "items" v) as [| | | | | |[|i [|j l]]|] eqn:Ei; simpl in *;
          rewrite ?Hv; try done.
        all: rewrite ?orb_false_r in *; try (by rewrite Hi; [|repeat constructor]).
    + intros d Hd. built_by Hd. split; [|split].
      * rewrite Hps'. simpl. rewrite Hkeys'; [done|].
        intros k Hk. specialize (Hnn k Hk). fold props in Hget. rewrite <- Hget in Hnn.
        simpl in *. by destruct (lookup_field k ps).
      * intros key Hk.
        rewrite (frame_get _ _ _ key Hfr') by (by apply not_properties).
        by rewrite (frame_get _ _ _ key Hfr) by (by apply not_properties).
      * intros k. rewrite Hps', Hget', Hget. fold props.
        destruct (bool_decide (k ∈ names)) eqn:Ek; [|done]. cbn [andb].
        rewrite type_member_spec. apply bool_decide_eq_true in Ek.
        rewrite (Hnn k Ek). cbn [mbind result_bind bind].
        by destruct (is_str "array" _).
  - destruct Hfold as (k & Hk & Hf). rewrite Hget, type_member_spec in Hf.
    fold props in Hf.
    destruct (nullish (get k props)) eqn:En; [|by cbn [mbind result_bind bind] in Hf].
    injection Hf as <-.
    split; [|split]; [|by intros _ H; rewrite (H k Hk) in En|done].
    split; [eauto|done].
Qed.

(** ** [toNullable] *)

Lemma nullable_step_rewrite required s k :
  nullable_step required s k
  = rewrite_step
      (fun k v =>
         if negb (includes_str k required) then
           match v with
           | VObj _ =>
               Ok (Some (if has_key "type" v then nullable_enum (nullable_type v)
                         else null_alternative v))
           | VBool _ | VArr _ | VDate _ => Ok (Some (null_alternative v))
           | _ => Throw (JSError "TypeError")
           end
         else Ok None) s k.
Proof.
  destruct s as [s0|e]; [|done]. unfold nullable_step, rewrite_step.
  cbn [mbind result_bind bind].
  destruct (negb _); [|done].
  destruct (get k (get "properties" s0)) eqn:E; try done.
  by destruct (has_key "type" (VObj fs)).
Qed.

Lemma is_obj_nullable_type v : is_obj v -> is_obj (nullable_type v).
Proof.
  intros Hv. unfold nullable_type.
  destruct (get "type" v); try done.
  - destruct (negb _); [by apply is_obj_set|done].
  - destruct (negb _); [by apply is_obj_set|done].
Qed.

Lemma nullable_type_frame v :
  is_obj v -> has_key "type" v = true ->
  keys (nullable_type v) = keys v
  /\ (forall key, key <> "type" -> get key (nullable_type v) = get key v)
  /\ (forall key, has_key key (nullable_type v) = has_key key v).
Proof.
  intros [fs ->] Hty.
  assert (H : forall w,
    keys (set "type" w (VObj fs)) = keys (VObj fs)
    /\ (forall key, key <> "type" -> get key (set "type" w (VObj fs)) = get key (VObj fs))
    /\ (forall key, has_key key (set "type" w (VObj fs)) = has_key key (VObj fs))).
  { intros w. split; [|split].
    - simpl. by apply keys_set_field_present, has_key_lookup.
    - intros key Hk. rewrite get_set. by rewrite (proj2 (string_eqb_false _ _) Hk).
    - intros key. simpl. rewrite lookup_set_field. case_eqb key "type"; [|done].
      subst. simpl in Hty. rewrite Hty. by apply bool_decide_eq_true. }
  unfold nullable_type. destruct (get "type" (VObj fs)); try done.
  - destruct (negb _); [apply H|done].
  - destruct (negb _); [apply H|done].
Qed.

Lemma nullable_type_types v :
  is_obj v ->
  is_array (get "type" v) || is_string (get "type" v) = true ->
  forall t, includes_str t (schemaType_of (nullable_type v))
            = includes_str t (schemaType_of v) || string_eqb t "null".
Proof.
  intros Hv Hty t. unfold nullable_type, schemaType_of.
  destruct (get "type" v) as [| | | |t0| |ts|] eqn:E; try done.
  - case_eqb t0 "null"; cbn [negb].
    + rewrite E. subst. simpl. rewrite (string_eqb_sym "null" t).
      by destruct (string_eqb t "null").
    + rewrite get_set_obj, string_eqb_refl by done. simpl.
      rewrite (string_eqb_sym "null" t). by rewrite !orb_false_r.
  - destruct (existsb (is_str "null") ts) eqn:En; cbn [negb].
    + rewrite E. simpl. case_eqb t "null"; [|by rewrite orb_false_r].
      subst. by rewrite En.
    + rewrite get_set_obj, string_eqb_refl by done. simpl.
      rewrite existsb_app. simpl. by rewrite (string_eqb_sym "null" t), orb_false_r.
Qed.

Lemma nullable_enum_frame v :
  is_obj v ->
  is_obj (nullable_enum v)
  /\ keys (nullable_enum v) = keys v
  /\ (forall key, key <> "enum" -> get key (nullable_enum v) = get key v)
  /\ (forall es, get "enum" v = VArr es ->
        exists es', get "enum" (nullable_enum v) = VArr es'
                    /\ forall x, x ∈ es' <-> x ∈ es \/ x = VNull).
Proof.
  intros [fs ->]. unfold nullable_enum.
  destruct (has_key "enum" (VObj fs)) eqn:Hk.
  2:{ split; [by eexists|]. split; [done|]. split; [done|].
      intros es He. simpl in *. destruct (lookup_field "enum" fs); [|done].
      by apply bool_decide_eq_false in Hk; destruct Hk. }
  destruct (get "enum" (VObj fs)) as [| | | | | |es|] eqn:E;
    try (split; [by eexists|]; split; [done|]; split; done).
  destruct (existsb is_null es) eqn:En; cbn [negb].
  - split; [by eexists|]. split; [done|]. split; [done|].
    intros es0 [= <-]. exists es. rewrite E. split; [done|].
    intros x. split; [by left|]. intros [?| ->]; [done|].
    apply existsb_exists in En as (y & Hy & Hn). destruct y; try done.
    by apply list_elem_of_In.
  - split; [by eexists|]. split; [|split].
    + simpl. by apply keys_set_field_present, has_key_lookup.
    + intros key Hkey. rewrite get_set. by rewrite (proj2 (string_eqb_false _ _) Hkey).
    + intros es0 [= <-]. exists (es ++ [VNull]).
      rewrite get_set, string_eqb_refl. split; [done|].
      intros x. rewrite elem_of_app, list_elem_of_singleton. done.
Qed.

(** X8.  [toNullable] on a simple object schema whose [enum]s are lists.  It
    raises a [TypeError] exactly when an optional property holds
    [undefined], [null], a number or a string.  Otherwise the required
    properties, the order of the properties and every other keyword are
    kept; an optional property without [type] becomes the choice
    between itself and [null]; an optional property with a [type] keeps
    its keywords but gains ["null"] among its types and [null] among
    the values of its [enum]. *)
Theorem toNullable_spec (this : SchemaBuilder) :
  isSimpleObjectSchema this = true ->
  well_typed (schemaObject this) = true ->
  let props := get "properties" (schemaObject this) in
  (forall k, enum_is_list (get k props) = true) ->
  let optional k := has_key k props && negb (requires k (schemaObject this)) in
  (toNullable this = Throw (JSError "TypeError")
   <-> exists k, optional k = true /\ primitive (get k props) = true)
  /\ (containsRef (schemaObject this) = false ->
      (forall k, optional k = true -> primitive (get k props) = false) ->
      is_ok (toNullable this) = true)
  /\ forall d, toNullable this = Ok d ->
       keys (get "properties" (schemaObject d)) = keys props
       /\ (forall key, key <> "properties" ->
             get key (schemaObject d) = get key (schemaObject this))
       /\ forall k,
            let v := get k props in
            let v' := get k (get "properties" (schemaObject d)) in
            (optional k = false -> v' = v)
            /\ (optional k = true -> has_key "type" v = false ->
                v' = null_alternative v)
            /\ (optional k = true -> has_key "type" v = true ->
                keys v' = keys v
                /\ (forall key, key <> "type" -> key <> "enum" ->
                      get key v' = get key v)
                /\ (is_array (get "type" v) || is_string (get "type" v) = true ->
                    forall t, includes_str t (schemaType_of v')
                              = includes_str t (schemaType_of v)
                                || string_eqb t "null")
                /\ (forall es, get "enum" v = VArr es ->
                      exists es', get "enum" v' = VArr es'
                                  /\ forall x, x ∈ es' <-> x ∈ es \/ x = VNull)).
Proof.
  intros Hsimple Hwt props Henum optional.
  pose proof (well_typed_spec _ Hwt) as (Hobj & Hp & Hreq).
  unfold toNullable. rewrite Hsimple. cbn [negb]. rewrite cloneJSON_id.
  set (required := por (get "required" (schemaObject this)) (VArr [])).
  assert (Hrq : forall k, includes_str k required = requires k (schemaObject this)).
  { intros k. unfold required, requires, por.
    by destruct (truthy (get "required" (schemaObject this))). }
  rewrite (rewrite_fold_ext _ _ _ _ (nullable_step_rewrite required)).
  set (f := fun (k : string) (v : value) => _).
  destruct Hp as [Hp|(ps & Hp & Hnd)].
  { (* no properties at all *)
    rewrite Hp. fold props in Hp. cbn [keys fold_left mbind result_bind bind].
    assert (Hopt : forall k, optional k = false).
    { intros k. unfold optional. by rewrite Hp. }
    split; [|split].
    - split.
      + unfold new_SchemaBuilder. by destruct (containsRef (schemaObject this)).
      + intros (k & Hk & _). by rewrite Hopt in Hk.
    - intros Hr _. by rewrite new_SchemaBuilder_ok.
    - intros d Hd. built_by Hd. fold props. rewrite Hp.
      split; [done|]. split; [done|]. intros k. cbv zeta.
      split; [done|]. split; intros Hk; by rewrite Hopt in Hk. }
  rewrite Hp. fold props in Hp. cbn [keys].
  pose proof (rewrite_fold f (map fst ps) (schemaObject this) ps Hnd Hobj Hp) as Hfold.
  assert (Hin : forall k, bool_decide (k ∈ map fst ps) = has_key k props).
  { intros k. rewrite Hp. simpl. apply bool_decide_ext.
    rewrite <- has_key_lookup. unfold has_key. rewrite bool_decide_eq_true.
    split.
    - intros ((k' & v) & -> & Hkv)%list_elem_of_fmap.
      simpl. clear -Hkv. induction ps as [|[k0 v0] ps IH]; [by apply elem_of_nil in Hkv|].
      simpl. case_eqb k' k0; [by eexists|].
      apply elem_of_cons in Hkv as [[= ? ?]|?]; [done|by apply IH].
    - intros [v Hv]. apply list_elem_of_fmap. exists (k, v). split; [done|].
      by apply lookup_field_Some_in. }
  assert (Hin' : forall k, has_key k props = true -> k ∈ map fst ps).
  { intros k H. rewrite <- Hin in H. by apply bool_decide_eq_true in H. }
  assert (Hf : forall k, k ∈ map fst ps ->
     f k (get k (VObj ps))
     = if optional k
       then (if primitive (get k props) then Throw (JSError "TypeError")
             else Ok (Some (if has_key "type" (get k props)
                            then nullable_enum (nullable_type (get k props))
                            else null_alternative (get k props))))
       else Ok None).
  { intros k Hk. unfold f, optional. rewrite Hrq, <- Hin, bool_decide_true by done.
    rewrite <- Hp. cbn [andb]. destruct (negb _); [|done].
    by destruct (get k props). }
  destruct (fold_left _ (map fst ps) _) as [s'|e]; cbn [mbind result_bind bind].
  - destruct Hfold as (Hok & Hfr & Href & ps' & Hps' & Hget & Hkeys).
    assert (Hnp : forall k, optional k = true -> primitive (get k props) = false).
    { intros k Hk. assert (Hk' : k ∈ map fst ps).
      { apply Hin'. unfold optional in Hk. by destruct (has_key k props). }
      specialize (Hok k Hk'). rewrite (Hf k Hk'), Hk in Hok.
      by destruct (primitive _). }
    split; [|split].
    + split.
      * unfold new_SchemaBuilder. by destruct (containsRef s').
      * intros (k & Hk & Hn). by rewrite Hnp in Hn.
    + intros Hr _. rewrite new_SchemaBuilder_ok; [done|].
      apply Href; [done|]. intros k v v' Hv. unfold f.
      destruct (negb _); [|done].
      assert (Hna : containsRef (null_alternative v) = false)
        by (simpl; by rewrite Hv).
      destruct v as [| | | | | | |fs]; try done; try (by intros [= <-]).
      destruct (has_key "type" (VObj fs)); [|by intros [= <-]].
      intros [= <-]. unfold nullable_enum, nullable_type.
      assert (Hty : forall w, containsRef (set "type" w (VObj fs)) = false).
      { intros w. apply containsRef_set; [done|done|].
        apply ref_free_entry_plain; by intros ?%(bool_decide_pack (_ ∈ _)). }
      set (v1 := match get "type" (VObj fs) with
                 | VArr ts => _ | VStr t => _ | _ => VObj fs end).
      assert (H1 : containsRef v1 = false).
      { subst v1. destruct (get "type" (VObj fs)); try done;
          destruct (negb _); done. }
      destruct (has_key "enum" v1); [|done].
      destruct (get "enum" v1); try done.
      destruct (negb _); [|done].
      apply containsRef_set; [done|done|].
      apply ref_free_entry_plain; by intros ?%(bool_decide_pack (_ ∈ _)).
    + intros d Hd. built_by Hd. split; [|split].
      * rewrite Hps', Hp. cbn [keys]. apply Hkeys.
        intros k Hk. rewrite <- Hp, <- Hin. by apply bool_decide_eq_true.
      * intros key Hk. by rewrite (frame_get _ _ _ key Hfr) by (by apply not_properties).
      * intros k. cbv zeta. rewrite Hps', Hget, Hin, <- Hp.
        destruct (has_key k props) eqn:Ek.
        2:{ unfold optional. rewrite Ek. by repeat split. }
        assert (Hk' : k ∈ map fst ps) by by apply Hin'.
        rewrite <- Hp in Hf. rewrite (Hf k Hk').
        destruct (optional k) eqn:Eo; [|by repeat split].
        rewrite (Hnp k Eo).
        split; [done|]. split.
        -- by intros _ ->.
        -- intros _ Hty. rewrite Hty.
           assert (Hv : is_obj (get k props)).
           { destruct (get k props); try done. by eexists. }
           destruct (nullable_type_frame _ Hv Hty) as (Hk1 & Hg1 & Hh1).
           pose proof (is_obj_nullable_type _ Hv) as Hv1.
           destruct (nullable_enum_frame _ Hv1) as (_ & Hk2 & Hg2 & He2).
           split; [by rewrite Hk2|]. split; [|split].
           ++ intros key H1 H2. by rewrite Hg2, Hg1.
           ++ intros Hat t. rewrite <- (nullable_type_types _ Hv Hat t).
              unfold schemaType_of. by rewrite Hg2.
           ++ intros es He. apply He2. by rewrite Hg1.
  - destruct Hfold as (k & Hk & Hfk). rewrite (Hf k Hk) in Hfk.
    destruct (optional k) eqn:Eo; [|done].
    destruct (primitive (get k props)) eqn:En; [|done].
    injection Hfk as <-.
    split; [|split]; [|by intros _ H; rewrite (H k Eo) in En|done].
    split; [eauto|done].
Qed.

(** ** [enumSchema] *)

Lemma note_type_spec types v :
  note_type types v
  = if bool_decide (js_typeof v ∈ enum_kinds) && negb (bool_decide (js_typeof v ∈ types))
    then types ++ [js_typeof v] else types.
Proof.
  unfold note_type. rewrite !existsb_string_eqb.
  by destruct v.
Qed.

Lemma note_types_spec vs : forall acc,
  NoDup acc ->
  NoDup (fold_left note_type vs acc)
  /\ forall t, t ∈ fold_left note_type vs acc
               <-> t ∈ acc \/ (t ∈ enum_kinds /\ exists v, v ∈ vs /\ js_typeof v = t).
Proof.
  induction vs as [|v vs IH]; intros acc Hnd; simpl.
  - split; [done|]. intros t. split; [by left|].
    intros [?|(_ & v & Hv & _)]; [done|]. by apply elem_of_nil in Hv.
  - rewrite note_type_spec.
    destruct (bool_decide (js_typeof v ∈ enum_kinds)) eqn:Ek; cbn [andb].
    + destruct (bool_decide (js_typeof v ∈ acc)) eqn:Ea; cbn [negb].
      * destruct (IH acc Hnd) as [H1 H2]. split; [done|].
        intros t. rewrite H2. apply bool_decide_eq_true in Ea.
        split.
        -- intros [?|(Ht & w & Hw & <-)]; [by left|].
           right. split; [done|]. exists w. split; [by right|done].
        -- intros [?|(Ht & w & [->|Hw]%elem_of_cons & <-)]; [by left|by left|].
           right. split; [done|]. by exists w.
      * apply bool_decide_eq_false in Ea. apply bool_decide_eq_true in Ek.
        assert (Hnd' : NoDup (acc ++ [js_typeof v])).
        { apply NoDup_app. split; [done|]. split; [|apply NoDup_singleton].
          intros x Hx ->%list_elem_of_singleton. done. }
        destruct (IH _ Hnd') as [H1 H2]. split; [done|].
        intros t. rewrite H2, elem_of_app, list_elem_of_singleton.
        split.
        -- intros [[?| ->]|(Ht & w & Hw & <-)]; [by left| |].
           ++ right. split; [done|]. exists v. split; [by left|done].
           ++ right. split; [done|]. exists w. split; [by right|done].
        -- intros [?|(Ht & w & [->|Hw]%elem_of_cons & <-)];
             [by left; left|by left; right|].
           right. split; [done|]. by exists w.
    + apply bool_decide_eq_false in Ek.
      destruct (IH acc Hnd) as [H1 H2]. split; [done|].
      intros t. rewrite H2. split.
      * intros [?|(Ht & w & Hw & <-)]; [by left|].
        right. split; [done|]. exists w. split; [by right|done].
      * intros [?|(Ht & w & [->|Hw]%elem_of_cons & <-)]; [by left|done|].
        right. split; [done|]. by exists w.
Qed.

(** X18.  [enumSchema(values, schema, nullable)].  The [type] it writes is a
    name alone, or a list without repetition, of: the kinds string,
    boolean and number found among the values, and ["null"] exactly
    when [nullable] is set, whether or not [null] is among the values.
    The [enum] holds the values, followed by [null] when [nullable] is
    set and [null] is not yet among them.  The other keywords are those
    of [schema]. *)
Theorem enumSchema_spec (values : value) (schema : value) (nullable : bool) :
  NoDup (keys schema) ->
  let valuesArray := match values with VArr xs => xs | _ => [values] end in
  (containsRef (spread (VObj []) schema) = false ->
   is_ok (enumSchema values schema nullable) = true)
  /\ forall d, enumSchema values schema nullable = Ok d ->
       (exists types,
          get "type" (schemaObject d)
          = match types with [t] => VStr t | _ => str_list types end
          /\ NoDup types
          /\ forall t, t ∈ types
                       <-> (t = "null" /\ nullable = true)
                           \/ (t ∈ enum_kinds
                               /\ exists v, v ∈ valuesArray /\ js_typeof v = t))
       /\ get "enum" (schemaObject d)
          = VArr (if nullable && negb (existsb is_null valuesArray)
                  then valuesArray ++ [VNull] else valuesArray)
       /\ forall key, key <> "type" -> key <> "enum" ->
            get key (schemaObject d) = get key schema.
Proof.
  intros Hnd valuesArray. unfold enumSchema. rewrite cloneJSON_id.
  fold valuesArray.
  destruct (spread_is_obj (VObj []) schema) as [fs Hfs].
  set (types0 := fold_left note_type valuesArray []).
  set (types := if nullable then types0 ++ ["null"] else types0).
  set (ty := match types with [t] => VStr t | _ => str_list types end).
  set (en := VArr _).
  destruct (note_types_spec valuesArray [] (NoDup_nil_2)) as [Hnd0 Hin0].
  fold types0 in Hnd0, Hin0.
  split.
  - intros Hr. rewrite new_SchemaBuilder_ok; [done|].
    apply containsRef_set; [done| |].
    + apply containsRef_set; [done|done|].
      apply ref_free_entry_plain; by intros ?%(bool_decide_pack (_ ∈ _)).
    + apply ref_free_entry_plain; by intros ?%(bool_decide_pack (_ ∈ _)).
  - intros d Hd. built_by Hd. rewrite Hfs. split; [|split].
    + exists types. split; [|split].
      * by rewrite !get_set_obj by (repeat apply is_obj_set; by eexists).
      * subst types. destruct nullable; [|done].
        apply NoDup_app. split; [done|]. split; [|apply NoDup_singleton].
        intros x Hx ->%list_elem_of_singleton.
        apply Hin0 in Hx as [Hx|(Hx & _)]; [by apply elem_of_nil in Hx|].
        by apply (bool_decide_pack (_ ∈ _)) in Hx.
      * intros t. subst types. destruct nullable.
        -- rewrite elem_of_app, list_elem_of_singleton, Hin0.
           split.
           ++ intros [[Hx|?]| ->]; [by apply elem_of_nil in Hx|by right|by left].
           ++ intros [[-> _]|?]; [by right|left; by right].
        -- rewrite Hin0. split.
           ++ intros [Hx|?]; [by apply elem_of_nil in Hx|by right].
           ++ intros [[_ ?]|?]; [done|by right].
    + by rewrite get_set_obj, string_eqb_refl by (repeat apply is_obj_set; by eexists).
    + intros key H1 H2. rewrite !get_set_obj by (repeat apply is_obj_set; by eexists).
      rewrite (proj2 (string_eqb_false _ _) H1), (proj2 (string_eqb_false _ _) H2).
      rewrite <- Hfs. by apply spread_empty_lookup.
Qed.

(** ** Reading a sub-document back *)

(** X19.  [getSubschema] gives back what [addProperty] stored, without the
    validation configuration of the document; the properties the
    document had are read as before.  A document that is not a simple
    object schema has no sub-document to give. *)
Theorem getSubschema_after_addProperty (propertyName : string)
    (schemaBuilder : SchemaBuilder) (isRequired : option bool)
    (this d : SchemaBuilder) :
  well_typed (schemaObject this) = true ->
  addProperty propertyName schemaBuilder isRequired this = Ok d ->
  (isSimpleObjectSchema this = true ->
   getSubschema propertyName d = Ok (fresh (schemaObject schemaBuilder) VUndefined)
   /\ forall k, k <> propertyName ->
        has_key k (get "properties" (schemaObject this)) = true ->
        getSubschema k d = getSubschema k this)
  /\ (isSimpleObjectSchema this = false ->
      forall k, is_shape_error (getSubschema k d) = true).
Proof.
  intros Hwt Hadd. pose proof (well_typed_spec _ Hwt) as Hty.
  destruct (ensure_properties_typed _ Hty)
    as (fs & ps & Hens & Hprops & Hnd & Hkeys & Hget & Hhas & Hother).
  pose proof Hty as (Hobj & _ & _).
  revert Hadd. unfold addProperty. rewrite !cloneJSON_id.
  destruct (isObjectSchema this) eqn:Eobj; [|done]. cbn [negb].
  destruct (has_key propertyName _) eqn:Efresh; [done|].
  change (set "properties"
            (set propertyName (schemaObject schemaBuilder)
               (get "properties" (ensure_properties (schemaObject this))))
            (ensure_properties (schemaObject this)))
    with (set_property propertyName (schemaObject schemaBuilder)
            (ensure_properties (schemaObject this))).
  set (s1 := set_property propertyName (schemaObject schemaBuilder)
               (ensure_properties (schemaObject this))).
  set (s2 := match isRequired with
             | Some true | None => push_required propertyName s1
             | Some false => s1
             end).
  intros Hd.
  assert (Hfr : frame pr (schemaObject this) s2).
  { eapply frame_trans; [by apply frame_ensure_properties|].
    eapply frame_trans; [apply frame_set_property; by apply is_obj_set|].
    subst s2. assert (is_obj s1) by (apply is_obj_set; by apply is_obj_set).
    destruct isRequired as [[]|]; [by apply frame_push_required|by apply frame_refl|
                                     by apply frame_push_required]. }
  assert (Hobj1 : is_obj s1) by (apply is_obj_set; by apply is_obj_set).
  assert (Hp2 : get "properties" s2
                = VObj (set_field propertyName (schemaObject schemaBuilder) ps)).
  { assert (get "properties" s1
            = VObj (set_field propertyName (schemaObject schemaBuilder) ps)) as <-.
    { subst s1. apply get_properties_set_property; [by apply is_obj_set|].
      by rewrite Hens, Hprops. }
    subst s2. destruct isRequired as [[]|]; try done; by rewrite get_push_required_obj. }
  apply new_SchemaBuilder_inv in Hd as (Hd & Hcfg & Hr & _).
  assert (Hsimple : isSimpleObjectSchema d = isSimpleObjectSchema this).
  { destruct Hfr as (_ & H2 & H3 & _).
    pose proof (has_key_properties_of _ _ H2 Hp2) as Hhp.
    unfold isSimpleObjectSchema, hasAdditionalProperties,
      hasSchemasCombinationKeywords, isObjectSchema, hasType in *.
    rewrite Hd, Hhp.
    destruct (H3 "type") as [-> ->]; [by apply not_in_pr|].
    destruct (H3 "additionalProperties") as [-> _]; [by apply not_in_pr|].
    destruct (H3 "oneOf") as [_ ->]; [by apply not_in_pr|].
    destruct (H3 "allOf") as [_ ->]; [by apply not_in_pr|].
    destruct (H3 "anyOf") as [_ ->]; [by apply not_in_pr|].
    destruct (H3 "not") as [_ ->]; [by apply not_in_pr|].
    set (A := if is_array (get "type" (schemaObject this)) then _ else _) in *.
    revert Eobj.
    destruct A, (has_key "type" (schemaObject this)),
      (has_key "properties" (schemaObject this)); simpl; done. }
  split.
  - intros Hs. rewrite Hs in Hsimple. split.
    + unfold getSubschema. rewrite Hsimple, Hd, Hp2. cbn [negb orb truthy].
      destruct Hfr as (_ & [gs Hgs] & _). rewrite Hgs. cbn [truthy is_boolean negb orb].
      assert (Hsub : get propertyName
                       (VObj (set_field propertyName (schemaObject schemaBuilder) ps))
                     = schemaObject schemaBuilder)
        by (simpl; by rewrite lookup_set_field, string_eqb_refl).
      rewrite Hsub. apply new_SchemaBuilder_ok.
      rewrite <- Hsub, <- Hp2. by apply ref_free_property.
    + intros k Hk Hkp. unfold getSubschema. rewrite Hsimple, Hs, Hd, Hp2.
      destruct Hfr as (_ & [gs Hgs] & _). rewrite Hgs.
      destruct Hobj as [hs Hhs]. rewrite Hhs.
      cbn [negb orb truthy is_boolean]. rewrite <- Hhs.
      assert (Htp : truthy (get "properties" (schemaObject this)) = true).
      { destruct (get "properties" (schemaObject this)); done. }
      rewrite Htp. cbn [negb]. f_equal. simpl. rewrite lookup_set_field.
      rewrite (proj2 (string_eqb_false _ _) Hk). by rewrite <- Hget.
  - intros Hs k. unfold getSubschema. by rewrite Hsimple, Hs.
Qed.

(** ** Invalid dates *)

Lemma transformListForValidation_outcome xs :
  Forall (fun v => if has_invalid_date v
                   then transformDatesForValidation v = Throw (JSError "RangeError")
                   else exists w, transformDatesForValidation v = Ok w) xs ->
  if existsb has_invalid_date xs
  then transformListForValidation xs = Throw (JSError "RangeError")
  else exists ws, transformListForValidation xs = Ok ws.
Proof.
  induction 1 as [|x xs Hx _ IH]; simpl; [eauto|].
  destruct (has_invalid_date x); simpl.
  - by rewrite Hx.
  - destruct Hx as [w ->]. cbn [mbind result_bind bind].
    destruct (existsb has_invalid_date xs).
    + by rewrite IH.
    + destruct IH as [ws ->]. simpl. eauto.
Qed.

Lemma transformDatesForValidation_outcome v :
  if has_invalid_date v
  then transformDatesForValidation v = Throw (JSError "RangeError")
  else exists w, transformDatesForValidation v = Ok w.
Proof.
  induction v as [| |?|?|?|t|xs IH|fs IH] using value_rect'; try (simpl; eauto; fail).
  - destruct t as [z|]; [|done]. cbn [has_invalid_date is_invalid_date].
    cbn [transformDatesForValidation]. unfold toISOString.
    destruct (civil_from_days (z / msPerDay)) as [[y m] d].
    cbn [mbind result_bind bind]. eauto.
  - rewrite transformDatesForValidation_arr. cbn [has_invalid_date].
    pose proof (transformListForValidation_outcome xs IH) as H.
    destruct (existsb has_invalid_date xs).
    + by rewrite H.
    + destruct H as [ws ->]. simpl. eauto.
  - rewrite transformDatesForValidation_obj. cbn [has_invalid_date].
    assert (H : if existsb (fun kv => has_invalid_date (snd kv)) fs
                then transformFieldsForValidation fs = Throw (JSError "RangeError")
                else exists gs, transformFieldsForValidation fs = Ok gs).
    { induction IH as [|[k x] fs Hx _ IHfs]; simpl; [eauto|].
      simpl in Hx. destruct (has_invalid_date x); simpl.
      - by rewrite Hx.
      - destruct Hx as [w ->]. cbn [mbind result_bind bind].
        destruct (existsb _ fs).
        + by rewrite IHfs.
        + destruct IHfs as [gs ->]. simpl. eauto. }
    destruct (existsb _ fs).
    + by rewrite H.
    + destruct H as [gs ->]. simpl. eauto.
Qed.

Lemma run_validation_cached compile g this w :
  ok_or_validation_error
    (run_validation (validationFunction (fst (cacheValidationFunction compile g this))) w)
  = true.
Proof.
  destruct (cacheValidationFunction_current compile g this) as [Hf _].
  destruct (validationFunction _) as [f|]; [|done]. simpl.
  by destruct (f w).
Qed.

Lemma cacheListValidationFunction_current compile g this :
  listValidationFunction (fst (cacheListValidationFunction compile g this)) <> None
  /\ localListValidationFunctionVersionNumber
       (fst (cacheListValidationFunction compile g this))
     = globalAJVConfigVersionNumber g.
Proof.
  unfold cacheListValidationFunction.
  destruct (listValidationFunction this) eqn:E; simpl.
  - destruct (N.eqb_spec (localListValidationFunctionVersionNumber this)
                (globalAJVConfigVersionNumber g)); simpl; [by rewrite E|done].
  - done.
Qed.

(** X21.  [validate] and [validateList] on data that holds an invalid date
    raise a [RangeError] before anything is compiled, and leave the
    instance as it was.  On any other data [validate] returns or raises
    a validation error, and so does [validateList] on a list. *)
Theorem validate_invalid_date (compile : Ajv -> value -> ValidateFunction)
    (g : Global) (o : value) (items : list value) (this : SchemaBuilder) :
  (has_invalid_date o = true ->
   validate compile g o this
   = {| self := this; compilations := []; returned := Throw (JSError "RangeError") |})
  /\ (has_invalid_date o = false ->
      ok_or_validation_error (returned (validate compile g o this)) = true)
  /\ (existsb has_invalid_date items = true ->
      validateList compile g (VArr items) this
      = {| self := this; compilations := [];
           returned := Throw (JSError "RangeError") |})
  /\ (existsb has_invalid_date items = false ->
      ok_or_validation_error (returned (validateList compile g (VArr items) this))
      = true).
Proof.
  pose proof (transformDatesForValidation_outcome o) as Ho.
  pose proof (transformDatesForValidation_outcome (VArr items)) as Hl.
  rewrite transformDatesForValidation_arr in Hl. cbn [has_invalid_date] in Hl.
  split; [|split; [|split]].
  - intros E. rewrite E in Ho. unfold validate. by rewrite Ho.
  - intros E. rewrite E in Ho. destruct Ho as [w Hw]. unfold validate. rewrite Hw.
    rewrite (surjective_pairing (cacheValidationFunction compile g this)).
    apply run_validation_cached.
  - intros E. rewrite E in Hl. unfold validateList.
    destruct (transformListForValidation items) as [ws|e];
      cbn [mbind result_bind bind] in Hl; [done|]. by injection Hl as ->.
  - intros E. rewrite E in Hl. destruct Hl as [w Hw]. unfold validateList.
    destruct (transformListForValidation items) as [ws|]; [|done].
    rewrite (surjective_pairing (cacheListValidationFunction compile g this)).
    cbn [returned].
    destruct (cacheListValidationFunction_current compile g this) as [Hf _].
    destruct (listValidationFunction _) as [f|]; [|done]. simpl.
    unfold ok_or_validation_error. by destruct (f (VArr ws)).
Qed.

(** X22.  [parse] raises nothing but a validation error, except on
    [undefined], which has no JSON text: there it raises a
    [SyntaxError] and compiles nothing.  An invalid date in the data
    does not make [parse] raise, as it makes [validate]: the copy holds
    [null] in its place. *)
Theorem parse_raises_validation_errors_only
    (compile : Ajv -> value -> ValidateFunction)
    (g : Global) (data : value) (this : SchemaBuilder) :
  match data with
  | VUndefined =>
      parse compile g data this
      = {| self := this; compilations := [];
           returned := Throw (JSError "SyntaxError") |}
  | _ => ok_or_validation_error (returned (parse compile g data this)) = true
  end.
Proof.
  assert (H : forall copy, json_of data = Some copy ->
            ok_or_validation_error (returned (parse compile g data this)) = true).
  { intros copy E. unfold parse, json_copy. rewrite E. cbn [returned].
    pose proof (transformStringToNumber_no_dates copy (schemaObject this)) as Hnd.
    unfold validate. rewrite (transformDatesForValidation_no_dates _ Hnd).
    rewrite (surjective_pairing (cacheValidationFunction compile g this)).
    cbn [returned].
    pose proof (run_validation_cached compile g this
                  (transformStringToNumber copy (schemaObject this))) as H.
    unfold ok_or_validation_error in *.
    by destruct (run_validation _ _) as [[]|[]]. }
  destruct data; try done; by eapply H.
Qed.

(** ** The coercion passes applied twice *)

Lemma map_fields_keys (f : string -> value -> value) fs :
  map fst (map (fun kv => (fst kv, f (fst kv) (snd kv))) fs) = map fst fs.
Proof. induction fs as [|[k v] fs IH]; simpl; [done|]. by rewrite IH. Qed.

(** X23.  Each of the two coercion passes of [parse] changes nothing when it
    is applied to its own result under the same schema. *)
Theorem coercion_passes_idempotent (data schema : value) :
  transformStringToNumber (transformStringToNumber data schema) schema
  = transformStringToNumber data schema
  /\ transformISOStringsToDate (transformISOStringsToDate data schema) schema
     = transformISOStringsToDate data schema.
Proof.
  split.
  - revert schema.
    induction data as [| |?|?|s|?|xs IH|fs IH] using value_rect'; intros schema;
      try done.
    + cbn [transformStringToNumber].
      destruct (truthy schema) eqn:Et; [|by cbn [transformStringToNumber]; rewrite Et].
      destruct (isNumberField schema) eqn:En;
        [|by cbn [transformStringToNumber]; rewrite Et, En].
      destruct (negb (is_nan (Number s))) eqn:Enan; [done|].
      cbn [transformStringToNumber]. by rewrite Et, En, Enan.
    + cbn [transformStringToNumber]. f_equal. rewrite map_map.
      induction IH as [|x xs Hx _ IHxs]; [done|]. simpl. by rewrite Hx, IHxs.
    + cbn [transformStringToNumber]. f_equal. rewrite map_map.
      induction IH as [|[k x] fs Hx _ IHfs]; [done|]. simpl in *.
      by rewrite Hx, IHfs.
  - revert schema.
    induction data as [| |?|?|s|?|xs IH|fs IH] using value_rect'; intros schema;
      try done.
    + cbn [transformISOStringsToDate].
      destruct (isDateTimeField schema || isIsoDateString s) eqn:Ed;
        [|by cbn [transformISOStringsToDate]; rewrite Ed].
      destruct (negb (is_invalid_date (Date_parse s))) eqn:Ei; [done|].
      cbn [transformISOStringsToDate]. by rewrite Ed, Ei.
    + cbn [transformISOStringsToDate]. f_equal. rewrite map_map.
      induction IH as [|x xs Hx _ IHxs]; [done|]. simpl. by rewrite Hx, IHxs.
    + cbn [transformISOStringsToDate]. f_equal. rewrite map_map.
      induction IH as [|[k x] fs Hx _ IHfs]; [done|]. simpl in *.
      by rewrite Hx, IHfs.
Qed.

(** ** Dates found without a format *)



(** ** The two caches *)

Lemma cacheListValidationFunction_reuses compile g this :
  listValidationFunction this <> None ->
  localListValidationFunctionVersionNumber this = globalAJVConfigVersionNumber g ->
  cacheListValidationFunction compile g this = (this, []).
Proof.
  intros Hf Hv. unfold cacheListValidationFunction.
  rewrite Hv, N.eqb_refl.
  destruct (listValidationFunction this); [done|congruence].
Qed.

Lemma cacheListValidationFunction_keeps compile g this :
  validationFunction (fst (cacheListValidationFunction compile g this))
  = validationFunction this
  /\ localValidationFunctionVersionNumber
       (fst (cacheListValidationFunction compile g this))
     = localValidationFunctionVersionNumber this.
Proof. unfold cacheListValidationFunction. by destruct (_ || _). Qed.

Lemma cacheValidationFunction_keeps compile g this :
  listValidationFunction (fst (cacheValidationFunction compile g this))
  = listValidationFunction this
  /\ localListValidationFunctionVersionNumber
       (fst (cacheValidationFunction compile g this))
     = localListValidationFunctionVersionNumber this
  /\ schemaObject (fst (cacheValidationFunction compile g this)) = schemaObject this
  /\ validationConfig (fst (cacheValidationFunction compile g this))
     = validationConfig this.
Proof. unfold cacheValidationFunction. by destruct (_ || _). Qed.

(** X25.  The validator of single objects and the validator of lists are
    cached apart.  On a document whose list validator was never built,
    a [validateList] that follows a [validate] still compiles, once: the
    list schema, on an engine of its own that knows the document as
    ["schema"].  After the two calls neither [validate] nor
    [validateList] compiles again, nor changes the instance, as long as
    the global configuration stays. *)
Theorem validator_caches_are_independent
    (compile : Ajv -> value -> ValidateFunction) (g : Global)
    (o : value) (items : list value) (this : SchemaBuilder) :
  has_invalid_date o = false ->
  existsb has_invalid_date items = false ->
  let d1 := self (validate compile g o this) in
  let d2 := self (validateList compile g (VArr items) d1) in
  (listValidationFunction this = None ->
   compilations (validateList compile g (VArr items) d1)
   = [{| compiled_on :=
           ajv_call (AddSchema (schemaObject this) "schema")
             (ajv_call AddFormats (new_Ajv (ajvValidationConfig g this)));
         compiled_schema := listSchema |}])
  /\ (forall o', compilations (validate compile g o' d2) = []
                 /\ self (validate compile g o' d2) = d2)
  /\ (forall l', compilations (validateList compile g l' d2) = []
                 /\ self (validateList compile g l' d2) = d2).
Proof.
  intros Ho Hl d1 d2.
  pose proof (transformDatesForValidation_outcome o) as Hto. rewrite Ho in Hto.
  destruct Hto as [w Hw].
  pose proof (transformDatesForValidation_outcome (VArr items)) as Htl.
  rewrite transformDatesForValidation_arr in Htl. cbn [has_invalid_date] in Htl.
  rewrite Hl in Htl. destruct Htl as [ws' Hws].
  destruct (transformListForValidation items) as [ws|] eqn:Ews; [|done]. clear Hws.
  assert (Hd1 : d1 = fst (cacheValidationFunction compile g this)).
  { subst d1. unfold validate. rewrite Hw.
    by rewrite (surjective_pairing (cacheValidationFunction compile g this)). }
  assert (Hd2 : d2 = fst (cacheListValidationFunction compile g d1)).
  { subst d2. unfold validateList. rewrite Ews.
    by rewrite (surjective_pairing (cacheListValidationFunction compile g d1)). }
  destruct (cacheValidationFunction_current compile g this) as [Hf1 Hv1].
  destruct (cacheValidationFunction_keeps compile g this) as (Hk1 & Hk2 & Hk3 & Hk4).
  rewrite <- Hd1 in Hf1, Hv1, Hk1, Hk2, Hk3, Hk4.
  destruct (cacheListValidationFunction_current compile g d1) as [Hf2 Hv2].
  destruct (cacheListValidationFunction_keeps compile g d1) as [Hk5 Hk6].
  rewrite <- Hd2 in Hf2, Hv2, Hk5, Hk6.
  split; [|split].
  - intros Hnone. unfold validateList. rewrite Ews.
    unfold cacheListValidationFunction, ajvValidationConfig.
    by rewrite Hk1, Hnone, Hk3, Hk4.
  - intros o'. unfold validate. destruct (transformDatesForValidation o'); [|done].
    rewrite cacheValidationFunction_reuses; [done| |]; congruence.
  - intros l'. unfold validateList. destruct l'; try done.
    destruct (transformListForValidation xs); [|done].
    by rewrite cacheListValidationFunction_reuses.
Qed.

Lemma validator_caches_witness :
  compilations
    (validateList refCompile initialGlobal (VArr [VObj [("s", VStr "a")]])
       (self (validate refCompile initialGlobal (VObj [("s", VStr "a")])
                (fresh object_s_schema VUndefined))))
  = [{| compiled_on :=
          ajv_call (AddSchema object_s_schema "schema")
            (ajv_call AddFormats
               (new_Ajv (ajvValidationConfig initialGlobal
                           (fresh object_s_schema VUndefined))));
        compiled_schema := listSchema |}].
Proof.
  exact (proj1 (validator_caches_are_independent refCompile initialGlobal
                  (VObj [("s", VStr "a")]) [VObj [("s", VStr "a")]]
                  (fresh object_s_schema VUndefined) eq_refl eq_refl) eq_refl).
Defined.

(** ** Reading the items back *)

(** X20.  [getItemsSubschema] gives back the items [arraySchema] was built
    from, where they are an object or [true]; it raises where they are
    [false]. *)
Theorem getItemsSubschema_after_arraySchema (items : SchemaBuilder) (schema : value)
    (nullable : bool) (d : SchemaBuilder) :
  arraySchema items schema nullable = Ok d ->
  getItemsSubschema d
  = if truthy (schemaObject items) && negb (is_array (schemaObject items))
    then Ok (fresh (schemaObject items) VUndefined)
    else Throw (ShapeError
      "Schema Builder Error: 'getItemsSubschema' can only be used with an array schema with non-array items").
Proof.
  unfold arraySchema. rewrite !cloneJSON_id.
  destruct (spread_is_obj (VObj []) schema) as [fs Hfs]. rewrite Hfs.
  intros (Hd & _ & Hr & _)%new_SchemaBuilder_inv.
  assert (Hitems : get "items" (schemaObject d) = schemaObject items).
  { rewrite Hd. by rewrite get_set_obj, string_eqb_refl by (apply is_obj_set; by eexists). }
  assert (Hty : get "type" (schemaObject d) = type_of "array" nullable).
  { rewrite Hd. rewrite get_set_obj by (apply is_obj_set; by eexists).
    by rewrite get_set, string_eqb_refl. }
  assert (Harr : isArraySchema d = true).
  { unfold isArraySchema, hasType. rewrite Hty. by destruct nullable. }
  assert (Ht : truthy (schemaObject d) = true) by by rewrite Hd.
  unfold getItemsSubschema. rewrite Harr, Ht, Hitems. cbn [negb orb].
  destruct (truthy (schemaObject items)); cbn [negb orb andb]; [|done].
  destruct (is_array (schemaObject items)); cbn [negb]; [done|].
  apply new_SchemaBuilder_ok. rewrite <- Hitems.
  apply containsRef_get; [by rewrite Hd|]. by apply (bool_decide_unpack _).
Qed.

(** ** [replaceProperty] *)

(** X4.  [replaceProperty(name, resolver, isRequired)] on an object schema,
    where the resolver gives the builder [b] and [name] is neither a name
    of [Object.prototype] nor written with digits only.  The property
    [name] holds the schema of [b], in the place it had or, if it is new,
    after the others; the other properties and keywords are kept.  [name] is taken
    out of the [required] list and put back at its end when
    [isRequired] is not [false]; a list emptied that way stays, empty.
    On a document that is not an object schema it raises. *)
Theorem replaceProperty_spec (propertyName : string) (schemaBuilderResolver : Resolver)
    (isRequired : option bool) (this b : SchemaBuilder) :
  well_typed (schemaObject this) = true ->
  plain_name propertyName = true ->
  resolve propertyName schemaBuilderResolver this = Ok b ->
  let props := get "properties" (schemaObject this) in
  let again := if required_flag isRequired then [VStr propertyName] else [] in
  is_shape_error (replaceProperty propertyName schemaBuilderResolver isRequired this)
  = negb (isObjectSchema this)
  /\ (isObjectSchema this = true ->
      containsRef (schemaObject this) = false ->
      containsRef (schemaObject b) = false ->
      is_ok (replaceProperty propertyName schemaBuilderResolver isRequired this) = true)
  /\ forall d,
       replaceProperty propertyName schemaBuilderResolver isRequired this = Ok d ->
       property_names d
       = (if has_key propertyName props then property_names this
          else property_names this ++ [propertyName])
       /\ (forall k, get k (get "properties" (schemaObject d))
                     = if string_eqb k propertyName then schemaObject b
                       else get k props)
       /\ (forall xs, get "required" (schemaObject this) = VArr xs ->
             get "required" (schemaObject d)
             = VArr (filter (fun p => negb (is_str propertyName p) = true) xs ++ again))
       /\ (get "required" (schemaObject this) = VUndefined ->
           get "required" (schemaObject d)
           = if required_flag isRequired then VArr again else VUndefined)
       /\ (forall key, key <> "properties" -> key <> "required" ->
             get key (schemaObject d) = get key (schemaObject this))
       /\ validationConfig d = validationConfig this.
Proof.
  intros Hwt _ Hres props again. pose proof (well_typed_spec _ Hwt) as Hty.
  destruct (ensure_properties_typed _ Hty)
    as (fs & ps & Hens & Hprops & Hnd & Hkeys & Hget & Hhas & Hother).
  pose proof Hty as (Hobj & _ & Hreq).
  unfold replaceProperty. rewrite !cloneJSON_id.
  fold (resolve propertyName schemaBuilderResolver this). rewrite Hres.
  cbn [mbind result_bind bind]. rewrite !cloneJSON_id.
  set (s0 := ensure_properties (schemaObject this)).
  set (s1 := if truthy (get "required" s0) then _ else s0).
  change (set "properties" (set propertyName (schemaObject b) (get "properties" s1)) s1)
    with (set_property propertyName (schemaObject b) s1).
  set (s2 := set_property propertyName (schemaObject b) s1).
  set (s3 := match isRequired with
             | Some true | None => push_required propertyName s2
             | Some false => s2
             end).
  assert (Hobj0 : is_obj s0) by (subst s0; rewrite Hens; by eexists).
  assert (Hreq0 : get "required" s0 = get "required" (schemaObject this)).
  { subst s0. rewrite Hens. by apply Hother. }
  assert (Hobj1 : is_obj s1).
  { subst s1. destruct (truthy _); [by apply is_obj_set|done]. }
  assert (Hp1 : get "properties" s1 = VObj ps).
  { subst s1. destruct (truthy _).
    - rewrite get_set_obj by done. simpl. subst s0. by rewrite Hens.
    - subst s0. by rewrite Hens. }
  assert (Hr1 : get "required" s1
                = match get "required" (schemaObject this) with
                  | VArr xs => VArr (filter (fun p => negb (is_str propertyName p) = true) xs)
                  | r => r
                  end).
  { subst s1. rewrite Hreq0.
    destruct Hreq as [Hu|[xs Hxs]].
    - rewrite Hu. cbn [truthy]. by rewrite Hreq0.
    - rewrite Hxs. cbn [truthy]. by rewrite get_set_obj, string_eqb_refl. }
  assert (Ho1 : forall key, key <> "properties" -> key <> "required" ->
                            get key s1 = get key (schemaObject this)).
  { intros key H1 H2. subst s1. destruct (truthy _).
    - rewrite get_set_obj, (proj2 (string_eqb_false _ _) H2) by done.
      subst s0. rewrite Hens. by apply Hother.
    - subst s0. rewrite Hens. by apply Hother. }
  assert (Hobj2 : is_obj s2) by by apply is_obj_set.
  assert (Hp2 : get "properties" s2 = VObj (set_field propertyName (schemaObject b) ps))
    by by apply get_properties_set_property.
  assert (Hr2 : get "required" s2 = get "required" s1).
  { subst s2. unfold set_property. by rewrite get_set_obj. }
  assert (Ho2 : forall key, key <> "properties" -> key <> "required" ->
                            get key s2 = get key (schemaObject this)).
  { intros key H1 H2. subst s2. unfold set_property.
    rewrite get_set_obj, (proj2 (string_eqb_false _ _) H1) by done. by apply Ho1. }
  assert (Hp3 : get "properties" s3 = get "properties" s2).
  { subst s3. destruct isRequired as [[]|]; try done; by rewrite get_push_required_obj. }
  assert (Ho3 : forall key, key <> "properties" -> key <> "required" ->
                            get key s3 = get key (schemaObject this)).
  { intros key H1 H2. rewrite <- Ho2 by done.
    subst s3. destruct isRequired as [[]|]; try done; by rewrite get_push_required_obj. }
  assert (Hr3 : get "required" s3
                = if required_flag isRequired
                  then arr_push (VStr propertyName) (por (get "required" s2) (VArr []))
                  else get "required" s2).
  { subst s3. unfold push_required.
    destruct isRequired as [[]|]; simpl; try done;
      by rewrite get_set_obj, string_eqb_refl. }
  split; [|split].
  - destruct (isObjectSchema this); [|done].
    cbn [negb]. apply new_SchemaBuilder_not_shape_error.
  - intros -> Href Hrefb. cbn [negb]. rewrite new_SchemaBuilder_ok; [done|].
    assert (Hc0 : containsRef s0 = false) by by apply containsRef_ensure_properties.
    assert (Hc1 : containsRef s1 = false).
    { subst s1. destruct (truthy _); [|done].
      apply containsRef_set; [done|done|].
      apply ref_free_entry_plain; by intros ?%(bool_decide_pack (_ ∈ _)). }
    assert (Hc2 : containsRef s2 = false) by by apply containsRef_set_property.
    subst s3. destruct isRequired as [[]|]; try done;
      by apply containsRef_push_required.
  - intros d. destruct (isObjectSchema this); [|done]. cbn [negb].
    intros (Hd & Hcfg & _)%new_SchemaBuilder_inv. rewrite Hd.
    split; [|split; [|split; [|split; [|split]]]]; try done.
    + unfold property_names. rewrite Hd, Hp3, Hp2. subst props.
      rewrite <- Hhas, Hkeys. simpl.
      destruct (lookup_field propertyName ps) eqn:El.
      * rewrite bool_decide_true by eauto.
        apply keys_set_field_present. eauto.
      * rewrite bool_decide_false by (by intros [? ?]).
        by apply keys_set_field_fresh.
    + intros k. rewrite Hp3, Hp2. subst props. rewrite <- Hget. simpl.
      rewrite lookup_set_field. by destruct (string_eqb k propertyName).
    + intros xs Hxs. rewrite Hr3, Hr2, Hr1, Hxs. subst again.
      destruct (required_flag isRequired); [done|]. by rewrite app_nil_r.
    + intros Hu. rewrite Hr3, Hr2, Hr1, Hu. subst again.
      by destruct (required_flag isRequired).
Qed.

Lemma replaceProperty_witness :
  exists d,
    replaceProperty "s" (ResolveTo (fresh integer_schema VUndefined)) (Some false)
      (fresh object_s_schema VUndefined) = Ok d
    /\ property_names d = ["s"]
    /\ get "s" (get "properties" (schemaObject d)) = integer_schema
    /\ get "required" (schemaObject d) = VArr [].
Proof.
  destruct (replaceProperty_spec "s" (ResolveTo (fresh integer_schema VUndefined))
              (Some false) (fresh object_s_schema VUndefined)
              (fresh integer_schema VUndefined) eq_refl eq_refl eq_refl)
    as (_ & Hok & Hd).
  specialize (Hok eq_refl eq_refl eq_refl).
  destruct (replaceProperty _ _ _ _) as [d|] eqn:E; [|done].
  exists d. destruct (Hd d eq_refl) as (Hn & Hg & Hr & _).
  split; [done|]. split; [exact Hn|]. split; [exact (Hg "s")|].
  exact (Hr [VStr "s"] eq_refl).
Defined.

(** ** [transformProperties] *)

Lemma transform_step_rewrite (b : value) s k :
  (s0 ← s;
   Ok (set_property k (VObj [("oneOf", VArr [get k (get "properties" s0); b])]) s0))
  = rewrite_step (fun _ v => Ok (Some (VObj [("oneOf", VArr [v; b])]))) s k.
Proof. by destruct s. Qed.

Lemma fold_result_lift {A} (step : value -> A -> value) (l : list A) s :
  Ok (fold_left step l s)
  = fold_left (fun (r : result value) x => s0 ← r; Ok (step s0 x)) l (Ok s).
Proof. revert s. induction l as [|x l IH]; intros s; simpl; [done|]. apply IH. Qed.

(** X12.  [transformProperties(schemaBuilder, names)] on a simple object
    schema, for names that are properties: every named property becomes
    the choice between what it was and the schema of [schemaBuilder];
    the other properties, the order of the properties and every other
    keyword are kept. *)
Theorem transformProperties_spec (schemaBuilder : SchemaBuilder)
    (propertyNames : option (list string)) (this : SchemaBuilder) :
  isSimpleObjectSchema this = true ->
  well_typed (schemaObject this) = true ->
  let props := get "properties" (schemaObject this) in
  let names := match propertyNames with Some l => l | None => keys props end in
  NoDup names ->
  (forall k, k ∈ names -> has_key k props = true) ->
  (containsRef (schemaObject this) = false ->
   containsRef (schemaObject schemaBuilder) = false ->
   is_ok (transformProperties schemaBuilder propertyNames this) = true)
  /\ forall d, transformProperties schemaBuilder propertyNames this = Ok d ->
       keys (get "properties" (schemaObject d)) = keys props
       /\ (forall key, key <> "properties" ->
             get key (schemaObject d) = get key (schemaObject this))
       /\ forall k, get k (get "properties" (schemaObject d))
            = if bool_decide (k ∈ names)
              then VObj [("oneOf", VArr [get k props; schemaObject schemaBuilder])]
              else get k props.
Proof.
  intros Hsimple Hwt props names Hnd Hall.
  destruct (ensured_properties _ Hwt) as (ps & Hps & Hget & Hkeys & Hobj & Hfr).
  unfold transformProperties. rewrite Hsimple. cbn [negb]. rewrite !cloneJSON_id.
  assert (Hnames : names_or_all propertyNames (ensure_properties (schemaObject this))
                   = names).
  { subst names props. destruct propertyNames; simpl; [done|]. by rewrite Hps. }
  rewrite Hnames.
  set (step := fun (s : value) (property : string) => _).
  pose proof (fold_result_lift step names (ensure_properties (schemaObject this)))
    as Hlift.
  rewrite (rewrite_fold_ext
             (fun _ v => Ok (Some (VObj [("oneOf", VArr [v; schemaObject schemaBuilder])])))
             _ names _ (transform_step_rewrite (schemaObject schemaBuilder))) in Hlift.
  pose proof (rewrite_fold
    (fun _ v => Ok (Some (VObj [("oneOf", VArr [v; schemaObject schemaBuilder])])))
    names _ ps Hnd Hobj Hps) as Hfold.
  rewrite <- Hlift in Hfold.
  destruct Hfold as (_ & Hfr' & Href & ps' & Hps' & Hget' & Hkeys').
  split.
  - intros Hr Hrb. rewrite new_SchemaBuilder_ok; [done|].
    apply Href; [by apply containsRef_ensure_properties|].
    intros k v v' Hv [= <-]. simpl. by rewrite Hv, Hrb.
  - intros d Hd. built_by Hd. split; [|split].
    + rewrite Hps'. cbn [keys]. rewrite Hkeys'; [done|].
      intros k Hk. specialize (Hall k Hk).
      destruct (has_key k (VObj ps)) eqn:E; [done|].
      apply has_key_false in E. cbn [keys] in E. rewrite Hkeys in E.
      apply has_key_false in E. fold props in E. congruence.
    + intros key Hk.
      rewrite (frame_get _ _ _ key Hfr') by (by apply not_properties).
      by rewrite (frame_get _ _ _ key Hfr) by (by apply not_properties).
    + intros k. rewrite Hps', Hget', Hget. done.
Qed.

(** ** The statements at sample documents *)

Lemma addProperties_witness :
  addProperties s_n_and_either (fresh empty_object_schema VUndefined)
  = chain (map add_entry s_n_and_either) (fresh empty_object_schema VUndefined)
  /\ exists d,
       addProperties s_n_and_either (fresh empty_object_schema VUndefined) = Ok d
       /\ property_names d = ["s"; "n"; "v"]
       /\ get "v" (get "properties" (schemaObject d))
          = VObj [("anyOf", VArr [string_schema; integer_schema])]
       /\ requires "n" (schemaObject d) = false.
Proof.
  assert (Hnd : NoDup (map fst s_n_and_either)).
  { apply (bool_decide_unpack (NoDup ["s"; "n"; "v"])). vm_compute. exact I. }
  destruct (addProperties_is_chain_of_addProperty s_n_and_either
              (fresh empty_object_schema VUndefined) eq_refl eq_refl Hnd eq_refl)
    as [H _].
  destruct H as (Hchain & d & Hd & Hnames & Hin & _).
  - intros k _. reflexivity.
  - reflexivity.
  - repeat constructor.
  - discriminate.
  - split; [exact Hchain|]. exists d. split; [exact Hd|]. split; [exact Hnames|].
    split.
    + refine (proj1 (Hin "v" (Several [Some (fresh string_schema VUndefined);
                                         Some (fresh integer_schema VUndefined)]) _)).
      repeat constructor.
    + refine (proj2 (Hin "n" (Several [Some (fresh integer_schema VUndefined); None])
                       _)).
      repeat constructor.
Defined.

Lemma objectSchema_witness :
  exists e d o,
    emptySchema no_facets false = Ok e
    /\ chain (map add_entry s_n_and_either) e = Ok d
    /\ objectSchema no_facets s_n_and_either false = Ok o
    /\ (forall key, get key (schemaObject o) = get key (schemaObject d))
    /\ keys (get "properties" (schemaObject o)) = ["s"; "n"; "v"]
    /\ get "v" (get "properties" (schemaObject o))
       = VObj [("anyOf", VArr [string_schema; integer_schema])]
    /\ get "required" (schemaObject o) = VArr [VStr "s"; VStr "v"].
Proof.
  destruct (objectSchema_is_emptySchema_chain no_facets s_n_and_either false)
    as (e & d & o & He & Hd & Ho & Hkey & Hnames & Hin & Hreq).
  - split; [constructor|]. by repeat split.
  - apply (bool_decide_unpack (NoDup ["s"; "n"; "v"])). vm_compute. exact I.
  - reflexivity.
  - repeat constructor.
  - exists e, d, o. split; [exact He|]. split; [exact Hd|]. split; [exact Ho|].
    split; [exact Hkey|]. split; [exact Hnames|]. split; [|exact Hreq].
    refine (Hin "v" (Several [Some (fresh string_schema VUndefined);
                              Some (fresh integer_schema VUndefined)]) _).
    repeat constructor.
Defined.


Lemma transformPropertiesToArray_witness :
  exists d,
    transformPropertiesToArray (Some ["s"]) no_facets (fresh object_s_schema VUndefined)
    = Ok d
    /\ get "s" (get "properties" (schemaObject d))
       = array_alternative no_facets string_schema.
Proof.
  pose proof (transformPropertiesToArray_spec (Some ["s"]) no_facets
                (fresh object_s_schema VUndefined) eq_refl eq_refl) as H.
  cbv zeta in H. destruct H as (_ & Hok & Hd).
  { apply (bool_decide_unpack (NoDup ["s"])). vm_compute. exact I. }
  { reflexivity. }
  assert (Hnn : forall k, k ∈ ["s"] ->
            nullish (get k (get "properties"
                              (schemaObject (fresh object_s_schema VUndefined)))) = false).
  { intros k ->%list_elem_of_singleton. reflexivity. }
  specialize (Hok ltac:(by eexists) eq_refl eq_refl Hnn).
  destruct (transformPropertiesToArray _ _ _) as [d|] eqn:E; [|done].
  exists d. split; [done|]. destruct (Hd d eq_refl) as (_ & _ & Hg). exact (Hg "s").
Defined.

Lemma unwrapArrayProperties_witness :
  exists d,
    unwrapArrayProperties None (fresh object_l_schema VUndefined) = Ok d
    /\ get "l" (get "properties" (schemaObject d))
       = VObj [("oneOf", VArr [string_schema; string_list_schema])].
Proof.
  pose proof (unwrapArrayProperties_spec None
                (fresh object_l_schema VUndefined) eq_refl eq_refl) as H.
  cbv zeta in H. destruct H as (_ & Hok & Hd).
  { apply (bool_decide_unpack (NoDup ["l"])). vm_compute. exact I. }
  { reflexivity. }
  assert (Hnn : forall k, k ∈ ["l"] ->
            nullish (get k (get "properties"
                              (schemaObject (fresh object_l_schema VUndefined)))) = false).
  { intros k ->%list_elem_of_singleton. reflexivity. }
  specialize (Hok eq_refl Hnn).
  destruct (unwrapArrayProperties _ _) as [d|] eqn:E; [|done].
  exists d. split; [done|]. destruct (Hd d eq_refl) as (_ & _ & Hg). exact (Hg "l").
Defined.

Lemma toNullable_witness :
  exists d,
    toNullable (fresh optional_x_schema VUndefined) = Ok d
    /\ keys (get "properties" (schemaObject d)) = ["x"]
    /\ forall t, includes_str t (schemaType_of (get "x" (get "properties" (schemaObject d))))
                 = includes_str t (schemaType_of string_schema) || string_eqb t "null".
Proof.
  pose proof (toNullable_spec (fresh optional_x_schema VUndefined) eq_refl eq_refl) as H.
  cbv zeta in H. destruct H as (_ & Hok & Hd).
  { intros k. set (p := get "properties" _). vm_compute in p. subst p.
    cbn [get lookup_field default]. case_eqb k "x"; reflexivity. }
  assert (Hnp : forall k,
            has_key k (get "properties" (schemaObject (fresh optional_x_schema VUndefined)))
            && negb (requires k (schemaObject (fresh optional_x_schema VUndefined))) = true ->
            primitive (get k (get "properties"
                                (schemaObject (fresh optional_x_schema VUndefined)))) = false).
  { intros k Hk. destruct (decide (k = "x")) as [->|Hne]; [reflexivity|].
    exfalso. revert Hk. set (p := get "properties" _). vm_compute in p. subst p.
    cbn [has_key lookup_field]. by rewrite (proj2 (string_eqb_false _ _) Hne). }
  specialize (Hok eq_refl Hnp).
  destruct (toNullable _) as [d|] eqn:E; [|done].
  exists d. split; [done|]. destruct (Hd d eq_refl) as (Hk & _ & Hg).
  split; [exact Hk|].
  destruct (Hg "x") as (_ & _ & Hty). destruct (Hty eq_refl eq_refl) as (_ & _ & Ht & _).
  exact (Ht eq_refl).
Defined.

Lemma enumSchema_witness :
  exists d,
    enumSchema (VArr [VStr "a"; VStr "b"]) no_facets true = Ok d
    /\ get "enum" (schemaObject d) = VArr [VStr "a"; VStr "b"; VNull].
Proof.
  pose proof (enumSchema_spec (VArr [VStr "a"; VStr "b"]) no_facets true
                (NoDup_nil_2)) as H.
  cbv zeta in H. destruct H as (Hok & Hd). specialize (Hok eq_refl).
  destruct (enumSchema _ _ _) as [d|] eqn:E; [|done].
  exists d. split; [done|]. exact (proj1 (proj2 (Hd d eq_refl))).
Defined.

Lemma getSubschema_witness :
  getSubschema "s" (fresh object_s_schema VUndefined)
  = Ok (fresh string_schema VUndefined).
Proof.
  refine (proj1 (proj1 (getSubschema_after_addProperty "s"
                          (fresh string_schema VUndefined) None
                          (fresh empty_object_schema VUndefined)
                          (fresh object_s_schema VUndefined) eq_refl _) eq_refl)).
  vm_compute. reflexivity.
Defined.

Lemma getItemsSubschema_witness :
  getItemsSubschema (fresh string_list_schema VUndefined)
  = Ok (fresh string_schema VUndefined).
Proof.
  refine (getItemsSubschema_after_arraySchema (fresh string_schema VUndefined)
            no_facets false (fresh string_list_schema VUndefined) _).
  vm_compute. reflexivity.
Defined.

Lemma transformProperties_witness :
  exists d,
    transformProperties (fresh integer_schema VUndefined) (Some ["s"])
      (fresh object_s_schema VUndefined) = Ok d
    /\ get "s" (get "properties" (schemaObject d))
       = VObj [("oneOf", VArr [string_schema; integer_schema])].
Proof.
  pose proof (transformProperties_spec (fresh integer_schema VUndefined) (Some ["s"])
                (fresh object_s_schema VUndefined) eq_refl eq_refl) as H.
  cbv zeta in H. destruct H as (Hok & Hd).
  { apply (bool_decide_unpack (NoDup ["s"])). vm_compute. exact I. }
  { intros k ->%list_elem_of_singleton. reflexivity. }
  specialize (Hok eq_refl eq_refl).
  destruct (transformProperties _ _ _) as [d|] eqn:E; [|done].
  exists d. split; [done|]. destruct (Hd d eq_refl) as (_ & _ & Hg). exact (Hg "s").
Defined.

(** ** Combining documents without a common property *)

Lemma absent_step_properties s2 s x ps :
  is_obj s -> get "properties" s = VObj ps ->
  is_obj (absent_step s2 s x)
  /\ get "properties" (absent_step s2 s x)
     = VObj (set_field x (get x (get "properties" s2)) ps).
Proof.
  intros Hs Hps. unfold absent_step.
  assert (H1 : is_obj (set_property x (get x (get "properties" s2)) s))
    by by apply is_obj_set.
  pose proof (get_properties_set_property x (get x (get "properties" s2)) s ps Hs Hps)
    as H2.
  destruct (requires x s2); [|done].
  split; [by apply is_obj_push_required|]. by rewrite get_push_required_obj.
Qed.

Section Absent.

Variable step : value -> value -> string -> value.
Hypothesis step_absent : forall s2 s x,
  has_key x (get "properties" s) = false -> step s2 s x = absent_step s2 s x.

Lemma fold_absent s2 L : forall s ps,
  NoDup L -> is_obj s -> get "properties" s = VObj ps ->
  (forall k, k ∈ L -> lookup_field k ps = None) ->
  fold_left (step s2) L s = fold_left (absent_step s2) L s
  /\ keys (get "properties" (fold_left (absent_step s2) L s)) = map fst ps ++ L.
Proof.
  induction L as [|x L IH]; intros s ps Hnd Hs Hps Hfresh.
  - simpl. by rewrite Hps, app_nil_r.
  - apply NoDup_cons in Hnd as [Hx Hnd]. cbn [fold_left].
    assert (Hxs : has_key x (get "properties" s) = false).
    { rewrite Hps. simpl. rewrite (Hfresh x) by left. done. }
    rewrite (step_absent s2 s x Hxs).
    destruct (absent_step_properties s2 s x ps Hs Hps) as [Hs' Hps'].
    destruct (IH _ _ Hnd Hs' Hps') as [-> Hk].
    + intros k Hk. rewrite lookup_set_field.
      rewrite (proj2 (string_eqb_false k x)) by (by intros ->).
      apply Hfresh. by right.
    + split; [done|]. rewrite Hk, keys_set_field_fresh by (apply Hfresh; by left).
      by rewrite <- app_assoc.
Qed.

End Absent.

Lemma merge_step_absent s2 s x :
  has_key x (get "properties" s) = false -> merge_step s2 s x = absent_step s2 s x.
Proof. intros H. unfold merge_step, absent_step. by rewrite H. Qed.

Lemma intersect_step_absent s2 s x :
  has_key x (get "properties" s) = false -> intersect_step s2 s x = absent_step s2 s x.
Proof. intros H. unfold intersect_step, absent_step. by rewrite H. Qed.

Lemma overwrite_step_absent s2 s x :
  has_key x (get "properties" s) = false -> overwrite_step s2 s x = absent_step s2 s x.
Proof. intros H. unfold overwrite_step, absent_step. by rewrite H. Qed.

(** X26.  Where the two documents have no property name in common, and
    no property of the other one bears a name of [Object.prototype] or a
    name written with digits only, [mergeProperties],
    [intersectProperties] and [overwriteProperties] return the same: the
    properties of the document followed by those of the other one, each
    as it was. *)
Theorem combining_without_common_property (schema this : SchemaBuilder) :
  isSimpleObjectSchema this = true ->
  well_typed (schemaObject this) = true ->
  well_typed (schemaObject schema) = true ->
  (forall k, has_key k (get "properties" (schemaObject schema)) = true ->
             has_key k (get "properties" (schemaObject this)) = false) ->
  all_plain (property_names schema) = true ->
  mergeProperties schema this = intersectProperties schema this
  /\ overwriteProperties schema this = intersectProperties schema this
  /\ forall d, intersectProperties schema this = Ok d ->
       property_names d = property_names this ++ property_names schema
       /\ forall k, get k (get "properties" (schemaObject d))
            = if has_key k (get "properties" (schemaObject schema))
              then get k (get "properties" (schemaObject schema))
              else get k (get "properties" (schemaObject this)).
Proof.
  intros Hsimple Hwt1 Hwt2 Hdisj _.
  pose proof (well_typed_spec _ Hwt1) as Hty1.
  pose proof (well_typed_spec _ Hwt2) as (Hobj2 & Hp2 & _).
  destruct (ensure_properties_typed _ Hty1)
    as (fs & ps & Hens & Hprops & Hndps & Hkeys & Hget & Hhas & Hother).
  unfold mergeProperties, intersectProperties, overwriteProperties, combine_schemas.
  rewrite Hsimple, !cloneJSON_id. cbn [negb].
  destruct Hp2 as [Hu|(qs & Hq & Hndq)].
  { rewrite Hu. cbn [truthy]. split; [done|]. split; [done|].
    intros d Hd. unfold property_names. built_by Hd. rewrite Hu.
    cbn [keys]. rewrite app_nil_r. by split. }
  rewrite Hq. cbn [truthy keys].
  assert (Hfresh : forall k, k ∈ map fst qs -> lookup_field k ps = None).
  { intros k Hk.
    assert (Hkq : has_key k (get "properties" (schemaObject schema)) = true).
    { rewrite Hq. by apply has_key_keys. }
    specialize (Hdisj k Hkq). rewrite <- Hhas in Hdisj.
    simpl in Hdisj. destruct (lookup_field k ps); [|done].
    by rewrite bool_decide_true in Hdisj. }
  assert (Hs0 : is_obj (ensure_properties (schemaObject this)))
    by (rewrite Hens; by eexists).
  assert (Hp0 : get "properties" (ensure_properties (schemaObject this)) = VObj ps)
    by by rewrite Hens.
  destruct (fold_absent merge_step merge_step_absent (schemaObject schema)
              (map fst qs) _ ps Hndq Hs0 Hp0 Hfresh) as [-> Hk].
  destruct (fold_absent intersect_step intersect_step_absent (schemaObject schema)
              (map fst qs) _ ps Hndq Hs0 Hp0 Hfresh) as [-> _].
  destruct (fold_absent overwrite_step overwrite_step_absent (schemaObject schema)
              (map fst qs) _ ps Hndq Hs0 Hp0 Hfresh) as [-> _].
  split; [done|]. split; [done|].
  intros d Hd. unfold property_names. built_by Hd. split.
  - by rewrite Hk, Hkeys, Hq.
  - intros k. clear Hk Hd.
    assert (Hgen : forall L s ps0,
      NoDup L -> is_obj s -> get "properties" s = VObj ps0 ->
      get k (get "properties" (fold_left (absent_step (schemaObject schema)) L s))
      = if bool_decide (k ∈ L) then get k (get "properties" (schemaObject schema))
        else get k (VObj ps0)).
    { induction L as [|x L IH]; intros s ps0 Hnd Hs Hps0.
      - simpl. by rewrite Hps0.
      - apply NoDup_cons in Hnd as [Hx Hnd]. cbn [fold_left].
        destruct (absent_step_properties (schemaObject schema) s x ps0 Hs Hps0)
          as [Hs' Hps'].
        rewrite (IH _ _ Hnd Hs' Hps').
        destruct (decide (k = x)) as [->|Hne].
        + rewrite bool_decide_false by done. rewrite bool_decide_true by left.
          simpl. by rewrite lookup_set_field, string_eqb_refl.
        + rewrite (bool_decide_ext (k ∈ x :: L) (k ∈ L))
            by (rewrite elem_of_cons; split; [by intros [?|?]|by right]).
          destruct (bool_decide (k ∈ L)); [done|].
          simpl. by rewrite lookup_set_field, (proj2 (string_eqb_false _ _) Hne). }
    rewrite (Hgen _ _ ps Hndq Hs0 Hp0), Hget.
    rewrite Hq.
    assert (bool_decide (k ∈ map fst qs) = has_key k (VObj qs)) as ->; [|done].
    destruct (has_key k (VObj qs)) eqn:E.
    + apply bool_decide_eq_true. by apply (has_key_keys k (VObj qs)).
    + apply bool_decide_eq_false. by apply (has_key_false k (VObj qs)).
Qed.

Lemma combining_without_common_property_witness :
  mergeProperties (fresh optional_x_schema VUndefined) (fresh object_s_schema VUndefined)
  = intersectProperties (fresh optional_x_schema VUndefined)
      (fresh object_s_schema VUndefined)
  /\ overwriteProperties (fresh optional_x_schema VUndefined)
       (fresh object_s_schema VUndefined)
     = intersectProperties (fresh optional_x_schema VUndefined)
         (fresh object_s_schema VUndefined).
Proof.
  destruct (combining_without_common_property (fresh optional_x_schema VUndefined)
              (fresh object_s_schema VUndefined) eq_refl eq_refl eq_refl)
    as (H1 & H2 & _); [|reflexivity|by split].
  intros k. set (p := get "properties" (schemaObject (fresh optional_x_schema _))).
  vm_compute in p. subst p.
  set (q := get "properties" (schemaObject (fresh object_s_schema _))).
  vm_compute in q. subst q. cbn [has_key lookup_field].
  case_eqb k "x"; [|done]. subst. intros _. reflexivity.
Defined.

(** ** [parseList] and numbers written as strings *)



(** ** What [parseList] raises *)

Lemma transformListForValidation_no_dates xs :
  forallb no_dates xs = true -> transformListForValidation xs = Ok xs.
Proof.
  intros H. pose proof (transformDatesForValidation_no_dates (VArr xs) H) as Ht.
  rewrite transformDatesForValidation_arr in Ht.
  destruct (transformListForValidation xs); [|done].
  cbn [mbind result_bind bind] in Ht. congruence.
Qed.

(** X28.  [parseList], where the engine compiles the list schema: on
    [undefined] it raises a [SyntaxError]; on data that is not a list it
    raises a [TypeError]; in both cases nothing is compiled and the
    instance is as it was.  On a list it returns or raises the
    validation error, whatever the items hold. *)
Theorem parseList_raises
    (compile : Ajv -> value -> ValidateFunction)
    (g : Global) (dataList : value) (this : SchemaBuilder) :
  match dataList with
  | VUndefined =>
      parseList compile g dataList this
      = {| self := this; compilations := [];
           returned := Throw (JSError "SyntaxError") |}
  | VArr _ =>
      ok_or_validation_error (returned (parseList compile g dataList this)) = true
  | _ =>
      parseList compile g dataList this
      = {| self := this; compilations := [];
           returned := Throw (JSError "TypeError") |}
  end.
Proof.
  destruct dataList as [| |b|n|s|t|xs|fs]; try done.
  - unfold parseList, json_copy. cbn [json_of]. by destruct (Number_isFinite n).
  - unfold parseList, json_copy. cbn [json_of]. by destruct (toISOString t).
  - unfold parseList, json_copy. cbn [json_of returned].
    set (copy := map (fun x => default VNull (json_of x)) xs).
    assert (Hnd : forallb no_dates copy = true).
    { apply (json_of_no_dates (VArr xs) (VArr copy) eq_refl). }
    unfold validateList. rewrite (transformListForValidation_no_dates _ Hnd).
    rewrite (surjective_pairing (cacheListValidationFunction compile g this)).
    cbn [returned].
    destruct (cacheListValidationFunction_current compile g this) as [Hf _].
    destruct (listValidationFunction _) as [f|]; [|done].
    unfold ok_or_validation_error, run_validation.
    by destruct (f (VArr copy)).
Qed.
